(* ===== verification/_CoqProject ===== *)
-Q . S2P
Prelude.v
DeepCopy.v
CopyCore.v
CopyAddons.v
CopyBuilds.v
CopyRegistry.v
CopyStorage.v
CopyUsers.v
Copies.v
Kube.v
Objects.v
Apimachinery.v
Api.v
StackAggregate.v
StackController.v
Verdicts.v
StatusDerive.v
PortCheck.v
Text.v
Paths.v
Pass.v
Builds.v
Storage.v
KubeWorkloads.v
Kaniko.v
PodSpecs.v
Crash.v
Readiness.v
Samples.v
Workloads.v
Dependencies.v
Rollout.v
Registries.v
Zot.v
RegistryRef.v
ImageBuildStep.v
RegistryAuth.v
NodeConfig.v
NodeConfigOutcome.v
ImageBuildController.v
ImageBuildLifecycle.v
ImageBuildOutcome.v
VolumeJobs.v
VolumeController.v
VolumeOutcome.v
RegistryController.v
RegistryOutcome.v
Users.v
UserOutcome.v
IngressTls.v
ObjectStorage.v
ObjectStorageOutcome.v
Nfs.v
Provisioner.v
NfsOutcome.v
Tls.v
Svc.v
NetworkOutcome.v
StackStorage.v
StackStorageOutcome.v
ClusterInfo.v
ErrorPages.v
Postgres.v
PostgresController.v
PostgresSamples.v
PostgresOutcome.v
PostgresSteps.v
StackResourceController.v
Agent.v
