(* ===== verification/Prelude.v ===== *)
(** * The Stackdome cluster agent

    A Kubernetes operator.  Each of its controllers reads an object and its
    surroundings from the API server, decides what should be there, writes it, and
    reports on the object's status; the API server calls it again whenever
    something it watches changes.  This development models the controllers' code
    as functions on an explicit outside world and proves what they decide, what
    they write and what their reports can be trusted to mean.

    ** The program, and the files that model it

    Foundations.
    - Prelude: record update, the error values of the code ([error_text],
      [is_not_found]), the state-and-error monad [SE], the Hoare rules [post] and
      the invariant rules [Inv] over it, what a run did in which order ([chain]) and
      which calls it made ([via]), machine integers, time, sorting, lists.
    - Text, Paths: the parts of Go's strings, regexp and path/filepath packages
      the names and paths of the program go through.
    - Kube: object metadata, conditions, and the API client as type classes.
      Apimachinery: an instance of the helper classes, written from their
      documentation, that shows their laws can hold.
    - Api, Builds, Storage, Registries (api/<group>/v1alpha1): the custom
      resources.  KubeWorkloads: the Kubernetes objects the agent makes.
    - Samples: a small outside world for the witnesses.
    - DeepCopy: Go values in an explicit memory (pointers, slices, maps, structs),
      the statements the generator of deep copies emits, and what copying means:
      an equal value within whose reach nothing of the original lies.  CopyCore,
      CopyAddons, CopyBuilds, CopyRegistry, CopyStorage, CopyUsers
      (api/<group>/v1alpha1/zz_generated.deepcopy.go): every Go type of the API and
      its generated functions; Copies: all of them together.

    One Stack (internal/controller/stack).
    - StackAggregate (aggregate.go): what the children's statuses add up to.
    - StackController (stack_controller.go): adoption of children, one pass.

    One StackResource (internal/controller/stackresource).
    - Verdicts (verdict.go, subreconciler.go), Pass: the verdicts the steps of a
      pass report, and the state a pass threads through its steps.
    - StatusDerive (status_derive.go): the only writer of the summary status.
    - RegistryRef, RegistryAuth (pkg/registry, registry_auth_reconciler.go):
      where an image lives and with which credentials; step one.
    - ImageBuildStep (image_build_reconciler.go): the build a revision needs;
      step two.
    - PodSpecs, Crash, PortCheck, Readiness, Workloads, Dependencies (workload/,
      pkg/portcheck, util.go, workload_dependency_checker.go): pod templates,
      crash reports, the port verifier and its verdicts, the four kinds of
      workload and the gates before them; step three.  Rollout: the resources of a
      stack waiting for one another, as a step relation.
    - IngressTls, Tls, Svc (pkg/ingresstls, cert_stage.go,
      referenced_tls_secret.go, tls_secret_watch.go, svc_reconciler.go): services,
      routes and certificates; step four.  NetworkOutcome: what it guarantees.
    - StackResourceController (stackresource_controller.go): the chain of the four
      steps, and one pass.

    Builds and volumes.
    - Objects: a pass over one object, for the controllers below.
    - Kaniko (pkg/imagebuilder): the build Job.  ImageBuildController
      (internal/controller/imagebuild, pkg/registry/delete.go): its operations;
      ImageBuildLifecycle, ImageBuildOutcome: what they guarantee.
    - VolumeJobs (pkg/gitsync, pkg/volumesync): the Jobs that fill a volume.
      VolumeController (internal/controller/volume): its operations;
      VolumeOutcome: what they guarantee.

    Registries (internal/controller/registry, pkg/registry/zotregistry).
    - Zot (types.go, zot_registry.go, zot_config.go): the interface of the builder
      of a registry's objects, and its zot implementation.
    - RegistryController (registry_controller.go): its operations;
      RegistryOutcome: what they guarantee for any builder that keeps its laws.

    Users and their storage.
    - Users (internal/controller/workspaceuser, user_types.go): the namespaces,
      roles and key of a user; UserOutcome: what a pass guarantees.
    - ObjectStorage (internal/controller/objectstorage): the volume, credentials,
      server, address and buckets of an object storage; ObjectStorageOutcome.
    - Nfs (internal/controller/nfsserver), Provisioner (pkg/rwmany_provisioner):
      the NFS servers and the volumes made on their exports; NfsOutcome.
    - StackStorage (internal/controller/stackstorage, storage_types.go): the
      volumes of a stack behind an SSH server; StackStorageOutcome.  The manager
      does not register this controller.
    - Postgres (api/addons/v1alpha1/postgrescluster_types.go,
      pg_cluster_reconciler.go): the resource, and its translation into objects of
      the CloudNativePG operator.  PostgresController
      (internal/controller/addons/postgrescluster, pkg/database): the five steps
      of a pass.  PostgresOutcome: what a pass says; PostgresSteps: what the
      database and backup steps do; PostgresSamples: a world for the witnesses.

    The cluster and its nodes.
    - NodeConfig (cmd/containerd-config-reconciler): the configurator that runs on
      every node, over an explicit node whose file system calls can fail at any
      point; NodeConfigOutcome: what it guarantees.
    - ClusterInfo (internal/controller/clusterinfo, clusterinfo_types.go): the
      description of the cluster.
    - ErrorPages (internal/errorpages): the answers to the proxy.
    - Agent (cmd/cluster-agent, pkg/config): the process, its flags, what it sets up
      in which order, and the settings the controllers are deployed with.

    A definition keeps the name of the Go function, method or type it translates.
    A Go method with a pointer receiver, or a function that assigns through a
    pointer, is a function from the old value to the new one, or a computation in
    [SE].  The state of a computation survives its error, as assignments made
    through pointers do in Go; a run-time panic is the error [Panic], which no
    error handling of the modelled code sees.

    ** How the parts meet

    A Stack aggregates what its StackResources report; a StackResource's gates
    read other StackResources and the Volumes it mounts; its build step makes
    ImageBuilds, whose controller makes Jobs; a Volume's controller copies out of
    built images.  The steps of one StackResource pass meet in a contract,
    [StepOk] in StackResourceController: a step either halts the chain with a
    verdict or has established the conditions it is responsible for, and never
    disturbs those of another.  Each step's file proves its own half, and the
    whole-pass theorems use nothing else of a step.

    ** What the theorems show

    - Truthful status: [ready_needs_complete_pass], [derive_then_aggregate],
      [stack_phase_table], [derived_status_table],
      [workspace_user_ready], [object_storage_pass_spec],
      [stack_storage_pass_spec], [nfs_status_writes], [postgres_pass_spec],
      [database_step_spec], [build_job_outcome], [cluster_info_refresh]: Ready, Converged and
      the phases mean that a whole pass succeeded for the current generation and revision.
    - Never silent: [workload_never_silent], [build_step_outcome],
      [network_step_spec], [registry_pass_spec], [certificate_stage_spec]:
      where a step stops, it says why.
    - Quiescence: [stack_resource_quiescent], [stack_reconcile_quiescent],
      [job_runs_once_per_revision], [node_config_settles]: a pass that finds nothing
      new writes nothing.
    - Footprints: [build_step_footprint], [build_controller_footprint],
      [image_removed_before_finalizer], [registry_finalizer_last],
      [retention_spec], [stack_reconcile_ownership], [user_footprint],
      [provisioned_directory_reclaimed], [credential_rotation_once],
      [config_edit_spec], [database_footprint]: what can be created, deleted or overwritten,
      and in which order.
    - Gates: [gates_hold_back], [dependency_gate], [rollout_settles],
      [git_volume_served], [artifact_volume_never_ready]: who waits for whom.
    - The port verifier as a concurrent system: [verifier_single_flight],
      [verifier_drains], [verifier_contract], and the meaning of its answers,
      [port_verdict_sound].
    - Nothing owed is forgotten: [reload_never_lost], [backup_request_answered].
    - State machines: [build_lifecycle] by induction on the steps of a build's
      life, and the verifier's invariant by induction on its transitions.
    - Objects in memory: [deep_copy_independent].  The controllers' models take an
      object as a value; a pass works on a copy of what the cache holds, and the
      theorem says that such a copy is a value of its own.
    - The deployed agent: [agent_startup], [deployed_retention] (the general
      [retention_spec] with the settings of the process).
    - Pure routines against their specifications: [routes_partition],
      [external_addresses_spec], [pod_template_well_formed],
      [dockerfile_rebase_roundtrip], [htpasswd_roundtrip],
      [bootstrap_source_declared], [error_page_answers].

    Some theorems state what the code does where it does not do what it means to:
    [artifact_volume_never_ready], [external_addresses_spec], [dependency_gate],
    [htpasswd_roundtrip], [nfs_status_writes], [stack_storage_pass_spec],
    [reload_never_lost], [postgres_pass_spec], [database_footprint],
    [database_step_spec], [agent_startup], [deployed_retention].

    ** Parameters

    Code outside the repository is a type class: the API client per kind of object
    ([Kind]), [CreateOrUpdate], the clock, owner references, finalizers and
    condition helpers, URL, YAML, JSON, TOML and base64 codecs, digests, quantities,
    the cron parser, the constants of the CloudNativePG operator, [database/sql], the image registry, the
    S3 API, random bytes, the types of other modules and their deep copies, commands run in a pod, the manager, the network a port is dialled over, and the order in which Go walks a map or sorts
    equal keys.  The client's calls may fail and may find a world others have
    changed.  Classes named [...Laws] state the documented behaviour a theorem
    relies on; each has an instance.  The glob matching of zot is an argument of the
    retention theorems.

    ** Bounds and termination

    The controllers' loops run over finite lists and are structural.  Those that
    are not take fuel or have a measure: [strip_runes] (Text) and [strip_ansi]
    (Crash) get the length of their argument, which shrinks by at least a byte each
    time, as does [fields] (NodeConfig); the drain argument of the port verifier has a measure.  Time is in nanoseconds with Go's
    saturating subtraction, int32 and int64 arithmetic wraps; the theorems on
    timeouts state the range they hold in.

    ** Not modelled

    Logging, metrics, events, watches and predicates that only decide when a pass
    is started (except the Secret and Volume mappings), and contexts' deadlines.
    Objects carry the fields the agent reads or writes.  Concurrent passes over
    different objects interleave at API calls, which the clients' freedom to
    observe any world accounts for; passes over one object do not overlap, as
    controller-runtime guarantees.  The embedded error pages are a parameter, and
    the life of the servers and of the configurator's ticker is not modelled.  Left
    out: mocks, build scripts, test support, the transport of commands into pods
    (pkg/execute), and the parsing of flags.  In memory, a slice shows the whole of
    its array and a map is the list of its entries in the order a loop meets them;
    the generated functions never look at either more closely. *)
From stdpp Require Export base tactics strings list gmap sorting pretty.
From Stdlib Require Export ZArith Lia.
From Stdlib Require Import Ascii.

(** * Record update

    [r <| f := v |>] and [r <| f ::= g |>] stand for the Go assignments
    [r.f = v] and [r.f = g(r.f)] on a struct value.  A record type opts in with
    an [Eta] instance, its eta-expansion. *)

Class Eta (R : Type) := eta_expand : R → R.
Class Field {R T : Type} (f : R → T) := modify : (T → T) → R → R.
Arguments modify {R T f Field} g r /.

Ltac solve_field f :=
  let R := match type of f with ?R → _ => R end in
  let inst := constr:(_ : Eta R) in
  let body := eval hnf in inst in
  let abstracted := eval pattern f in body in
  lazymatch abstracted with
  | ?F _ =>
      let upd := constr:(λ (u : _ → _) (r : R), F (λ r', u (f r')) r) in
      let upd := eval cbv beta in upd in
      exact upd
  end.

#[export] Hint Extern 0 (Field ?f) => solve_field f : typeclass_instances.

Declare Scope go_scope.
Delimit Scope go_scope with go.
Notation "r <| f := v |>" := (modify (f:=f) (λ _, v) r)
  (at level 1, left associativity) : go_scope.
Notation "r <| f ::= g |>" := (modify (f:=f) g r)
  (at level 1, left associativity) : go_scope.
Open Scope go_scope.

(** * Errors and fallible, stateful code

    [error] is the Go [error] interface as this program uses it: the API
    error classes the code tells apart, and the two ways it builds its own.
    [Wrapf p e] is [fmt.Errorf("p%w", e)], which keeps [e] visible to
    [errors.Is] and [errors.As]; [Errorf] formats with [%v] and does not.
    [Panic] is not an error value of the program but a run-time panic, such as
    a nil dereference: no error handling sees it. *)

Inductive error :=
  | NotFound (msg : string)
  | AlreadyExists (msg : string)
  | ApiError (msg : string)
  | Errorf (msg : string)
  | Wrapf (prefix : string) (e : error)
  | RegistryNotReady
  | Panic (msg : string).

(** [err.Error()]. *)
Fixpoint error_text (e : error) : string :=
  match e with
  | NotFound m | AlreadyExists m | ApiError m | Errorf m | Panic m => m
  | Wrapf p e => p +:+ error_text e
  | RegistryNotReady => "cluster registry not ready"
  end.

(** [apierrors.IsNotFound], which looks through wrapped errors. *)
Fixpoint is_not_found (e : error) : bool :=
  match e with
  | NotFound _ => true
  | Wrapf _ e => is_not_found e
  | _ => false
  end.

(** [apierrors.IsAlreadyExists]. *)
Fixpoint is_already_exists (e : error) : bool :=
  match e with
  | AlreadyExists _ => true
  | Wrapf _ e => is_already_exists e
  | _ => false
  end.

(** [errors.Is(err, registry.ErrRegistryNotReady)]. *)
Fixpoint is_registry_not_ready (e : error) : bool :=
  match e with
  | RegistryNotReady => true
  | Wrapf _ e => is_registry_not_ready e
  | _ => false
  end.

Inductive result (A : Type) :=
  | Ok (a : A)
  | Err (e : error).
Arguments Ok {A} a.
Arguments Err {A} e.

#[export] Instance error_eq_dec : EqDecision error.
Proof. solve_decision. Defined.
#[export] Instance result_eq_dec `{EqDecision A} : EqDecision (result A).
Proof. solve_decision. Defined.

#[export] Instance result_ret : MRet result := @Ok.
#[export] Instance result_bind : MBind result := λ A B k r,
  match r with Ok a => k a | Err e => Err e end.

(** A computation over a mutable state that can fail.  The state survives an
    error: Go code that has already assigned through a pointer when it returns
    an error has changed the object all the same. *)
Definition SE (S A : Type) : Type := S → result A * S.

#[export] Instance se_ret S : MRet (SE S) := λ A a s, (Ok a, s).
#[export] Instance se_bind S : MBind (SE S) := λ A B k m s,
  match m s with
  | (Ok a, s') => k a s'
  | (Err e, s') => (Err e, s')
  end.

Definition fail {S A} (e : error) : SE S A := λ s, (Err e, s).

(** [x, err := m]: run [m] and hand its error to the code that inspects it. *)
Definition attempt {S A} (m : SE S A) : SE S (result A) := λ s,
  match m s with
  | (Err (Panic p), s') => (Err (Panic p), s')
  | (r, s') => (Ok r, s')
  end.

Definition gets {S A} (f : S → A) : SE S A := λ s, (Ok (f s), s).
Definition modifies {S} (f : S → S) : SE S unit := λ s, (Ok tt, f s).
Definition of_result {S A} (r : result A) : SE S A := λ s, (r, s).

(** [if err := m; client.IgnoreNotFound(err) != nil]. *)
Definition ignore_not_found {S} (m : SE S unit) : SE S unit :=
  r ← attempt m;
  match r with
  | Ok _ => mret tt
  | Err e => if is_not_found e then mret tt else fail e
  end.

(** [if err := m; err != nil { return fmt.Errorf("p%w", err) }]. *)
Definition wrapping {S A} (p : string) (m : SE S A) : SE S A :=
  r ← attempt m;
  match r with
  | Ok a => mret a
  | Err e => fail (Wrapf p e)
  end.

(** Run a computation on one component of a larger state. *)
Definition zoom {S T A} (get : S → T) (put : T → S → S) (m : SE T A) : SE S A := λ s,
  let '(r, t) := m (get s) in (r, put t s).

Lemma se_bind_ok {S A B} (m : SE S A) (k : A → SE S B) s a s' :
  m s = (Ok a, s') → (m ≫= k) s = k a s'.
Proof. intros H. unfold mbind, se_bind. by rewrite H. Qed.

Lemma se_bind_err {S A B} (m : SE S A) (k : A → SE S B) s e s' :
  m s = (Err e, s') → (m ≫= k) s = (Err e, s').
Proof. intros H. unfold mbind, se_bind. by rewrite H. Qed.

Lemma se_bind_inv {S A B} (m : SE S A) (k : A → SE S B) s b s' :
  (m ≫= k) s = (Ok b, s') → ∃ a s1, m s = (Ok a, s1) ∧ k a s1 = (Ok b, s').
Proof. unfold mbind, se_bind. destruct (m s) as [[a|e] s1]; naive_solver. Qed.

(** Run the first call of a sequence, whose outcome [tac] proves. *)
Tactic Notation "se_step" "by" tactic3(tac) := erewrite se_bind_ok by tac; cbv beta iota.

Lemma attempt_ok {S A} (m : SE S A) s a s' : m s = (Ok a, s') → attempt m s = (Ok (Ok a), s').
Proof. intros H. unfold attempt. by rewrite H. Qed.

Lemma attempt_err {S A} (m : SE S A) s e s' :
  m s = (Err e, s') → (∀ p, e ≠ Panic p) → attempt m s = (Ok (Err e), s').
Proof. intros H He. unfold attempt. rewrite H. destruct e; naive_solver. Qed.

Lemma attempt_inv {S A} (m : SE S A) s r s' : attempt m s = (Ok r, s') → m s = (r, s').
Proof. unfold attempt. destruct (m s) as [[a|[]] s1]; naive_solver. Qed.

Lemma wrapping_ok {S A} p (m : SE S A) s a s' : wrapping p m s = (Ok a, s') → m s = (Ok a, s').
Proof.
  unfold wrapping. intros (r & s1 & Hr%attempt_inv & Ha)%se_bind_inv. destruct r; [by injection Ha as <- <-|discriminate Ha].
Qed.

(** * Reasoning about what a computation leaves behind

    [post m Q s]: if [m] runs from [s] without an error, [Q] holds of its answer
    and final state.  The rules below decompose a program; [vcg] applies them. *)

Definition post {S A} (m : SE S A) (Q : A → S → Prop) (s : S) : Prop :=
  ∀ a s', m s = (Ok a, s') → Q a s'.

Lemma post_bind {S A B} (m : SE S A) (k : A → SE S B) Q s :
  post m (λ a, post (k a) Q) s → post (m ≫= k) Q s.
Proof. intros Hm b s' (a & s1 & Ha & Hk)%se_bind_inv. by eapply Hm. Qed.

Lemma post_ret {S A} (a : A) Q (s : S) : Q a s → post (mret a) Q s.
Proof. by intros HQ b s' [= <- <-]. Qed.

Lemma post_fail {S A} e (Q : A → S → Prop) s : post (fail e) Q s.
Proof. by intros a s' H. Qed.

Lemma post_gets {S A} (f : S → A) Q s : Q (f s) s → post (gets f) Q s.
Proof. by intros HQ a s' [= <- <-]. Qed.

Lemma post_modifies {S} (f : S → S) Q s : Q tt (f s) → post (modifies f) Q s.
Proof. by intros HQ a s' [= <- <-]. Qed.

Lemma post_of_result {S A} (r : result A) Q (s : S) :
  (∀ a, r = Ok a → Q a s) → post (of_result r) Q s.
Proof. intros HQ a s' [= -> <-]. by apply HQ. Qed.

Lemma post_mono {S A} (m : SE S A) (P Q : A → S → Prop) s :
  post m P s → (∀ a s', P a s' → Q a s') → post m Q s.
Proof. intros Hm HPQ a s' H. by apply HPQ, Hm. Qed.

Lemma post_wrapping {S A} pre (m : SE S A) Q s : post m Q s → post (wrapping pre m) Q s.
Proof.
  intros Hm. apply post_bind. intros r s1 H%attempt_inv. destruct r as [a|e]; [|apply post_fail].
  by apply post_ret, Hm.
Qed.

(** * Invariants of the state, whatever the outcome

    [Inv I m]: [m] takes states that satisfy [I] to states that satisfy [I], also
    when it ends in an error. *)

Definition Inv {S A} (I : S → Prop) (m : SE S A) : Prop := ∀ s, I s → I (m s).2.

Section invariants.
Context {S : Type} (I : S → Prop).

Lemma inv_bind {A B} (m : SE S A) (k : A → SE S B) :
  Inv I m → (∀ a, (∃ s s', m s = (Ok a, s')) → Inv I (k a)) → Inv I (m ≫= k).
Proof.
  intros Hm Hk s Hs. specialize (Hm s Hs). cbv [mbind se_bind].
  destruct (m s) as [[a|e] s'] eqn:E; [|done]. apply Hk; eauto.
Qed.
Lemma inv_ret {A} (a : A) : Inv I (mret a).
Proof. by intros s. Qed.
Lemma inv_fail {A} e : Inv I (fail (A:=A) e).
Proof. by intros s. Qed.
Lemma inv_gets {A} (f : S → A) : Inv I (gets f).
Proof. by intros s. Qed.
Lemma inv_of_result {A} (r : result A) : Inv I (of_result r).
Proof. by intros s. Qed.
Lemma inv_attempt {A} (m : SE S A) : Inv I m → Inv I (attempt m).
Proof.
  intros Hm s Hs. specialize (Hm s Hs). unfold attempt. by destruct (m s) as [[a|[]] s'].
Qed.
Lemma inv_wrapping {A} pre (m : SE S A) : Inv I m → Inv I (wrapping pre m).
Proof.
  intros Hm. apply inv_bind; [by apply inv_attempt|]. intros [a|e] _; [apply inv_ret|apply inv_fail].
Qed.
Lemma inv_ignore_not_found (m : SE S unit) : Inv I m → Inv I (ignore_not_found m).
Proof.
  intros Hm. apply inv_bind; [by apply inv_attempt|]. intros [a|e] _; [apply inv_ret|].
  destruct (is_not_found e); [apply inv_ret|apply inv_fail].
Qed.
End invariants.

Create HintDb inv discriminated.
#[export] Hint Resolve inv_ret inv_fail inv_gets inv_of_result inv_attempt inv_wrapping
  inv_ignore_not_found : inv.

(** * The first element of a list *)

Definition firstOf {A} (P : A → Prop) (l : list A) (x : A) : Prop :=
  ∃ i, l !! i = Some x ∧ P x ∧ ∀ j y, l !! j = Some y → j < i → ¬ P y.

Lemma firstOf_unique {A} (P : A → Prop) l x y : firstOf P l x → firstOf P l y → x = y.
Proof.
  intros (i & Hi & Px & HI) (j & Hj & Py & HJ).
  destruct (Nat.lt_trichotomy i j) as [Hl|[->|Hl]]; [by destruct (HJ _ _ Hi Hl)|congruence|by destruct (HI _ _ Hj Hl)].
Qed.
Lemma find_firstOf {A} (P : A → Prop) `{∀ x, Decision (P x)} l :
  match List.find (λ x, bool_decide (P x)) l with
  | Some x => firstOf P l x
  | None => ∀ x, ¬ firstOf P l x
  end.
Proof.
  induction l as [|y l IH]; cbn; [by intros x (i & Hi & _)|]. case_bool_decide as Hy.
  { exists 0. split_and!; [done|done|intros j z _; lia]. }
  destruct (List.find _ l) as [x|].
  - destruct IH as (i & Hi & Hx & Hb). exists (Datatypes.S i). split_and!; [done|done|].
    intros [|j] z Hz Hj; [by injection Hz as <-|]. apply (Hb j z Hz). lia.
  - intros x ([|i] & Hi & Hx & Hb); [by injection Hi as <-|]. apply (IH x). exists i. split_and!; [done|done|].
    intros j z Hz Hj. apply (Hb (Datatypes.S j) z Hz). lia.
Qed.

(** * Which calls a computation makes

    [via calls s s']: [s'] is reached from [s] by nothing but the calls for which
    [calls] asks that they preserve an invariant; a state that any other call has
    touched is not.  It is the reflexive and transitive closure of those calls,
    in the form in which [Inv] proves it. *)

Definition via {S} (calls : (S → Prop) → Prop) (s s' : S) : Prop := ∀ I, calls I → I s → I s'.

Section via.
Context {S : Type} (calls : (S → Prop) → Prop).

Lemma via_refl s : via calls s s.
Proof. by intros I _. Qed.
Lemma via_trans s1 s2 s3 : via calls s1 s2 → via calls s2 s3 → via calls s1 s3.
Proof. intros H1 H2 I HI HS. by apply (H2 I), (H1 I). Qed.
Lemma via_run {A} (m : SE S A) s : (∀ I, calls I → Inv I m) → via calls s (m s).2.
Proof. intros Hm I HI HS. by apply Hm. Qed.
Lemma via_call {A} (m : SE S A) s r s' :
  (∀ I, calls I → Inv I m) → m s = (r, s') → via calls s s'.
Proof. intros Hm E. pose proof (via_run m s Hm) as H. by rewrite E in H. Qed.
Lemma via_mono (calls' : (S → Prop) → Prop) s s' :
  (∀ I, calls' I → calls I) → via calls s s' → via calls' s s'.
Proof. intros Hc H I HI. apply H. auto. Qed.
End via.

(** * Relations between states, one after another

    [chain rs s s']: the relations of [rs] lead from [s] to [s'] in their order,
    each from where the one before it ended. *)

Fixpoint chain {S} (rs : list (S → S → Prop)) (s s' : S) : Prop :=
  match rs with
  | [] => s' = s
  | R :: rs => ∃ s1, R s s1 ∧ chain rs s1 s'
  end.

Lemma chain_app {S} (rs rs' : list (S → S → Prop)) s s1 s' :
  chain rs s s1 → chain rs' s1 s' → chain (rs ++ rs') s s'.
Proof. revert s. induction rs as [|R rs IH]; intros s; cbn; [by intros ->|]. naive_solver. Qed.
Lemma chain_snoc {S} (rs : list (S → S → Prop)) R s s1 s' :
  chain rs s s1 → R s1 s' → chain (rs ++ [R]) s s'.
Proof. intros H HR. eapply chain_app; [exact H|]. by exists s'. Qed.
(** The next relation of a list that has been followed up to it. *)
Lemma chain_next {S A} (f : A → S → S → Prop) (l : list A) n a s s1 s' :
  l !! n = Some a → chain (f <$> take n l) s s1 → f a s1 s' → chain (f <$> take (Datatypes.S n) l) s s'.
Proof. intros Hn Hc Ha. rewrite (take_S_r _ _ _ Hn), fmap_app. by eapply chain_snoc. Qed.

(** * What a computation leaves behind, whatever the outcome

    [after m Q s]: [Q] holds of the outcome of [m] from [s] and of the final state. *)

Definition after {S A} (m : SE S A) (Q : result A → S → Prop) (s : S) : Prop := Q (m s).1 (m s).2.

Lemma after_bind {S A B} (m : SE S A) (k : A → SE S B) Q s :
  after m (λ r s', match r with Ok a => after (k a) Q s' | Err e => Q (Err e) s' end) s → after (m ≫= k) Q s.
Proof. unfold after, mbind, se_bind. by destruct (m s) as [[a|e] s']. Qed.

Lemma after_post {S A} (m : SE S A) (Q : result A → S → Prop) s :
  after m Q s → post m (λ a s', Q (Ok a) s') s.
Proof. unfold after. by intros H a s' E; rewrite E in H. Qed.

Lemma after_mono {S A} (m : SE S A) (P Q : result A → S → Prop) s :
  after m P s → (∀ r s', P r s' → Q r s') → after m Q s.
Proof. intros Hm HPQ. by apply HPQ. Qed.

(** An invariant says what is left behind, and a postcondition what of it is an
    answer. *)
Lemma after_inv {S A} (I : S → Prop) (m : SE S A) (Q : A → S → Prop) s :
  Inv I m → post m Q s → I s → after m (λ r s', I s' ∧ match r with Ok a => Q a s' | Err _ => True end) s.
Proof.
  intros Hm HQ Hs. specialize (Hm s Hs). unfold after. destruct (m s) as [[a|e] s'] eqn:E; [|done].
  split; [done|]. by apply HQ.
Qed.

Lemma after_wrapping {S A} pre (m : SE S A) Q s :
  after m (λ r s', match r with
                   | Ok a => Q (Ok a) s'
                   | Err (Panic e) => Q (Err (Panic e)) s'
                   | Err e => Q (Err (Wrapf pre e)) s'
                   end) s → after (wrapping pre m) Q s.
Proof.
  unfold after, wrapping, attempt, mbind, se_bind. destruct (m s) as [[a|e] s']; [done|]. by destruct e.
Qed.

(** * Machine integers and time

    Go [int32]/[int64] as [Z] with two's-complement wrap-around written out; an
    instant is a number of nanoseconds since the zero [time.Time]; a
    [time.Duration] is an [int64] number of nanoseconds. *)

Definition wrap (w x : Z) : Z := (x + 2 ^ (w - 1)) `mod` 2 ^ w - 2 ^ (w - 1).
Definition int32_add (x y : Z) : Z := wrap 32 (x + y).
Definition int64_sub (x y : Z) : Z := wrap 64 (x - y).

Abbreviation Time := Z (only parsing).
Abbreviation Duration := Z (only parsing).
Definition zero_time : Time := 0%Z.
Definition is_zero_time (t : Time) : bool := (t =? 0)%Z.

Definition min_duration : Duration := (- 2 ^ 63)%Z.
Definition max_duration : Duration := (2 ^ 63 - 1)%Z.
Definition second : Duration := 1000000000%Z.
Definition minute : Duration := (60 * second)%Z.

(** [t.Sub(u)] saturates instead of overflowing. *)
Definition time_sub (t u : Time) : Duration :=
  Z.max min_duration (Z.min max_duration (t - u)).

Lemma wrap_id w x : (0 < w → - 2 ^ (w - 1) ≤ x < 2 ^ (w - 1) → wrap w x = x)%Z.
Proof.
  intros Hw Hx. unfold wrap.
  assert (2 ^ w = 2 * 2 ^ (w - 1))%Z as E.
  { rewrite <- Z.pow_succ_r by lia. f_equal. lia. }
  rewrite Z.mod_small; lia.
Qed.

Lemma wrap_range w x : (0 < w → - 2 ^ (w - 1) ≤ wrap w x < 2 ^ (w - 1))%Z.
Proof.
  intros Hw. unfold wrap.
  assert (2 ^ w = 2 * 2 ^ (w - 1))%Z as E.
  { rewrite <- Z.pow_succ_r by lia. f_equal. lia. }
  pose proof (Z.mod_pos_bound (x + 2 ^ (w - 1)) (2 ^ w)). 
  assert (0 < 2 ^ w)%Z by (apply Z.pow_pos_nonneg; lia). lia.
Qed.

Lemma time_sub_range t u : (min_duration ≤ time_sub t u ≤ max_duration)%Z.
Proof. unfold time_sub, min_duration, max_duration. lia. Qed.

Lemma time_sub_id t u :
  (min_duration ≤ t - u ≤ max_duration → time_sub t u = t - u)%Z.
Proof. unfold time_sub. lia. Qed.

Lemma int64_sub_id x y :
  (min_duration ≤ x - y ≤ max_duration → int64_sub x y = x - y)%Z.
Proof.
  unfold min_duration, max_duration. intros. apply wrap_id; lia.
Qed.

(** * Strings *)

(** [strings.Join(l, sep)]. *)
Definition join (l : list string) (sep : string) : string := String.concat sep l.

(** [strings.TrimPrefix], [strings.CutSuffix]. *)
Definition trim_prefix (s p : string) : string :=
  if String.prefix p s
  then String.substring (String.length p) (String.length s - String.length p) s
  else s.

Definition cut_suffix (s suf : string) : option string :=
  let n := String.length s - String.length suf in
  if decide (String.length suf ≤ String.length s ∧
             String.substring n (String.length suf) s = suf)
  then Some (String.substring 0 n s)
  else None.

Lemma substring_app_l a b : String.substring 0 (String.length a) (a +:+ b) = a.
Proof.
  induction a as [|c a IH]; [by destruct b|].
  change (String c a +:+ b) with (String c (a +:+ b)). simpl. by rewrite IH.
Qed.
Lemma substring_app_r a b : String.substring (String.length a) (String.length b) (a +:+ b) = b.
Proof.
  induction a as [|c a IH].
  - change ("" +:+ b) with b. simpl. induction b as [|c b IH]; [done|]. simpl. by rewrite IH.
  - change (String c a +:+ b) with (String c (a +:+ b)). simpl. exact IH.
Qed.
Lemma length_string_app a b : String.length (a +:+ b) = String.length a + String.length b.
Proof.
  induction a as [|c a IH]; [done|].
  change (String c a +:+ b) with (String c (a +:+ b)). simpl. by rewrite IH.
Qed.
Lemma string_app_assoc (a b c : string) : (a +:+ b) +:+ c = a +:+ b +:+ c.
Proof. induction a as [|x a IH]; [done|]. by apply (f_equal (String x)). Qed.

Lemma string_app_nil (a : string) : a +:+ "" = a.
Proof. induction a as [|x a IH]; [done|]. by apply (f_equal (String x)). Qed.

(** Texts that end alike have the same ends. *)
Lemma string_app_inj (a b s t : string) : String.length s = String.length t → a +:+ s = b +:+ t → a = b ∧ s = t.
Proof.
  intros Hl. revert b. induction a as [|x a IH]; intros [|y b] H; cbn in H.
  - done.
  - apply (f_equal String.length) in H. change (String.length s = S (String.length (b +:+ t))) in H.
    rewrite length_string_app in H. lia.
  - apply (f_equal String.length) in H. change (S (String.length (a +:+ s)) = String.length t) in H.
    rewrite length_string_app in H. lia.
  - injection H as -> H. destruct (IH b H) as [-> ->]. done.
Qed.

Lemma cut_suffix_app a b : cut_suffix (a +:+ b) b = Some a.
Proof.
  unfold cut_suffix. rewrite length_string_app.
  replace (String.length a + String.length b - String.length b) with (String.length a) by lia.
  rewrite decide_True by (split; [lia|apply substring_app_r]). by rewrite substring_app_l.
Qed.

(** The text after the last occurrence of the byte [c], [None] when there is
    none: [strings.LastIndex] followed by slicing. *)
Fixpoint after_last (c : ascii) (s : string) : option string :=
  match s with
  | EmptyString => None
  | String a s' =>
      match after_last c s' with
      | Some t => Some t
      | None => if decide (a = c) then Some s' else None
      end
  end.

(** [strings.Contains]. *)
Fixpoint contains (s sub : string) : bool :=
  String.prefix sub s ||
  match s with
  | EmptyString => false
  | String _ s' => contains s' sub
  end.

(** [m[k]] on a map of strings: the zero value when the key is absent. *)
Definition mget (m : gmap string string) (k : string) : string := default "" (m !! k).

(** * Sorting

    Go's [slices.Sort] on strings and integers: the order is total and
    antisymmetric, so the sorted permutation is unique and any sorting
    algorithm computes it. *)

Definition str_le (a b : string) : Prop := String.leb a b = true.
#[export] Instance str_le_dec : RelDecision str_le.
Proof. intros a b. unfold str_le. apply _. Defined.

Lemma ascii_compare_trans a b c :
  Ascii.compare a b = Lt → Ascii.compare b c = Lt → Ascii.compare a c = Lt.
Proof. unfold Ascii.compare. rewrite !N.compare_lt_iff. lia. Qed.

Lemma str_compare_trans a b c :
  String.compare a b = Lt → String.compare b c = Lt → String.compare a c = Lt.
Proof.
  revert b c. induction a as [|x a IH]; intros [|y b] [|z c]; simpl; try done.
  destruct (Ascii.compare x y) eqn:E1; [| |done];
    destruct (Ascii.compare y z) eqn:E2; try done; intros H1 H2.
  - apply Ascii.compare_eq_iff in E1, E2. subst.
    assert (Ascii.compare z z = Eq) as -> by apply N.compare_refl. eauto.
  - apply Ascii.compare_eq_iff in E1 as ->. by rewrite E2.
  - apply Ascii.compare_eq_iff in E2 as ->. by rewrite E1.
  - by rewrite (ascii_compare_trans _ _ _ E1 E2).
Qed.

#[export] Instance str_le_total : Total str_le.
Proof. intros a b. apply String.leb_total. Qed.
#[export] Instance str_le_antisymm : AntiSymm (=) str_le.
Proof. intros a b. apply String.leb_antisym. Qed.
#[export] Instance str_le_trans : Transitive str_le.
Proof.
  unfold str_le, String.leb. intros a b c.
  destruct (String.compare a b) eqn:E1; [| |done].
  - by apply String.compare_eq_iff in E1 as ->.
  - destruct (String.compare b c) eqn:E2; [| |done].
    + apply String.compare_eq_iff in E2 as ->. by rewrite E1.
    + by rewrite (str_compare_trans _ _ _ E1 E2).
Qed.

Definition sort_strings (l : list string) : list string := merge_sort str_le l.
Definition sort_ints (l : list Z) : list Z := merge_sort Z.le l.

Lemma sort_strings_perm l1 l2 : l1 ≡ₚ l2 → sort_strings l1 = sort_strings l2.
Proof.
  intros HP. apply (StronglySorted_unique str_le).
  - apply (StronglySorted_merge_sort str_le).
  - apply (StronglySorted_merge_sort str_le).
  - unfold sort_strings. by rewrite !merge_sort_Permutation.
Qed.

Lemma elem_of_sort_strings x l : x ∈ sort_strings l ↔ x ∈ l.
Proof. unfold sort_strings. by rewrite merge_sort_Permutation. Qed.

Lemma elem_of_sort_ints x l : x ∈ sort_ints l ↔ x ∈ l.
Proof. unfold sort_ints. by rewrite merge_sort_Permutation. Qed.

Lemma length_sort_strings l : length (sort_strings l) = length l.
Proof. unfold sort_strings. by rewrite merge_sort_Permutation. Qed.

Lemma sort_strings_nil l : sort_strings l = [] ↔ l = [].
Proof.
  split; intros H; [|by rewrite H].
  pose proof (length_sort_strings l) as HL. rewrite H in HL. by destruct l.
Qed.

(** * Booleans *)

(** Close a goal about boolean variables by trying every value. *)
Ltac solve_bools :=
  repeat match goal with b : bool |- _ => destruct b end;
  cbn; intuition congruence.

(** * Lists *)

Lemma length_filter_all {A} (P : A → Prop) `{∀ x, Decision (P x)} l :
  length (filter P l) = length l ↔ ∀ x, x ∈ l → P x.
Proof.
  split.
  - intros HL x Hx. destruct (decide (P x)) as [|HP]; [done|].
    pose proof (length_filter_lt P l x Hx HP). lia.
  - induction l as [|y l IH]; [done|]. intros HP.
    rewrite filter_cons_True by (apply HP; left). simpl. f_equal. apply IH. set_solver.
Qed.

Lemma filter_nil_iff {A} (P : A → Prop) `{∀ x, Decision (P x)} l :
  filter P l = [] ↔ ∀ x, x ∈ l → ¬ P x.
Proof.
  split; [by intros Hnil x Hx HP; eapply filter_nil_not_elem_of|].
  induction l as [|y l IH]; [done|]. intros HP. rewrite filter_cons_False; [|set_solver].
  apply IH. set_solver.
Qed.

Lemma foldl_append_filter {A B} (P : A → Prop) `{∀ x, Decision (P x)} (f : A → B) l acc :
  foldl (λ acc x, if decide (P x) then acc ++ [f x] else acc) acc l =
  acc ++ (f <$> filter P l).
Proof.
  revert acc. induction l as [|x l IH]; intros acc; simpl; [by rewrite app_nil_r|].
  rewrite IH, filter_cons. case_decide; simpl; [by rewrite <- app_assoc|done].
Qed.

Lemma list_filter_cons_app {A} (P : A → Prop) `{∀ x, Decision (P x)} x l :
  filter P (x :: l) = filter P [x] ++ filter P l.
Proof. by rewrite <- filter_app. Qed.

(** Items of distinct names are determined by their name. *)
Lemma NoDup_name_inj {A B} (f : A → B) l x y :
  NoDup (f <$> l) → x ∈ l → y ∈ l → f x = f y → x = y.
Proof.
  induction l as [|z l IH]; [by intros _ ?%not_elem_of_nil|].
  cbn [fmap list_fmap]. intros [Hz HN]%NoDup_cons. rewrite !elem_of_cons.
  intros [->|Hx] [->|Hy] E; [done| | |by apply IH].
  - destruct Hz. rewrite E. by apply list_elem_of_fmap_2.
  - destruct Hz. rewrite <- E. by apply list_elem_of_fmap_2.
Qed.

(** [controller.Unique] (internal/controller/util.go): the first item of each
    name; [lo.Uniq] is the case where the item is its own name. *)
Fixpoint uniqueFrom {A} (name : A → string) (seen : gset string) (l : list A) : list A :=
  match l with
  | [] => []
  | x :: l =>
      if decide (name x ∈ seen) then uniqueFrom name seen l
      else x :: uniqueFrom name ({[ name x ]} ∪ seen) l
  end.
Definition Unique {A} (name : A → string) (l : list A) : list A := uniqueFrom name ∅ l.

Lemma elem_of_uniqueFrom {A} (name : A → string) seen l x :
  NoDup (name <$> l) → x ∈ uniqueFrom name seen l ↔ x ∈ l ∧ name x ∉ seen.
Proof.
  revert seen. induction l as [|y l IH]; intros seen; cbn; [set_solver|].
  intros [Hy HN]%NoDup_cons. case_decide as Hd; rewrite !elem_of_cons, !IH by done.
  - naive_solver.
  - assert (x ∈ l → name x ≠ name y) by (intros Hx E; apply Hy; rewrite <- E; by apply list_elem_of_fmap_2).
    set_solver.
Qed.

Lemma elem_of_Uniq (l : list string) x : x ∈ Unique id l ↔ x ∈ l.
Proof.
  unfold Unique. enough (∀ seen, x ∈ uniqueFrom id seen l ↔ x ∈ l ∧ x ∉ seen) as H
    by (rewrite H; set_solver).
  induction l as [|y l IH]; intros seen; cbn; [set_solver|].
  case_decide; rewrite !elem_of_cons, ?IH; destruct (decide (x = y)); set_solver.
Qed.

Lemma NoDup_Uniq (l : list string) : NoDup (Unique id l).
Proof.
  unfold Unique. enough (∀ seen, NoDup (uniqueFrom id seen l) ∧
    ∀ x, x ∈ uniqueFrom id seen l → x ∉ seen) as H by apply H.
  induction l as [|y l IH]; intros seen; cbn; [split; [constructor|set_solver]|].
  case_decide as Hy; [apply IH|]. destruct (IH ({[id y]} ∪ seen)) as [HN Hs]. split.
  - apply NoDup_cons. split; [|done]. intros H%Hs. set_solver.
  - intros x. rewrite elem_of_cons. intros [->|H%Hs]; set_solver.
Qed.

(** * Maps *)

(** The order in which a Go map with text keys is walked. *)
Class StringMapOrder := string_map_order : ∀ A, gmap string A → list (string * A).
Arguments string_map_order {_} {A} _.
Class StringMapOrderLaws {SO : StringMapOrder} : Prop :=
  string_map_order_perm A (m : gmap string A) : string_map_order m ≡ₚ map_to_list m.
