(* ===== verification/DeepCopy.v ===== *)
(** Go values in memory, and the deep copies generated for the API types: what is
    copied, and that nothing of the original is shared. *)
From S2P Require Import Prelude.

(** * Memory

    A location holds what a pointer points to, the array behind a slice, or the
    entries of a map, in the order a range loop walks them.  Texts, numbers and
    booleans are scalars: Go shares texts, but nothing can change them. *)

Abbreviation loc := positive.
#[warnings="-register-all"]
Inductive GoVal :=
  | VScalar (s : string)
  | VRef (target : option loc)
  | VStruct (fields : gmap string GoVal).
Inductive Cell :=
  | CVar (v : GoVal)
  | CArray (vs : list GoVal)
  | CMap (entries : list (string * GoVal)).
Abbreviation Heap := (gmap loc Cell).

Definition load (l : loc) : SE Heap Cell := λ h,
  (match h !! l with Some c => Ok c | None => Err (Panic "invalid memory address") end, h).
Definition new (c : Cell) : SE Heap GoVal := λ h,
  let l := fresh (dom h) in (Ok (VRef (Some l)), <[l := c]> h).

(** * Copying *)

Abbreviation Copier := (GoVal → SE Heap GoVal) (only parsing).
Definition ill_typed {A} : SE Heap A := fail (Panic "ill-typed value").

(** An assignment of the value as it is. *)
Definition by_value : Copier := mret.
(** A nil pointer stays nil; otherwise the new variable gets the copy of the old one's
    value.  [DeepCopy] on a pointer is this too. *)
Definition pointer (c : Copier) : Copier := λ v,
  match v with
  | VRef None => mret (VRef None)
  | VRef (Some l) =>
      cell ← load l;
      match cell with CVar w => w' ← c w; new (CVar w') | _ => ill_typed end
  | _ => ill_typed
  end.
Fixpoint each (c : Copier) (vs : list GoVal) : SE Heap (list GoVal) :=
  match vs with
  | [] => mret []
  | v :: vs => v' ← c v; vs' ← each c vs; mret (v' :: vs')
  end.
(** A nil slice stays nil; otherwise a new array of the same length, element by element.
    The model takes a slice to show the whole of its array. *)
Definition slice (c : Copier) : Copier := λ v,
  match v with
  | VRef None => mret (VRef None)
  | VRef (Some l) =>
      cell ← load l;
      match cell with CArray vs => vs' ← each c vs; new (CArray vs') | _ => ill_typed end
  | _ => ill_typed
  end.
(** A nil map stays nil; otherwise a new map with a copy of each value under its key. *)
Definition map_of (c : Copier) : Copier := λ v,
  match v with
  | VRef None => mret (VRef None)
  | VRef (Some l) =>
      cell ← load l;
      match cell with
      | CMap es => vs' ← each c es.*2; new (CMap (zip es.*1 vs'))
      | _ => ill_typed
      end
  | _ => ill_typed
  end.

Definition get_field (x : string) (v : GoVal) : SE Heap GoVal :=
  match v with VStruct m => match m !! x with Some a => mret a | None => ill_typed end | _ => ill_typed end.
Definition set_field (x : string) (a v : GoVal) : GoVal :=
  match v with VStruct m => VStruct (<[x := a]> m) | _ => v end.
(** The statements that follow the assignment of the whole struct, a field each. *)
Fixpoint assigning (fields : list (string * Copier)) (i o : GoVal) : SE Heap GoVal :=
  match fields with
  | [] => mret o
  | (x, c) :: fields =>
      a ← get_field x i;
      a' ← c a;
      assigning fields i (set_field x a' o)
  end.
(** [DeepCopyInto]: the whole struct as it is, then the statements. *)
Definition copying (fields : list (string * Copier)) : Copier := λ v, assigning fields v v.
(** [DeepCopyObject]: a nil pointer becomes a nil interface. *)
Definition object_of (copy : Copier) (v : GoVal) : SE Heap (option GoVal) :=
  c ← copy v;
  mret (match c with VRef None => None | c => Some c end).

(** * Types *)

Inductive GoType :=
  | TScalar
  | TPtr (t : GoType)
  | TSlice (t : GoType)
  | TMap (t : GoType)
  | TEmpty
  | TField (x : string) (t : GoType) (rest : GoType).
Definition TStruct (fields : list (string * GoType)) : GoType := foldr (λ f, TField f.1 f.2) TEmpty fields.

(** No references inside. *)
Fixpoint flat (t : GoType) : bool :=
  match t with
  | TScalar | TEmpty => true
  | TPtr _ | TSlice _ | TMap _ => false
  | TField _ t rest => flat t && flat rest
  end.

(** ** The same value in two memories *)

Definition nil (v : GoVal) : Prop := v = VRef None.
Fixpoint deep_eq (t : GoType) (h1 : Heap) (v1 : GoVal) (h2 : Heap) (v2 : GoVal) : Prop :=
  match t with
  | TScalar => ∃ s, v1 = VScalar s ∧ v2 = VScalar s
  | TPtr t => (nil v1 ∧ nil v2) ∨ ∃ l1 l2 w1 w2, v1 = VRef (Some l1) ∧ v2 = VRef (Some l2) ∧
      h1 !! l1 = Some (CVar w1) ∧ h2 !! l2 = Some (CVar w2) ∧ deep_eq t h1 w1 h2 w2
  | TSlice t => (nil v1 ∧ nil v2) ∨ ∃ l1 l2 w1 w2, v1 = VRef (Some l1) ∧ v2 = VRef (Some l2) ∧
      h1 !! l1 = Some (CArray w1) ∧ h2 !! l2 = Some (CArray w2) ∧ Forall2 (λ a b, deep_eq t h1 a h2 b) w1 w2
  | TMap t => (nil v1 ∧ nil v2) ∨ ∃ l1 l2 w1 w2, v1 = VRef (Some l1) ∧ v2 = VRef (Some l2) ∧
      h1 !! l1 = Some (CMap w1) ∧ h2 !! l2 = Some (CMap w2) ∧ w1.*1 = w2.*1 ∧
      Forall2 (λ a b, deep_eq t h1 a h2 b) w1.*2 w2.*2
  | TEmpty => ∃ m1 m2, v1 = VStruct m1 ∧ v2 = VStruct m2
  | TField x t rest =>
      (∃ m1 m2 a1 a2, v1 = VStruct m1 ∧ v2 = VStruct m2 ∧ m1 !! x = Some a1 ∧ m2 !! x = Some a2 ∧
                      deep_eq t h1 a1 h2 a2) ∧ deep_eq rest h1 v1 h2 v2
  end.
(** A value of the type. *)
Definition valid (t : GoType) (h : Heap) (v : GoVal) : Prop := deep_eq t h v h v.
(** The locations a value can be seen or changed through. *)
Fixpoint reach (t : GoType) (h : Heap) (v : GoVal) (l : loc) : Prop :=
  match t with
  | TScalar | TEmpty => False
  | TPtr t => ∃ l0, v = VRef (Some l0) ∧ (l = l0 ∨ ∃ w, h !! l0 = Some (CVar w) ∧ reach t h w l)
  | TSlice t => ∃ l0, v = VRef (Some l0) ∧
      (l = l0 ∨ ∃ ws w, h !! l0 = Some (CArray ws) ∧ w ∈ ws ∧ reach t h w l)
  | TMap t => ∃ l0, v = VRef (Some l0) ∧
      (l = l0 ∨ ∃ es w, h !! l0 = Some (CMap es) ∧ w ∈ es.*2 ∧ reach t h w l)
  | TField x t rest =>
      (∃ m a, v = VStruct m ∧ m !! x = Some a ∧ reach t h a l) ∨ reach rest h v l
  end.

(** A copier that makes a copy: of the same value, the memory there was as it was, and
    nothing of it within reach of the copy. *)
Definition copied (t : GoType) (h0 h : Heap) (v v' : GoVal) : Prop :=
  deep_eq t h0 v h v' ∧ ∀ l, reach t h v' l → h0 !! l = None.
Class Copies (t : GoType) (c : Copier) : Prop := copies h v :
  valid t h v → ∃ v' h', c v h = (Ok v', h') ∧ h ⊆ h' ∧ copied t h h' v v'.

(** Types with no references inside, and what the code of other modules says about theirs: the
    shape of each type by its name, and its [DeepCopyInto]. *)
Class Flat (t : GoType) : Prop := is_flat : flat t.
Class ForeignTypes := {
  foreign : string → GoType;
  foreign_copy : string → Copier;
}.
(** The documented behaviour: [DeepCopyInto] copies, and a few types are plain structs of
    texts, or texts. *)
Definition flat_foreign_types : list string :=
  ["metav1.TypeMeta"; "corev1.LocalObjectReference"; "corev1.SecretReference";
   "corev1.PersistentVolumeAccessMode"; "corev1.PullPolicy"; "cnpgv1.DataDurabilityLevel"].
Class ForeignLaws `{FT : ForeignTypes} : Prop := {
  foreign_copies n : Copies (foreign n) (foreign_copy n);
  foreign_flat n : n ∈ flat_foreign_types → flat (foreign n);
}.

(** The functions generated for a type, a constructor's worth each. *)
Record GeneratedCopy := Generated {
  gen_type : GoType;
  gen_into : Copier;
  gen_copy : Copier;
  gen_object : option (GoVal → SE Heap (option GoVal));
}.
(** What the generator promises of them. *)
Record Copying (G : GeneratedCopy) : Prop := {
  copying_into : Copies (gen_type G) (gen_into G);
  copying_copy : gen_copy G = pointer (gen_into G);
  copying_object : ∀ f, gen_object G = Some f → f = object_of (gen_copy G);
}.

(** The statements of [DeepCopyInto] against the fields of the struct, in order: a field
    without a statement must hold no reference. *)
Inductive Statements : list (string * GoType) → list (string * Copier) → Prop :=
  | statements_nil : Statements [] []
  | statements_kept x t fields stmts :
      flat t → Statements fields stmts → Statements ((x, t) :: fields) stmts
  | statements_copied x t c fields stmts :
      Copies t c → Statements fields stmts → Statements ((x, t) :: fields) ((x, c) :: stmts).

(** * Lemmas *)

#[local] Ltac both := right; do 4 eexists; split_and!; [reflexivity|reflexivity|eauto using lookup_weaken..].

Lemma deep_eq_mono t h1 v1 h2 v2 h1' h2' :
  h1 ⊆ h1' → h2 ⊆ h2' → deep_eq t h1 v1 h2 v2 → deep_eq t h1' v1 h2' v2.
Proof.
  intros H1 H2. revert v1 v2.
  induction t as [|t IH|t IH|t IH| |x t IH rest IHr]; intros v1 v2; simpl; [done|..].
  - intros [?|(?&?&?&?&->&->&?&?&?)]; [by left|both].
  - intros [?|(?&?&?&?&->&->&?&?&?)]; [by left|both]. by eapply Forall2_impl.
  - intros [?|(?&?&?&?&->&->&?&?&?&?)]; [by left|both]. by eapply Forall2_impl.
  - done.
  - intros [(?&?&?&?&->&->&?&?&?) ?]. split; [|auto]. repeat eexists; eauto.
Qed.

Lemma deep_eq_sym t h1 v1 h2 v2 : deep_eq t h1 v1 h2 v2 → deep_eq t h2 v2 h1 v1.
Proof.
  revert v1 v2. induction t as [|t IH|t IH|t IH| |x t IH rest IHr]; intros v1 v2; simpl.
  - naive_solver.
  - intros [[??]|(?&?&?&?&->&->&?&?&?)]; [by left|both].
  - intros [[??]|(?&?&?&?&->&->&?&?&?)]; [by left|both].
    apply Forall2_flip. by eapply Forall2_impl.
  - intros [[??]|(?&?&?&?&->&->&?&?&?&?)]; [by left|both].
    apply Forall2_flip. by eapply Forall2_impl.
  - naive_solver.
  - intros [(?&?&?&?&->&->&?&?&?) ?]. split; [|auto]. repeat eexists; eauto.
Qed.

Lemma forall2_chain {A B C} (P : A → B → Prop) (Q : B → C → Prop) (R : A → C → Prop) l k m :
  (∀ a b c, P a b → Q b c → R a c) → Forall2 P l k → Forall2 Q k m → Forall2 R l m.
Proof. intros HR Hl. revert m. induction Hl; intros m Hm; inversion Hm; subst; constructor; eauto. Qed.

Lemma deep_eq_trans t h1 v1 h2 v2 h3 v3 :
  deep_eq t h1 v1 h2 v2 → deep_eq t h2 v2 h3 v3 → deep_eq t h1 v1 h3 v3.
Proof.
  revert v1 v2 v3. induction t as [|t IH|t IH|t IH| |x t IH rest IHr]; intros v1 v2 v3; simpl.
  - naive_solver.
  - unfold nil. intros [[-> ->]|(?&?&?&?&->&->&?&?&?)] [[? ->]|(?&?&?&?&?&->&?&?&?)];
      simplify_eq; [by left|both].
  - unfold nil. intros [[-> ->]|(?&?&?&?&->&->&?&?&?)] [[? ->]|(?&?&?&?&?&->&?&?&?)];
      simplify_eq; [by left|both].
    eapply forall2_chain; [exact IH|eassumption..].
  - unfold nil. intros [[-> ->]|(?&?&?&?&->&->&?&?&E1&?)] [[? ->]|(?&?&?&?&?&->&?&?&E2&?)];
      simplify_eq; [by left|both];
      [by rewrite E1|]. eapply forall2_chain; [exact IH|eassumption..].
  - naive_solver.
  - intros [(?&?&?&?&->&->&?&?&?) ?] [(?&?&?&?&?&->&?&?&?) ?]. simplify_eq.
    split; [|eauto]. repeat eexists; eauto.
Qed.

Lemma valid_mono t h h' v : h ⊆ h' → valid t h v → deep_eq t h v h' v.
Proof. intros Hh Hv. eapply deep_eq_mono; [reflexivity|exact Hh|exact Hv]. Qed.
Lemma valid_weaken t h h' v : h ⊆ h' → valid t h v → valid t h' v.
Proof. intros. eapply deep_eq_mono; eauto. Qed.
Lemma deep_eq_valid t h1 v1 h2 v2 : deep_eq t h1 v1 h2 v2 → valid t h2 v2.
Proof. intros H. eapply deep_eq_trans; [apply deep_eq_sym|]; exact H. Qed.
Lemma deep_eq_valid_l t h1 v1 h2 v2 : deep_eq t h1 v1 h2 v2 → valid t h1 v1.
Proof. intros H. eapply deep_eq_valid, deep_eq_sym, H. Qed.

Lemma forall2_diag {A} (P : A → A → Prop) l a : Forall2 P l l → a ∈ l → P a a.
Proof. rewrite Forall2_same_length_lookup. intros [_ H] [i Hi]%list_elem_of_lookup_1. eauto. Qed.

Lemma forall2_diag_impl {A} (P Q : A → A → Prop) l :
  Forall2 P l l → (∀ a, P a a → a ∈ l → Q a a) → Forall2 Q l l.
Proof.
  intros HP H. apply Forall2_same_length_lookup. split; [done|]. intros i a b Ha Hb. simplify_eq.
  apply H; [|by eapply list_elem_of_lookup_2]. eapply forall2_diag; [done|].
  by eapply list_elem_of_lookup_2.
Qed.

(** What a value reaches depends only on the memory it reaches: its own frame. *)
Lemma reach_frame t h h' v l :
  valid t h v → (∀ l, reach t h v l → h' !! l = h !! l) → reach t h' v l → reach t h v l.
Proof.
  unfold valid. revert v.
  induction t as [|t IH|t IH|t IH| |x t IH rest IHr]; intros v; simpl; unfold nil; [done|..].
  - intros [[-> _]|(l0&?&w&?&->&?&?&?&?)] Hf (?&?&[->|(?&E&?)]); simplify_eq; eauto.
    rewrite Hf in E by eauto. simplify_eq. eexists; split; [done|]; right; eexists; split; [done|].
    eapply IH; eauto 10.
  - intros [[-> _]|(l0&?&w&?&->&?&?&?&Hv)] Hf (?&?&[->|(?&a&E&?&?)]); simplify_eq; eauto.
    rewrite Hf in E by eauto. simplify_eq. eexists; split; [done|]; right.
    eexists _, a; split_and!; [done..|]. eapply (forall2_diag _ _ a) in Hv; [|done].
    eapply IH; eauto 10.
  - intros [[-> _]|(l0&?&w&?&->&?&?&?&_&Hv)] Hf (?&?&[->|(?&a&E&?&?)]); simplify_eq; eauto.
    rewrite Hf in E by eauto. simplify_eq. eexists; split; [done|]; right.
    eexists _, a; split_and!; [done..|]. eapply (forall2_diag _ _ a) in Hv; [|done].
    eapply IH; eauto 10.
  - done.
  - intros [(m&?&a&?&->&?&?&?&?) ?] Hf [(?&?&?&?&?)|?]; simplify_eq.
    + left. repeat eexists; eauto. eapply IH; eauto 10.
    + right. eapply IHr; eauto.
Qed.

Lemma reach_dom t h v l : valid t h v → reach t h v l → is_Some (h !! l).
Proof.
  unfold valid. revert v.
  induction t as [|t IH|t IH|t IH| |x t IH rest IHr]; intros v; simpl; unfold nil; [done|..].
  - intros [[-> _]|(l0&?&w&?&->&?&?&?&?)] (?&?&[->|(?&E&?)]); simplify_eq; eauto.
  - intros [[-> _]|(l0&?&w&?&->&?&?&?&Hv)] (?&?&[->|(?&a&E&?&?)]); simplify_eq; eauto.
    eapply (forall2_diag _ _ a) in Hv; [|done]. simpl in Hv. eauto.
  - intros [[-> _]|(l0&?&w&?&->&?&?&?&_&Hv)] (?&?&[->|(?&a&E&?&?)]); simplify_eq; eauto.
    eapply (forall2_diag _ _ a) in Hv; [|done]. simpl in Hv. eauto.
  - done.
  - intros [(m&?&a&?&->&?&?&?&?) ?] [(?&?&?&?&?)|?]; simplify_eq; eauto.
Qed.

Lemma reach_weaken t h h' v l : h ⊆ h' → valid t h v → reach t h' v l → reach t h v l.
Proof.
  intros Hh Hv. apply reach_frame; [done|]. intros l' Hl'.
  destruct (reach_dom _ _ _ _ Hv Hl') as [c Hc]. rewrite Hc. by eapply lookup_weaken.
Qed.

(** The frame rule: a memory that agrees on what a value reaches holds the same value. *)
Lemma deep_eq_frame t h h' v :
  valid t h v → (∀ l, reach t h v l → h' !! l = h !! l) → deep_eq t h v h' v.
Proof.
  unfold valid. revert v.
  induction t as [|t IH|t IH|t IH| |x t IH rest IHr]; intros v; simpl; unfold nil; [done|..].
  - intros [[-> _]|(?&l0&w&?&->&?&?&?&?)] Hf; [by left|]; simplify_eq.
    assert (h' !! l0 = h !! l0) as E by eauto. both; [by rewrite E|]. eapply IH; eauto 10.
  - intros [[-> _]|(?&l0&w&?&->&?&?&?&Hv)] Hf; [by left|]; simplify_eq.
    assert (h' !! l0 = h !! l0) as E by eauto. both; [by rewrite E|].
    eapply forall2_diag_impl; [exact Hv|]. intros a Ha Hi. apply IH; [done|]. eauto 10.
  - intros [[-> _]|(?&l0&w&?&->&?&?&?&_&Hv)] Hf; [by left|]; simplify_eq.
    assert (h' !! l0 = h !! l0) as E by eauto. both; [by rewrite E|].
    eapply forall2_diag_impl; [exact Hv|]. intros a Ha Hi. apply IH; [done|]. eauto 10.
  - done.
  - intros [(m&?&a&?&->&?&?&?&?) ?] Hf; simplify_eq. split.
    + repeat eexists; eauto. eapply IH; eauto 10.
    + eapply IHr; eauto.
Qed.

Lemma flat_reach t h v l : flat t → ¬ reach t h v l.
Proof. revert v. induction t; simpl; naive_solver. Qed.
Lemma flat_deep_eq t h v h' : flat t → valid t h v → deep_eq t h v h' v.
Proof. intros Ht Hv. apply deep_eq_frame; [done|]. intros l []%flat_reach. done. Qed.

(** * Copiers that copy *)

Lemma new_spec c h : ∃ l, new c h = (Ok (VRef (Some l)), <[l := c]> h) ∧ h !! l = None.
Proof. eexists. split; [done|]. apply not_elem_of_dom, is_fresh. Qed.

Lemma copied_new t h0 h v l c :
  h0 ⊆ h → h !! l = None → deep_eq t h0 v (<[l := c]> h) (VRef (Some l)) →
  (∀ l', reach t (<[l := c]> h) (VRef (Some l)) l' → l' = l ∨ h0 !! l' = None) →
  copied t h0 (<[l := c]> h) v (VRef (Some l)).
Proof.
  intros H0 Hl He Hr. split; [done|]. intros l' [->|?]%Hr; [|done].
  by eapply lookup_weaken_None.
Qed.

(** A copy in a memory that has grown since, of a value in an older one. *)
Lemma copied_later t h0 h1 h2 h3 v v' :
  h0 ⊆ h1 → h2 ⊆ h3 → valid t h0 v → copied t h1 h2 v v' → copied t h0 h3 v v'.
Proof.
  intros H01 H23 Hv [He Hr]. split.
  - eapply deep_eq_trans; [by eapply valid_mono|]. by eapply deep_eq_mono; [reflexivity|..].
  - intros l Hl. eapply lookup_weaken_None; [|exact H01]. apply Hr.
    eapply reach_weaken; [exact H23| |done]. by eapply deep_eq_valid.
Qed.

Lemma copies_by_value t : flat t → Copies t by_value.
Proof.
  intros Ht h v Hv. exists v, h. split_and!; [done|done|].
  split; [done|]. by intros l ?%flat_reach.
Qed.

Lemma copies_pointer t c : Copies t c → Copies (TPtr t) (pointer c).
Proof.
  intros Hc h v [[-> _]|(l&?&w&?&->&[= <-]&Hl&?&Hw)].
  { exists (VRef None), h. split_and!; [done|done|]. split; [by left|]. by intros l (?&?&?). }
  simplify_eq. destruct (Hc h w Hw) as (w'&h1&E1&H1&C1).
  destruct (new_spec (CVar w') h1) as (l'&E2&Hl').
  eexists _, _. split_and!; [|by etrans; [|apply insert_subseteq]|].
  { unfold pointer, load, mbind, se_bind. by rewrite Hl, E1, E2. }
  apply copied_new; [done..| |].
  - both; [by rewrite lookup_insert_eq|]. eapply deep_eq_mono; [done| |apply C1]. by apply insert_subseteq.
  - intros k (?&[= <-]&[->|(?&E&Hk)]); [by left|right].
    rewrite lookup_insert_eq in E. simplify_eq.
    apply (copied_later t h h h1 (<[l' := CVar x]> h1) w) in C1; [|done|by apply insert_subseteq|done].
    by apply C1.
Qed.

Lemma row_later t h0 h1 h2 h3 vs vs' :
  h0 ⊆ h1 → h2 ⊆ h3 → Forall (valid t h0) vs → Forall2 (copied t h1 h2) vs vs' →
  Forall2 (copied t h0 h3) vs vs'.
Proof.
  intros H0 H2 Hv C. induction C; [constructor|]. apply Forall_cons in Hv as [??].
  constructor; [by eapply copied_later|auto].
Qed.

(** A row of values, copied one after another. *)
Lemma each_spec t c `{!Copies t c} vs h :
  Forall (valid t h) vs →
  ∃ vs' h', each c vs h = (Ok vs', h') ∧ h ⊆ h' ∧ Forall2 (copied t h h') vs vs'.
Proof.
  revert h. induction vs as [|v vs IH]; intros h; [by exists [], h|].
  intros [Hv Hvs]%Forall_cons. destruct (copies h v Hv) as (v'&h1&E1&H1&C1).
  destruct (IH h1) as (vs'&h2&E2&H2&C2).
  { eapply Forall_impl; [exact Hvs|]. intros x. by apply valid_weaken. }
  exists (v' :: vs'), h2. split_and!; [|by etrans|].
  { simpl. unfold mbind, se_bind. by rewrite E1, E2. }
  constructor; [by eapply (copied_later _ h h h1 h2)|].
  by eapply (row_later _ h h1 h2 h2).
Qed.

Lemma valid_array t h (ws : list GoVal) :
  Forall2 (λ a b, deep_eq t h a h b) ws ws → Forall (valid t h) ws.
Proof. intros H. apply Forall_forall. intros a Ha. by eapply (forall2_diag _ _ a) in H. Qed.

Lemma row_fresh t h0 h vs vs' w l :
  Forall2 (copied t h0 h) vs vs' → w ∈ vs' → reach t h w l → h0 !! l = None.
Proof. intros C. induction C as [|??? ? [_ H]]; [by intros ?%not_elem_of_nil|]. intros [->|?]%elem_of_cons; auto. Qed.
Lemma row_deep_eq t h0 h vs vs' :
  Forall2 (copied t h0 h) vs vs' → Forall2 (λ a b, deep_eq t h0 a h b) vs vs'.
Proof. intros C. eapply Forall2_impl; [exact C|]. by intros ?? [??]. Qed.

Lemma copies_slice t c : Copies t c → Copies (TSlice t) (slice c).
Proof.
  intros Hc h v [[-> _]|(l&?&ws&?&->&[= <-]&Hl&?&Hw)].
  { exists (VRef None), h. split_and!; [done|done|]. split; [by left|]. by intros l (?&?&?). }
  simplify_eq. apply valid_array in Hw.
  destruct (each_spec t c ws h Hw) as (ws'&h1&E1&H1&C1).
  destruct (new_spec (CArray ws') h1) as (l'&E2&Hl').
  apply (row_later _ h h h1 (<[l' := CArray ws']> h1)) in C1; [|done|by apply insert_subseteq|done].
  eexists _, _. split_and!; [|by etrans; [|apply insert_subseteq]|].
  { unfold slice, load, mbind, se_bind. by rewrite Hl, E1, E2. }
  apply copied_new; [done..| |].
  - both; [by rewrite lookup_insert_eq|]. by apply row_deep_eq.
  - intros k (?&[= <-]&[->|(?&w&E&Hin&Hk)]); [by left|right].
    rewrite lookup_insert_eq in E. simplify_eq. by eapply row_fresh.
Qed.

Lemma copies_map_of t c : Copies t c → Copies (TMap t) (map_of c).
Proof.
  intros Hc h v [[-> _]|(l&?&ws&?&->&[= <-]&Hl&?&_&Hw)].
  { exists (VRef None), h. split_and!; [done|done|]. split; [by left|]. by intros l (?&?&?). }
  simplify_eq. rename ws into es. apply valid_array in Hw.
  destruct (each_spec t c es.*2 h Hw) as (ws'&h1&E1&H1&C1).
  assert (length es.*1 = length ws') as Hlen.
  { rewrite <- (Forall2_length _ _ _ C1). by rewrite !length_fmap. }
  destruct (new_spec (CMap (zip es.*1 ws')) h1) as (l'&E2&Hl').
  apply (row_later _ h h h1 (<[l' := CMap (zip es.*1 ws')]> h1)) in C1;
    [|done|by apply insert_subseteq|done].
  eexists _, _. split_and!; [|by etrans; [|apply insert_subseteq]|].
  { unfold map_of, load, mbind, se_bind. by rewrite Hl, E1, E2. }
  apply copied_new; [done..| |].
  - right. exists l, l', es, (zip es.*1 ws').
    rewrite fst_zip, snd_zip, lookup_insert_eq by lia. split_and!; [done..|]. by apply row_deep_eq.
  - intros k (?&[= <-]&[->|(?&w&E&Hin&Hk)]); [by left|right].
    rewrite lookup_insert_eq in E. simplify_eq.
    rewrite snd_zip in Hin by lia. by eapply row_fresh.
Qed.

Lemma valid_struct fields h v :
  valid (TStruct fields) h v ↔
  (∃ m, v = VStruct m) ∧ Forall (λ f, ∃ m a, v = VStruct m ∧ m !! f.1 = Some a ∧ valid f.2 h a) fields.
Proof.
  unfold valid, TStruct. induction fields as [|[x t] fields IH]; simpl.
  { split; [intros (m&?&->&_); eauto|intros [[m ->] _]; eauto]. }
  rewrite IH, Forall_cons. simpl. split.
  - intros [(m&?&a&?&->&[= <-]&?&?&?) [??]]. simplify_eq. split_and!; eauto 10.
  - intros [[m ->] [(?&a&[= <-]&?&?) ?]]. split; [|eauto]. repeat eexists; eauto.
Qed.

(** What a struct is copied to, field by field. *)
Lemma copied_struct fields h0 h m m' :
  copied (TStruct fields) h0 h (VStruct m) (VStruct m') ↔
  Forall (λ f, ∃ a a', m !! f.1 = Some a ∧ m' !! f.1 = Some a' ∧ copied f.2 h0 h a a') fields.
Proof.
  unfold copied, TStruct. induction fields as [|[x t] fields IH]; simpl.
  { split; [done|]. intros _. split; [eauto|done]. }
  rewrite Forall_cons, <- IH. simpl. split.
  - intros [[(?&?&a&a'&[= <-]&[= <-]&Ha&Ha'&?) ?] Hr]. split; [|naive_solver].
    exists a, a'. split_and!; [done..|]. intros l Hl. apply Hr. left. eauto.
  - intros [(a&a'&?&?&?&Hr) [? Hr']]. split; [split; [|done]; repeat eexists; eauto|].
    intros l [(?&?&[= <-]&?&?)|?]; simplify_eq; auto.
Qed.

Lemma statements_spec fields stmts h mi mo :
  Statements fields stmts → NoDup fields.*1 →
  Forall (λ f, ∃ a, mi !! f.1 = Some a ∧ mo !! f.1 = Some a ∧ valid f.2 h a) fields →
  ∃ mo' h', assigning stmts (VStruct mi) (VStruct mo) h = (Ok (VStruct mo'), h') ∧ h ⊆ h' ∧
    (∀ x, x ∉ fields.*1 → mo' !! x = mo !! x) ∧
    Forall (λ f, ∃ a a', mi !! f.1 = Some a ∧ mo' !! f.1 = Some a' ∧ copied f.2 h h' a a') fields.
Proof.
  intros HS. revert h mo. induction HS as [|x t fs ss Ht HS IH|x t c fs ss Hc HS IH]; intros h mo; csimpl.
  - intros _ _. exists mo, h. done.
  - intros [Hx HN]%NoDup_cons [(a&Hi&Ho&Hv) Hf]%Forall_cons.
    destruct (IH h mo HN Hf) as (mo'&h'&E&Hh&Hs&C). exists mo', h'.
    split_and!; [done..|set_solver|]. constructor; [|done]. exists a, a. simpl in *.
    rewrite Hs by done. split_and!; [done..|]. split; [by apply flat_deep_eq|]. by intros l ?%flat_reach.
  - intros [Hx HN]%NoDup_cons [(a&Hi&Ho&Hv) Hf]%Forall_cons. simpl in *.
    destruct (Hc h a Hv) as (a'&h1&E1&H1&C1).
    destruct (IH h1 (<[x := a']> mo) HN) as (mo'&h'&E&Hh&Hs&C).
    { apply Forall_forall. intros [y t'] Hin. eapply Forall_forall in Hf as (b&?&?&?); [|exact Hin].
      exists b. simpl in *. rewrite lookup_insert_ne by (intros ->; apply Hx; by apply (list_elem_of_fmap_2 fst _ (y, t'))).
      eauto using valid_weaken. }
    exists mo', h'. split_and!; [|by etrans| |].
    { unfold get_field, mbind, se_bind, mret, se_ret. by rewrite Hi, E1. }
    { intros y [??]%not_elem_of_cons. by rewrite Hs, lookup_insert_ne. }
    constructor.
    + exists a, a'. simpl. rewrite Hs, lookup_insert_eq by done. split_and!; [done..|].
      by eapply (copied_later _ h h h1 h').
    + apply Forall_forall. intros [y t'] Hin.
      eapply Forall_forall in Hf as (b&?&?&?); [|exact Hin].
      eapply Forall_forall in C as (b1&b'&?&?&?); [|exact Hin]. simpl in *. simplify_eq.
      exists b, b'. split_and!; [done..|]. by eapply (copied_later _ h h1 h' h').
Qed.

Lemma copies_struct fields stmts :
  Statements fields stmts → NoDup fields.*1 → Copies (TStruct fields) (copying stmts).
Proof.
  intros HS HN h v [[m ->] Hf]%valid_struct.
  destruct (statements_spec fields stmts h m m HS HN) as (m'&h'&E&Hh&_&C).
  { eapply Forall_impl; [exact Hf|]. intros [x t] (?&a&[= <-]&?&?). eauto. }
  exists (VStruct m'), h'. split_and!; [done..|]. by apply copied_struct.
Qed.

(** * What copying is for *)

(** Whatever is written through the copy, the original stays as it was; whatever is written
    elsewhere than through the copy, the copy stays what the original was. *)
Lemma copied_independent t h h' v v' :
  valid t h v → h ⊆ h' → copied t h h' v v' →
  (∀ h'', (∀ l, ¬ reach t h' v' l → h'' !! l = h' !! l) → deep_eq t h v h'' v) ∧
  (∀ h'', (∀ l, h !! l = None → h'' !! l = h' !! l) → deep_eq t h v h'' v').
Proof.
  intros Hv Hh [He Hr]. split; intros h'' H''.
  - eapply deep_eq_trans; [by eapply valid_mono|]. apply deep_eq_frame; [by eapply valid_weaken|].
    intros l Hl. apply H''. intros Hl'%Hr.
    assert (reach t h v l) as Hl0 by (by eapply reach_weaken).
    destruct (reach_dom _ _ _ _ Hv Hl0). congruence.
  - eapply deep_eq_trans; [exact He|]. apply deep_eq_frame; [by eapply deep_eq_valid|].
    intros l Hl. by apply H'', Hr.
Qed.

(** * Deciding that a generated function copies *)

#[export] Instance scalar_flat : Flat TScalar. Proof. done. Qed.
#[export] Instance struct_nil_flat : Flat (TStruct []). Proof. done. Qed.
#[export] Instance struct_cons_flat x t fields :
  Flat t → Flat (TStruct fields) → Flat (TStruct ((x, t) :: fields)).
Proof. unfold Flat. simpl. intros. by apply andb_prop_intro. Qed.
#[export] Existing Instances foreign_copies copies_pointer copies_slice copies_map_of.
#[export] Instance flat_copies t : Flat t → Copies t by_value.
Proof. apply copies_by_value. Qed.
#[export] Typeclasses Opaque by_value pointer slice map_of copying TStruct.
#[export] Hint Extern 0 (Flat (foreign _)) =>
  refine (foreign_flat _ _); by apply (bool_decide_unpack _) : typeclass_instances.

Ltac solve_flat := match goal with |- Flat ?T => unfold T; apply _ end.
Ltac solve_copies :=
  match goal with
  | |- Copies ?T ?c =>
      unfold T, c; apply copies_struct; [|by apply (bool_decide_unpack _)];
      repeat (apply statements_nil || (apply statements_copied; [apply _|]) ||
              (apply statements_kept; [apply is_flat|]))
  end.

Ltac solve_copying :=
  repeat (apply Forall_cons; split; [split; [apply _|done|intros ? E; (discriminate E || by injection E as <-)]|]);
  apply Forall_nil, I.

(** ** What a generated function promises *)

Lemma copying_spec G h v :
  Copying G → valid (TPtr (gen_type G)) h v →
  ∃ v' h', gen_copy G v h = (Ok v', h') ∧ deep_eq (TPtr (gen_type G)) h v h' v' ∧
    (∀ h'', (∀ l, ¬ reach (TPtr (gen_type G)) h' v' l → h'' !! l = h' !! l) →
            deep_eq (TPtr (gen_type G)) h v h'' v) ∧
    (∀ h'', (∀ l, h !! l = None → h'' !! l = h' !! l) →
            deep_eq (TPtr (gen_type G)) h v h'' v') ∧
    (∀ f, gen_object G = Some f →
          f v h = (Ok (match v with VRef None => None | _ => Some v' end), h')).
Proof.
  intros [Hi Hc Ho] Hv. destruct (copies_pointer _ _ Hi h v Hv) as (v'&h'&E&Hh&C).
  destruct (copied_independent _ _ _ _ _ Hv Hh C) as [HI1 HI2]. rewrite <- Hc in E.
  exists v', h'. split_and!; [done|apply C|done|done|].
  intros f ->%Ho. unfold object_of, mbind, se_bind. rewrite E.
  destruct C as [[[-> ->]|(?&?&?&?&->&->&_)] _]; done.
Qed.
