(* ===== verification/CopyCore.v ===== *)
(** The Go types of api/core/v1alpha1 (stacks, stack resources and cluster information)
    and the deep copies generated for them: one definition per function of
    zz_generated.deepcopy.go. *)
From S2P Require Import Prelude DeepCopy.

Section core_copies.
Context `{ForeignLaws}.

(** * Definitions *)

Definition ClusterInfoSpec_type : GoType := TStruct [("LoadBalancerNamespaces", TSlice TScalar)].
Definition ClusterInfoSpec_DeepCopyInto : Copier := copying [
    ("LoadBalancerNamespaces", slice by_value)].
Definition ClusterInfoSpec_DeepCopy : Copier := pointer ClusterInfoSpec_DeepCopyInto.

Definition NodeTopology_type : GoType := TStruct [("Zone", TScalar); ("Region", TScalar)].
Definition NodeTopology_DeepCopyInto : Copier := copying [].
Definition NodeTopology_DeepCopy : Copier := pointer NodeTopology_DeepCopyInto.

Definition NodeInfo_type : GoType := TStruct [("Name", TScalar); ("Ready", TScalar);
    ("AllocatableCPU", TScalar); ("AllocatableMemory", TScalar);
    ("AllocatableEphemeralDisk", TScalar); ("CapacityEphemeralDisk", TScalar);
    ("Topology", NodeTopology_type)].
Definition NodeInfo_DeepCopyInto : Copier := copying [("Topology", by_value)].
Definition NodeInfo_DeepCopy : Copier := pointer NodeInfo_DeepCopyInto.

Definition StorageClassInfo_type : GoType := TStruct [("Name", TScalar); ("Provisioner", TScalar);
    ("IsDefault", TScalar)].
Definition StorageClassInfo_DeepCopyInto : Copier := copying [].
Definition StorageClassInfo_DeepCopy : Copier := pointer StorageClassInfo_DeepCopyInto.

Definition LoadBalancerInfo_type : GoType := TStruct [("ServiceName", TScalar);
    ("ServiceNamespace", TScalar); ("IngressIPs", TSlice TScalar);
    ("IngressHostnames", TSlice TScalar); ("HasIP", TScalar)].
Definition LoadBalancerInfo_DeepCopyInto : Copier := copying [("IngressIPs", slice by_value);
    ("IngressHostnames", slice by_value)].
Definition LoadBalancerInfo_DeepCopy : Copier := pointer LoadBalancerInfo_DeepCopyInto.

Definition IngressClassInfo_type : GoType := TStruct [("Name", TScalar); ("Controller", TScalar);
    ("IsDefault", TScalar)].
Definition IngressClassInfo_DeepCopyInto : Copier := copying [].
Definition IngressClassInfo_DeepCopy : Copier := pointer IngressClassInfo_DeepCopyInto.

Definition ClusterInfoStatus_type : GoType := TStruct [("Phase", TScalar); ("StatusHash", TScalar);
    ("LastRefreshedAt", TPtr (foreign "metav1.Time")); ("KubernetesVersion", TScalar);
    ("TotalNodes", TScalar); ("ReadyNodes", TScalar); ("AvailabilityZones", TSlice TScalar);
    ("Nodes", TSlice NodeInfo_type); ("StorageClasses", TSlice StorageClassInfo_type);
    ("LoadBalancers", TSlice LoadBalancerInfo_type);
    ("IngressClasses", TSlice IngressClassInfo_type)].
Definition ClusterInfoStatus_DeepCopyInto : Copier := copying [
    ("LastRefreshedAt", pointer (foreign_copy "metav1.Time"));
    ("AvailabilityZones", slice by_value); ("Nodes", slice by_value);
    ("StorageClasses", slice by_value); ("LoadBalancers", slice LoadBalancerInfo_DeepCopyInto);
    ("IngressClasses", slice by_value)].
Definition ClusterInfoStatus_DeepCopy : Copier := pointer ClusterInfoStatus_DeepCopyInto.

Definition ClusterInfo_type : GoType := TStruct [("TypeMeta", foreign "metav1.TypeMeta");
    ("ObjectMeta", foreign "metav1.ObjectMeta"); ("Spec", ClusterInfoSpec_type);
    ("Status", ClusterInfoStatus_type)].
Definition ClusterInfo_DeepCopyInto : Copier := copying [("TypeMeta", by_value);
    ("ObjectMeta", foreign_copy "metav1.ObjectMeta"); ("Spec", ClusterInfoSpec_DeepCopyInto);
    ("Status", ClusterInfoStatus_DeepCopyInto)].
Definition ClusterInfo_DeepCopy : Copier := pointer ClusterInfo_DeepCopyInto.
Definition ClusterInfo_DeepCopyObject : GoVal → SE Heap (option GoVal) := object_of ClusterInfo_DeepCopy.

Definition ClusterInfoList_type : GoType := TStruct [("TypeMeta", foreign "metav1.TypeMeta");
    ("ListMeta", foreign "metav1.ListMeta"); ("Items", TSlice ClusterInfo_type)].
Definition ClusterInfoList_DeepCopyInto : Copier := copying [("TypeMeta", by_value);
    ("ListMeta", foreign_copy "metav1.ListMeta"); ("Items", slice ClusterInfo_DeepCopyInto)].
Definition ClusterInfoList_DeepCopy : Copier := pointer ClusterInfoList_DeepCopyInto.
Definition ClusterInfoList_DeepCopyObject : GoVal → SE Heap (option GoVal) := object_of ClusterInfoList_DeepCopy.

Definition CredentialSecretKeyPair_type : GoType := TStruct [
    ("SecretRef", foreign "corev1.SecretReference"); ("UsernameKey", TScalar);
    ("PasswordKey", TScalar)].
Definition CredentialSecretKeyPair_DeepCopyInto : Copier := copying [("SecretRef", by_value)].
Definition CredentialSecretKeyPair_DeepCopy : Copier := pointer CredentialSecretKeyPair_DeepCopyInto.

Definition CredentialSecret_type : GoType := TStruct [
    ("SecretRef", foreign "corev1.SecretReference"); ("Key", TScalar)].
Definition CredentialSecret_DeepCopyInto : Copier := copying [("SecretRef", by_value)].
Definition CredentialSecret_DeepCopy : Copier := pointer CredentialSecret_DeepCopyInto.

Definition UserNamePasswordSecret_type : GoType := TStruct [
    ("SecretRef", foreign "corev1.SecretReference")].
Definition UserNamePasswordSecret_DeepCopyInto : Copier := copying [("SecretRef", by_value)].
Definition UserNamePasswordSecret_DeepCopy : Copier := pointer UserNamePasswordSecret_DeepCopyInto.

Definition HTTPGetProbe_type : GoType := TStruct [("Path", TScalar); ("PortName", TScalar)].
Definition HTTPGetProbe_DeepCopyInto : Copier := copying [].
Definition HTTPGetProbe_DeepCopy : Copier := pointer HTTPGetProbe_DeepCopyInto.

Definition TCPSocketProbe_type : GoType := TStruct [("PortName", TScalar)].
Definition TCPSocketProbe_DeepCopyInto : Copier := copying [].
Definition TCPSocketProbe_DeepCopy : Copier := pointer TCPSocketProbe_DeepCopyInto.

Definition Probe_type : GoType := TStruct [("HTTPGet", TPtr HTTPGetProbe_type);
    ("TCPSocket", TPtr TCPSocketProbe_type); ("Command", TSlice TScalar);
    ("InitialDelaySeconds", TScalar); ("PeriodSeconds", TScalar); ("FailureThreshold", TScalar);
    ("TimeoutSeconds", TScalar)].
Definition Probe_DeepCopyInto : Copier := copying [("HTTPGet", pointer by_value);
    ("TCPSocket", pointer by_value); ("Command", slice by_value)].
Definition Probe_DeepCopy : Copier := pointer Probe_DeepCopyInto.

Definition HealthChecks_type : GoType := TStruct [("Readiness", TPtr Probe_type);
    ("Liveness", TPtr Probe_type); ("Startup", TPtr Probe_type)].
Definition HealthChecks_DeepCopyInto : Copier := copying [("Readiness", pointer Probe_DeepCopyInto);
    ("Liveness", pointer Probe_DeepCopyInto); ("Startup", pointer Probe_DeepCopyInto)].
Definition HealthChecks_DeepCopy : Copier := pointer HealthChecks_DeepCopyInto.

Definition EnvVarSource_type : GoType := TStruct [
    ("SecretKeyRef", foreign "corev1.SecretKeySelector")].
Definition EnvVarSource_DeepCopyInto : Copier := copying [
    ("SecretKeyRef", foreign_copy "corev1.SecretKeySelector")].
Definition EnvVarSource_DeepCopy : Copier := pointer EnvVarSource_DeepCopyInto.

Definition VolumeSource_type : GoType := TStruct [("Name", TScalar)].
Definition VolumeSource_DeepCopyInto : Copier := copying [].
Definition VolumeSource_DeepCopy : Copier := pointer VolumeSource_DeepCopyInto.

Definition GitAuth_type : GoType := TStruct [
    ("UsernamePasswordAuthRef", TPtr CredentialSecretKeyPair_type);
    ("PersonalAccessTokenRef", TPtr CredentialSecretKeyPair_type)].
Definition GitAuth_DeepCopyInto : Copier := copying [("UsernamePasswordAuthRef", pointer by_value);
    ("PersonalAccessTokenRef", pointer by_value)].
Definition GitAuth_DeepCopy : Copier := pointer GitAuth_DeepCopyInto.

Definition GitRepoSource_type : GoType := TStruct [("RepoUrl", TScalar);
    ("Auth", TPtr GitAuth_type)].
Definition GitRepoSource_DeepCopyInto : Copier := copying [("Auth", pointer GitAuth_DeepCopyInto)].
Definition GitRepoSource_DeepCopy : Copier := pointer GitRepoSource_DeepCopyInto.

Definition BuildContextSource_type : GoType := TStruct [("Volume", TPtr VolumeSource_type);
    ("Git", TPtr GitRepoSource_type)].
Definition BuildContextSource_DeepCopyInto : Copier := copying [("Volume", pointer by_value);
    ("Git", pointer GitRepoSource_DeepCopyInto)].
Definition BuildContextSource_DeepCopy : Copier := pointer BuildContextSource_DeepCopyInto.

Definition VolumeRevision_type : GoType := TStruct [("RevisionString", TScalar)].
Definition VolumeRevision_DeepCopyInto : Copier := copying [].
Definition VolumeRevision_DeepCopy : Copier := pointer VolumeRevision_DeepCopyInto.

Definition GitRepoRevision_type : GoType := TStruct [("Branch", TScalar); ("Tag", TScalar);
    ("Commit", TScalar)].
Definition GitRepoRevision_DeepCopyInto : Copier := copying [].
Definition GitRepoRevision_DeepCopy : Copier := pointer GitRepoRevision_DeepCopyInto.

Definition SourceRevisionSpec_type : GoType := TStruct [("Volume", TPtr VolumeRevision_type);
    ("GitRepo", TPtr GitRepoRevision_type)].
Definition SourceRevisionSpec_DeepCopyInto : Copier := copying [("Volume", pointer by_value);
    ("GitRepo", pointer by_value)].
Definition SourceRevisionSpec_DeepCopy : Copier := pointer SourceRevisionSpec_DeepCopyInto.

Definition RegistryTLSSpec_type : GoType := TStruct [("Insecure", TScalar)].
Definition RegistryTLSSpec_DeepCopyInto : Copier := copying [].
Definition RegistryTLSSpec_DeepCopy : Copier := pointer RegistryTLSSpec_DeepCopyInto.

Definition ExternalRegistrySpec_type : GoType := TStruct [("Host", TScalar);
    ("TLS", TPtr RegistryTLSSpec_type)].
Definition ExternalRegistrySpec_DeepCopyInto : Copier := copying [("TLS", pointer by_value)].
Definition ExternalRegistrySpec_DeepCopy : Copier := pointer ExternalRegistrySpec_DeepCopyInto.

Definition FixedTagPolicy_type : GoType := TStruct [("Tag", TScalar)].
Definition FixedTagPolicy_DeepCopyInto : Copier := copying [].
Definition FixedTagPolicy_DeepCopy : Copier := pointer FixedTagPolicy_DeepCopyInto.

Definition ImageTagPolicy_type : GoType := TStruct [("Fixed", TPtr FixedTagPolicy_type)].
Definition ImageTagPolicy_DeepCopyInto : Copier := copying [("Fixed", pointer by_value)].
Definition ImageTagPolicy_DeepCopy : Copier := pointer ImageTagPolicy_DeepCopyInto.

Definition DockerConfigAuth_type : GoType := TStruct [("SecretKey", TScalar);
    ("SecretRef", TPtr (foreign "corev1.SecretReference"))].
Definition DockerConfigAuth_DeepCopyInto : Copier := copying [("SecretRef", pointer by_value)].
Definition DockerConfigAuth_DeepCopy : Copier := pointer DockerConfigAuth_DeepCopyInto.

Definition BasicAuthCredentials_type : GoType := TStruct [
    ("SecretRef", foreign "corev1.SecretReference"); ("UsernameKey", TScalar);
    ("PasswordKey", TScalar)].
Definition BasicAuthCredentials_DeepCopyInto : Copier := copying [("SecretRef", by_value)].
Definition BasicAuthCredentials_DeepCopy : Copier := pointer BasicAuthCredentials_DeepCopyInto.

Definition RegistryCredentialsSpec_type : GoType := TStruct [
    ("DockerConfig", TPtr DockerConfigAuth_type); ("Basic", TPtr BasicAuthCredentials_type)].
Definition RegistryCredentialsSpec_DeepCopyInto : Copier := copying [
    ("DockerConfig", pointer DockerConfigAuth_DeepCopyInto); ("Basic", pointer by_value)].
Definition RegistryCredentialsSpec_DeepCopy : Copier := pointer RegistryCredentialsSpec_DeepCopyInto.

Definition ImageRepositorySpec_type : GoType := TStruct [
    ("ClusterRegistryRef", TPtr (foreign "corev1.LocalObjectReference"));
    ("External", TPtr ExternalRegistrySpec_type); ("Repository", TScalar);
    ("TagPolicy", TPtr ImageTagPolicy_type); ("Auth", TPtr RegistryCredentialsSpec_type)].
Definition ImageRepositorySpec_DeepCopyInto : Copier := copying [
    ("ClusterRegistryRef", pointer by_value);
    ("External", pointer ExternalRegistrySpec_DeepCopyInto);
    ("TagPolicy", pointer ImageTagPolicy_DeepCopyInto);
    ("Auth", pointer RegistryCredentialsSpec_DeepCopyInto)].
Definition ImageRepositorySpec_DeepCopy : Copier := pointer ImageRepositorySpec_DeepCopyInto.

Definition BuildArgValueSource_type : GoType := TStruct [
    ("SecretKeyRef", foreign "corev1.SecretKeySelector")].
Definition BuildArgValueSource_DeepCopyInto : Copier := copying [
    ("SecretKeyRef", foreign_copy "corev1.SecretKeySelector")].
Definition BuildArgValueSource_DeepCopy : Copier := pointer BuildArgValueSource_DeepCopyInto.

Definition BuildArg_type : GoType := TStruct [("Name", TScalar); ("Value", TScalar);
    ("ValueFrom", TPtr BuildArgValueSource_type)].
Definition BuildArg_DeepCopyInto : Copier := copying [
    ("ValueFrom", pointer BuildArgValueSource_DeepCopyInto)].
Definition BuildArg_DeepCopy : Copier := pointer BuildArg_DeepCopyInto.

Definition StackResourceBuildSpec_type : GoType := TStruct [
    ("SourceContext", BuildContextSource_type); ("BuildContext", TScalar);
    ("DockerFilePath", TScalar); ("SourceRevision", SourceRevisionSpec_type);
    ("Repository", ImageRepositorySpec_type); ("BuildArgs", TSlice BuildArg_type)].
Definition StackResourceBuildSpec_DeepCopyInto : Copier := copying [
    ("SourceContext", BuildContextSource_DeepCopyInto);
    ("SourceRevision", SourceRevisionSpec_DeepCopyInto);
    ("Repository", ImageRepositorySpec_DeepCopyInto); ("BuildArgs", slice BuildArg_DeepCopyInto)].
Definition StackResourceBuildSpec_DeepCopy : Copier := pointer StackResourceBuildSpec_DeepCopyInto.

Definition RegistryAuth_type : GoType := TStruct [("Type", TScalar);
    ("DockerConfigAuth", TPtr DockerConfigAuth_type)].
Definition RegistryAuth_DeepCopyInto : Copier := copying [
    ("DockerConfigAuth", pointer DockerConfigAuth_DeepCopyInto)].
Definition RegistryAuth_DeepCopy : Copier := pointer RegistryAuth_DeepCopyInto.

Definition ImageSpec_type : GoType := TStruct [("Image", TScalar);
    ("ImagePullPolicy", foreign "corev1.PullPolicy"); ("PullAuth", TPtr RegistryAuth_type)].
Definition ImageSpec_DeepCopyInto : Copier := copying [
    ("PullAuth", pointer RegistryAuth_DeepCopyInto)].
Definition ImageSpec_DeepCopy : Copier := pointer ImageSpec_DeepCopyInto.

Definition InitSpec_type : GoType := TStruct [("Command", TSlice TScalar); ("Args", TSlice TScalar);
    ("ImageSpec", TPtr ImageSpec_type)].
Definition InitSpec_DeepCopyInto : Copier := copying [("Command", slice by_value);
    ("Args", slice by_value); ("ImageSpec", pointer ImageSpec_DeepCopyInto)].
Definition InitSpec_DeepCopy : Copier := pointer InitSpec_DeepCopyInto.

Definition EnvironmentVariable_type : GoType := TStruct [("Name", TScalar); ("Value", TScalar);
    ("ValueFrom", TPtr EnvVarSource_type)].
Definition EnvironmentVariable_DeepCopyInto : Copier := copying [
    ("ValueFrom", pointer EnvVarSource_DeepCopyInto)].
Definition EnvironmentVariable_DeepCopy : Copier := pointer EnvironmentVariable_DeepCopyInto.

Definition VolumeMount_type : GoType := TStruct [("SourceVolume", TScalar);
    ("SourceSubPath", TScalar); ("Destination", TScalar); ("ReadOnly", TScalar)].
Definition VolumeMount_DeepCopyInto : Copier := copying [].
Definition VolumeMount_DeepCopy : Copier := pointer VolumeMount_DeepCopyInto.

Definition Port_type : GoType := TStruct [("Name", TScalar); ("Number", TScalar);
    ("Protocol", TScalar); ("ExposeToPublic", TScalar); ("FQDN", TScalar); ("TLS", TScalar);
    ("TLSSecretRef", TScalar)].
Definition Port_DeepCopyInto : Copier := copying [].
Definition Port_DeepCopy : Copier := pointer Port_DeepCopyInto.

Definition StackResourceSpec_type : GoType := TStruct [("WorkloadType", TScalar);
    ("Schedule", TScalar); ("Replicas", TPtr TScalar);
    ("BuildSpec", TPtr StackResourceBuildSpec_type); ("ImageSpec", TPtr ImageSpec_type);
    ("Init", TPtr InitSpec_type); ("Command", TSlice TScalar); ("Args", TSlice TScalar);
    ("EnvironmentVariables", TSlice EnvironmentVariable_type);
    ("VolumeMounts", TSlice VolumeMount_type); ("DependsOn", TSlice TScalar);
    ("Ports", TSlice Port_type); ("Resources", TPtr (foreign "corev1.ResourceRequirements"));
    ("HealthChecks", TPtr HealthChecks_type); ("PreDeployCommand", TSlice TScalar);
    ("TerminationGracePeriodSeconds", TPtr TScalar); ("HardenedSecurityDefaults", TPtr TScalar);
    ("RestartRequest", TPtr (foreign "metav1.Time"))].
Definition StackResourceSpec_DeepCopyInto : Copier := copying [("Replicas", pointer by_value);
    ("BuildSpec", pointer StackResourceBuildSpec_DeepCopyInto);
    ("ImageSpec", pointer ImageSpec_DeepCopyInto); ("Init", pointer InitSpec_DeepCopyInto);
    ("Command", slice by_value); ("Args", slice by_value);
    ("EnvironmentVariables", slice EnvironmentVariable_DeepCopyInto);
    ("VolumeMounts", slice by_value); ("DependsOn", slice by_value); ("Ports", slice by_value);
    ("Resources", pointer (foreign_copy "corev1.ResourceRequirements"));
    ("HealthChecks", pointer HealthChecks_DeepCopyInto); ("PreDeployCommand", slice by_value);
    ("TerminationGracePeriodSeconds", pointer by_value);
    ("HardenedSecurityDefaults", pointer by_value);
    ("RestartRequest", pointer (foreign_copy "metav1.Time"))].
Definition StackResourceSpec_DeepCopy : Copier := pointer StackResourceSpec_DeepCopyInto.

Definition ExternalAddress_type : GoType := TStruct [("TargetPort", TScalar); ("Address", TScalar)].
Definition ExternalAddress_DeepCopyInto : Copier := copying [].
Definition ExternalAddress_DeepCopy : Copier := pointer ExternalAddress_DeepCopyInto.

Definition BuildStatus_type : GoType := TStruct [("Name", TScalar); ("SourceRevision", TScalar);
    ("Available", TScalar); ("Reason", TScalar); ("Message", TScalar); ("Phase", TScalar)].
Definition BuildStatus_DeepCopyInto : Copier := copying [].
Definition BuildStatus_DeepCopy : Copier := pointer BuildStatus_DeepCopyInto.

Definition CertManagerTLSStatus_type : GoType := TStruct [
    ("WaitingSince", TPtr (foreign "metav1.Time"))].
Definition CertManagerTLSStatus_DeepCopyInto : Copier := copying [
    ("WaitingSince", pointer (foreign_copy "metav1.Time"))].
Definition CertManagerTLSStatus_DeepCopy : Copier := pointer CertManagerTLSStatus_DeepCopyInto.

Definition ReferencedTLSSecretStatus_type : GoType := TStruct [("Reference", TScalar);
    ("WaitingSince", TPtr (foreign "metav1.Time"))].
Definition ReferencedTLSSecretStatus_DeepCopyInto : Copier := copying [
    ("WaitingSince", pointer (foreign_copy "metav1.Time"))].
Definition ReferencedTLSSecretStatus_DeepCopy : Copier := pointer ReferencedTLSSecretStatus_DeepCopyInto.

Definition StackResourceConvergenceRecord_type : GoType := TStruct [("Revision", TScalar);
    ("At", foreign "metav1.Time")].
Definition StackResourceConvergenceRecord_DeepCopyInto : Copier := copying [
    ("At", foreign_copy "metav1.Time")].
Definition StackResourceConvergenceRecord_DeepCopy : Copier := pointer StackResourceConvergenceRecord_DeepCopyInto.

Definition LastFailureDetail_type : GoType := TStruct [("Type", TScalar); ("ReleaseID", TScalar);
    ("ContainerName", TScalar); ("RestartCount", TScalar); ("LastTerminationReason", TScalar);
    ("LastTerminationMessage", TScalar); ("LastTerminationExitCode", TPtr TScalar)].
Definition LastFailureDetail_DeepCopyInto : Copier := copying [
    ("LastTerminationExitCode", pointer by_value)].
Definition LastFailureDetail_DeepCopy : Copier := pointer LastFailureDetail_DeepCopyInto.

Definition PortCheckStatus_type : GoType := TStruct [("Revision", TScalar); ("Status", TScalar);
    ("FailingPortNumbers", TSlice TScalar); ("FailingSince", TPtr (foreign "metav1.Time"))].
Definition PortCheckStatus_DeepCopyInto : Copier := copying [("FailingPortNumbers", slice by_value);
    ("FailingSince", pointer (foreign_copy "metav1.Time"))].
Definition PortCheckStatus_DeepCopy : Copier := pointer PortCheckStatus_DeepCopyInto.

Definition StackResourceStatusSummary_type : GoType := TStruct [("State", TScalar);
    ("Reason", TScalar); ("Message", TScalar); ("ObservedGeneration", TScalar)].
Definition StackResourceStatusSummary_DeepCopyInto : Copier := copying [].
Definition StackResourceStatusSummary_DeepCopy : Copier := pointer StackResourceStatusSummary_DeepCopyInto.

Definition StackResourceStatus_type : GoType := TStruct [("ObservedGeneration", TScalar);
    ("ObservedRevision", TScalar); ("LastConverged", TPtr StackResourceConvergenceRecord_type);
    ("Conditions", TSlice (foreign "metav1.Condition")); ("Phase", TScalar);
    ("ImageSourceRevision", TScalar); ("ExternalAddress", TSlice ExternalAddress_type);
    ("InternalAddress", TPtr TScalar);
    ("LastRestartRequestProcessedAt", TPtr (foreign "metav1.Time"));
    ("CurrentBuild", TPtr BuildStatus_type); ("StatusHash", TScalar);
    ("LastFailureDetails", TSlice LastFailureDetail_type);
    ("LastFailureDeploymentRevision", TScalar); ("Replicas", TScalar);
    ("AvailableReplicas", TScalar); ("UpdatedReplicas", TScalar);
    ("LastRunTime", TPtr (foreign "metav1.Time")); ("LastRunSucceeded", TPtr TScalar);
    ("PortCheck", TPtr PortCheckStatus_type);
    ("ReferencedTLSSecret", TPtr ReferencedTLSSecretStatus_type);
    ("CertManagerTLS", TPtr CertManagerTLSStatus_type);
    ("Summary", TPtr StackResourceStatusSummary_type)].
Definition StackResourceStatus_DeepCopyInto : Copier := copying [
    ("LastConverged", pointer StackResourceConvergenceRecord_DeepCopyInto);
    ("Conditions", slice (foreign_copy "metav1.Condition")); ("ExternalAddress", slice by_value);
    ("InternalAddress", pointer by_value);
    ("LastRestartRequestProcessedAt", pointer (foreign_copy "metav1.Time"));
    ("CurrentBuild", pointer by_value);
    ("LastFailureDetails", slice LastFailureDetail_DeepCopyInto);
    ("LastRunTime", pointer (foreign_copy "metav1.Time")); ("LastRunSucceeded", pointer by_value);
    ("PortCheck", pointer PortCheckStatus_DeepCopyInto);
    ("ReferencedTLSSecret", pointer ReferencedTLSSecretStatus_DeepCopyInto);
    ("CertManagerTLS", pointer CertManagerTLSStatus_DeepCopyInto); ("Summary", pointer by_value)].
Definition StackResourceStatus_DeepCopy : Copier := pointer StackResourceStatus_DeepCopyInto.

Definition StackResource_type : GoType := TStruct [("TypeMeta", foreign "metav1.TypeMeta");
    ("ObjectMeta", foreign "metav1.ObjectMeta"); ("Spec", StackResourceSpec_type);
    ("Status", StackResourceStatus_type)].
Definition StackResource_DeepCopyInto : Copier := copying [("TypeMeta", by_value);
    ("ObjectMeta", foreign_copy "metav1.ObjectMeta"); ("Spec", StackResourceSpec_DeepCopyInto);
    ("Status", StackResourceStatus_DeepCopyInto)].
Definition StackResource_DeepCopy : Copier := pointer StackResource_DeepCopyInto.
Definition StackResource_DeepCopyObject : GoVal → SE Heap (option GoVal) := object_of StackResource_DeepCopy.

Definition StackResourceList_type : GoType := TStruct [("TypeMeta", foreign "metav1.TypeMeta");
    ("ListMeta", foreign "metav1.ListMeta"); ("Items", TSlice StackResource_type)].
Definition StackResourceList_DeepCopyInto : Copier := copying [("TypeMeta", by_value);
    ("ListMeta", foreign_copy "metav1.ListMeta"); ("Items", slice StackResource_DeepCopyInto)].
Definition StackResourceList_DeepCopy : Copier := pointer StackResourceList_DeepCopyInto.
Definition StackResourceList_DeepCopyObject : GoVal → SE Heap (option GoVal) := object_of StackResourceList_DeepCopy.

Definition StackSpec_type : GoType := TStruct [("ResourceNames", TSlice TScalar)].
Definition StackSpec_DeepCopyInto : Copier := copying [("ResourceNames", slice by_value)].
Definition StackSpec_DeepCopy : Copier := pointer StackSpec_DeepCopyInto.

Definition StackResourceSummary_type : GoType := TStruct [("Name", TScalar); ("Phase", TScalar);
    ("ObservedRevision", TScalar); ("ConvergedRevision", TScalar);
    ("LastConverged", TPtr StackResourceConvergenceRecord_type); ("AvailableReplicas", TScalar);
    ("UpdatedReplicas", TScalar); ("Replicas", TScalar); ("Missing", TScalar);
    ("Message", TScalar)].
Definition StackResourceSummary_DeepCopyInto : Copier := copying [
    ("LastConverged", pointer StackResourceConvergenceRecord_DeepCopyInto)].
Definition StackResourceSummary_DeepCopy : Copier := pointer StackResourceSummary_DeepCopyInto.

Definition ConvergenceRecord_type : GoType := TStruct [("Revision", TScalar);
    ("ReleaseID", TScalar); ("At", foreign "metav1.Time")].
Definition ConvergenceRecord_DeepCopyInto : Copier := copying [("At", foreign_copy "metav1.Time")].
Definition ConvergenceRecord_DeepCopy : Copier := pointer ConvergenceRecord_DeepCopyInto.

Definition StackStatus_type : GoType := TStruct [("ObservedGeneration", TScalar);
    ("TargetRevision", TScalar); ("LastConverged", TPtr ConvergenceRecord_type); ("Phase", TScalar);
    ("Conditions", TSlice (foreign "metav1.Condition"));
    ("Resources", TSlice StackResourceSummary_type); ("OrphanedResources", TSlice TScalar);
    ("StatusHash", TScalar)].
Definition StackStatus_DeepCopyInto : Copier := copying [
    ("LastConverged", pointer ConvergenceRecord_DeepCopyInto);
    ("Conditions", slice (foreign_copy "metav1.Condition"));
    ("Resources", slice StackResourceSummary_DeepCopyInto); ("OrphanedResources", slice by_value)].
Definition StackStatus_DeepCopy : Copier := pointer StackStatus_DeepCopyInto.

Definition Stack_type : GoType := TStruct [("TypeMeta", foreign "metav1.TypeMeta");
    ("ObjectMeta", foreign "metav1.ObjectMeta"); ("Spec", StackSpec_type);
    ("Status", StackStatus_type)].
Definition Stack_DeepCopyInto : Copier := copying [("TypeMeta", by_value);
    ("ObjectMeta", foreign_copy "metav1.ObjectMeta"); ("Spec", StackSpec_DeepCopyInto);
    ("Status", StackStatus_DeepCopyInto)].
Definition Stack_DeepCopy : Copier := pointer Stack_DeepCopyInto.
Definition Stack_DeepCopyObject : GoVal → SE Heap (option GoVal) := object_of Stack_DeepCopy.

Definition StackList_type : GoType := TStruct [("TypeMeta", foreign "metav1.TypeMeta");
    ("ListMeta", foreign "metav1.ListMeta"); ("Items", TSlice Stack_type)].
Definition StackList_DeepCopyInto : Copier := copying [("TypeMeta", by_value);
    ("ListMeta", foreign_copy "metav1.ListMeta"); ("Items", slice Stack_DeepCopyInto)].
Definition StackList_DeepCopy : Copier := pointer StackList_DeepCopyInto.
Definition StackList_DeepCopyObject : GoVal → SE Heap (option GoVal) := object_of StackList_DeepCopy.

(** All of the package. *)
Definition core_types : list GeneratedCopy :=
  [Generated ClusterInfoSpec_type ClusterInfoSpec_DeepCopyInto ClusterInfoSpec_DeepCopy None;
   Generated NodeTopology_type NodeTopology_DeepCopyInto NodeTopology_DeepCopy None;
   Generated NodeInfo_type NodeInfo_DeepCopyInto NodeInfo_DeepCopy None;
   Generated StorageClassInfo_type StorageClassInfo_DeepCopyInto StorageClassInfo_DeepCopy None;
   Generated LoadBalancerInfo_type LoadBalancerInfo_DeepCopyInto LoadBalancerInfo_DeepCopy None;
   Generated IngressClassInfo_type IngressClassInfo_DeepCopyInto IngressClassInfo_DeepCopy None;
   Generated ClusterInfoStatus_type ClusterInfoStatus_DeepCopyInto ClusterInfoStatus_DeepCopy None;
   Generated ClusterInfo_type ClusterInfo_DeepCopyInto ClusterInfo_DeepCopy (Some ClusterInfo_DeepCopyObject);
   Generated ClusterInfoList_type ClusterInfoList_DeepCopyInto ClusterInfoList_DeepCopy (Some ClusterInfoList_DeepCopyObject);
   Generated CredentialSecretKeyPair_type CredentialSecretKeyPair_DeepCopyInto CredentialSecretKeyPair_DeepCopy None;
   Generated CredentialSecret_type CredentialSecret_DeepCopyInto CredentialSecret_DeepCopy None;
   Generated UserNamePasswordSecret_type UserNamePasswordSecret_DeepCopyInto UserNamePasswordSecret_DeepCopy None;
   Generated HTTPGetProbe_type HTTPGetProbe_DeepCopyInto HTTPGetProbe_DeepCopy None;
   Generated TCPSocketProbe_type TCPSocketProbe_DeepCopyInto TCPSocketProbe_DeepCopy None;
   Generated Probe_type Probe_DeepCopyInto Probe_DeepCopy None;
   Generated HealthChecks_type HealthChecks_DeepCopyInto HealthChecks_DeepCopy None;
   Generated EnvVarSource_type EnvVarSource_DeepCopyInto EnvVarSource_DeepCopy None;
   Generated VolumeSource_type VolumeSource_DeepCopyInto VolumeSource_DeepCopy None;
   Generated GitAuth_type GitAuth_DeepCopyInto GitAuth_DeepCopy None;
   Generated GitRepoSource_type GitRepoSource_DeepCopyInto GitRepoSource_DeepCopy None;
   Generated BuildContextSource_type BuildContextSource_DeepCopyInto BuildContextSource_DeepCopy None;
   Generated VolumeRevision_type VolumeRevision_DeepCopyInto VolumeRevision_DeepCopy None;
   Generated GitRepoRevision_type GitRepoRevision_DeepCopyInto GitRepoRevision_DeepCopy None;
   Generated SourceRevisionSpec_type SourceRevisionSpec_DeepCopyInto SourceRevisionSpec_DeepCopy None;
   Generated RegistryTLSSpec_type RegistryTLSSpec_DeepCopyInto RegistryTLSSpec_DeepCopy None;
   Generated ExternalRegistrySpec_type ExternalRegistrySpec_DeepCopyInto ExternalRegistrySpec_DeepCopy None;
   Generated FixedTagPolicy_type FixedTagPolicy_DeepCopyInto FixedTagPolicy_DeepCopy None;
   Generated ImageTagPolicy_type ImageTagPolicy_DeepCopyInto ImageTagPolicy_DeepCopy None;
   Generated DockerConfigAuth_type DockerConfigAuth_DeepCopyInto DockerConfigAuth_DeepCopy None;
   Generated BasicAuthCredentials_type BasicAuthCredentials_DeepCopyInto BasicAuthCredentials_DeepCopy None;
   Generated RegistryCredentialsSpec_type RegistryCredentialsSpec_DeepCopyInto RegistryCredentialsSpec_DeepCopy None;
   Generated ImageRepositorySpec_type ImageRepositorySpec_DeepCopyInto ImageRepositorySpec_DeepCopy None;
   Generated BuildArgValueSource_type BuildArgValueSource_DeepCopyInto BuildArgValueSource_DeepCopy None;
   Generated BuildArg_type BuildArg_DeepCopyInto BuildArg_DeepCopy None;
   Generated StackResourceBuildSpec_type StackResourceBuildSpec_DeepCopyInto StackResourceBuildSpec_DeepCopy None;
   Generated RegistryAuth_type RegistryAuth_DeepCopyInto RegistryAuth_DeepCopy None;
   Generated ImageSpec_type ImageSpec_DeepCopyInto ImageSpec_DeepCopy None;
   Generated InitSpec_type InitSpec_DeepCopyInto InitSpec_DeepCopy None;
   Generated EnvironmentVariable_type EnvironmentVariable_DeepCopyInto EnvironmentVariable_DeepCopy None;
   Generated VolumeMount_type VolumeMount_DeepCopyInto VolumeMount_DeepCopy None;
   Generated Port_type Port_DeepCopyInto Port_DeepCopy None;
   Generated StackResourceSpec_type StackResourceSpec_DeepCopyInto StackResourceSpec_DeepCopy None;
   Generated ExternalAddress_type ExternalAddress_DeepCopyInto ExternalAddress_DeepCopy None;
   Generated BuildStatus_type BuildStatus_DeepCopyInto BuildStatus_DeepCopy None;
   Generated CertManagerTLSStatus_type CertManagerTLSStatus_DeepCopyInto CertManagerTLSStatus_DeepCopy None;
   Generated ReferencedTLSSecretStatus_type ReferencedTLSSecretStatus_DeepCopyInto ReferencedTLSSecretStatus_DeepCopy None;
   Generated StackResourceConvergenceRecord_type StackResourceConvergenceRecord_DeepCopyInto StackResourceConvergenceRecord_DeepCopy None;
   Generated LastFailureDetail_type LastFailureDetail_DeepCopyInto LastFailureDetail_DeepCopy None;
   Generated PortCheckStatus_type PortCheckStatus_DeepCopyInto PortCheckStatus_DeepCopy None;
   Generated StackResourceStatusSummary_type StackResourceStatusSummary_DeepCopyInto StackResourceStatusSummary_DeepCopy None;
   Generated StackResourceStatus_type StackResourceStatus_DeepCopyInto StackResourceStatus_DeepCopy None;
   Generated StackResource_type StackResource_DeepCopyInto StackResource_DeepCopy (Some StackResource_DeepCopyObject);
   Generated StackResourceList_type StackResourceList_DeepCopyInto StackResourceList_DeepCopy (Some StackResourceList_DeepCopyObject);
   Generated StackSpec_type StackSpec_DeepCopyInto StackSpec_DeepCopy None;
   Generated StackResourceSummary_type StackResourceSummary_DeepCopyInto StackResourceSummary_DeepCopy None;
   Generated ConvergenceRecord_type ConvergenceRecord_DeepCopyInto ConvergenceRecord_DeepCopy None;
   Generated StackStatus_type StackStatus_DeepCopyInto StackStatus_DeepCopy None;
   Generated Stack_type Stack_DeepCopyInto Stack_DeepCopy (Some Stack_DeepCopyObject);
   Generated StackList_type StackList_DeepCopyInto StackList_DeepCopy (Some StackList_DeepCopyObject)].

(** * They copy *)

#[export] Instance ClusterInfoSpec_copies : Copies ClusterInfoSpec_type ClusterInfoSpec_DeepCopyInto. Proof. solve_copies. Qed.
#[export] Instance NodeTopology_flat : Flat NodeTopology_type. Proof. solve_flat. Qed.
#[export] Instance NodeTopology_copies : Copies NodeTopology_type NodeTopology_DeepCopyInto. Proof. solve_copies. Qed.
#[export] Instance NodeInfo_flat : Flat NodeInfo_type. Proof. solve_flat. Qed.
#[export] Instance NodeInfo_copies : Copies NodeInfo_type NodeInfo_DeepCopyInto. Proof. solve_copies. Qed.
#[export] Instance StorageClassInfo_flat : Flat StorageClassInfo_type. Proof. solve_flat. Qed.
#[export] Instance StorageClassInfo_copies : Copies StorageClassInfo_type StorageClassInfo_DeepCopyInto. Proof. solve_copies. Qed.
#[export] Instance LoadBalancerInfo_copies : Copies LoadBalancerInfo_type LoadBalancerInfo_DeepCopyInto. Proof. solve_copies. Qed.
#[export] Instance IngressClassInfo_flat : Flat IngressClassInfo_type. Proof. solve_flat. Qed.
#[export] Instance IngressClassInfo_copies : Copies IngressClassInfo_type IngressClassInfo_DeepCopyInto. Proof. solve_copies. Qed.
#[export] Instance ClusterInfoStatus_copies : Copies ClusterInfoStatus_type ClusterInfoStatus_DeepCopyInto. Proof. solve_copies. Qed.
#[export] Instance ClusterInfo_copies : Copies ClusterInfo_type ClusterInfo_DeepCopyInto. Proof. solve_copies. Qed.
#[export] Instance ClusterInfoList_copies : Copies ClusterInfoList_type ClusterInfoList_DeepCopyInto. Proof. solve_copies. Qed.
#[export] Instance CredentialSecretKeyPair_flat : Flat CredentialSecretKeyPair_type. Proof. solve_flat. Qed.
#[export] Instance CredentialSecretKeyPair_copies : Copies CredentialSecretKeyPair_type CredentialSecretKeyPair_DeepCopyInto. Proof. solve_copies. Qed.
#[export] Instance CredentialSecret_flat : Flat CredentialSecret_type. Proof. solve_flat. Qed.
#[export] Instance CredentialSecret_copies : Copies CredentialSecret_type CredentialSecret_DeepCopyInto. Proof. solve_copies. Qed.
#[export] Instance UserNamePasswordSecret_flat : Flat UserNamePasswordSecret_type. Proof. solve_flat. Qed.
#[export] Instance UserNamePasswordSecret_copies : Copies UserNamePasswordSecret_type UserNamePasswordSecret_DeepCopyInto. Proof. solve_copies. Qed.
#[export] Instance HTTPGetProbe_flat : Flat HTTPGetProbe_type. Proof. solve_flat. Qed.
#[export] Instance HTTPGetProbe_copies : Copies HTTPGetProbe_type HTTPGetProbe_DeepCopyInto. Proof. solve_copies. Qed.
#[export] Instance TCPSocketProbe_flat : Flat TCPSocketProbe_type. Proof. solve_flat. Qed.
#[export] Instance TCPSocketProbe_copies : Copies TCPSocketProbe_type TCPSocketProbe_DeepCopyInto. Proof. solve_copies. Qed.
#[export] Instance Probe_copies : Copies Probe_type Probe_DeepCopyInto. Proof. solve_copies. Qed.
#[export] Instance HealthChecks_copies : Copies HealthChecks_type HealthChecks_DeepCopyInto. Proof. solve_copies. Qed.
#[export] Instance EnvVarSource_copies : Copies EnvVarSource_type EnvVarSource_DeepCopyInto. Proof. solve_copies. Qed.
#[export] Instance VolumeSource_flat : Flat VolumeSource_type. Proof. solve_flat. Qed.
#[export] Instance VolumeSource_copies : Copies VolumeSource_type VolumeSource_DeepCopyInto. Proof. solve_copies. Qed.
#[export] Instance GitAuth_copies : Copies GitAuth_type GitAuth_DeepCopyInto. Proof. solve_copies. Qed.
#[export] Instance GitRepoSource_copies : Copies GitRepoSource_type GitRepoSource_DeepCopyInto. Proof. solve_copies. Qed.
#[export] Instance BuildContextSource_copies : Copies BuildContextSource_type BuildContextSource_DeepCopyInto. Proof. solve_copies. Qed.
#[export] Instance VolumeRevision_flat : Flat VolumeRevision_type. Proof. solve_flat. Qed.
#[export] Instance VolumeRevision_copies : Copies VolumeRevision_type VolumeRevision_DeepCopyInto. Proof. solve_copies. Qed.
#[export] Instance GitRepoRevision_flat : Flat GitRepoRevision_type. Proof. solve_flat. Qed.
#[export] Instance GitRepoRevision_copies : Copies GitRepoRevision_type GitRepoRevision_DeepCopyInto. Proof. solve_copies. Qed.
#[export] Instance SourceRevisionSpec_copies : Copies SourceRevisionSpec_type SourceRevisionSpec_DeepCopyInto. Proof. solve_copies. Qed.
#[export] Instance RegistryTLSSpec_flat : Flat RegistryTLSSpec_type. Proof. solve_flat. Qed.
#[export] Instance RegistryTLSSpec_copies : Copies RegistryTLSSpec_type RegistryTLSSpec_DeepCopyInto. Proof. solve_copies. Qed.
#[export] Instance ExternalRegistrySpec_copies : Copies ExternalRegistrySpec_type ExternalRegistrySpec_DeepCopyInto. Proof. solve_copies. Qed.
#[export] Instance FixedTagPolicy_flat : Flat FixedTagPolicy_type. Proof. solve_flat. Qed.
#[export] Instance FixedTagPolicy_copies : Copies FixedTagPolicy_type FixedTagPolicy_DeepCopyInto. Proof. solve_copies. Qed.
#[export] Instance ImageTagPolicy_copies : Copies ImageTagPolicy_type ImageTagPolicy_DeepCopyInto. Proof. solve_copies. Qed.
#[export] Instance DockerConfigAuth_copies : Copies DockerConfigAuth_type DockerConfigAuth_DeepCopyInto. Proof. solve_copies. Qed.
#[export] Instance BasicAuthCredentials_flat : Flat BasicAuthCredentials_type. Proof. solve_flat. Qed.
#[export] Instance BasicAuthCredentials_copies : Copies BasicAuthCredentials_type BasicAuthCredentials_DeepCopyInto. Proof. solve_copies. Qed.
#[export] Instance RegistryCredentialsSpec_copies : Copies RegistryCredentialsSpec_type RegistryCredentialsSpec_DeepCopyInto. Proof. solve_copies. Qed.
#[export] Instance ImageRepositorySpec_copies : Copies ImageRepositorySpec_type ImageRepositorySpec_DeepCopyInto. Proof. solve_copies. Qed.
#[export] Instance BuildArgValueSource_copies : Copies BuildArgValueSource_type BuildArgValueSource_DeepCopyInto. Proof. solve_copies. Qed.
#[export] Instance BuildArg_copies : Copies BuildArg_type BuildArg_DeepCopyInto. Proof. solve_copies. Qed.
#[export] Instance StackResourceBuildSpec_copies : Copies StackResourceBuildSpec_type StackResourceBuildSpec_DeepCopyInto. Proof. solve_copies. Qed.
#[export] Instance RegistryAuth_copies : Copies RegistryAuth_type RegistryAuth_DeepCopyInto. Proof. solve_copies. Qed.
#[export] Instance ImageSpec_copies : Copies ImageSpec_type ImageSpec_DeepCopyInto. Proof. solve_copies. Qed.
#[export] Instance InitSpec_copies : Copies InitSpec_type InitSpec_DeepCopyInto. Proof. solve_copies. Qed.
#[export] Instance EnvironmentVariable_copies : Copies EnvironmentVariable_type EnvironmentVariable_DeepCopyInto. Proof. solve_copies. Qed.
#[export] Instance VolumeMount_flat : Flat VolumeMount_type. Proof. solve_flat. Qed.
#[export] Instance VolumeMount_copies : Copies VolumeMount_type VolumeMount_DeepCopyInto. Proof. solve_copies. Qed.
#[export] Instance Port_flat : Flat Port_type. Proof. solve_flat. Qed.
#[export] Instance Port_copies : Copies Port_type Port_DeepCopyInto. Proof. solve_copies. Qed.
#[export] Instance StackResourceSpec_copies : Copies StackResourceSpec_type StackResourceSpec_DeepCopyInto. Proof. solve_copies. Qed.
#[export] Instance ExternalAddress_flat : Flat ExternalAddress_type. Proof. solve_flat. Qed.
#[export] Instance ExternalAddress_copies : Copies ExternalAddress_type ExternalAddress_DeepCopyInto. Proof. solve_copies. Qed.
#[export] Instance BuildStatus_flat : Flat BuildStatus_type. Proof. solve_flat. Qed.
#[export] Instance BuildStatus_copies : Copies BuildStatus_type BuildStatus_DeepCopyInto. Proof. solve_copies. Qed.
#[export] Instance CertManagerTLSStatus_copies : Copies CertManagerTLSStatus_type CertManagerTLSStatus_DeepCopyInto. Proof. solve_copies. Qed.
#[export] Instance ReferencedTLSSecretStatus_copies : Copies ReferencedTLSSecretStatus_type ReferencedTLSSecretStatus_DeepCopyInto. Proof. solve_copies. Qed.
#[export] Instance StackResourceConvergenceRecord_copies : Copies StackResourceConvergenceRecord_type StackResourceConvergenceRecord_DeepCopyInto. Proof. solve_copies. Qed.
#[export] Instance LastFailureDetail_copies : Copies LastFailureDetail_type LastFailureDetail_DeepCopyInto. Proof. solve_copies. Qed.
#[export] Instance PortCheckStatus_copies : Copies PortCheckStatus_type PortCheckStatus_DeepCopyInto. Proof. solve_copies. Qed.
#[export] Instance StackResourceStatusSummary_flat : Flat StackResourceStatusSummary_type. Proof. solve_flat. Qed.
#[export] Instance StackResourceStatusSummary_copies : Copies StackResourceStatusSummary_type StackResourceStatusSummary_DeepCopyInto. Proof. solve_copies. Qed.
#[export] Instance StackResourceStatus_copies : Copies StackResourceStatus_type StackResourceStatus_DeepCopyInto. Proof. solve_copies. Qed.
#[export] Instance StackResource_copies : Copies StackResource_type StackResource_DeepCopyInto. Proof. solve_copies. Qed.
#[export] Instance StackResourceList_copies : Copies StackResourceList_type StackResourceList_DeepCopyInto. Proof. solve_copies. Qed.
#[export] Instance StackSpec_copies : Copies StackSpec_type StackSpec_DeepCopyInto. Proof. solve_copies. Qed.
#[export] Instance StackResourceSummary_copies : Copies StackResourceSummary_type StackResourceSummary_DeepCopyInto. Proof. solve_copies. Qed.
#[export] Instance ConvergenceRecord_copies : Copies ConvergenceRecord_type ConvergenceRecord_DeepCopyInto. Proof. solve_copies. Qed.
#[export] Instance StackStatus_copies : Copies StackStatus_type StackStatus_DeepCopyInto. Proof. solve_copies. Qed.
#[export] Instance Stack_copies : Copies Stack_type Stack_DeepCopyInto. Proof. solve_copies. Qed.
#[export] Instance StackList_copies : Copies StackList_type StackList_DeepCopyInto. Proof. solve_copies. Qed.

Lemma core_types_copy : Forall Copying core_types.
Proof. solve_copying. Qed.
End core_copies.
