(* ===== verification/CopyAddons.v ===== *)
(** The Go types of api/addons/v1alpha1 (PostgreSQL clusters)
    and the deep copies generated for them: one definition per function of
    zz_generated.deepcopy.go. *)
From S2P Require Import Prelude DeepCopy CopyCore.

Section addons_copies.
Context `{ForeignLaws}.

(** * Definitions *)

Definition ReplicasSpec_type : GoType := TStruct [("NumSynchronousReplicas", TScalar);
    ("SynchronousReplicaDataDurability", foreign "cnpgv1.DataDurabilityLevel")].
Definition ReplicasSpec_DeepCopyInto : Copier := copying [].
Definition ReplicasSpec_DeepCopy : Copier := pointer ReplicasSpec_DeepCopyInto.

Definition ImageCatalogRef_type : GoType := TStruct [("Name", TScalar)].
Definition ImageCatalogRef_DeepCopyInto : Copier := copying [].
Definition ImageCatalogRef_DeepCopy : Copier := pointer ImageCatalogRef_DeepCopyInto.

Definition PostgreSQLSpec_type : GoType := TStruct [("ImageCatalogRef", TPtr ImageCatalogRef_type);
    ("PostgreSQLMajorVersion", TScalar); ("PostgreSQLMinorVersion", TScalar);
    ("EnableMinorVersionUpgrades", TScalar); ("EnableMajorVersionUpgrades", TScalar);
    ("PostgresConf", TMap TScalar)].
Definition PostgreSQLSpec_DeepCopyInto : Copier := copying [("ImageCatalogRef", pointer by_value);
    ("PostgresConf", map_of by_value)].
Definition PostgreSQLSpec_DeepCopy : Copier := pointer PostgreSQLSpec_DeepCopyInto.

Definition ExternalClusterSpec_type : GoType := TStruct [("Name", TScalar); ("Host", TScalar);
    ("User", TScalar); ("Port", TScalar); ("DbName", TScalar); ("SslMode", TScalar);
    ("Password", CopyCore.CredentialSecret_type)].
Definition ExternalClusterSpec_DeepCopyInto : Copier := copying [("Password", by_value)].
Definition ExternalClusterSpec_DeepCopy : Copier := pointer ExternalClusterSpec_DeepCopyInto.

Definition ImportSpec_type : GoType := TStruct [("Databases", TSlice TScalar);
    ("SourceClusterSpec", TPtr ExternalClusterSpec_type)].
Definition ImportSpec_DeepCopyInto : Copier := copying [("Databases", slice by_value);
    ("SourceClusterSpec", pointer by_value)].
Definition ImportSpec_DeepCopy : Copier := pointer ImportSpec_DeepCopyInto.

Definition InitDbSpec_type : GoType := TStruct [("Import", TPtr ImportSpec_type)].
Definition InitDbSpec_DeepCopyInto : Copier := copying [
    ("Import", pointer ImportSpec_DeepCopyInto)].
Definition InitDbSpec_DeepCopy : Copier := pointer InitDbSpec_DeepCopyInto.

Definition RecoveryTargetSpec_type : GoType := TStruct [("RecoveryTargetTime", TScalar)].
Definition RecoveryTargetSpec_DeepCopyInto : Copier := copying [].
Definition RecoveryTargetSpec_DeepCopy : Copier := pointer RecoveryTargetSpec_DeepCopyInto.

Definition RecoveryFromObjectStoreSpec_type : GoType := TStruct [("ObjectStoreName", TScalar);
    ("SourceClusterName", TScalar); ("RecoveryTarget", TPtr RecoveryTargetSpec_type)].
Definition RecoveryFromObjectStoreSpec_DeepCopyInto : Copier := copying [
    ("RecoveryTarget", pointer by_value)].
Definition RecoveryFromObjectStoreSpec_DeepCopy : Copier := pointer RecoveryFromObjectStoreSpec_DeepCopyInto.

Definition BackupSpec_type : GoType := TStruct [("BackupName", TScalar)].
Definition BackupSpec_DeepCopyInto : Copier := copying [].
Definition BackupSpec_DeepCopy : Copier := pointer BackupSpec_DeepCopyInto.

Definition RecoverySpec_type : GoType := TStruct [
    ("ObjectStoreSpec", TPtr RecoveryFromObjectStoreSpec_type);
    ("BackupSpec", TPtr BackupSpec_type)].
Definition RecoverySpec_DeepCopyInto : Copier := copying [
    ("ObjectStoreSpec", pointer RecoveryFromObjectStoreSpec_DeepCopyInto);
    ("BackupSpec", pointer by_value)].
Definition RecoverySpec_DeepCopy : Copier := pointer RecoverySpec_DeepCopyInto.

Definition BootstrapSpec_type : GoType := TStruct [("InitDbSpec", TPtr InitDbSpec_type);
    ("RecoverySpec", TPtr RecoverySpec_type)].
Definition BootstrapSpec_DeepCopyInto : Copier := copying [
    ("InitDbSpec", pointer InitDbSpec_DeepCopyInto);
    ("RecoverySpec", pointer RecoverySpec_DeepCopyInto)].
Definition BootstrapSpec_DeepCopy : Copier := pointer BootstrapSpec_DeepCopyInto.

Definition StorageSpec_type : GoType := TStruct [("StorageClassName", TScalar); ("Size", TScalar)].
Definition StorageSpec_DeepCopyInto : Copier := copying [].
Definition StorageSpec_DeepCopy : Copier := pointer StorageSpec_DeepCopyInto.

Definition InstancePlacementSpec_type : GoType := TStruct [("TopologyKey", TScalar);
    ("PlacementPolicy", TScalar); ("Tolerations", TSlice (foreign "corev1.Toleration"));
    ("NodeSelector", TMap TScalar)].
Definition InstancePlacementSpec_DeepCopyInto : Copier := copying [
    ("Tolerations", slice (foreign_copy "corev1.Toleration")); ("NodeSelector", map_of by_value)].
Definition InstancePlacementSpec_DeepCopy : Copier := pointer InstancePlacementSpec_DeepCopyInto.

Definition ScheduledBaseBackupSpec_type : GoType := TStruct [("Schedule", TScalar);
    ("Enabled", TScalar)].
Definition ScheduledBaseBackupSpec_DeepCopyInto : Copier := copying [].
Definition ScheduledBaseBackupSpec_DeepCopy : Copier := pointer ScheduledBaseBackupSpec_DeepCopyInto.

Definition ClusterBackupSpec_type : GoType := TStruct [("WalArchivingEnabled", TScalar);
    ("ObjectStoreName", TScalar); ("ScheduledBaseBackupSpec", TPtr ScheduledBaseBackupSpec_type);
    ("LastBaseBackupRequestedAt", TPtr (foreign "metav1.Time"))].
Definition ClusterBackupSpec_DeepCopyInto : Copier := copying [
    ("ScheduledBaseBackupSpec", pointer by_value);
    ("LastBaseBackupRequestedAt", pointer (foreign_copy "metav1.Time"))].
Definition ClusterBackupSpec_DeepCopy : Copier := pointer ClusterBackupSpec_DeepCopyInto.

Definition FencingSpec_type : GoType := TStruct [("FenceCluster", TScalar)].
Definition FencingSpec_DeepCopyInto : Copier := copying [].
Definition FencingSpec_DeepCopy : Copier := pointer FencingSpec_DeepCopyInto.

Definition ExtensionSpec_type : GoType := TStruct [("Name", TScalar)].
Definition ExtensionSpec_DeepCopyInto : Copier := copying [].
Definition ExtensionSpec_DeepCopy : Copier := pointer ExtensionSpec_DeepCopyInto.

Definition DatabaseSpec_type : GoType := TStruct [("Name", TScalar);
    ("Extensions", TSlice ExtensionSpec_type)].
Definition DatabaseSpec_DeepCopyInto : Copier := copying [("Extensions", slice by_value)].
Definition DatabaseSpec_DeepCopy : Copier := pointer DatabaseSpec_DeepCopyInto.

Definition PostgresClusterSpec_type : GoType := TStruct [("Instances", TScalar);
    ("ReplicasSpec", TPtr ReplicasSpec_type); ("PostgreSQLSpec", TPtr PostgreSQLSpec_type);
    ("BootstrapSpec", TPtr BootstrapSpec_type); ("EnableSuperuserAccess", TScalar);
    ("StorageSpec", TPtr StorageSpec_type); ("ResourceSpec", foreign "corev1.ResourceRequirements");
    ("InstancePlacementSpec", TPtr InstancePlacementSpec_type);
    ("ClusterBackupSpec", TPtr ClusterBackupSpec_type); ("HibernationEnabled", TScalar);
    ("FencingSpec", TPtr FencingSpec_type); ("Databases", TSlice DatabaseSpec_type)].
Definition PostgresClusterSpec_DeepCopyInto : Copier := copying [
    ("ReplicasSpec", pointer ReplicasSpec_DeepCopyInto);
    ("PostgreSQLSpec", pointer PostgreSQLSpec_DeepCopyInto);
    ("BootstrapSpec", pointer BootstrapSpec_DeepCopyInto); ("StorageSpec", pointer by_value);
    ("ResourceSpec", foreign_copy "corev1.ResourceRequirements");
    ("InstancePlacementSpec", pointer InstancePlacementSpec_DeepCopyInto);
    ("ClusterBackupSpec", pointer ClusterBackupSpec_DeepCopyInto);
    ("FencingSpec", pointer by_value); ("Databases", slice DatabaseSpec_DeepCopyInto)].
Definition PostgresClusterSpec_DeepCopy : Copier := pointer PostgresClusterSpec_DeepCopyInto.

Definition ClusterConnectionInfo_type : GoType := TStruct [("Host", TScalar); ("Port", TScalar);
    ("SSLMode", TScalar)].
Definition ClusterConnectionInfo_DeepCopyInto : Copier := copying [].
Definition ClusterConnectionInfo_DeepCopy : Copier := pointer ClusterConnectionInfo_DeepCopyInto.

Definition DatabaseInfo_type : GoType := TStruct [("Name", TScalar); ("Owner", TScalar)].
Definition DatabaseInfo_DeepCopyInto : Copier := copying [].
Definition DatabaseInfo_DeepCopy : Copier := pointer DatabaseInfo_DeepCopyInto.

Definition PostgresClusterOutputs_type : GoType := TStruct [("ClusterName", TScalar);
    ("WriteService", TScalar); ("ReadService", TScalar); ("ClientCASecret", TScalar);
    ("ClusterConnection", TPtr ClusterConnectionInfo_type); ("Databases", TSlice DatabaseInfo_type);
    ("SuperUserCredentialSecret", TPtr TScalar); ("UserCredentialSecrets", TMap TScalar)].
Definition PostgresClusterOutputs_DeepCopyInto : Copier := copying [
    ("ClusterConnection", pointer by_value); ("Databases", slice by_value);
    ("SuperUserCredentialSecret", pointer by_value); ("UserCredentialSecrets", map_of by_value)].
Definition PostgresClusterOutputs_DeepCopy : Copier := pointer PostgresClusterOutputs_DeepCopyInto.

Definition PostgresClusterStatus_type : GoType := TStruct [("ObservedGeneration", TScalar);
    ("Conditions", TSlice (foreign "metav1.Condition")); ("Phase", TScalar);
    ("StatusHash", TScalar); ("CurrentPostgreSQLMajorVersion", TScalar);
    ("CurrentPostgreSQLMinorVersion", TScalar); ("CurrentImage", TScalar);
    ("Outputs", TPtr PostgresClusterOutputs_type);
    ("LastImmeadiateBackupProcessedAt", TPtr (foreign "metav1.Time"))].
Definition PostgresClusterStatus_DeepCopyInto : Copier := copying [
    ("Conditions", slice (foreign_copy "metav1.Condition"));
    ("Outputs", pointer PostgresClusterOutputs_DeepCopyInto);
    ("LastImmeadiateBackupProcessedAt", pointer (foreign_copy "metav1.Time"))].
Definition PostgresClusterStatus_DeepCopy : Copier := pointer PostgresClusterStatus_DeepCopyInto.

Definition PostgresCluster_type : GoType := TStruct [("TypeMeta", foreign "metav1.TypeMeta");
    ("ObjectMeta", foreign "metav1.ObjectMeta"); ("Spec", PostgresClusterSpec_type);
    ("Status", PostgresClusterStatus_type)].
Definition PostgresCluster_DeepCopyInto : Copier := copying [("TypeMeta", by_value);
    ("ObjectMeta", foreign_copy "metav1.ObjectMeta"); ("Spec", PostgresClusterSpec_DeepCopyInto);
    ("Status", PostgresClusterStatus_DeepCopyInto)].
Definition PostgresCluster_DeepCopy : Copier := pointer PostgresCluster_DeepCopyInto.
Definition PostgresCluster_DeepCopyObject : GoVal → SE Heap (option GoVal) := object_of PostgresCluster_DeepCopy.

Definition PostgresClusterList_type : GoType := TStruct [("TypeMeta", foreign "metav1.TypeMeta");
    ("ListMeta", foreign "metav1.ListMeta"); ("Items", TSlice PostgresCluster_type)].
Definition PostgresClusterList_DeepCopyInto : Copier := copying [("TypeMeta", by_value);
    ("ListMeta", foreign_copy "metav1.ListMeta"); ("Items", slice PostgresCluster_DeepCopyInto)].
Definition PostgresClusterList_DeepCopy : Copier := pointer PostgresClusterList_DeepCopyInto.
Definition PostgresClusterList_DeepCopyObject : GoVal → SE Heap (option GoVal) := object_of PostgresClusterList_DeepCopy.

(** All of the package. *)
Definition addons_types : list GeneratedCopy :=
  [Generated ReplicasSpec_type ReplicasSpec_DeepCopyInto ReplicasSpec_DeepCopy None;
   Generated ImageCatalogRef_type ImageCatalogRef_DeepCopyInto ImageCatalogRef_DeepCopy None;
   Generated PostgreSQLSpec_type PostgreSQLSpec_DeepCopyInto PostgreSQLSpec_DeepCopy None;
   Generated ExternalClusterSpec_type ExternalClusterSpec_DeepCopyInto ExternalClusterSpec_DeepCopy None;
   Generated ImportSpec_type ImportSpec_DeepCopyInto ImportSpec_DeepCopy None;
   Generated InitDbSpec_type InitDbSpec_DeepCopyInto InitDbSpec_DeepCopy None;
   Generated RecoveryTargetSpec_type RecoveryTargetSpec_DeepCopyInto RecoveryTargetSpec_DeepCopy None;
   Generated RecoveryFromObjectStoreSpec_type RecoveryFromObjectStoreSpec_DeepCopyInto RecoveryFromObjectStoreSpec_DeepCopy None;
   Generated BackupSpec_type BackupSpec_DeepCopyInto BackupSpec_DeepCopy None;
   Generated RecoverySpec_type RecoverySpec_DeepCopyInto RecoverySpec_DeepCopy None;
   Generated BootstrapSpec_type BootstrapSpec_DeepCopyInto BootstrapSpec_DeepCopy None;
   Generated StorageSpec_type StorageSpec_DeepCopyInto StorageSpec_DeepCopy None;
   Generated InstancePlacementSpec_type InstancePlacementSpec_DeepCopyInto InstancePlacementSpec_DeepCopy None;
   Generated ScheduledBaseBackupSpec_type ScheduledBaseBackupSpec_DeepCopyInto ScheduledBaseBackupSpec_DeepCopy None;
   Generated ClusterBackupSpec_type ClusterBackupSpec_DeepCopyInto ClusterBackupSpec_DeepCopy None;
   Generated FencingSpec_type FencingSpec_DeepCopyInto FencingSpec_DeepCopy None;
   Generated ExtensionSpec_type ExtensionSpec_DeepCopyInto ExtensionSpec_DeepCopy None;
   Generated DatabaseSpec_type DatabaseSpec_DeepCopyInto DatabaseSpec_DeepCopy None;
   Generated PostgresClusterSpec_type PostgresClusterSpec_DeepCopyInto PostgresClusterSpec_DeepCopy None;
   Generated ClusterConnectionInfo_type ClusterConnectionInfo_DeepCopyInto ClusterConnectionInfo_DeepCopy None;
   Generated DatabaseInfo_type DatabaseInfo_DeepCopyInto DatabaseInfo_DeepCopy None;
   Generated PostgresClusterOutputs_type PostgresClusterOutputs_DeepCopyInto PostgresClusterOutputs_DeepCopy None;
   Generated PostgresClusterStatus_type PostgresClusterStatus_DeepCopyInto PostgresClusterStatus_DeepCopy None;
   Generated PostgresCluster_type PostgresCluster_DeepCopyInto PostgresCluster_DeepCopy (Some PostgresCluster_DeepCopyObject);
   Generated PostgresClusterList_type PostgresClusterList_DeepCopyInto PostgresClusterList_DeepCopy (Some PostgresClusterList_DeepCopyObject)].

(** * They copy *)

#[export] Instance ReplicasSpec_flat : Flat ReplicasSpec_type. Proof. solve_flat. Qed.
#[export] Instance ReplicasSpec_copies : Copies ReplicasSpec_type ReplicasSpec_DeepCopyInto. Proof. solve_copies. Qed.
#[export] Instance ImageCatalogRef_flat : Flat ImageCatalogRef_type. Proof. solve_flat. Qed.
#[export] Instance ImageCatalogRef_copies : Copies ImageCatalogRef_type ImageCatalogRef_DeepCopyInto. Proof. solve_copies. Qed.
#[export] Instance PostgreSQLSpec_copies : Copies PostgreSQLSpec_type PostgreSQLSpec_DeepCopyInto. Proof. solve_copies. Qed.
#[export] Instance ExternalClusterSpec_flat : Flat ExternalClusterSpec_type. Proof. solve_flat. Qed.
#[export] Instance ExternalClusterSpec_copies : Copies ExternalClusterSpec_type ExternalClusterSpec_DeepCopyInto. Proof. solve_copies. Qed.
#[export] Instance ImportSpec_copies : Copies ImportSpec_type ImportSpec_DeepCopyInto. Proof. solve_copies. Qed.
#[export] Instance InitDbSpec_copies : Copies InitDbSpec_type InitDbSpec_DeepCopyInto. Proof. solve_copies. Qed.
#[export] Instance RecoveryTargetSpec_flat : Flat RecoveryTargetSpec_type. Proof. solve_flat. Qed.
#[export] Instance RecoveryTargetSpec_copies : Copies RecoveryTargetSpec_type RecoveryTargetSpec_DeepCopyInto. Proof. solve_copies. Qed.
#[export] Instance RecoveryFromObjectStoreSpec_copies : Copies RecoveryFromObjectStoreSpec_type RecoveryFromObjectStoreSpec_DeepCopyInto. Proof. solve_copies. Qed.
#[export] Instance BackupSpec_flat : Flat BackupSpec_type. Proof. solve_flat. Qed.
#[export] Instance BackupSpec_copies : Copies BackupSpec_type BackupSpec_DeepCopyInto. Proof. solve_copies. Qed.
#[export] Instance RecoverySpec_copies : Copies RecoverySpec_type RecoverySpec_DeepCopyInto. Proof. solve_copies. Qed.
#[export] Instance BootstrapSpec_copies : Copies BootstrapSpec_type BootstrapSpec_DeepCopyInto. Proof. solve_copies. Qed.
#[export] Instance StorageSpec_flat : Flat StorageSpec_type. Proof. solve_flat. Qed.
#[export] Instance StorageSpec_copies : Copies StorageSpec_type StorageSpec_DeepCopyInto. Proof. solve_copies. Qed.
#[export] Instance InstancePlacementSpec_copies : Copies InstancePlacementSpec_type InstancePlacementSpec_DeepCopyInto. Proof. solve_copies. Qed.
#[export] Instance ScheduledBaseBackupSpec_flat : Flat ScheduledBaseBackupSpec_type. Proof. solve_flat. Qed.
#[export] Instance ScheduledBaseBackupSpec_copies : Copies ScheduledBaseBackupSpec_type ScheduledBaseBackupSpec_DeepCopyInto. Proof. solve_copies. Qed.
#[export] Instance ClusterBackupSpec_copies : Copies ClusterBackupSpec_type ClusterBackupSpec_DeepCopyInto. Proof. solve_copies. Qed.
#[export] Instance FencingSpec_flat : Flat FencingSpec_type. Proof. solve_flat. Qed.
#[export] Instance FencingSpec_copies : Copies FencingSpec_type FencingSpec_DeepCopyInto. Proof. solve_copies. Qed.
#[export] Instance ExtensionSpec_flat : Flat ExtensionSpec_type. Proof. solve_flat. Qed.
#[export] Instance ExtensionSpec_copies : Copies ExtensionSpec_type ExtensionSpec_DeepCopyInto. Proof. solve_copies. Qed.
#[export] Instance DatabaseSpec_copies : Copies DatabaseSpec_type DatabaseSpec_DeepCopyInto. Proof. solve_copies. Qed.
#[export] Instance PostgresClusterSpec_copies : Copies PostgresClusterSpec_type PostgresClusterSpec_DeepCopyInto. Proof. solve_copies. Qed.
#[export] Instance ClusterConnectionInfo_flat : Flat ClusterConnectionInfo_type. Proof. solve_flat. Qed.
#[export] Instance ClusterConnectionInfo_copies : Copies ClusterConnectionInfo_type ClusterConnectionInfo_DeepCopyInto. Proof. solve_copies. Qed.
#[export] Instance DatabaseInfo_flat : Flat DatabaseInfo_type. Proof. solve_flat. Qed.
#[export] Instance DatabaseInfo_copies : Copies DatabaseInfo_type DatabaseInfo_DeepCopyInto. Proof. solve_copies. Qed.
#[export] Instance PostgresClusterOutputs_copies : Copies PostgresClusterOutputs_type PostgresClusterOutputs_DeepCopyInto. Proof. solve_copies. Qed.
#[export] Instance PostgresClusterStatus_copies : Copies PostgresClusterStatus_type PostgresClusterStatus_DeepCopyInto. Proof. solve_copies. Qed.
#[export] Instance PostgresCluster_copies : Copies PostgresCluster_type PostgresCluster_DeepCopyInto. Proof. solve_copies. Qed.
#[export] Instance PostgresClusterList_copies : Copies PostgresClusterList_type PostgresClusterList_DeepCopyInto. Proof. solve_copies. Qed.

Lemma addons_types_copy : Forall Copying addons_types.
Proof. solve_copying. Qed.
End addons_copies.
