(* ===== verification/CopyBuilds.v ===== *)
(** The Go types of api/builds/v1alpha1 (image builds)
    and the deep copies generated for them: one definition per function of
    zz_generated.deepcopy.go. *)
From S2P Require Import Prelude DeepCopy CopyCore.

Section builds_copies.
Context `{ForeignLaws}.

(** * Definitions *)

Definition BuildContextSpec_type : GoType := TStruct [("DockerfilePath", TScalar);
    ("ContextPath", TScalar); ("ContextSource", TPtr CopyCore.BuildContextSource_type)].
Definition BuildContextSpec_DeepCopyInto : Copier := copying [
    ("ContextSource", pointer CopyCore.BuildContextSource_DeepCopyInto)].
Definition BuildContextSpec_DeepCopy : Copier := pointer BuildContextSpec_DeepCopyInto.

Definition ImageBuildSpec_type : GoType := TStruct [("ResourceName", TScalar);
    ("SourceRevision", CopyCore.SourceRevisionSpec_type); ("BuildContext", BuildContextSpec_type);
    ("Repository", CopyCore.ImageRepositorySpec_type); ("BuildArgs", TSlice CopyCore.BuildArg_type);
    ("Cancelled", TScalar)].
Definition ImageBuildSpec_DeepCopyInto : Copier := copying [
    ("SourceRevision", CopyCore.SourceRevisionSpec_DeepCopyInto);
    ("BuildContext", BuildContextSpec_DeepCopyInto);
    ("Repository", CopyCore.ImageRepositorySpec_DeepCopyInto);
    ("BuildArgs", slice CopyCore.BuildArg_DeepCopyInto)].
Definition ImageBuildSpec_DeepCopy : Copier := pointer ImageBuildSpec_DeepCopyInto.

Definition ImageBuildStatus_type : GoType := TStruct [("ObservedGeneration", TScalar);
    ("Conditions", TSlice (foreign "metav1.Condition")); ("Phase", TScalar);
    ("BuildSourceRevision", TScalar); ("ImageUrl", TScalar); ("StatusHash", TScalar);
    ("LastBuildFailureDetail", TPtr CopyCore.LastFailureDetail_type)].
Definition ImageBuildStatus_DeepCopyInto : Copier := copying [
    ("Conditions", slice (foreign_copy "metav1.Condition"));
    ("LastBuildFailureDetail", pointer CopyCore.LastFailureDetail_DeepCopyInto)].
Definition ImageBuildStatus_DeepCopy : Copier := pointer ImageBuildStatus_DeepCopyInto.

Definition ImageBuild_type : GoType := TStruct [("TypeMeta", foreign "metav1.TypeMeta");
    ("ObjectMeta", foreign "metav1.ObjectMeta"); ("Spec", ImageBuildSpec_type);
    ("Status", ImageBuildStatus_type)].
Definition ImageBuild_DeepCopyInto : Copier := copying [("TypeMeta", by_value);
    ("ObjectMeta", foreign_copy "metav1.ObjectMeta"); ("Spec", ImageBuildSpec_DeepCopyInto);
    ("Status", ImageBuildStatus_DeepCopyInto)].
Definition ImageBuild_DeepCopy : Copier := pointer ImageBuild_DeepCopyInto.
Definition ImageBuild_DeepCopyObject : GoVal → SE Heap (option GoVal) := object_of ImageBuild_DeepCopy.

Definition ImageBuildList_type : GoType := TStruct [("TypeMeta", foreign "metav1.TypeMeta");
    ("ListMeta", foreign "metav1.ListMeta"); ("Items", TSlice ImageBuild_type)].
Definition ImageBuildList_DeepCopyInto : Copier := copying [("TypeMeta", by_value);
    ("ListMeta", foreign_copy "metav1.ListMeta"); ("Items", slice ImageBuild_DeepCopyInto)].
Definition ImageBuildList_DeepCopy : Copier := pointer ImageBuildList_DeepCopyInto.
Definition ImageBuildList_DeepCopyObject : GoVal → SE Heap (option GoVal) := object_of ImageBuildList_DeepCopy.

(** All of the package. *)
Definition builds_types : list GeneratedCopy :=
  [Generated BuildContextSpec_type BuildContextSpec_DeepCopyInto BuildContextSpec_DeepCopy None;
   Generated ImageBuildSpec_type ImageBuildSpec_DeepCopyInto ImageBuildSpec_DeepCopy None;
   Generated ImageBuildStatus_type ImageBuildStatus_DeepCopyInto ImageBuildStatus_DeepCopy None;
   Generated ImageBuild_type ImageBuild_DeepCopyInto ImageBuild_DeepCopy (Some ImageBuild_DeepCopyObject);
   Generated ImageBuildList_type ImageBuildList_DeepCopyInto ImageBuildList_DeepCopy (Some ImageBuildList_DeepCopyObject)].

(** * They copy *)

#[export] Instance BuildContextSpec_copies : Copies BuildContextSpec_type BuildContextSpec_DeepCopyInto. Proof. solve_copies. Qed.
#[export] Instance ImageBuildSpec_copies : Copies ImageBuildSpec_type ImageBuildSpec_DeepCopyInto. Proof. solve_copies. Qed.
#[export] Instance ImageBuildStatus_copies : Copies ImageBuildStatus_type ImageBuildStatus_DeepCopyInto. Proof. solve_copies. Qed.
#[export] Instance ImageBuild_copies : Copies ImageBuild_type ImageBuild_DeepCopyInto. Proof. solve_copies. Qed.
#[export] Instance ImageBuildList_copies : Copies ImageBuildList_type ImageBuildList_DeepCopyInto. Proof. solve_copies. Qed.

Lemma builds_types_copy : Forall Copying builds_types.
Proof. solve_copying. Qed.
End builds_copies.
