(* ===== verification/CopyRegistry.v ===== *)
(** The Go types of api/registry/v1alpha1 (cluster registries)
    and the deep copies generated for them: one definition per function of
    zz_generated.deepcopy.go. *)
From S2P Require Import Prelude DeepCopy CopyCore.

Section registry_copies.
Context `{ForeignLaws}.

(** * Definitions *)

Definition HtPasswordCredentialsSpec_type : GoType := TStruct [
    ("CredentialsRef", TPtr CopyCore.CredentialSecretKeyPair_type)].
Definition HtPasswordCredentialsSpec_DeepCopyInto : Copier := copying [
    ("CredentialsRef", pointer by_value)].
Definition HtPasswordCredentialsSpec_DeepCopy : Copier := pointer HtPasswordCredentialsSpec_DeepCopyInto.

Definition RegistryAuthSpec_type : GoType := TStruct [
    ("HtPasswordCredentials", TPtr HtPasswordCredentialsSpec_type)].
Definition RegistryAuthSpec_DeepCopyInto : Copier := copying [
    ("HtPasswordCredentials", pointer HtPasswordCredentialsSpec_DeepCopyInto)].
Definition RegistryAuthSpec_DeepCopy : Copier := pointer RegistryAuthSpec_DeepCopyInto.

Definition SecretRef_type : GoType := TStruct [("Name", TScalar); ("Namespace", TScalar)].
Definition SecretRef_DeepCopyInto : Copier := copying [].
Definition SecretRef_DeepCopy : Copier := pointer SecretRef_DeepCopyInto.

Definition RegistryStatus_type : GoType := TStruct [("ObservedGeneration", TScalar);
    ("Conditions", TSlice (foreign "metav1.Condition")); ("InternalURL", TScalar);
    ("ServiceIP", TScalar); ("Phase", TScalar)].
Definition RegistryStatus_DeepCopyInto : Copier := copying [
    ("Conditions", slice (foreign_copy "metav1.Condition"))].
Definition RegistryStatus_DeepCopy : Copier := pointer RegistryStatus_DeepCopyInto.

Definition RegistryOwner_type : GoType := TStruct [("Type", TScalar); ("ID", TScalar)].
Definition RegistryOwner_DeepCopyInto : Copier := copying [].
Definition RegistryOwner_DeepCopy : Copier := pointer RegistryOwner_DeepCopyInto.

Definition RegistryStorageSpec_type : GoType := TStruct [("Size", TScalar);
    ("StorageClass", TPtr TScalar)].
Definition RegistryStorageSpec_DeepCopyInto : Copier := copying [
    ("StorageClass", pointer by_value)].
Definition RegistryStorageSpec_DeepCopy : Copier := pointer RegistryStorageSpec_DeepCopyInto.

Definition ClusterRegistrySpec_type : GoType := TStruct [("Owner", RegistryOwner_type);
    ("Storage", RegistryStorageSpec_type); ("Auth", TPtr RegistryAuthSpec_type); ("Port", TScalar)].
Definition ClusterRegistrySpec_DeepCopyInto : Copier := copying [("Owner", by_value);
    ("Storage", RegistryStorageSpec_DeepCopyInto); ("Auth", pointer RegistryAuthSpec_DeepCopyInto)].
Definition ClusterRegistrySpec_DeepCopy : Copier := pointer ClusterRegistrySpec_DeepCopyInto.

Definition ClusterRegistry_type : GoType := TStruct [("TypeMeta", foreign "metav1.TypeMeta");
    ("ObjectMeta", foreign "metav1.ObjectMeta"); ("Spec", ClusterRegistrySpec_type);
    ("Status", RegistryStatus_type)].
Definition ClusterRegistry_DeepCopyInto : Copier := copying [("TypeMeta", by_value);
    ("ObjectMeta", foreign_copy "metav1.ObjectMeta"); ("Spec", ClusterRegistrySpec_DeepCopyInto);
    ("Status", RegistryStatus_DeepCopyInto)].
Definition ClusterRegistry_DeepCopy : Copier := pointer ClusterRegistry_DeepCopyInto.
Definition ClusterRegistry_DeepCopyObject : GoVal → SE Heap (option GoVal) := object_of ClusterRegistry_DeepCopy.

Definition ClusterRegistryList_type : GoType := TStruct [("TypeMeta", foreign "metav1.TypeMeta");
    ("ListMeta", foreign "metav1.ListMeta"); ("Items", TSlice ClusterRegistry_type)].
Definition ClusterRegistryList_DeepCopyInto : Copier := copying [("TypeMeta", by_value);
    ("ListMeta", foreign_copy "metav1.ListMeta"); ("Items", slice ClusterRegistry_DeepCopyInto)].
Definition ClusterRegistryList_DeepCopy : Copier := pointer ClusterRegistryList_DeepCopyInto.
Definition ClusterRegistryList_DeepCopyObject : GoVal → SE Heap (option GoVal) := object_of ClusterRegistryList_DeepCopy.

(** All of the package. *)
Definition registry_types : list GeneratedCopy :=
  [Generated HtPasswordCredentialsSpec_type HtPasswordCredentialsSpec_DeepCopyInto HtPasswordCredentialsSpec_DeepCopy None;
   Generated RegistryAuthSpec_type RegistryAuthSpec_DeepCopyInto RegistryAuthSpec_DeepCopy None;
   Generated SecretRef_type SecretRef_DeepCopyInto SecretRef_DeepCopy None;
   Generated RegistryStatus_type RegistryStatus_DeepCopyInto RegistryStatus_DeepCopy None;
   Generated RegistryOwner_type RegistryOwner_DeepCopyInto RegistryOwner_DeepCopy None;
   Generated RegistryStorageSpec_type RegistryStorageSpec_DeepCopyInto RegistryStorageSpec_DeepCopy None;
   Generated ClusterRegistrySpec_type ClusterRegistrySpec_DeepCopyInto ClusterRegistrySpec_DeepCopy None;
   Generated ClusterRegistry_type ClusterRegistry_DeepCopyInto ClusterRegistry_DeepCopy (Some ClusterRegistry_DeepCopyObject);
   Generated ClusterRegistryList_type ClusterRegistryList_DeepCopyInto ClusterRegistryList_DeepCopy (Some ClusterRegistryList_DeepCopyObject)].

(** * They copy *)

#[export] Instance HtPasswordCredentialsSpec_copies : Copies HtPasswordCredentialsSpec_type HtPasswordCredentialsSpec_DeepCopyInto. Proof. solve_copies. Qed.
#[export] Instance RegistryAuthSpec_copies : Copies RegistryAuthSpec_type RegistryAuthSpec_DeepCopyInto. Proof. solve_copies. Qed.
#[export] Instance SecretRef_flat : Flat SecretRef_type. Proof. solve_flat. Qed.
#[export] Instance SecretRef_copies : Copies SecretRef_type SecretRef_DeepCopyInto. Proof. solve_copies. Qed.
#[export] Instance RegistryStatus_copies : Copies RegistryStatus_type RegistryStatus_DeepCopyInto. Proof. solve_copies. Qed.
#[export] Instance RegistryOwner_flat : Flat RegistryOwner_type. Proof. solve_flat. Qed.
#[export] Instance RegistryOwner_copies : Copies RegistryOwner_type RegistryOwner_DeepCopyInto. Proof. solve_copies. Qed.
#[export] Instance RegistryStorageSpec_copies : Copies RegistryStorageSpec_type RegistryStorageSpec_DeepCopyInto. Proof. solve_copies. Qed.
#[export] Instance ClusterRegistrySpec_copies : Copies ClusterRegistrySpec_type ClusterRegistrySpec_DeepCopyInto. Proof. solve_copies. Qed.
#[export] Instance ClusterRegistry_copies : Copies ClusterRegistry_type ClusterRegistry_DeepCopyInto. Proof. solve_copies. Qed.
#[export] Instance ClusterRegistryList_copies : Copies ClusterRegistryList_type ClusterRegistryList_DeepCopyInto. Proof. solve_copies. Qed.

Lemma registry_types_copy : Forall Copying registry_types.
Proof. solve_copying. Qed.
End registry_copies.
