(* ===== verification/CopyStorage.v ===== *)
(** The Go types of api/storage/v1alpha1 (volumes, storages, object storages and NFS servers)
    and the deep copies generated for them: one definition per function of
    zz_generated.deepcopy.go. *)
From S2P Require Import Prelude DeepCopy CopyCore.

Section storage_copies.
Context `{ForeignLaws}.

(** * Definitions *)

Definition NFSServerSpec_type : GoType := TStruct [("ExportDir", TScalar); ("Capacity", TScalar);
    ("BackingStorageClassName", TPtr TScalar)].
Definition NFSServerSpec_DeepCopyInto : Copier := copying [
    ("BackingStorageClassName", pointer by_value)].
Definition NFSServerSpec_DeepCopy : Copier := pointer NFSServerSpec_DeepCopyInto.

Definition NFSServerStatus_type : GoType := TStruct [("NFSServerURL", TScalar); ("Phase", TScalar);
    ("Conditions", TSlice (foreign "metav1.Condition"))].
Definition NFSServerStatus_DeepCopyInto : Copier := copying [
    ("Conditions", slice (foreign_copy "metav1.Condition"))].
Definition NFSServerStatus_DeepCopy : Copier := pointer NFSServerStatus_DeepCopyInto.

Definition NFSServer_type : GoType := TStruct [("TypeMeta", foreign "metav1.TypeMeta");
    ("ObjectMeta", foreign "metav1.ObjectMeta"); ("Spec", NFSServerSpec_type);
    ("Status", NFSServerStatus_type)].
Definition NFSServer_DeepCopyInto : Copier := copying [("TypeMeta", by_value);
    ("ObjectMeta", foreign_copy "metav1.ObjectMeta"); ("Spec", NFSServerSpec_DeepCopyInto);
    ("Status", NFSServerStatus_DeepCopyInto)].
Definition NFSServer_DeepCopy : Copier := pointer NFSServer_DeepCopyInto.
Definition NFSServer_DeepCopyObject : GoVal → SE Heap (option GoVal) := object_of NFSServer_DeepCopy.

Definition NFSServerList_type : GoType := TStruct [("TypeMeta", foreign "metav1.TypeMeta");
    ("ListMeta", foreign "metav1.ListMeta"); ("Items", TSlice NFSServer_type)].
Definition NFSServerList_DeepCopyInto : Copier := copying [("TypeMeta", by_value);
    ("ListMeta", foreign_copy "metav1.ListMeta"); ("Items", slice NFSServer_DeepCopyInto)].
Definition NFSServerList_DeepCopy : Copier := pointer NFSServerList_DeepCopyInto.
Definition NFSServerList_DeepCopyObject : GoVal → SE Heap (option GoVal) := object_of NFSServerList_DeepCopy.

Definition BucketSpec_type : GoType := TStruct [("Name", TScalar)].
Definition BucketSpec_DeepCopyInto : Copier := copying [].
Definition BucketSpec_DeepCopy : Copier := pointer BucketSpec_DeepCopyInto.

Definition ObjectStorageIngressSpec_type : GoType := TStruct [("Hostname", TScalar);
    ("IngressClassName", TPtr TScalar); ("TLS", TScalar)].
Definition ObjectStorageIngressSpec_DeepCopyInto : Copier := copying [
    ("IngressClassName", pointer by_value)].
Definition ObjectStorageIngressSpec_DeepCopy : Copier := pointer ObjectStorageIngressSpec_DeepCopyInto.

Definition ObjectStorageSpec_type : GoType := TStruct [("Capacity", TScalar);
    ("StorageClassName", TPtr TScalar); ("Buckets", TSlice BucketSpec_type);
    ("Ingress", TPtr ObjectStorageIngressSpec_type);
    ("Resources", TPtr (foreign "corev1.ResourceRequirements"));
    ("CredentialRotationRequestedAt", TPtr (foreign "metav1.Time"))].
Definition ObjectStorageSpec_DeepCopyInto : Copier := copying [
    ("StorageClassName", pointer by_value); ("Buckets", slice by_value);
    ("Ingress", pointer ObjectStorageIngressSpec_DeepCopyInto);
    ("Resources", pointer (foreign_copy "corev1.ResourceRequirements"));
    ("CredentialRotationRequestedAt", pointer (foreign_copy "metav1.Time"))].
Definition ObjectStorageSpec_DeepCopy : Copier := pointer ObjectStorageSpec_DeepCopyInto.

Definition BucketStatus_type : GoType := TStruct [("Name", TScalar); ("Created", TScalar);
    ("URL", TScalar)].
Definition BucketStatus_DeepCopyInto : Copier := copying [].
Definition BucketStatus_DeepCopy : Copier := pointer BucketStatus_DeepCopyInto.

Definition ObjectStorageStatus_type : GoType := TStruct [("ObservedGeneration", TScalar);
    ("Phase", TScalar); ("Conditions", TSlice (foreign "metav1.Condition")); ("Endpoint", TScalar);
    ("ExternalEndpoint", TScalar); ("CredentialsSecretName", TScalar);
    ("LastCredentialRotationTime", TPtr (foreign "metav1.Time")); ("VolumeName", TScalar);
    ("PVCName", TScalar); ("Buckets", TSlice BucketStatus_type)].
Definition ObjectStorageStatus_DeepCopyInto : Copier := copying [
    ("Conditions", slice (foreign_copy "metav1.Condition"));
    ("LastCredentialRotationTime", pointer (foreign_copy "metav1.Time"));
    ("Buckets", slice by_value)].
Definition ObjectStorageStatus_DeepCopy : Copier := pointer ObjectStorageStatus_DeepCopyInto.

Definition ObjectStorage_type : GoType := TStruct [("TypeMeta", foreign "metav1.TypeMeta");
    ("ObjectMeta", foreign "metav1.ObjectMeta"); ("Spec", ObjectStorageSpec_type);
    ("Status", ObjectStorageStatus_type)].
Definition ObjectStorage_DeepCopyInto : Copier := copying [("TypeMeta", by_value);
    ("ObjectMeta", foreign_copy "metav1.ObjectMeta"); ("Spec", ObjectStorageSpec_DeepCopyInto);
    ("Status", ObjectStorageStatus_DeepCopyInto)].
Definition ObjectStorage_DeepCopy : Copier := pointer ObjectStorage_DeepCopyInto.
Definition ObjectStorage_DeepCopyObject : GoVal → SE Heap (option GoVal) := object_of ObjectStorage_DeepCopy.

Definition ObjectStorageList_type : GoType := TStruct [("TypeMeta", foreign "metav1.TypeMeta");
    ("ListMeta", foreign "metav1.ListMeta"); ("Items", TSlice ObjectStorage_type)].
Definition ObjectStorageList_DeepCopyInto : Copier := copying [("TypeMeta", by_value);
    ("ListMeta", foreign_copy "metav1.ListMeta"); ("Items", slice ObjectStorage_DeepCopyInto)].
Definition ObjectStorageList_DeepCopy : Copier := pointer ObjectStorageList_DeepCopyInto.
Definition ObjectStorageList_DeepCopyObject : GoVal → SE Heap (option GoVal) := object_of ObjectStorageList_DeepCopy.

Definition RemoteDirSource_type : GoType := TStruct [("Path", TScalar);
    ("CurrentDirectoryHash", TScalar)].
Definition RemoteDirSource_DeepCopyInto : Copier := copying [].
Definition RemoteDirSource_DeepCopy : Copier := pointer RemoteDirSource_DeepCopyInto.

Definition StackResourceReference_type : GoType := TStruct [("Name", TScalar)].
Definition StackResourceReference_DeepCopyInto : Copier := copying [].
Definition StackResourceReference_DeepCopy : Copier := pointer StackResourceReference_DeepCopyInto.

Definition BuildArtifactSource_type : GoType := TStruct [
    ("BuildSource", StackResourceReference_type); ("SourcePath", TScalar);
    ("DestinationPath", TScalar)].
Definition BuildArtifactSource_DeepCopyInto : Copier := copying [("BuildSource", by_value)].
Definition BuildArtifactSource_DeepCopy : Copier := pointer BuildArtifactSource_DeepCopyInto.

Definition GitAuth_type : GoType := TStruct [
    ("UsernamePasswordAuthRef", TPtr CopyCore.CredentialSecretKeyPair_type);
    ("PersonalAccessTokenRef", TPtr CopyCore.CredentialSecretKeyPair_type)].
Definition GitAuth_DeepCopyInto : Copier := copying [("UsernamePasswordAuthRef", pointer by_value);
    ("PersonalAccessTokenRef", pointer by_value)].
Definition GitAuth_DeepCopy : Copier := pointer GitAuth_DeepCopyInto.

Definition GitRepoSource_type : GoType := TStruct [("RepoUrl", TScalar);
    ("Revision", CopyCore.GitRepoRevision_type); ("DestinationWithinVolume", TScalar);
    ("Auth", TPtr GitAuth_type)].
Definition GitRepoSource_DeepCopyInto : Copier := copying [("Revision", by_value);
    ("Auth", pointer GitAuth_DeepCopyInto)].
Definition GitRepoSource_DeepCopy : Copier := pointer GitRepoSource_DeepCopyInto.

Definition VolumeSource_type : GoType := TStruct [("RemoteDir", TPtr RemoteDirSource_type);
    ("BuildArtifacts", TSlice BuildArtifactSource_type); ("GitRepo", TPtr GitRepoSource_type)].
Definition VolumeSource_DeepCopyInto : Copier := copying [("RemoteDir", pointer by_value);
    ("BuildArtifacts", slice by_value); ("GitRepo", pointer GitRepoSource_DeepCopyInto)].
Definition VolumeSource_DeepCopy : Copier := pointer VolumeSource_DeepCopyInto.

Definition VolumeSpec_type : GoType := TStruct [("Annotations", TMap TScalar);
    ("Labels", TMap TScalar); ("Size", TScalar); ("StorageClass", TScalar);
    ("Source", TPtr VolumeSource_type); ("NeedsSyncBeforeUse", TScalar);
    ("AccessMode", foreign "corev1.PersistentVolumeAccessMode")].
Definition VolumeSpec_DeepCopyInto : Copier := copying [("Annotations", map_of by_value);
    ("Labels", map_of by_value); ("Source", pointer VolumeSource_DeepCopyInto)].
Definition VolumeSpec_DeepCopy : Copier := pointer VolumeSpec_DeepCopyInto.

Definition StorageSpec_type : GoType := TStruct [("ProvisionedFor", TScalar);
    ("UserPublicSSHKey", TScalar); ("VolumeSpecs", TMap (TPtr VolumeSpec_type))].
Definition StorageSpec_DeepCopyInto : Copier := copying [
    ("VolumeSpecs", map_of (pointer VolumeSpec_DeepCopyInto))].
Definition StorageSpec_DeepCopy : Copier := pointer StorageSpec_DeepCopyInto.

Definition VolumeInfo_type : GoType := TStruct [("VolumeName", TScalar); ("Subpath", TScalar);
    ("Available", TScalar); ("LastSyncedAt", TPtr (foreign "metav1.Time"))].
Definition VolumeInfo_DeepCopyInto : Copier := copying [
    ("LastSyncedAt", pointer (foreign_copy "metav1.Time"))].
Definition VolumeInfo_DeepCopy : Copier := pointer VolumeInfo_DeepCopyInto.

Definition StorageStatus_type : GoType := TStruct [
    ("ObservedStackdomeServerObjectGeneration", TScalar);
    ("Conditions", TSlice (foreign "metav1.Condition")); ("Phase", TScalar);
    ("VolumeStatus", TSlice VolumeInfo_type); ("StatusHash", TScalar); ("ServiceName", TScalar)].
Definition StorageStatus_DeepCopyInto : Copier := copying [
    ("Conditions", slice (foreign_copy "metav1.Condition"));
    ("VolumeStatus", slice VolumeInfo_DeepCopyInto)].
Definition StorageStatus_DeepCopy : Copier := pointer StorageStatus_DeepCopyInto.

Definition Storage_type : GoType := TStruct [("TypeMeta", foreign "metav1.TypeMeta");
    ("ObjectMeta", foreign "metav1.ObjectMeta"); ("Spec", StorageSpec_type);
    ("Status", StorageStatus_type)].
Definition Storage_DeepCopyInto : Copier := copying [("TypeMeta", by_value);
    ("ObjectMeta", foreign_copy "metav1.ObjectMeta"); ("Spec", StorageSpec_DeepCopyInto);
    ("Status", StorageStatus_DeepCopyInto)].
Definition Storage_DeepCopy : Copier := pointer Storage_DeepCopyInto.
Definition Storage_DeepCopyObject : GoVal → SE Heap (option GoVal) := object_of Storage_DeepCopy.

Definition StorageList_type : GoType := TStruct [("TypeMeta", foreign "metav1.TypeMeta");
    ("ListMeta", foreign "metav1.ListMeta"); ("Items", TSlice Storage_type)].
Definition StorageList_DeepCopyInto : Copier := copying [("TypeMeta", by_value);
    ("ListMeta", foreign_copy "metav1.ListMeta"); ("Items", slice Storage_DeepCopyInto)].
Definition StorageList_DeepCopy : Copier := pointer StorageList_DeepCopyInto.
Definition StorageList_DeepCopyObject : GoVal → SE Heap (option GoVal) := object_of StorageList_DeepCopy.

Definition BuildArtifactSyncInfo_type : GoType := TStruct [("BuildID", TScalar);
    ("Status", TScalar)].
Definition BuildArtifactSyncInfo_DeepCopyInto : Copier := copying [].
Definition BuildArtifactSyncInfo_DeepCopy : Copier := pointer BuildArtifactSyncInfo_DeepCopyInto.

Definition VolumeStatus_type : GoType := TStruct [("ObservedGeneration", TScalar);
    ("Conditions", TSlice (foreign "metav1.Condition")); ("PvcName", TScalar); ("Phase", TScalar);
    ("BuildArtifactSyncs", TMap BuildArtifactSyncInfo_type); ("StatusHash", TScalar);
    ("LastSyncedGitReference", TScalar); ("LastRemoteSyncHash", TScalar);
    ("GitRepoSyncedPathWithinVolume", TScalar)].
Definition VolumeStatus_DeepCopyInto : Copier := copying [
    ("Conditions", slice (foreign_copy "metav1.Condition"));
    ("BuildArtifactSyncs", map_of by_value)].
Definition VolumeStatus_DeepCopy : Copier := pointer VolumeStatus_DeepCopyInto.

Definition Volume_type : GoType := TStruct [("TypeMeta", foreign "metav1.TypeMeta");
    ("ObjectMeta", foreign "metav1.ObjectMeta"); ("Spec", VolumeSpec_type);
    ("Status", VolumeStatus_type)].
Definition Volume_DeepCopyInto : Copier := copying [("TypeMeta", by_value);
    ("ObjectMeta", foreign_copy "metav1.ObjectMeta"); ("Spec", VolumeSpec_DeepCopyInto);
    ("Status", VolumeStatus_DeepCopyInto)].
Definition Volume_DeepCopy : Copier := pointer Volume_DeepCopyInto.
Definition Volume_DeepCopyObject : GoVal → SE Heap (option GoVal) := object_of Volume_DeepCopy.

Definition VolumeList_type : GoType := TStruct [("TypeMeta", foreign "metav1.TypeMeta");
    ("ListMeta", foreign "metav1.ListMeta"); ("Items", TSlice Volume_type)].
Definition VolumeList_DeepCopyInto : Copier := copying [("TypeMeta", by_value);
    ("ListMeta", foreign_copy "metav1.ListMeta"); ("Items", slice Volume_DeepCopyInto)].
Definition VolumeList_DeepCopy : Copier := pointer VolumeList_DeepCopyInto.
Definition VolumeList_DeepCopyObject : GoVal → SE Heap (option GoVal) := object_of VolumeList_DeepCopy.

(** All of the package. *)
Definition storage_types : list GeneratedCopy :=
  [Generated NFSServerSpec_type NFSServerSpec_DeepCopyInto NFSServerSpec_DeepCopy None;
   Generated NFSServerStatus_type NFSServerStatus_DeepCopyInto NFSServerStatus_DeepCopy None;
   Generated NFSServer_type NFSServer_DeepCopyInto NFSServer_DeepCopy (Some NFSServer_DeepCopyObject);
   Generated NFSServerList_type NFSServerList_DeepCopyInto NFSServerList_DeepCopy (Some NFSServerList_DeepCopyObject);
   Generated BucketSpec_type BucketSpec_DeepCopyInto BucketSpec_DeepCopy None;
   Generated ObjectStorageIngressSpec_type ObjectStorageIngressSpec_DeepCopyInto ObjectStorageIngressSpec_DeepCopy None;
   Generated ObjectStorageSpec_type ObjectStorageSpec_DeepCopyInto ObjectStorageSpec_DeepCopy None;
   Generated BucketStatus_type BucketStatus_DeepCopyInto BucketStatus_DeepCopy None;
   Generated ObjectStorageStatus_type ObjectStorageStatus_DeepCopyInto ObjectStorageStatus_DeepCopy None;
   Generated ObjectStorage_type ObjectStorage_DeepCopyInto ObjectStorage_DeepCopy (Some ObjectStorage_DeepCopyObject);
   Generated ObjectStorageList_type ObjectStorageList_DeepCopyInto ObjectStorageList_DeepCopy (Some ObjectStorageList_DeepCopyObject);
   Generated RemoteDirSource_type RemoteDirSource_DeepCopyInto RemoteDirSource_DeepCopy None;
   Generated StackResourceReference_type StackResourceReference_DeepCopyInto StackResourceReference_DeepCopy None;
   Generated BuildArtifactSource_type BuildArtifactSource_DeepCopyInto BuildArtifactSource_DeepCopy None;
   Generated GitAuth_type GitAuth_DeepCopyInto GitAuth_DeepCopy None;
   Generated GitRepoSource_type GitRepoSource_DeepCopyInto GitRepoSource_DeepCopy None;
   Generated VolumeSource_type VolumeSource_DeepCopyInto VolumeSource_DeepCopy None;
   Generated VolumeSpec_type VolumeSpec_DeepCopyInto VolumeSpec_DeepCopy None;
   Generated StorageSpec_type StorageSpec_DeepCopyInto StorageSpec_DeepCopy None;
   Generated VolumeInfo_type VolumeInfo_DeepCopyInto VolumeInfo_DeepCopy None;
   Generated StorageStatus_type StorageStatus_DeepCopyInto StorageStatus_DeepCopy None;
   Generated Storage_type Storage_DeepCopyInto Storage_DeepCopy (Some Storage_DeepCopyObject);
   Generated StorageList_type StorageList_DeepCopyInto StorageList_DeepCopy (Some StorageList_DeepCopyObject);
   Generated BuildArtifactSyncInfo_type BuildArtifactSyncInfo_DeepCopyInto BuildArtifactSyncInfo_DeepCopy None;
   Generated VolumeStatus_type VolumeStatus_DeepCopyInto VolumeStatus_DeepCopy None;
   Generated Volume_type Volume_DeepCopyInto Volume_DeepCopy (Some Volume_DeepCopyObject);
   Generated VolumeList_type VolumeList_DeepCopyInto VolumeList_DeepCopy (Some VolumeList_DeepCopyObject)].

(** * They copy *)

#[export] Instance NFSServerSpec_copies : Copies NFSServerSpec_type NFSServerSpec_DeepCopyInto. Proof. solve_copies. Qed.
#[export] Instance NFSServerStatus_copies : Copies NFSServerStatus_type NFSServerStatus_DeepCopyInto. Proof. solve_copies. Qed.
#[export] Instance NFSServer_copies : Copies NFSServer_type NFSServer_DeepCopyInto. Proof. solve_copies. Qed.
#[export] Instance NFSServerList_copies : Copies NFSServerList_type NFSServerList_DeepCopyInto. Proof. solve_copies. Qed.
#[export] Instance BucketSpec_flat : Flat BucketSpec_type. Proof. solve_flat. Qed.
#[export] Instance BucketSpec_copies : Copies BucketSpec_type BucketSpec_DeepCopyInto. Proof. solve_copies. Qed.
#[export] Instance ObjectStorageIngressSpec_copies : Copies ObjectStorageIngressSpec_type ObjectStorageIngressSpec_DeepCopyInto. Proof. solve_copies. Qed.
#[export] Instance ObjectStorageSpec_copies : Copies ObjectStorageSpec_type ObjectStorageSpec_DeepCopyInto. Proof. solve_copies. Qed.
#[export] Instance BucketStatus_flat : Flat BucketStatus_type. Proof. solve_flat. Qed.
#[export] Instance BucketStatus_copies : Copies BucketStatus_type BucketStatus_DeepCopyInto. Proof. solve_copies. Qed.
#[export] Instance ObjectStorageStatus_copies : Copies ObjectStorageStatus_type ObjectStorageStatus_DeepCopyInto. Proof. solve_copies. Qed.
#[export] Instance ObjectStorage_copies : Copies ObjectStorage_type ObjectStorage_DeepCopyInto. Proof. solve_copies. Qed.
#[export] Instance ObjectStorageList_copies : Copies ObjectStorageList_type ObjectStorageList_DeepCopyInto. Proof. solve_copies. Qed.
#[export] Instance RemoteDirSource_flat : Flat RemoteDirSource_type. Proof. solve_flat. Qed.
#[export] Instance RemoteDirSource_copies : Copies RemoteDirSource_type RemoteDirSource_DeepCopyInto. Proof. solve_copies. Qed.
#[export] Instance StackResourceReference_flat : Flat StackResourceReference_type. Proof. solve_flat. Qed.
#[export] Instance StackResourceReference_copies : Copies StackResourceReference_type StackResourceReference_DeepCopyInto. Proof. solve_copies. Qed.
#[export] Instance BuildArtifactSource_flat : Flat BuildArtifactSource_type. Proof. solve_flat. Qed.
#[export] Instance BuildArtifactSource_copies : Copies BuildArtifactSource_type BuildArtifactSource_DeepCopyInto. Proof. solve_copies. Qed.
#[export] Instance GitAuth_copies : Copies GitAuth_type GitAuth_DeepCopyInto. Proof. solve_copies. Qed.
#[export] Instance GitRepoSource_copies : Copies GitRepoSource_type GitRepoSource_DeepCopyInto. Proof. solve_copies. Qed.
#[export] Instance VolumeSource_copies : Copies VolumeSource_type VolumeSource_DeepCopyInto. Proof. solve_copies. Qed.
#[export] Instance VolumeSpec_copies : Copies VolumeSpec_type VolumeSpec_DeepCopyInto. Proof. solve_copies. Qed.
#[export] Instance StorageSpec_copies : Copies StorageSpec_type StorageSpec_DeepCopyInto. Proof. solve_copies. Qed.
#[export] Instance VolumeInfo_copies : Copies VolumeInfo_type VolumeInfo_DeepCopyInto. Proof. solve_copies. Qed.
#[export] Instance StorageStatus_copies : Copies StorageStatus_type StorageStatus_DeepCopyInto. Proof. solve_copies. Qed.
#[export] Instance Storage_copies : Copies Storage_type Storage_DeepCopyInto. Proof. solve_copies. Qed.
#[export] Instance StorageList_copies : Copies StorageList_type StorageList_DeepCopyInto. Proof. solve_copies. Qed.
#[export] Instance BuildArtifactSyncInfo_flat : Flat BuildArtifactSyncInfo_type. Proof. solve_flat. Qed.
#[export] Instance BuildArtifactSyncInfo_copies : Copies BuildArtifactSyncInfo_type BuildArtifactSyncInfo_DeepCopyInto. Proof. solve_copies. Qed.
#[export] Instance VolumeStatus_copies : Copies VolumeStatus_type VolumeStatus_DeepCopyInto. Proof. solve_copies. Qed.
#[export] Instance Volume_copies : Copies Volume_type Volume_DeepCopyInto. Proof. solve_copies. Qed.
#[export] Instance VolumeList_copies : Copies VolumeList_type VolumeList_DeepCopyInto. Proof. solve_copies. Qed.

Lemma storage_types_copy : Forall Copying storage_types.
Proof. solve_copying. Qed.
End storage_copies.
