(* ===== verification/CopyUsers.v ===== *)
(** The Go types of api/users/v1alpha1 (workspace users)
    and the deep copies generated for them: one definition per function of
    zz_generated.deepcopy.go. *)
From S2P Require Import Prelude DeepCopy CopyCore.

Section users_copies.
Context `{ForeignLaws}.

(** * Definitions *)

Definition UserSpec_type : GoType := TStruct [("Namespaces", TSlice TScalar); ("Username", TScalar);
    ("AccessRules", TSlice (foreign "rbacv1.PolicyRule")); ("BaseDomain", TScalar)].
Definition UserSpec_DeepCopyInto : Copier := copying [("Namespaces", slice by_value);
    ("AccessRules", slice (foreign_copy "rbacv1.PolicyRule"))].
Definition UserSpec_DeepCopy : Copier := pointer UserSpec_DeepCopyInto.

Definition UserStatus_type : GoType := TStruct [
    ("ObservedStackdomeServerObjectGeneration", TScalar);
    ("Conditions", TSlice (foreign "metav1.Condition")); ("Namespaces", TSlice TScalar);
    ("ServiceAccountName", TScalar); ("ServiceAccountToken", TScalar); ("Phase", TScalar);
    ("StatusHash", TScalar)].
Definition UserStatus_DeepCopyInto : Copier := copying [
    ("Conditions", slice (foreign_copy "metav1.Condition")); ("Namespaces", slice by_value)].
Definition UserStatus_DeepCopy : Copier := pointer UserStatus_DeepCopyInto.

Definition User_type : GoType := TStruct [("TypeMeta", foreign "metav1.TypeMeta");
    ("ObjectMeta", foreign "metav1.ObjectMeta"); ("Spec", UserSpec_type);
    ("Status", UserStatus_type)].
Definition User_DeepCopyInto : Copier := copying [("TypeMeta", by_value);
    ("ObjectMeta", foreign_copy "metav1.ObjectMeta"); ("Spec", UserSpec_DeepCopyInto);
    ("Status", UserStatus_DeepCopyInto)].
Definition User_DeepCopy : Copier := pointer User_DeepCopyInto.
Definition User_DeepCopyObject : GoVal → SE Heap (option GoVal) := object_of User_DeepCopy.

Definition UserList_type : GoType := TStruct [("TypeMeta", foreign "metav1.TypeMeta");
    ("ListMeta", foreign "metav1.ListMeta"); ("Items", TSlice User_type)].
Definition UserList_DeepCopyInto : Copier := copying [("TypeMeta", by_value);
    ("ListMeta", foreign_copy "metav1.ListMeta"); ("Items", slice User_DeepCopyInto)].
Definition UserList_DeepCopy : Copier := pointer UserList_DeepCopyInto.
Definition UserList_DeepCopyObject : GoVal → SE Heap (option GoVal) := object_of UserList_DeepCopy.

(** All of the package. *)
Definition users_types : list GeneratedCopy :=
  [Generated UserSpec_type UserSpec_DeepCopyInto UserSpec_DeepCopy None;
   Generated UserStatus_type UserStatus_DeepCopyInto UserStatus_DeepCopy None;
   Generated User_type User_DeepCopyInto User_DeepCopy (Some User_DeepCopyObject);
   Generated UserList_type UserList_DeepCopyInto UserList_DeepCopy (Some UserList_DeepCopyObject)].

(** * They copy *)

#[export] Instance UserSpec_copies : Copies UserSpec_type UserSpec_DeepCopyInto. Proof. solve_copies. Qed.
#[export] Instance UserStatus_copies : Copies UserStatus_type UserStatus_DeepCopyInto. Proof. solve_copies. Qed.
#[export] Instance User_copies : Copies User_type User_DeepCopyInto. Proof. solve_copies. Qed.
#[export] Instance UserList_copies : Copies UserList_type UserList_DeepCopyInto. Proof. solve_copies. Qed.

Lemma users_types_copy : Forall Copying users_types.
Proof. solve_copying. Qed.
End users_copies.
