(* ===== verification/Copies.v ===== *)
(** The generated deep copies of all API packages together: what a controller may rely on
    when it changes a copy of an object it has read. *)
From S2P Require Import Prelude DeepCopy CopyCore CopyAddons CopyBuilds CopyRegistry CopyStorage CopyUsers.

Section copies.
Context `{ForeignTypes}.

(** Every type with generated functions. *)
Definition api_types : list GeneratedCopy :=
  core_types ++ addons_types ++ builds_types ++ registry_types ++ storage_types ++ users_types.
End copies.

(** C23. Each generated DeepCopy, of all 129 API types, makes a copy: given a pointer to a value of
    the type (or a nil one), it ends without a panic in a pointer to an equal value (nil for
    nil) that shares nothing with the original.  Whatever memory is then written through the
    copy, the original reads as it did; whatever is written anywhere in the memory there was
    before, the copy reads as the original did.  DeepCopyObject returns that copy, and a nil
    interface, not an interface that holds a nil pointer, for a nil pointer. *)
Theorem deep_copy_independent `{ForeignLaws} G h v :
  G ∈ api_types → valid (TPtr (gen_type G)) h v →
  ∃ v' h', gen_copy G v h = (Ok v', h') ∧ deep_eq (TPtr (gen_type G)) h v h' v' ∧
    (∀ h'', (∀ l, ¬ reach (TPtr (gen_type G)) h' v' l → h'' !! l = h' !! l) →
            deep_eq (TPtr (gen_type G)) h v h'' v) ∧
    (∀ h'', (∀ l, h !! l = None → h'' !! l = h' !! l) →
            deep_eq (TPtr (gen_type G)) h v h'' v') ∧
    (∀ f, gen_object G = Some f →
          f v h = (Ok (match v with VRef None => None | _ => Some v' end), h')).
Proof.
  intros HG. apply copying_spec. revert HG. apply Forall_forall. unfold api_types.
  rewrite !Forall_app. split_and!; auto using core_types_copy, addons_types_copy,
    builds_types_copy, registry_types_copy, storage_types_copy, users_types_copy.
Qed.

(** Cluster information in memory: the load balancer namespaces are an array of their own. *)
#[local] Instance text_types : ForeignTypes := {| foreign := λ _, TScalar; foreign_copy := λ _, by_value |}.
#[local] Instance text_laws : ForeignLaws.
Proof. split; [intros n; by apply copies_by_value|done]. Qed.
Definition spec_memory : gmap positive Cell :=
  {[ 1%positive := CVar (VStruct {[ "LoadBalancerNamespaces" := VRef (Some 2%positive) ]});
     2%positive := CArray [VScalar "ingress"; VScalar "edge"] ]}.
Lemma spec_valid : valid (TPtr ClusterInfoSpec_type) spec_memory (VRef (Some 1%positive)).
Proof.
  right. do 4 eexists. split_and!; [done..|]. split; [|by do 2 eexists].
  do 4 eexists. split_and!; [done..|]. right. do 4 eexists. split_and!; [done..|].
  repeat constructor; by eexists.
Qed.

(** The copy of the spec has an array of its own, at location 3; writing there leaves the
    original as it was. *)
Lemma deep_copy_independent_witness :
  ∃ v' h', ClusterInfoSpec_DeepCopy (VRef (Some 1%positive)) spec_memory = (Ok v', h') ∧
    h' !! 3%positive = Some (CArray [VScalar "ingress"; VScalar "edge"]) ∧
    deep_eq (TPtr ClusterInfoSpec_type) spec_memory (VRef (Some 1%positive))
      (<[3%positive := CArray [VScalar "other"; VScalar "edge"]]> h') (VRef (Some 1%positive)).
Proof.
  destruct (deep_copy_independent
    (Generated ClusterInfoSpec_type ClusterInfoSpec_DeepCopyInto ClusterInfoSpec_DeepCopy None)
    spec_memory (VRef (Some 1%positive))) as (v'&h'&E&_&HI&_); [by left|apply spec_valid|].
  exists v', h'. cbn [gen_copy gen_type] in E, HI. split; [exact E|].
  assert (v' = VRef (Some 4%positive)) as -> by (vm_compute in E; congruence).
  assert (h' !! 3%positive = Some (CArray [VScalar "ingress"; VScalar "edge"])) as H3
    by (apply (f_equal snd) in E; cbn [snd] in E; rewrite <- E; reflexivity).
  assert (h' !! 4%positive =
          Some (CVar (VStruct {[ "LoadBalancerNamespaces" := VRef (Some 3%positive) ]}))) as H4
    by (apply (f_equal snd) in E; cbn [snd] in E; rewrite <- E; reflexivity).
  split; [exact H3|]. apply HI. intros l Hl. apply lookup_insert_ne. intros <-. apply Hl.
  exists 4%positive. split; [done|]. right. eexists. split; [exact H4|].
  left. do 2 eexists. split_and!; [done..|]. exists 3%positive. split; [done|]. by left.
Defined.
