(* ===== verification/Kube.v ===== *)
(** Kubernetes API objects as far as the agent reads and writes them, and the
    third-party operations the agent calls, as type classes: the API client,
    the condition helpers of [k8s.io/apimachinery/pkg/api/meta] and the owner
    reference helpers of controller-runtime.  None of that code is in this
    repository, so it stays a parameter; a class named [...Laws] states the
    documented behaviour that theorems rely on. *)
From S2P Require Import Prelude.

(** * Object metadata *)

Record OwnerReference := mkOwnerReference {
  ref_uid : string;
  ref_name : string;
  ref_controller : bool;
}.

Record ObjectMeta := mkObjectMeta {
  om_name : string;
  om_namespace : string;
  om_uid : string;
  om_generation : Z;
  om_resource_version : string;
  om_labels : gmap string string;
  om_annotations : gmap string string;
  om_owner_references : list OwnerReference;
  om_finalizers : list string;
  om_creation_timestamp : Time;
  om_deletion_timestamp : option Time;
}.
#[export] Instance eta_object_meta : Eta ObjectMeta := λ m,
  mkObjectMeta (om_name m) (om_namespace m) (om_uid m) (om_generation m)
    (om_resource_version m) (om_labels m) (om_annotations m)
    (om_owner_references m) (om_finalizers m) (om_creation_timestamp m)
    (om_deletion_timestamp m).
#[export] Instance owner_reference_eq_dec : EqDecision OwnerReference.
Proof. solve_decision. Defined.
#[export] Instance object_meta_eq_dec : EqDecision ObjectMeta.
Proof. solve_decision. Defined.

(** A Go composite literal [metav1.ObjectMeta{Name: n, Namespace: ns}]. *)
Definition object_meta (n ns : string) : ObjectMeta :=
  mkObjectMeta n ns "" 0 "" ∅ ∅ [] [] zero_time None.

(** [types.NamespacedName]. *)
Definition NamespacedName : Type := string * string.

(** * Status conditions *)

Inductive ConditionStatus := ConditionTrue | ConditionFalse | ConditionUnknown.
#[export] Instance condition_status_eq_dec : EqDecision ConditionStatus.
Proof. solve_decision. Defined.

Record Condition := mkCondition {
  c_type : string;
  c_status : ConditionStatus;
  c_observed_generation : Z;
  c_last_transition_time : Time;
  c_reason : string;
  c_message : string;
}.
#[export] Instance eta_condition : Eta Condition := λ c,
  mkCondition (c_type c) (c_status c) (c_observed_generation c)
    (c_last_transition_time c) (c_reason c) (c_message c).
#[export] Instance condition_eq_dec : EqDecision Condition.
Proof. solve_decision. Defined.

(** Everything a condition says except when it last changed. *)
Definition cond_view (c : Condition) : ConditionStatus * Z * string * string :=
  (c_status c, c_observed_generation c, c_reason c, c_message c).

(** A condition as the code passes it to [SetStatusCondition]: the transition
    time is left zero for the library to stamp. *)
Definition new_condition (t : string) (st : ConditionStatus) (gen : Z)
    (reason msg : string) : Condition :=
  mkCondition t st gen zero_time reason msg.

Definition bool_status (b : bool) : ConditionStatus :=
  if b then ConditionTrue else ConditionFalse.

(** [meta.FindStatusCondition], [meta.SetStatusCondition] (which reads the
    clock, the first argument, when a status changes) and
    [meta.RemoveStatusCondition]. *)
Class ConditionsApi := {
  find_status_condition : list Condition → string → option Condition;
  set_status_condition : Time → list Condition → Condition → list Condition;
  remove_status_condition : list Condition → string → list Condition;
}.

Class ConditionsLaws {CA : ConditionsApi} : Prop := {
  find_status_condition_nil t : find_status_condition [] t = None;
  find_status_condition_type cs t c :
    find_status_condition cs t = Some c → c_type c = t;
  find_set_status_condition_eq now cs c :
    ∃ c', find_status_condition (set_status_condition now cs c) (c_type c) = Some c'
          ∧ cond_view c' = cond_view c;
  find_set_status_condition_ne now cs c t :
    t ≠ c_type c →
    find_status_condition (set_status_condition now cs c) t = find_status_condition cs t;
  set_status_condition_same now cs c c' :
    find_status_condition cs (c_type c) = Some c' → cond_view c' = cond_view c →
    set_status_condition now cs c = cs;
  find_remove_status_condition_eq cs t :
    find_status_condition (remove_status_condition cs t) t = None;
  find_remove_status_condition_ne cs t t' :
    t ≠ t' →
    find_status_condition (remove_status_condition cs t) t' = find_status_condition cs t';
}.

(** [meta.IsStatusConditionTrue]. *)
Definition is_status_condition_true `{ConditionsApi} (cs : list Condition) (t : string) : bool :=
  match find_status_condition cs t with
  | Some c => bool_decide (c_status c = ConditionTrue)
  | None => false
  end.

(** What a reader of a condition list can see of one type. *)
Definition view `{ConditionsApi} (cs : list Condition) (t : string) :=
  cond_view <$> find_status_condition cs t.

Section condition_lemmas.
Context `{ConditionsLaws}.

Lemma view_set now cs c t :
  view (set_status_condition now cs c) t =
  if decide (t = c_type c) then Some (cond_view c) else view cs t.
Proof.
  unfold view. case_decide as E.
  - subst. destruct (find_set_status_condition_eq now cs c) as (c' & -> & Hv).
    simpl. by rewrite Hv.
  - by rewrite find_set_status_condition_ne.
Qed.

Lemma view_set_new now cs t st gen r m t' :
  view (set_status_condition now cs (new_condition t st gen r m)) t' =
  if decide (t' = t) then Some (st, gen, r, m) else view cs t'.
Proof. apply view_set. Qed.

(** Setting several conditions of distinct types in a row. *)
Definition set_all (now : Time) (gen : Z) (l : list (string * (ConditionStatus * string * string)))
    (cs : list Condition) : list Condition :=
  foldl (λ cs e, set_status_condition now cs
                   (new_condition e.1 e.2.1.1 gen e.2.1.2 e.2.2)) cs l.

Lemma set_all_cons now gen t st r m l cs :
  set_all now gen ((t, (st, r, m)) :: l) cs =
  set_all now gen l (set_status_condition now cs (new_condition t st gen r m)).
Proof. reflexivity. Qed.

Lemma view_set_all_ne now gen l cs t :
  t ∉ l.*1 → view (set_all now gen l cs) t = view cs t.
Proof.
  revert cs. induction l as [|[t' [[st r] m]] l IH]; intros cs Ht; [done|].
  rewrite set_all_cons, IH by set_solver.
  rewrite view_set_new, decide_False by set_solver. done.
Qed.

Lemma view_set_all now gen l cs t st r m :
  NoDup l.*1 → (t, (st, r, m)) ∈ l → view (set_all now gen l cs) t = Some (st, gen, r, m).
Proof.
  revert cs. induction l as [|[t' [[st' r'] m']] l IH]; intros cs; [set_solver|].
  cbn [fmap list_fmap fst]. rewrite NoDup_cons, elem_of_cons.
  intros [Hn HN] [[= -> -> -> ->]|Hin]; [|by apply IH].
  by rewrite set_all_cons, view_set_all_ne, view_set_new, decide_True by done.
Qed.

Lemma find_set_all_ne now gen l cs t :
  t ∉ l.*1 → find_status_condition (set_all now gen l cs) t = find_status_condition cs t.
Proof.
  revert cs. induction l as [|[t' [[st r] m]] l IH]; intros cs Ht; [done|].
  rewrite set_all_cons, IH by set_solver.
  apply find_set_status_condition_ne. set_solver.
Qed.

Lemma set_new_same now cs t st gen r m :
  view cs t = Some (st, gen, r, m) →
  set_status_condition now cs (new_condition t st gen r m) = cs.
Proof.
  unfold view. destruct (find_status_condition cs t) as [c|] eqn:E; simpl; [|done].
  intros Hv. apply (inj Some) in Hv. by apply (set_status_condition_same _ _ _ c).
Qed.

Lemma set_all_same now gen l cs :
  (∀ t st r m, (t, (st, r, m)) ∈ l → view cs t = Some (st, gen, r, m)) →
  set_all now gen l cs = cs.
Proof.
  induction l as [|[t [[st r] m]] l IH]; intros Hl; [done|].
  rewrite set_all_cons, set_new_same by (apply Hl; left).
  apply IH. intros. apply Hl. by right.
Qed.

(** Repeating the same settings, at whatever time, changes nothing. *)
Lemma set_all_idempotent now now' gen l cs :
  NoDup l.*1 → set_all now' gen l (set_all now gen l cs) = set_all now gen l cs.
Proof. intros HN. apply set_all_same. intros. by apply view_set_all. Qed.
End condition_lemmas.

(** * The API client

    One instance per object kind and world.  Any call can fail and can observe
    a world other actors have changed.  [klist] takes the namespace ([""] for
    all) and the label selectors, which are and-ed. *)
Class Kind (W O : Type) := {
  kget : string → string → SE W O;
  klist : string → list (gmap string string) → SE W (list O);
  kcreate : O → SE W O;
  kupdate : O → SE W O;
  kupdate_status : O → SE W O;
  kdelete : O → SE W unit;
}.

(** [time.Now]; reading the clock advances it. *)
Class Clock (W : Type) := time_now : W → Time * W.

Definition now `{Clock W} : SE W Time := λ w, let '(t, w') := time_now w in (Ok t, w').

(** [controllerutil.CreateOrUpdate]: fetch the object the key fields of the
    argument name, run the mutation on it, then create it, update it, or leave
    it.  [A] is what the mutation also returns through captured variables. *)
Inductive OperationResult := OpNone | OpCreated | OpUpdated.
Class CreateOrUpdate (W O : Type) :=
  create_or_update : ∀ A, O → (O → SE W (O * A)) → SE W (O * A * OperationResult).

(** Owner references: [controllerutil.SetControllerReference] (which fails when
    another controller owns the object), [controllerutil.SetOwnerReference],
    [controllerutil.HasOwnerReference], [metav1.IsControlledBy] and
    [metav1.GetControllerOf]. *)
Class OwnerApi := {
  set_controller_reference : ObjectMeta → ObjectMeta → result ObjectMeta;
  set_owner_reference : ObjectMeta → ObjectMeta → result ObjectMeta;
  has_owner_reference : list OwnerReference → ObjectMeta → result bool;
  is_controlled_by : ObjectMeta → ObjectMeta → bool;
  get_controller_of : ObjectMeta → option OwnerReference;
}.

Class OwnerLaws {OA : OwnerApi} : Prop := {
  has_owner_after_set_controller owner obj obj' :
    set_controller_reference owner obj = Ok obj' →
    has_owner_reference (om_owner_references obj') owner = Ok true;
  controlled_after_set_controller owner obj obj' :
    set_controller_reference owner obj = Ok obj' → is_controlled_by obj' owner = true;
  set_controller_keeps owner obj obj' :
    set_controller_reference owner obj = Ok obj' →
    ∃ refs, obj' = obj <| om_owner_references := refs |>;
  controlled_by_controller obj owner :
    is_controlled_by obj owner =
    match get_controller_of obj with
    | Some r => bool_decide (ref_uid r = om_uid owner)
    | None => false
    end;
  get_controller_of_refs obj obj' :
    om_owner_references obj = om_owner_references obj' → get_controller_of obj = get_controller_of obj';
  set_owner_keeps owner obj obj' :
    set_owner_reference owner obj = Ok obj' → ∃ refs, obj' = obj <| om_owner_references := refs |>;
}.

(** Finalizers: [controllerutil.AddFinalizer] (which answers whether it changed
    anything), [controllerutil.RemoveFinalizer] and [controllerutil.ContainsFinalizer]. *)
Class FinalizerApi := {
  add_finalizer : string → ObjectMeta → bool * ObjectMeta;
  remove_finalizer : string → ObjectMeta → ObjectMeta;
  contains_finalizer : string → ObjectMeta → bool;
}.

Class FinalizerLaws {FA : FinalizerApi} : Prop := {
  contains_finalizer_in f m : contains_finalizer f m = true ↔ f ∈ om_finalizers m;
  add_finalizer_new f m :
    f ∉ om_finalizers m → add_finalizer f m = (true, m <| om_finalizers ::= λ l, l ++ [f] |>);
  add_finalizer_present f m : f ∈ om_finalizers m → add_finalizer f m = (false, m);
  remove_finalizer_spec f m : remove_finalizer f m = m <| om_finalizers ::= filter (.≠ f) |>;
}.

(** A [*metav1.Time] that is nil or zero ([IsZero]). *)
Definition deleted (m : ObjectMeta) : bool :=
  match om_deletion_timestamp m with Some t => negb (is_zero_time t) | None => false end.

(** [ctrl.Result]. *)
Record CtrlResult := mkCtrlResult { requeue : bool; requeue_after : Duration }.
Definition no_requeue : CtrlResult := mkCtrlResult false 0.
#[export] Instance ctrl_result_eq_dec : EqDecision CtrlResult.
Proof. solve_decision. Defined.
