(* ===== verification/Objects.v ===== *)
(** A reconcile pass over one object, for the controllers that need no more than
    the outside world and the in-memory copy their code assigns to. *)
From S2P Require Import Prelude Kube.

Record On (W O : Type) := mkOn { outside : W; object : O }.
Arguments mkOn {W O} _ _.
Arguments outside {W O} _.
Arguments object {W O} _.

(** A controller's code. *)
Abbreviation OM W O A := (SE (On W O) A) (only parsing).

Section on.
Context {W O : Type}.

(** A call on the outside world. *)
Definition call {A} (m : SE W A) : OM W O A := λ p,
  let '(r, w) := m (outside p) in (r, mkOn w (object p)).
(** An assignment to the object, and a look at it. *)
Definition assign (f : O → O) : OM W O unit := modifies (λ p, mkOn (outside p) (f (object p))).
Definition look {B} (f : O → B) : OM W O B := gets (λ p, f (object p)).

(** Run a whole pass: fetch the copy, and hand back the world alone. *)
Definition with_object {A} (o : O) (m : OM W O A) : SE W (A * O) := λ w,
  match m (mkOn w o) with
  | (Ok a, p) => (Ok (a, object p), outside p)
  | (Err e, p) => (Err e, outside p)
  end.

Lemma post_call {A} (m : SE W A) Q (p : On W O) :
  (∀ a w, m (outside p) = (Ok a, w) → Q a (mkOn w (object p))) → post (call m) Q p.
Proof.
  unfold post, call. intros HQ a p' H. destruct (m (outside p)) as [[b|e] w] eqn:E; [|done].
  injection H as <- <-. by apply HQ.
Qed.
Lemma post_assign f Q (p : On W O) : Q tt (mkOn (outside p) (f (object p))) → post (assign f) Q p.
Proof. intros H. by apply (post_modifies (λ p, mkOn (outside p) (f (object p)))). Qed.
Lemma post_look {B} (f : O → B) Q (p : On W O) : Q (f (object p)) p → post (look f) Q p.
Proof. intros H. by apply (post_gets (λ p : On W O, f (object p))). Qed.

Lemma call_ok {A} (m : SE W A) p a w : m (outside p) = (Ok a, w) → call m p = (Ok a, mkOn w (object p)).
Proof. unfold call. by intros ->. Qed.
Lemma call_err {A} (m : SE W A) p e w : m (outside p) = (Err e, w) → call m p = (Err e, mkOn w (object p)).
Proof. unfold call. by intros ->. Qed.

(** ** Invariants of the world and of the object *)

Lemma inv_call (I : W → Prop) {A} (m : SE W A) : Inv I m → Inv (λ p : On W O, I (outside p)) (call m).
Proof. intros Hm p Hp. specialize (Hm (outside p) Hp). unfold call. by destruct (m (outside p)). Qed.
Lemma inv_assign (I : W → Prop) f : Inv (λ p : On W O, I (outside p)) (assign f).
Proof. by intros p Hp. Qed.
Lemma inv_look (I : On W O → Prop) {B} (f : O → B) : Inv I (look f).
Proof. by intros p. Qed.

Lemma inv_object_call (I : O → Prop) {A} (m : SE W A) : Inv (λ p : On W O, I (object p)) (call m).
Proof. intros p Hp. unfold call. by destruct (m (outside p)). Qed.
Lemma inv_object_assign (I : O → Prop) f :
  (∀ o, I o → I (f o)) → Inv (λ p : On W O, I (object p)) (assign f).
Proof. intros Hf p Hp. by apply Hf. Qed.
End on.
#[export] Hint Resolve inv_call inv_assign inv_look inv_object_call inv_object_assign : inv.

(** Decompose a program into its final states. *)
Ltac on_step :=
  first
  [ apply post_bind
  | apply post_ret
  | apply post_fail
  | apply post_look
  | apply post_assign
  | apply post_of_result; intros ? ?
  | apply post_call; intros ? ? ?
  | match goal with
    | |- post (match ?x with _ => _ end) _ _ => destruct x eqn:?
    | |- post (let '(_, _) := ?x in _) _ _ => destruct x eqn:?
    end ].

(** Decompose a program for an invariant. *)
Ltac inv_step :=
  first
  [ solve [eauto with inv]
  | apply inv_bind; [|intros ? ?]
  | match goal with
    | |- Inv _ (match ?x with _ => _ end) => destruct x eqn:?
    | |- Inv _ (let '(_, _) := ?x in _) => destruct x eqn:?
    end ].
Ltac solve_inv := repeat inv_step.

(** * Results of a step

    The volume and the registry controller each declare this type. *)

Record subReconcilerResult := mkSubReconcilerResult {
  isNil : bool; isStop : bool; isRequeue : bool; requeueAfter : option Duration }.
#[export] Instance sub_reconciler_result_eq_dec : EqDecision subReconcilerResult.
Proof. solve_decision. Defined.
Definition resultNil : subReconcilerResult := mkSubReconcilerResult true false false None.
Definition resultStop : subReconcilerResult := mkSubReconcilerResult false true false None.
Definition resultRequeue : subReconcilerResult := mkSubReconcilerResult false false true None.
Definition resultRequeueAfter (t : Duration) : subReconcilerResult :=
  mkSubReconcilerResult false false false (Some t).

(** * Chains of steps *)

Section chains.
Context {W O : Type}.

(** Get the object; create it and come back, or do [found]. *)
Definition createOr {O'} `{Kind W O'} (m : ObjectMeta) (desired : O')
    (found : O' → OM W O subReconcilerResult) : OM W O subReconcilerResult :=
  got ← call (attempt (kget (O:=O') (om_namespace m) (om_name m)));
  match got with
  | Err e => if is_not_found e then _ ← call (kcreate desired); mret resultRequeue else fail e
  | Ok existing => found existing
  end.

(** Steps one after another, until one of them ends the pass. *)
Fixpoint runSteps (steps : list (OM W O subReconcilerResult)) : OM W O CtrlResult :=
  match steps with
  | [] => mret no_requeue
  | step :: steps =>
      res ← step;
      if isStop res then mret no_requeue
      else if isRequeue res then mret (mkCtrlResult true 0)
      else match requeueAfter res with
           | Some t => mret (mkCtrlResult false t)
           | None => runSteps steps
           end
  end.

(** A step for each item, until one of them has a result. *)
Fixpoint inTurn {A} (step : A → OM W O subReconcilerResult) (l : list A) : OM W O subReconcilerResult :=
  match l with
  | [] => mret resultNil
  | a :: l =>
      res ← step a;
      if decide (res = resultNil) then inTurn step l else mret res
  end.

(** An object that was looked for, was not there, and has been created. *)
Definition madeAnew {O'} `{Kind W O'} (m : ObjectMeta) (desired : O') (w w' : W) : Prop :=
  ∃ e w1 o, is_not_found e = true ∧ kget (O:=O') (om_namespace m) (om_name m) w = (Err e, w1) ∧
    kcreate desired w1 = (Ok o, w').

Lemma post_createOr_at {O'} {KO : Kind W O'} m (desired : O') found
    (Q : subReconcilerResult → On W O → Prop) p :
  (∀ w', madeAnew m desired (outside p) w' → Q resultRequeue (mkOn w' (object p))) →
  (∀ existing w', kget (om_namespace m) (om_name m) (outside p) = (Ok existing, w') →
     post (found existing) Q (mkOn w' (object p))) →
  post (createOr m desired found) Q p.
Proof.
  intros HC HF. apply post_bind, post_call. intros got w Hg%attempt_inv. destruct got as [o|e]; [by eapply HF|].
  destruct (is_not_found e) eqn:He; [|apply post_fail]. apply post_bind, post_call. intros o w' Hc.
  apply post_ret, HC. by exists e, w, o.
Qed.
Lemma post_createOr {O'} {KO : Kind W O'} m (desired : O') found
    (Q : subReconcilerResult → On W O → Prop) p :
  (∀ w, Q resultRequeue (mkOn w (object p))) →
  (∀ existing w w', kget (om_namespace m) (om_name m) w = (Ok existing, w') →
     post (found existing) Q (mkOn w' (object p))) →
  post (createOr m desired found) Q p.
Proof. intros HC HF. apply post_createOr_at; [by intros w' _|]. intros existing w'. apply HF. Qed.

(** A step that neither ends the pass nor changes the object can be looked past. *)
Lemma post_runSteps_cons (step : OM W O subReconcilerResult) steps (Q : CtrlResult → On W O → Prop) p :
  post step (λ res p', (res = resultNil ∧ post (runSteps steps) Q p') ∨
                       (res = resultStop ∧ Q no_requeue p') ∨
                       (res = resultRequeue ∧ Q (mkCtrlResult true 0) p') ∨
                       (∃ t, res = resultRequeueAfter t ∧ Q (mkCtrlResult false t) p')) p →
  post (runSteps (step :: steps)) Q p.
Proof.
  intros Hs. cbn [runSteps]. apply post_bind. eapply post_mono; [apply Hs|].
  intros res p' [[-> H]|[[-> H]|[[-> H]|(t & -> & H)]]]; [exact H|by apply post_ret..].
Qed.

Lemma post_inTurn {A} (step : A → OM W O subReconcilerResult) (l : list A) (P : A → Prop)
    (I : O → Prop) (Q : subReconcilerResult → On W O → Prop) p :
  I (object p) →
  (∀ a p, a ∈ l → I (object p) → post (step a) (λ res p',
     (res = resultNil ∧ P a ∧ I (object p')) ∨ (res ≠ resultNil ∧ Q res p')) p) →
  (∀ p', Forall P l → I (object p') → Q resultNil p') →
  post (inTurn step l) Q p.
Proof.
  revert p. induction l as [|a l IH]; intros p Hp Hs Hl; [by apply post_ret, Hl|].
  cbn [inTurn]. apply post_bind. eapply post_mono; [apply Hs; [by left|done]|].
  intros res p' [(-> & Ha & Hp')|[Hne HQ]]; cbv beta.
  - rewrite decide_True by done. apply IH; [done|..].
    + intros b p1 Hb. apply Hs. by right.
    + intros p1 HF. apply Hl. by constructor.
  - rewrite decide_False by done. by apply post_ret.
Qed.
End chains.
