(* ===== verification/Apimachinery.v ===== *)
(** A concrete instance of the condition, owner-reference and finalizer
    helpers, written from their documentation.  No definition of the program
    depends on it: it shows that the [...Laws] classes of Kube.v can hold and
    gives the examples something to evaluate. *)
From S2P Require Import Prelude Kube.

(** * Conditions *)

Fixpoint find_condition (cs : list Condition) (t : string) : option Condition :=
  match cs with
  | [] => None
  | c :: cs => if decide (c_type c = t) then Some c else find_condition cs t
  end.

Definition update_condition (now : Time) (old new : Condition) : Condition :=
  mkCondition (c_type old) (c_status new) (c_observed_generation new)
    (if decide (c_status old = c_status new) then c_last_transition_time old else now)
    (c_reason new) (c_message new).

Fixpoint set_condition (now : Time) (cs : list Condition) (c : Condition) : list Condition :=
  match cs with
  | [] => [c <| c_last_transition_time := now |>]
  | c0 :: cs =>
      if decide (c_type c0 = c_type c) then update_condition now c0 c :: cs
      else c0 :: set_condition now cs c
  end.

#[export] Instance apimachinery_conditions : ConditionsApi := {
  find_status_condition := find_condition;
  set_status_condition := set_condition;
  remove_status_condition := λ cs t, filter (λ c, c_type c ≠ t) cs;
}.

#[export] Instance apimachinery_conditions_laws : ConditionsLaws.
Proof.
  split; simpl.
  - done.
  - intros cs t c. induction cs as [|c0 cs IH]; simpl; [done|]. case_decide; naive_solver.
  - intros now cs c. induction cs as [|c0 cs IH]; simpl.
    + rewrite decide_True by done. by eexists.
    + destruct (decide (c_type c0 = c_type c)) as [E|E]; simpl.
      * rewrite decide_True by done. by eexists.
      * rewrite decide_False by done. done.
  - intros now cs c t Ht. induction cs as [|c0 cs IH]; simpl.
    + by rewrite decide_False.
    + destruct (decide (c_type c0 = c_type c)) as [E|E]; simpl.
      * rewrite E, decide_False by done. by rewrite decide_False.
      * case_decide; [done|apply IH].
  - intros now cs c c' Hf Hv. induction cs as [|c0 cs IH]; simpl in *; [done|].
    case_decide as E; simplify_eq.
    + f_equal. unfold update_condition. destruct c', c; unfold cond_view in Hv; simpl in *.
      simplify_eq. by rewrite decide_True.
    + f_equal. auto.
  - intros cs t. induction cs as [|c0 cs IH]; simpl; [done|].
    rewrite filter_cons. case_decide as E; simpl; [|done]. by rewrite decide_False.
  - intros cs t t' Ht. induction cs as [|c0 cs IH]; simpl; [done|].
    rewrite filter_cons. case_decide as E; simpl.
    + by rewrite IH.
    + rewrite decide_False by naive_solver. done.
Qed.

(** * Owner references *)

Definition owner_ref (owner : ObjectMeta) (controller : bool) : OwnerReference :=
  mkOwnerReference (om_uid owner) (om_name owner) controller.

Definition other_controller (owner obj : ObjectMeta) : bool :=
  existsb (λ r, ref_controller r && negb (bool_decide (ref_uid r = om_uid owner)))
    (om_owner_references obj).

Definition upsert_ref (ref : OwnerReference) (refs : list OwnerReference) : list OwnerReference :=
  filter (λ r, ref_uid r ≠ ref_uid ref) refs ++ [ref].

Definition controller_of (obj : ObjectMeta) : option OwnerReference :=
  List.find ref_controller (om_owner_references obj).

#[export] Instance apimachinery_owners : OwnerApi := {
  set_controller_reference := λ owner obj,
    if other_controller owner obj
    then Err (ApiError "already owned by another controller")
    else Ok (obj <| om_owner_references ::= upsert_ref (owner_ref owner true) |>);
  set_owner_reference := λ owner obj,
    Ok (obj <| om_owner_references ::= upsert_ref (owner_ref owner false) |>);
  has_owner_reference := λ refs owner,
    Ok (existsb (λ r, bool_decide (ref_uid r = om_uid owner)) refs);
  is_controlled_by := λ obj owner,
    match controller_of obj with
    | Some r => bool_decide (ref_uid r = om_uid owner)
    | None => false
    end;
  get_controller_of := controller_of;
}.

(** After [upsert_ref], the controlling reference is the one put in. *)
Lemma controller_upsert owner refs :
  existsb (λ r, ref_controller r && negb (bool_decide (ref_uid r = om_uid owner))) refs = false →
  List.find ref_controller (upsert_ref (owner_ref owner true) refs) = Some (owner_ref owner true).
Proof.
  unfold upsert_ref. induction refs as [|r refs IH]; [done|].
  cbn [existsb]. intros [Hr Hrefs]%orb_false_iff. rewrite filter_cons.
  destruct (decide (ref_uid r ≠ ref_uid (owner_ref owner true))) as [Hu|_]; [|by apply IH].
  cbn [app List.find]. rewrite bool_decide_false in Hr by exact Hu. rewrite andb_true_r in Hr.
  rewrite Hr. by apply IH.
Qed.

#[export] Instance apimachinery_owners_laws : OwnerLaws.
Proof.
  split; [intros owner obj obj'; cbn; destruct (other_controller owner obj) eqn:E..| | |]; try done.
  - intros [= <-]. cbn. unfold upsert_ref. rewrite existsb_app. cbn.
    by rewrite bool_decide_true, orb_true_r by done.
  - intros [= <-]. unfold controller_of. cbn. rewrite controller_upsert by done. by apply bool_decide_true.
  - intros [= <-]. by eexists.
  - intros obj obj' H. cbn. unfold controller_of. by rewrite H.
  - intros owner obj obj' [= <-]. by eexists.
Qed.

(** * Finalizers *)

#[export] Instance apimachinery_finalizers : FinalizerApi := {
  add_finalizer := λ f m,
    if decide (f ∈ om_finalizers m) then (false, m)
    else (true, m <| om_finalizers ::= λ l, l ++ [f] |>);
  remove_finalizer := λ f m, m <| om_finalizers ::= filter (.≠ f) |>;
  contains_finalizer := λ f m, bool_decide (f ∈ om_finalizers m);
}.

#[export] Instance apimachinery_finalizers_laws : FinalizerLaws.
Proof.
  split; cbn; intros f m.
  - apply bool_decide_eq_true.
  - intros H. by rewrite decide_False.
  - intros H. by rewrite decide_True.
  - done.
Qed.
