(* ===== verification/Api.v ===== *)
(** The core custom resources: [StackResource] and [Stack] with every field of
    their Go structs, and the methods the API package gives them.  A pointer is
    an [option], an [int32]/[int64] is a [Z], a string-typed enum that the code
    compares with unknown values stays a string. *)
From S2P Require Import Prelude Kube.

(** * Annotations and labels (api/core/v1alpha1/common.go) *)

Definition LabelManagedBy : string := "app.kubernetes.io/managed-by".
Definition LabelStackName : string := "core.stackdome.io/stack-name".
Definition LabelStackID : string := "core.stackdome.io/stack-id".
Definition LabelResourceName : string := "core.stackdome.io/resource-name".
Definition LabelResourceID : string := "core.stackdome.io/resource-id".
Definition LabelUsesPlatformWildcardTLS : string := "core.stackdome.io/uses-platform-wildcard-tls".
Definition LabelPlatformWildcardTLSSecret : string := "core.stackdome.io/platform-wildcard-tls".
Definition RevisionAnnotation : string := "core.stackdome.io/revision".
Definition ReleaseIDAnnotation : string := "core.stackdome.io/release-id".
Definition ClusterIssuerAnnotation : string := "core.stackdome.io/cluster-issuer".
Definition RestartResourceAnnotation : string := "kubectl.kubernetes.io/restartedAt".

(** * Condition types *)

(** Domain conditions: firsthand facts, one writer each. *)
Inductive StackResourceDomainCondition :=
  | StackResourceTLSConfigured
  | StackResourceDependenciesReady
  | StackResourceBuildReady
  | StackResourcePreDeployComplete
  | StackResourceWorkloadAvailable
  | StackResourceWorkloadConverged
  | StackResourceIngressReady.

Definition domain_name (c : StackResourceDomainCondition) : string :=
  match c with
  | StackResourceTLSConfigured => "TLSConfigured"
  | StackResourceDependenciesReady => "DependenciesReady"
  | StackResourceBuildReady => "BuildReady"
  | StackResourcePreDeployComplete => "PreDeployComplete"
  | StackResourceWorkloadAvailable => "WorkloadAvailable"
  | StackResourceWorkloadConverged => "WorkloadConverged"
  | StackResourceIngressReady => "IngressReady"
  end.

(** Summary conditions: written only by the status derivation. *)
Inductive StackResourceStatusCondition :=
  | StackResourceStatusAvailable
  | StackResourceStalled
  | StackResourceConverged.

Definition summary_name (c : StackResourceStatusCondition) : string :=
  match c with
  | StackResourceStatusAvailable => "Available"
  | StackResourceStalled => "Stalled"
  | StackResourceConverged => "Converged"
  end.

#[export] Instance domain_condition_eq_dec : EqDecision StackResourceDomainCondition.
Proof. solve_decision. Defined.
#[export] Instance status_condition_eq_dec : EqDecision StackResourceStatusCondition.
Proof. solve_decision. Defined.

(** * StackResource spec *)

Definition WorkloadTypeService : string := "Service".
Definition WorkloadTypeStatefulService : string := "StatefulService".
Definition WorkloadTypeWorker : string := "Worker".
Definition WorkloadTypeJob : string := "Job".
Definition WorkloadTypeCronJob : string := "CronJob".

Record HTTPGetProbe := mkHTTPGetProbe { http_path : string; http_port_name : string }.
Record TCPSocketProbe := mkTCPSocketProbe { tcp_port_name : string }.
Record Probe := mkProbe {
  p_http_get : option HTTPGetProbe;
  p_tcp_socket : option TCPSocketProbe;
  p_command : list string;
  p_initial_delay_seconds : Z;
  p_period_seconds : Z;
  p_failure_threshold : Z;
  p_timeout_seconds : Z;
}.
Record HealthChecks := mkHealthChecks {
  hc_readiness : option Probe;
  hc_liveness : option Probe;
  hc_startup : option Probe;
}.
Record Port := mkPort {
  port_name : string;
  port_number : Z;
  port_protocol : string;
  port_expose_to_public : bool;
  port_fqdn : string;
  port_tls : bool;
  port_tls_secret_ref : string;
}.
Record SecretKeySelector := mkSecretKeySelector { sks_name : string; sks_key : string }.
Record SecretReference := mkSecretReference { sr_ref_name : string; sr_ref_namespace : string }.
#[export] Instance secret_reference_eq_dec : EqDecision SecretReference.
Proof. solve_decision. Defined.
Record EnvironmentVariable := mkEnvironmentVariable {
  ev_name : string; ev_value : string; ev_value_from : option SecretKeySelector }.
Record BuildArg := mkBuildArg {
  ba_name : string; ba_value : string; ba_value_from : option SecretKeySelector }.
Record VolumeMount := mkVolumeMount {
  vm_source_volume : string;
  vm_source_sub_path : string;
  vm_destination : string;
  vm_read_only : bool;
}.
Record GitRepoRevision := mkGitRepoRevision {
  gr_branch : string; gr_tag : string; gr_commit : string }.
Record SourceRevisionSpec := mkSourceRevisionSpec {
  sr_volume : option string;
  sr_git_repo : option GitRepoRevision;
}.
Record CredentialSecretKeyPair := mkCredentialSecretKeyPair {
  cs_secret_ref : SecretReference; cs_username_key : string; cs_password_key : string }.
#[export] Instance git_repo_revision_eq_dec : EqDecision GitRepoRevision.
Proof. solve_decision. Defined.
#[export] Instance credential_secret_key_pair_eq_dec : EqDecision CredentialSecretKeyPair.
Proof. solve_decision. Defined.
Record GitAuth := mkGitAuth {
  ga_username_password : option CredentialSecretKeyPair;
  ga_personal_access_token : option CredentialSecretKeyPair;
}.
Record GitRepoSource := mkGitRepoSource { gs_repo_url : string; gs_auth : option GitAuth }.
Record BuildContextSource := mkBuildContextSource {
  bcs_volume : option string;
  bcs_git : option GitRepoSource;
}.
Record DockerConfigAuth := mkDockerConfigAuth {
  dca_secret_key : string; dca_secret_ref : option SecretReference }.
Record BasicAuthCredentials := mkBasicAuthCredentials {
  bac_secret_ref : SecretReference; bac_username_key : string; bac_password_key : string }.
Record RegistryCredentialsSpec := mkRegistryCredentialsSpec {
  rc_docker_config : option DockerConfigAuth; rc_basic : option BasicAuthCredentials }.
Record ExternalRegistrySpec := mkExternalRegistrySpec {
  er_host : string; er_tls_insecure : option bool }.
Record ImageRepositorySpec := mkImageRepositorySpec {
  ir_cluster_registry_ref : option string;
  ir_external : option ExternalRegistrySpec;
  ir_repository : string;
  ir_tag_policy_fixed : option (option string);
  ir_auth : option RegistryCredentialsSpec;
}.
Record RegistryAuth := mkRegistryAuth {
  ra_type : string; ra_docker_config_auth : option DockerConfigAuth }.
Record ImageSpec := mkImageSpec {
  is_image : string; is_image_pull_policy : string; is_pull_auth : option RegistryAuth }.
Record StackResourceBuildSpec := mkStackResourceBuildSpec {
  bs_source_context : BuildContextSource;
  bs_build_context : string;
  bs_docker_file_path : string;
  bs_source_revision : SourceRevisionSpec;
  bs_repository : ImageRepositorySpec;
  bs_build_args : list BuildArg;
}.
Record InitSpec := mkInitSpec {
  init_command : list string; init_args : list string; init_image_spec : option ImageSpec }.

(** [corev1.ResourceRequirements] is copied, never inspected. *)
Definition ResourceRequirements : Type := gmap string string * gmap string string.

Record StackResourceSpec := mkStackResourceSpec {
  workload_type : string;
  schedule : string;
  replicas : option Z;
  build_spec : option StackResourceBuildSpec;
  image_spec : option ImageSpec;
  init_spec : option InitSpec;
  command : list string;
  args : list string;
  environment_variables : list EnvironmentVariable;
  volume_mounts : list VolumeMount;
  depends_on : list string;
  ports : list Port;
  resources : option ResourceRequirements;
  health_checks : option HealthChecks;
  pre_deploy_command : list string;
  termination_grace_period_seconds : option Z;
  hardened_security_defaults : option bool;
  restart_request : option Time;
}.
#[export] Instance eta_stack_resource_spec : Eta StackResourceSpec := λ s,
  mkStackResourceSpec (workload_type s) (schedule s) (replicas s) (build_spec s)
    (image_spec s) (init_spec s) (command s) (args s) (environment_variables s)
    (volume_mounts s) (depends_on s) (ports s) (resources s) (health_checks s)
    (pre_deploy_command s) (termination_grace_period_seconds s)
    (hardened_security_defaults s) (restart_request s).

(** A spec with every optional field unset. *)
Definition empty_spec : StackResourceSpec :=
  mkStackResourceSpec "" "" None None None None [] [] [] [] [] [] None None [] None None None.

(** * StackResource status *)

Inductive StackResourcePhase :=
  | StackResourcePhaseUnset
  | StackResourcePhasePending
  | StackResourcePhaseReady
  | StackResourcePhaseDegraded
  | StackResourcePhaseFailed.

Inductive StackResourceSummaryState :=
  | SummaryStateWaiting
  | SummaryStateBuilding
  | SummaryStateDeploying
  | SummaryStateReady
  | SummaryStateFailed.

Inductive PortCheckStatusType := PortCheckStatusTypeSuccess | PortCheckStatusTypeFailure.

#[export] Instance sr_phase_eq_dec : EqDecision StackResourcePhase.
Proof. solve_decision. Defined.
#[export] Instance summary_state_eq_dec : EqDecision StackResourceSummaryState.
Proof. solve_decision. Defined.
#[export] Instance port_check_type_eq_dec : EqDecision PortCheckStatusType.
Proof. solve_decision. Defined.

Record ExternalAddress := mkExternalAddress { ea_target_port : Z; ea_address : string }.
Record BuildStatus := mkBuildStatus {
  bst_name : string;
  bst_source_revision : string;
  bst_available : bool;
  bst_reason : string;
  bst_message : string;
  bst_phase : string;
}.
Record ReferencedTLSSecretStatus := mkReferencedTLSSecretStatus {
  rts_reference : string; rts_waiting_since : option Time }.
Record PortCheckStatus := mkPortCheckStatus {
  pc_revision : string;
  pc_status : PortCheckStatusType;
  pc_failing_port_numbers : list Z;
  pc_failing_since : option Time;
}.
Record LastFailureDetail := mkLastFailureDetail {
  lfd_type : string;
  lfd_release_id : string;
  lfd_container_name : string;
  lfd_restart_count : Z;
  lfd_reason : string;
  lfd_message : string;
  lfd_exit_code : option Z;
}.
#[export] Instance eta_last_failure_detail : Eta LastFailureDetail := λ d,
  mkLastFailureDetail (lfd_type d) (lfd_release_id d) (lfd_container_name d)
    (lfd_restart_count d) (lfd_reason d) (lfd_message d) (lfd_exit_code d).
Definition FailureTypeRuntimeCrash : string := "runtime_crash".
Definition FailureTypeReadinessFailure : string := "readiness_failure".
Definition ReasonBuildFailed : string := "BuildFailed".
Definition ReasonPortNotListening : string := "PortNotListening".

Record StackResourceStatusSummary := mkStackResourceStatusSummary {
  sum_state : StackResourceSummaryState;
  sum_reason : string;
  sum_message : string;
  sum_observed_generation : Z;
}.
Record StackResourceConvergenceRecord := mkStackResourceConvergenceRecord {
  src_revision : string; src_at : Time }.

(** [CertManagerTLSStatus] has the single field [waitingSince]. *)
Definition CertManagerTLSStatus : Type := option Time.

Record StackResourceStatus := mkStackResourceStatus {
  observed_generation : Z;
  observed_revision : string;
  last_converged : option StackResourceConvergenceRecord;
  conditions : list Condition;
  phase : StackResourcePhase;
  image_source_revision : string;
  external_address : list ExternalAddress;
  internal_address : option string;
  last_restart_request_processed_at : option Time;
  current_build : option BuildStatus;
  status_hash : string;
  last_failure_details : list LastFailureDetail;
  last_failure_deployment_revision : string;
  status_replicas : Z;
  available_replicas : Z;
  updated_replicas : Z;
  last_run_time : option Time;
  last_run_succeeded : option bool;
  port_check : option PortCheckStatus;
  referenced_tls_secret : option ReferencedTLSSecretStatus;
  cert_manager_tls : option CertManagerTLSStatus;
  summary : option StackResourceStatusSummary;
}.
#[export] Instance eta_stack_resource_status : Eta StackResourceStatus := λ s,
  mkStackResourceStatus (observed_generation s) (observed_revision s) (last_converged s)
    (conditions s) (phase s) (image_source_revision s) (external_address s)
    (internal_address s) (last_restart_request_processed_at s) (current_build s)
    (status_hash s) (last_failure_details s) (last_failure_deployment_revision s)
    (status_replicas s) (available_replicas s) (updated_replicas s) (last_run_time s)
    (last_run_succeeded s) (port_check s) (referenced_tls_secret s) (cert_manager_tls s)
    (summary s).

Definition empty_status : StackResourceStatus :=
  mkStackResourceStatus 0 "" None [] StackResourcePhaseUnset "" [] None None None "" [] ""
    0 0 0 None None None None None None.

Record StackResource := mkStackResource {
  sr_meta : ObjectMeta;
  sr_spec : StackResourceSpec;
  sr_status : StackResourceStatus;
}.
#[export] Instance eta_stack_resource : Eta StackResource := λ r,
  mkStackResource (sr_meta r) (sr_spec r) (sr_status r).

Definition sr_name (r : StackResource) : string := om_name (sr_meta r).
Definition sr_namespace (r : StackResource) : string := om_namespace (sr_meta r).
Definition sr_generation (r : StackResource) : Z := om_generation (sr_meta r).
Definition sr_annotations (r : StackResource) : gmap string string := om_annotations (sr_meta r).
Definition sr_conditions (r : StackResource) : list Condition := conditions (sr_status r).

(** * Methods *)

Definition GetGitRevisionString (s : GitRepoRevision) : string := gr_commit s.

Definition GetSourceRevisionString (s : SourceRevisionSpec) : string :=
  match sr_volume s, sr_git_repo s with
  | Some v, _ => v
  | None, Some g => GetGitRevisionString g
  | None, None => ""
  end.

Definition GetPort (w : StackResource) (port : Z) : option Port :=
  List.find (λ p, port_number p =? port)%Z (ports (sr_spec w)).

Definition HasBuildSpec (w : StackResource) : bool := bool_decide (is_Some (build_spec (sr_spec w))).
Definition HasImageSpec (w : StackResource) : bool := bool_decide (is_Some (image_spec (sr_spec w))).

Definition NeedsPullSecret (w : StackResource) : bool :=
  bool_decide (is_Some (image_spec (sr_spec w) ≫= is_pull_auth)) ||
  bool_decide (is_Some (build_spec (sr_spec w) ≫= λ b, ir_auth (bs_repository b))).

Definition SynthesizedDockerConfigSecretName (resourceName : string) : string :=
  resourceName +:+ "-dockercfg".

Definition InitContainerName (w : StackResource) : string := sr_name w +:+ "-init".

Definition HasExposedPort (w : StackResourceSpec) : bool :=
  existsb port_expose_to_public (ports w).

Definition VolumeMountSources (w : StackResource) : list string :=
  vm_source_volume <$> volume_mounts (sr_spec w).

Definition GetDockerConfigSecretKey (r : RegistryAuth) : string := ".dockerconfigjson".

Definition GetAuthURL (r : RegistryAuth) (registryHost : string) : string :=
  if decide (ra_type r = "DockerHub") then "https://index.docker.io/v1/"
  else if String.prefix "https://" registryHost || String.prefix "http://" registryHost
       then registryHost
       else "http://" +:+ registryHost.

(** * Stack *)

Inductive StackPhase :=
  | StackPhaseUnset | StackReady | StackPending | StackFailed | StackDegraded | StackProgressing.
#[export] Instance stack_phase_eq_dec : EqDecision StackPhase.
Proof. solve_decision. Defined.

Inductive StackCondition :=
  | StackConditionAvailable
  | StackConditionConverged
  | StackConditionResourcesReady
  | StackConditionStalled
  | StackConditionDegraded
  | StackConditionProgressing.
#[export] Instance stack_condition_eq_dec : EqDecision StackCondition.
Proof. solve_decision. Defined.

Definition stack_condition_name (c : StackCondition) : string :=
  match c with
  | StackConditionAvailable => "Available"
  | StackConditionConverged => "Converged"
  | StackConditionResourcesReady => "ResourcesReady"
  | StackConditionStalled => "Stalled"
  | StackConditionDegraded => "Degraded"
  | StackConditionProgressing => "Progressing"
  end.

#[export] Instance stack_condition_name_inj : Inj (=) (=) stack_condition_name.
Proof. by intros [] []. Qed.
#[export] Instance summary_name_inj : Inj (=) (=) summary_name.
Proof. by intros [] []. Qed.
#[export] Instance domain_name_inj : Inj (=) (=) domain_name.
Proof. by intros [] []. Qed.

(** Domain and summary conditions share one list but never a type name. *)
Lemma domain_summary_ne d s : domain_name d ≠ summary_name s.
Proof. by destruct d, s. Qed.

Record StackResourceSummary := mkStackResourceSummary {
  srs_name : string;
  srs_phase : StackResourcePhase;
  srs_observed_revision : string;
  srs_converged_revision : string;
  srs_last_converged : option StackResourceConvergenceRecord;
  srs_available_replicas : Z;
  srs_updated_replicas : Z;
  srs_replicas : Z;
  srs_missing : bool;
  srs_message : string;
}.
#[export] Instance eta_stack_resource_summary : Eta StackResourceSummary := λ s,
  mkStackResourceSummary (srs_name s) (srs_phase s) (srs_observed_revision s)
    (srs_converged_revision s) (srs_last_converged s) (srs_available_replicas s)
    (srs_updated_replicas s) (srs_replicas s) (srs_missing s) (srs_message s).

Record ConvergenceRecord := mkConvergenceRecord {
  cr_revision : string; cr_release_id : string; cr_at : Time }.

Record StackStatus := mkStackStatus {
  st_observed_generation : Z;
  st_target_revision : string;
  st_last_converged : option ConvergenceRecord;
  st_phase : StackPhase;
  st_conditions : list Condition;
  st_resources : list StackResourceSummary;
  st_orphaned_resources : list string;
  st_status_hash : string;
}.
#[export] Instance eta_stack_status : Eta StackStatus := λ s,
  mkStackStatus (st_observed_generation s) (st_target_revision s) (st_last_converged s)
    (st_phase s) (st_conditions s) (st_resources s) (st_orphaned_resources s)
    (st_status_hash s).

Record Stack := mkStack {
  stack_meta : ObjectMeta;
  resource_names : list string;
  stack_status : StackStatus;
}.
#[export] Instance eta_stack : Eta Stack := λ s,
  mkStack (stack_meta s) (resource_names s) (stack_status s).

Definition stack_generation (s : Stack) : Z := om_generation (stack_meta s).
Definition stack_annotations (s : Stack) : gmap string string := om_annotations (stack_meta s).

(** * Status hashes

    [StatusHash] prints a copy of the status, with its own hash field and every
    transition time cleared, through spew into FNV-64.  The digest of that copy
    is a parameter. *)
Definition clear_transition_times (cs : list Condition) : list Condition :=
  (λ c, c <| c_last_transition_time := zero_time |>) <$> cs.

Class StatusDigest := {
  digest_stack_status : StackStatus → string;
  digest_resource_status : StackResourceStatus → string;
}.

Definition StackStatusHash `{StatusDigest} (w : Stack) : string :=
  digest_stack_status
    ((stack_status w) <| st_status_hash := "" |> <| st_conditions ::= clear_transition_times |>).

Definition StackResourceStatusHash `{StatusDigest} (w : StackResource) : string :=
  digest_resource_status
    ((sr_status w) <| status_hash := "" |> <| conditions ::= clear_transition_times |>).

(** * Sample objects, for the examples and witnesses of the development *)

Definition sample_resource (n : string) : StackResource :=
  mkStackResource (object_meta n "default") empty_spec empty_status.

Definition sample_stack (names : list string) : Stack :=
  mkStack (object_meta "shop" "default") names
    (mkStackStatus 0 "" None StackPhaseUnset [] [] [] "").
