(* ===== verification/StackAggregate.v ===== *)
(** Status aggregation of a Stack over its StackResource children
    (internal/controller/stack/aggregate.go): the three-stage pipeline
    [collectChildStats], [deriveState], [aggregateStackStatus].  The clock
    reading the code takes while it aggregates is the argument [now]. *)
From S2P Require Import Prelude Kube Apimachinery Api.

Section stack_aggregate.
Context {CA : ConditionsApi}.

(** * Reading a child *)

Definition findStatusCondition (conds : list Condition) (generation : Z) (condType : string)
    : option Condition :=
  match find_status_condition conds condType with
  | None => None
  | Some cond =>
      if decide (c_observed_generation cond ≠ generation) then None else Some cond
  end.

Record childConditions := mkChildConditions {
  cc_converged : option Condition;
  cc_available : option Condition;
  cc_stalled : option Condition;
}.

Definition currentChildConditions (child : StackResource) : childConditions :=
  let find t := findStatusCondition (sr_conditions child) (sr_generation child) (summary_name t) in
  mkChildConditions (find StackResourceConverged) (find StackResourceStatusAvailable)
    (find StackResourceStalled).

Definition isTrue (c : option Condition) : bool :=
  match c with
  | Some c => bool_decide (c_status c = ConditionTrue)
  | None => false
  end.

Definition childConvergence (child : StackResource) (conds : childConditions)
    (managed : bool) (releaseID : string) : bool * string :=
  let childRevision := mget (sr_annotations child) RevisionAnnotation in
  let childRelease := mget (sr_annotations child) ReleaseIDAnnotation in
  let observed := observed_revision (sr_status child) in
  let converged := isTrue (cc_converged conds) in
  let converged :=
    if managed
    then converged && negb (bool_decide (childRevision = "")) &&
         bool_decide (observed = childRevision) &&
         (bool_decide (releaseID = "") || bool_decide (childRelease = releaseID))
    else converged in
  if converged then (true, "")
  else
    let healthy := isTrue (cc_available conds) in
    if managed && bool_decide (childRevision = "")
    then (false, "no revision annotation (required for release-managed stacks)")
    else if managed && healthy && negb (bool_decide (observed = childRevision))
    then (false, "ready on a previous revision; latest revision not yet observed")
    else if managed && healthy && negb (bool_decide (releaseID = "")) &&
            negb (bool_decide (childRelease = releaseID))
    then (false, "converged on a previous release; waiting for current release")
    else if isTrue (cc_stalled conds)
    then (false, "resource is stalled: " +:+
                 match cc_stalled conds with Some c => c_reason c | None => "" end)
    else if healthy
    then (false, "serving traffic but not fully converged")
    else match cc_available conds with
         | None => (false, "no current status from controller")
         | Some c =>
             if decide (c_status c = ConditionFalse)
             then (false, "not available: " +:+ c_reason c)
             else (false, "resource is not yet available")
         end.

(** * Stage 1: one pass over the children *)

Record childStats := mkChildStats {
  summaries : list StackResourceSummary;
  missing : list string;
  notServing : list string;
  stalled : list string;
  orphans : list string;
  convergedCount : nat;
  availableCount : nat;
  desiredCount : nat;
}.
#[export] Instance eta_child_stats : Eta childStats := λ s,
  mkChildStats (summaries s) (missing s) (notServing s) (stalled s) (orphans s)
    (convergedCount s) (availableCount s) (desiredCount s).

Definition allDesiredServing (s : childStats) : bool :=
  bool_decide (missing s = []) && (0 <? desiredCount s) && (availableCount s =? desiredCount s).

Definition serving (s : childStats) : bool :=
  bool_decide (missing s = []) && bool_decide (notServing s = []).

(** [childMap[children[i].Name] = &children[i]]: a later duplicate wins. *)
Definition childMap (children : list StackResource) : gmap string StackResource :=
  foldl (λ m c, <[sr_name c := c]> m) ∅ children.

Definition missingSummary (name : string) : StackResourceSummary :=
  mkStackResourceSummary name StackResourcePhaseUnset "" "" None 0 0 0 true
    "resource does not exist".

(** The loop body for a desired name whose child exists. *)
Definition collectChild (managed : bool) (releaseID name : string) (child : StackResource)
    (stats : childStats) : childStats :=
  let st := sr_status child in
  let summary := mkStackResourceSummary name (phase st) (observed_revision st) ""
                   (last_converged st) (available_replicas st) (updated_replicas st)
                   (status_replicas st) false "" in
  let conds := currentChildConditions child in
  let '(converged, notConvergedMsg) := childConvergence child conds managed releaseID in
  let stats := if converged then stats <| convergedCount ::= S |> else stats in
  let summary :=
    if converged
    then if managed
         then summary <| srs_converged_revision :=
                           mget (sr_annotations child) RevisionAnnotation |>
         else summary
    else summary <| srs_message := notConvergedMsg |> in
  let stats :=
    if isTrue (cc_available conds)
    then stats <| availableCount ::= S |>
    else stats <| notServing ::= (λ l, l ++ [name]) |> in
  let stats :=
    if isTrue (cc_stalled conds)
    then stats <| stalled ::= (λ l, l ++ [name]) |>
    else stats in
  stats <| summaries ::= (λ l, l ++ [summary]) |>.

Definition collectName (children : gmap string StackResource) (managed : bool)
    (releaseID : string) (stats : childStats) (name : string) : childStats :=
  match children !! name with
  | None =>
      stats <| missing ::= (λ l, l ++ [name]) |>
            <| summaries ::= (λ l, l ++ [missingSummary name]) |>
  | Some child => collectChild managed releaseID name child stats
  end.

Definition collectChildStats (stack : Stack) (children : list StackResource)
    (managed : bool) (releaseID : string) : childStats :=
  let names := resource_names stack in
  let stats := mkChildStats [] [] [] [] [] 0 0 (length names) in
  let stats := foldl (collectName (childMap children) managed releaseID) stats names in
  let desiredSet : gset string := list_to_set names in
  let stats := foldl (λ stats c,
    if decide (sr_name c ∈ desiredSet) then stats
    else stats <| orphans ::= (λ l, l ++ [sr_name c]) |>) stats children in
  stats <| missing ::= sort_strings |> <| notServing ::= sort_strings |>
        <| stalled ::= sort_strings |> <| orphans ::= sort_strings |>.

(** * Stage 2: derivation *)

Record stackState := mkStackState {
  ss_stalled : bool;
  ss_progressing : bool;
  ss_degraded : bool;
  progressingReason : string;
  progressingMessage : string;
  notReadyReason : string;
  notReadyMessage : string;
  notConvergedReason : string;
  notConvergedMessage : string;
  notServingReason : string;
  notServingMessage : string;
}.

Definition deriveState (stats : childStats) (resourcesConverged managed : bool)
    (rootRev : string) (lc : option ConvergenceRecord) : stackState :=
  let isStalled := negb (bool_decide (stalled stats = [])) in
  let hasMissing := negb (bool_decide (missing stats = [])) in
  let hasOrphans := negb (bool_decide (orphans stats = [])) in
  let orphanCleanup := resourcesConverged && hasOrphans && negb isStalled in
  let newTarget := negb managed ||
                   match lc with
                   | None => true
                   | Some r => negb (bool_decide (cr_revision r = rootRev))
                   end in
  let progressing := orphanCleanup ||
    (negb resourcesConverged && negb hasMissing && negb isStalled && newTarget) in
  let '(pReason, pMessage) :=
    if orphanCleanup
    then ("OrphanCleanup",
          "waiting for orphaned resources to be deleted: " +:+ join (orphans stats) ", ")
    else ("RolloutInProgress", "rollout in progress") in
  let degraded := allDesiredServing stats && negb resourcesConverged && negb isStalled &&
                  bool_decide (is_Some lc) in
  let '(rReason, rMessage) :=
    if hasMissing
    then ("MissingResources", "missing resources: " +:+ join (missing stats) ", ")
    else if isStalled
    then ("ResourceStalled", "stalled resources: " +:+ join (stalled stats) ", ")
    else ("ResourcesNotReady", "not all resources are converged") in
  let '(cReason, cMessage) :=
    if hasOrphans && resourcesConverged
    then ("OrphanedResources",
          "orphaned resources not in spec.resourceNames: " +:+ join (orphans stats) ", ")
    else (rReason, rMessage) in
  let '(sReason, sMessage) :=
    if hasMissing
    then ("MissingResources", "missing resources: " +:+ join (missing stats) ", ")
    else ("ResourcesNotServing",
          if decide (notServing stats = []) then "not all resources are serving traffic"
          else "resources not serving: " +:+ join (notServing stats) ", ") in
  mkStackState isStalled progressing degraded pReason pMessage rReason rMessage
    cReason cMessage sReason sMessage.

(** * Stage 3: glue *)

Definition setStackCondition (now : Time) (generation : Z) (condType : StackCondition)
    (ready : bool) (reason msg : string) (status : StackStatus) : StackStatus :=
  status <| st_conditions ::= λ cs, set_status_condition now cs
    (new_condition (stack_condition_name condType) (bool_status ready) generation reason msg) |>.

(** The write-once-per-target LastConverged stamp. *)
Definition stampStackConverged (now : Time) (converged managed : bool) (rootRev releaseID : string)
    (lc : option ConvergenceRecord) : option ConvergenceRecord :=
  let stamp := Some (mkConvergenceRecord rootRev releaseID now) in
  if converged && managed
  then match lc with
       | None => stamp
       | Some r => if decide (cr_revision r ≠ rootRev ∨ cr_release_id r ≠ releaseID)
                   then stamp else lc
       end
  else lc.

Definition stackPhase (stalled progressing degraded converged : bool) : StackPhase :=
  if stalled then StackFailed
  else if progressing then StackProgressing
  else if degraded then StackDegraded
  else if converged then StackReady
  else StackPending.

Definition aggregateStackStatus (now : Time) (stack : Stack) (children : list StackResource)
    : StackStatus :=
  let gen := stack_generation stack in
  let rootRev := mget (stack_annotations stack) RevisionAnnotation in
  let managed := negb (bool_decide (rootRev = "")) in
  let releaseID := mget (stack_annotations stack) ReleaseIDAnnotation in
  let stats := collectChildStats stack children managed releaseID in
  let resourcesConverged := convergedCount stats =? desiredCount stats in
  let converged := resourcesConverged && bool_decide (orphans stats = []) in
  let isServing := serving stats in
  let lc := stampStackConverged now converged managed rootRev releaseID
              (st_last_converged (stack_status stack)) in
  let state := deriveState stats resourcesConverged managed rootRev lc in
  let status := mkStackStatus gen (if managed then rootRev else "") lc StackPhaseUnset
                  (st_conditions (stack_status stack)) (summaries stats) (orphans stats) "" in
  let set := setStackCondition now gen in
  let status :=
    if ss_stalled state
    then set StackConditionStalled true "ResourceStalled" (notReadyMessage state) status
    else set StackConditionStalled false "NotStalled" "no stalled resources" status in
  let status :=
    if resourcesConverged
    then set StackConditionResourcesReady true "AllResourcesReady" "all resources converged" status
    else set StackConditionResourcesReady false (notReadyReason state) (notReadyMessage state) status in
  let status :=
    if isServing
    then set StackConditionAvailable true "AllResourcesServing" "all resources serving traffic" status
    else set StackConditionAvailable false (notServingReason state) (notServingMessage state) status in
  let status :=
    if converged
    then set StackConditionConverged true "AllResourcesConverged"
           "all resources converged and no orphaned resources" status
    else set StackConditionConverged false (notConvergedReason state) (notConvergedMessage state) status in
  let status :=
    if ss_degraded state
    then set StackConditionDegraded true "ServingButNotConverged"
           "all children serving traffic but not all fully converged" status
    else set StackConditionDegraded false "NotDegraded" "not degraded" status in
  let status :=
    if ss_progressing state
    then set StackConditionProgressing true (progressingReason state) (progressingMessage state) status
    else set StackConditionProgressing false "NotProgressing" "no active rollout" status in
  status <| st_phase := stackPhase (ss_stalled state) (ss_progressing state)
                          (ss_degraded state) converged |>.

End stack_aggregate.

(** * What the counts mean

    [desired_view] is the summary of the children a specification speaks about;
    [collectChildStats_spec] says the one-pass loop computes exactly it. *)

Section collect_facts.
Context {CA : ConditionsApi}.
Variables (children : gmap string StackResource) (managed : bool) (releaseID : string).

Definition childOk (c : StackResource) : bool :=
  (childConvergence c (currentChildConditions c) managed releaseID).1.
Definition childServing (c : StackResource) : bool :=
  isTrue (cc_available (currentChildConditions c)).
Definition childStalled (c : StackResource) : bool :=
  isTrue (cc_stalled (currentChildConditions c)).

Definition named (P : StackResource → bool) (n : string) : bool :=
  match children !! n with Some c => P c | None => false end.

Definition summaryOf (n : string) : StackResourceSummary :=
  match children !! n with
  | None => missingSummary n
  | Some c =>
      let st := sr_status c in
      mkStackResourceSummary n (phase st) (observed_revision st)
        (if childOk c && managed then mget (sr_annotations c) RevisionAnnotation else "")
        (last_converged st) (available_replicas st) (updated_replicas st) (status_replicas st)
        false (childConvergence c (currentChildConditions c) managed releaseID).2
  end.

Lemma childConvergence_ok_msg c conds :
  (childConvergence c conds managed releaseID).1 = true →
  (childConvergence c conds managed releaseID).2 = "".
Proof. unfold childConvergence. intros H. repeat case_match; simplify_eq/=; done. Qed.

Lemma childOk_unmanaged c :
  managed = false → childOk c = isTrue (cc_converged (currentChildConditions c)).
Proof.
  intros Hm. unfold childOk. rewrite Hm. unfold childConvergence. generalize (currentChildConditions c). intros cc.
  cbv zeta. cbn [andb]. destruct (isTrue (cc_converged cc)); [done|].
  repeat case_match; done.
Qed.

Lemma collectName_eq st n :
  collectName children managed releaseID st n =
  mkChildStats
    (summaries st ++ [summaryOf n])
    (missing st ++ filter (λ n, children !! n = None) [n])
    (notServing st ++ filter (λ n, named (λ c, negb (childServing c)) n = true) [n])
    (stalled st ++ filter (λ n, named childStalled n = true) [n])
    (orphans st)
    (convergedCount st + length (filter (λ n, named childOk n = true) [n]))
    (availableCount st + length (filter (λ n, named childServing n = true) [n]))
    (desiredCount st).
Proof.
  rewrite !(filter_singleton _ _ []). destruct st as [? ? ? ? ? ? ? ?].
  unfold collectName, summaryOf, named, childOk, childServing, childStalled.
  destruct (children !! n) as [c|]; [|by rewrite ?app_nil_r, ?Nat.add_0_r].
  pose proof (childConvergence_ok_msg c (currentChildConditions c)) as Hmsg. revert Hmsg.
  unfold collectChild. generalize (currentChildConditions c). intros conds.
  destruct (childConvergence c conds managed releaseID) as [b msg]. intros Hmsg.
  destruct b, managed, (isTrue (cc_available conds)), (isTrue (cc_stalled conds));
    simpl in *; rewrite ?app_nil_r, ?Hmsg by done; f_equal; lia.
Qed.

Lemma foldl_collectName ns st :
  foldl (collectName children managed releaseID) st ns =
  mkChildStats
    (summaries st ++ (summaryOf <$> ns))
    (missing st ++ filter (λ n, children !! n = None) ns)
    (notServing st ++ filter (λ n, named (λ c, negb (childServing c)) n = true) ns)
    (stalled st ++ filter (λ n, named childStalled n = true) ns)
    (orphans st)
    (convergedCount st + length (filter (λ n, named childOk n = true) ns))
    (availableCount st + length (filter (λ n, named childServing n = true) ns))
    (desiredCount st).
Proof.
  revert st. induction ns as [|n ns IH]; intros st.
  { destruct st. simpl. by rewrite !app_nil_r, !Nat.add_0_r. }
  cbn [foldl]. rewrite IH, collectName_eq, fmap_cons.
  rewrite !(list_filter_cons_app _ n ns), !length_app. cbn [summaries missing notServing
    stalled orphans convergedCount availableCount desiredCount].
  rewrite <- !app_assoc. f_equal; lia.
Qed.
End collect_facts.

(** * Specification vocabulary *)

Section stack_spec.
Context {CA : ConditionsApi}.
Variables (stack : Stack) (children : list StackResource).

Let rootRev := mget (stack_annotations stack) RevisionAnnotation.
Let managed := negb (bool_decide (rootRev = "")).
Let releaseID := mget (stack_annotations stack) ReleaseIDAnnotation.
Let stats := collectChildStats stack children managed releaseID.

(** Every name in [spec.resourceNames] has a child that satisfies [P]. *)
Definition everyDesired (P : StackResource → bool) : Prop :=
  ∀ n, n ∈ resource_names stack → ∃ c, childMap children !! n = Some c ∧ P c = true.
(** Some name has a child that satisfies [P]. *)
Definition someDesired (P : StackResource → bool) : Prop :=
  ∃ n c, n ∈ resource_names stack ∧ childMap children !! n = Some c ∧ P c = true.
Definition noneMissing : Prop :=
  ∀ n, n ∈ resource_names stack → is_Some (childMap children !! n).
(** A child that exists without being desired. *)
Definition hasOrphan : Prop :=
  ∃ c, c ∈ children ∧ sr_name c ∉ resource_names stack.

Definition stackConverged : Prop := everyDesired (childOk managed releaseID).

Lemma foldl_orphans (ns : gset string) st :
  foldl (λ stats c, if decide (sr_name c ∈ ns) then stats
                    else stats <| orphans ::= (λ l, l ++ [sr_name c]) |>) st children =
  st <| orphans ::= (λ l, l ++ filter (λ n, n ∉ ns) (sr_name <$> children)) |>.
Proof.
  revert st. induction children as [|c cs IH]; intros [? ? ? ? ? ? ? ?]; simpl.
  { by rewrite app_nil_r. }
  rewrite IH, filter_cons. destruct (decide (sr_name c ∈ ns)); simpl;
    repeat case_decide; try done. by rewrite <- app_assoc.
Qed.

Lemma stats_eq :
  stats = mkChildStats
    (summaryOf (childMap children) managed releaseID <$> resource_names stack)
    (sort_strings (filter (λ n, childMap children !! n = None) (resource_names stack)))
    (sort_strings (filter (λ n, named (childMap children) (λ c, negb (childServing c)) n = true)
                     (resource_names stack)))
    (sort_strings (filter (λ n, named (childMap children) childStalled n = true)
                     (resource_names stack)))
    (sort_strings (filter (λ n, n ∉ (list_to_set (resource_names stack) : gset string))
                     (sr_name <$> children)))
    (length (filter (λ n, named (childMap children) (childOk managed releaseID) n = true)
               (resource_names stack)))
    (length (filter (λ n, named (childMap children) childServing n = true) (resource_names stack)))
    (length (resource_names stack)).
Proof.
  unfold stats, collectChildStats. rewrite foldl_collectName, foldl_orphans. reflexivity.
Qed.

Lemma named_true P n :
  named (childMap children) P n = true ↔ ∃ c, childMap children !! n = Some c ∧ P c = true.
Proof. unfold named. destruct (childMap children !! n); naive_solver. Qed.

Lemma converged_count : convergedCount stats = desiredCount stats ↔ stackConverged.
Proof.
  rewrite stats_eq. cbn [convergedCount desiredCount]. rewrite length_filter_all.
  unfold stackConverged, everyDesired. by setoid_rewrite named_true.
Qed.

Lemma available_count : availableCount stats = desiredCount stats ↔ everyDesired childServing.
Proof.
  rewrite stats_eq. cbn [availableCount desiredCount]. rewrite length_filter_all.
  unfold everyDesired. by setoid_rewrite named_true.
Qed.

Lemma missing_nil : missing stats = [] ↔ noneMissing.
Proof.
  rewrite stats_eq. cbn [missing]. rewrite sort_strings_nil, filter_nil_iff.
  unfold noneMissing. by setoid_rewrite not_eq_None_Some.
Qed.

Lemma not_serving_nil :
  missing stats = [] ∧ notServing stats = [] ↔ everyDesired childServing.
Proof.
  rewrite missing_nil, stats_eq. cbn [notServing]. rewrite sort_strings_nil, filter_nil_iff.
  unfold noneMissing, everyDesired. setoid_rewrite named_true. split.
  - intros [Hm Hs] n Hn. destruct (Hm n Hn) as [c Hc]. exists c. split; [done|].
    destruct (childServing c) eqn:E; [done|]. destruct (Hs n Hn). exists c. by rewrite E.
  - intros HA. split; [naive_solver|]. intros n Hn (c & Hc & Hb).
    destruct (HA n Hn) as (c' & Hc' & Hb'). simplify_eq. by rewrite Hb' in Hb.
Qed.

Lemma stalled_nil : stalled stats ≠ [] ↔ someDesired childStalled.
Proof.
  rewrite stats_eq. cbn [stalled]. unfold someDesired. split.
  - intros HN. rewrite sort_strings_nil in HN.
    destruct (filter _ _) as [|n l] eqn:E; [done|].
    assert (n ∈ n :: l) as Hn by left. rewrite <- E in Hn.
    apply list_elem_of_filter in Hn as [(c & ? & ?)%named_true ?]. eauto.
  - intros (n & c & Hn & Hc & Hs) HE.
    rewrite sort_strings_nil, filter_nil_iff in HE. apply (HE n Hn), named_true. eauto.
Qed.

Lemma orphans_nil : orphans stats ≠ [] ↔ hasOrphan.
Proof.
  rewrite stats_eq. cbn [orphans]. unfold hasOrphan. split.
  - intros HN. rewrite sort_strings_nil in HN.
    destruct (filter _ _) as [|n l] eqn:E; [done|].
    assert (n ∈ n :: l) as Hn by left. rewrite <- E in Hn.
    apply list_elem_of_filter in Hn as [Hd (c & -> & ?)%list_elem_of_fmap].
    exists c. by rewrite elem_of_list_to_set in Hd.
  - intros (c & Hc & Hd) HE. rewrite sort_strings_nil, filter_nil_iff in HE.
    apply (HE (sr_name c)); [by apply list_elem_of_fmap_2|]. by rewrite elem_of_list_to_set.
Qed.

Lemma converged_all_serving_missing : stackConverged → noneMissing.
Proof. intros HC n Hn. destruct (HC n Hn) as (c & -> & _). eauto. Qed.
End stack_spec.

(** * The aggregated status in closed form *)

Section stack_status_facts.
Context {CA : ConditionsApi}.

Lemma if_setStackCondition now gen c (b : bool) r m r' m' s :
  (if b then setStackCondition now gen c true r m s
   else setStackCondition now gen c false r' m' s) =
  setStackCondition now gen c b (if b then r else r') (if b then m else m') s.
Proof. by destruct b. Qed.

Definition stackConditionsOf (now : Time) (gen : Z) (stats : childStats) (state : stackState)
    (resourcesConverged converged : bool) (cs : list Condition) : list Condition :=
  let entry c (b : bool) (t f : string * string) :=
    (stack_condition_name c, (bool_status b, if b then t.1 else f.1, if b then t.2 else f.2)) in
  set_all now gen
    [entry StackConditionStalled (ss_stalled state)
       ("ResourceStalled", notReadyMessage state) ("NotStalled", "no stalled resources");
     entry StackConditionResourcesReady resourcesConverged
       ("AllResourcesReady", "all resources converged")
       (notReadyReason state, notReadyMessage state);
     entry StackConditionAvailable (serving stats)
       ("AllResourcesServing", "all resources serving traffic")
       (notServingReason state, notServingMessage state);
     entry StackConditionConverged converged
       ("AllResourcesConverged", "all resources converged and no orphaned resources")
       (notConvergedReason state, notConvergedMessage state);
     entry StackConditionDegraded (ss_degraded state)
       ("ServingButNotConverged", "all children serving traffic but not all fully converged")
       ("NotDegraded", "not degraded");
     entry StackConditionProgressing (ss_progressing state)
       (progressingReason state, progressingMessage state)
       ("NotProgressing", "no active rollout")] cs.

Lemma aggregate_eq now stack children :
  let gen := stack_generation stack in
  let rootRev := mget (stack_annotations stack) RevisionAnnotation in
  let managed := negb (bool_decide (rootRev = "")) in
  let releaseID := mget (stack_annotations stack) ReleaseIDAnnotation in
  let stats := collectChildStats stack children managed releaseID in
  let rc := convergedCount stats =? desiredCount stats in
  let converged := rc && bool_decide (orphans stats = []) in
  let lc := stampStackConverged now converged managed rootRev releaseID
              (st_last_converged (stack_status stack)) in
  let state := deriveState stats rc managed rootRev lc in
  aggregateStackStatus now stack children =
  mkStackStatus gen (if managed then rootRev else "") lc
    (stackPhase (ss_stalled state) (ss_progressing state) (ss_degraded state) converged)
    (stackConditionsOf now gen stats state rc converged (st_conditions (stack_status stack)))
    (summaries stats) (orphans stats) "".
Proof. cbv zeta. unfold aggregateStackStatus. cbv zeta. by rewrite !if_setStackCondition. Qed.

Lemma deriveState_flags stats rc managed rootRev lc :
  let state := deriveState stats rc managed rootRev lc in
  let isStalled := negb (bool_decide (stalled stats = [])) in
  ss_stalled state = isStalled ∧
  ss_progressing state =
    (rc && negb (bool_decide (orphans stats = [])) && negb isStalled ||
     negb rc && bool_decide (missing stats = []) && negb isStalled &&
     (negb managed ||
      match lc with None => true | Some r => negb (bool_decide (cr_revision r = rootRev)) end)) ∧
  ss_degraded state =
    (allDesiredServing stats && negb rc && negb isStalled && bool_decide (is_Some lc)).
Proof.
  cbv zeta. unfold deriveState. cbv zeta.
  repeat match goal with |- context [let '(_, _) := ?x in _] => destruct x end.
  cbn. by rewrite !negb_involutive.
Qed.
End stack_status_facts.

(** * Properties *)

Section stack_properties.
Context {CA : ConditionsApi}.

(** The boolean facts the decision table is made of, for one aggregation. *)
Lemma stats_reflect stack children :
  let managed := negb (bool_decide (mget (stack_annotations stack) RevisionAnnotation = "")) in
  let releaseID := mget (stack_annotations stack) ReleaseIDAnnotation in
  let stats := collectChildStats stack children managed releaseID in
  ((convergedCount stats =? desiredCount stats) = true ↔ stackConverged stack children) ∧
  (negb (bool_decide (stalled stats = [])) = true ↔ someDesired stack children childStalled) ∧
  (negb (bool_decide (orphans stats = [])) = true ↔ hasOrphan stack children) ∧
  (bool_decide (missing stats = []) = true ↔ noneMissing stack children) ∧
  (serving stats = true ↔ everyDesired stack children childServing) ∧
  (¬ stackConverged stack children → allDesiredServing stats = true ↔
   everyDesired stack children childServing).
Proof.
  cbv zeta. rewrite Nat.eqb_eq, !negb_true_iff, !bool_decide_eq_false, bool_decide_eq_true.
  rewrite converged_count, stalled_nil, orphans_nil, missing_nil.
  do 4 (split; [done|]). unfold serving, allDesiredServing.
  rewrite !andb_true_iff, !bool_decide_eq_true, not_serving_nil, Nat.ltb_lt, Nat.eqb_eq,
    available_count.
  split; [done|]. intros HN. split; [naive_solver|]. intros HA. split; [|done].
  split; [apply (proj2 (not_serving_nil _ _) HA)|].
  destruct (desiredCount _) as [|k] eqn:E; [|lia]. destruct HN. apply converged_count.
  rewrite stats_eq in E |- *. cbn in E |- *. apply length_zero_iff_nil in E. by rewrite E.
Qed.

(** Is a rollout to a revision other than the last converged one under way? *)
Definition newTarget (stack : Stack) (lc : option ConvergenceRecord) : Prop :=
  let rootRev := mget (stack_annotations stack) RevisionAnnotation in
  rootRev = "" ∨ ∀ r, lc = Some r → cr_revision r ≠ rootRev.

Lemma newTarget_reflect stack lc :
  let rootRev := mget (stack_annotations stack) RevisionAnnotation in
  (negb (negb (bool_decide (rootRev = ""))) ||
   match lc with None => true | Some r => negb (bool_decide (cr_revision r = rootRev)) end)
  = true ↔ newTarget stack lc.
Proof.
  cbv zeta. unfold newTarget. rewrite negb_involutive, orb_true_iff, bool_decide_eq_true.
  destruct lc; rewrite ?negb_true_iff, ?bool_decide_eq_false; naive_solver.
Qed.

(** The priority ladder, on booleans. *)
Lemma stackPhase_ladder st p d c :
  let ph := stackPhase st p d c in
  (ph = StackFailed ↔ st = true) ∧
  (ph = StackProgressing ↔ st = false ∧ p = true) ∧
  (ph = StackDegraded ↔ st = false ∧ p = false ∧ d = true) ∧
  (ph = StackReady ↔ st = false ∧ p = false ∧ d = false ∧ c = true) ∧
  (ph = StackPending ↔ st = false ∧ p = false ∧ d = false ∧ c = false).
Proof. destruct st, p, d, c; cbn; naive_solver. Qed.

(** The three derived flags and the convergence verdict, as propositions. *)
Lemma aggregate_flags now stack children :
  let lc := st_last_converged (aggregateStackStatus now stack children) in
  ∃ st p d c,
    st_phase (aggregateStackStatus now stack children) = stackPhase st p d c ∧
    (st = true ↔ someDesired stack children childStalled) ∧
    (st = false → p = true ↔
      (stackConverged stack children ∧ hasOrphan stack children) ∨
      (¬ stackConverged stack children ∧ noneMissing stack children ∧ newTarget stack lc)) ∧
    (st = false → d = true ↔
      ¬ stackConverged stack children ∧ everyDesired stack children childServing ∧ is_Some lc) ∧
    (c = true ↔ stackConverged stack children ∧ ¬ hasOrphan stack children).
Proof.
  cbv zeta. rewrite aggregate_eq. cbn [st_phase st_last_converged].
  destruct (stats_reflect stack children) as (HC & HS & HO & HM & _ & HA).
  set (stats := collectChildStats _ _ _ _) in *. set (lc := stampStackConverged _ _ _ _ _ _).
  destruct (deriveState_flags stats (convergedCount stats =? desiredCount stats)
    (negb (bool_decide (mget (stack_annotations stack) RevisionAnnotation = "")))
    (mget (stack_annotations stack) RevisionAnnotation) lc) as (-> & -> & ->).
  eexists _, _, _, _. split; [reflexivity|]. split; [exact HS|].
  pose proof (newTarget_reflect stack lc) as HT. cbv zeta in HT.
  pose proof (bool_decide_eq_true (is_Some lc)) as HL. revert HT HL.
  generalize (bool_decide (is_Some lc)).
  generalize (negb (negb (bool_decide (mget (stack_annotations stack) RevisionAnnotation = "")))
    || match lc with None => true | Some r =>
         negb (bool_decide (cr_revision r = mget (stack_annotations stack) RevisionAnnotation))
       end).
  intros t l <- <-. assert (HA' : (convergedCount stats =? desiredCount stats) = false →
    allDesiredServing stats = true ↔ everyDesired stack children childServing).
  { intros E. apply HA. rewrite <- HC, E. done. }
  rewrite <- HC, <- HO, <- HM.
  clear HC HS HO HM HA. revert HA'.
  generalize (convergedCount stats =? desiredCount stats), (bool_decide (stalled stats = [])),
    (bool_decide (orphans stats = [])), (bool_decide (missing stats = [])),
    (allDesiredServing stats), (everyDesired stack children childServing).
  intros rc s o m a E HA'. destruct rc; [clear HA'|rewrite <- HA' by done; clear HA'];
    destruct s, o; split_and!; solve_bools.
Qed.

(** C2. The phase of an aggregated Stack is decided by its children alone, by
    priority: Failed when a desired child is stalled; then Progressing when
    either only orphans remain to be deleted or no desired child is missing,
    not all are converged, and the target is not the last converged one; then
    Degraded when all serve traffic without all being converged and the Stack
    has converged before; then Ready exactly when every desired child exists
    and is converged and there is no orphan; Pending otherwise. *)
Theorem stack_phase_table now stack children :
  let status := aggregateStackStatus now stack children in
  let S := someDesired stack children childStalled in
  let C := stackConverged stack children in
  let O := hasOrphan stack children in
  let P := (C ∧ O) ∨ (¬ C ∧ noneMissing stack children ∧
                      newTarget stack (st_last_converged status)) in
  let D := ¬ C ∧ everyDesired stack children childServing ∧ is_Some (st_last_converged status) in
  (st_phase status = StackFailed ↔ S) ∧
  (st_phase status = StackProgressing ↔ ¬ S ∧ P) ∧
  (st_phase status = StackDegraded ↔ ¬ S ∧ ¬ P ∧ D) ∧
  (st_phase status = StackReady ↔ ¬ S ∧ C ∧ ¬ O) ∧
  (st_phase status = StackPending ↔ ¬ S ∧ ¬ P ∧ ¬ D ∧ ¬ C).
Proof.
  cbv zeta. destruct (aggregate_flags now stack children) as (st & p & d & c & -> & HS & HP & HD & HC).
  destruct (stackPhase_ladder st p d c) as (-> & -> & -> & -> & ->).
  rewrite <- HS. revert HP HD HC. clear HS.
  generalize (stackConverged stack children), (hasOrphan stack children),
    (noneMissing stack children), (everyDesired stack children childServing).
  intros C O M E HP HD HC. destruct st; [split_and!; intuition discriminate|].
  rewrite <- HP, <- HD by done. specialize (HP eq_refl). specialize (HD eq_refl).
  destruct p, d, c; intuition discriminate.
Qed.
End stack_properties.

Section stack_condition_properties.
Context {CA : ConditionsApi} {CL : ConditionsLaws}.

(** What each Stack condition claims. *)
Definition conditionClaim (stack : Stack) (children : list StackResource)
    (lc : option ConvergenceRecord) (t : StackCondition) : Prop :=
  let S := someDesired stack children childStalled in
  let C := stackConverged stack children in
  match t with
  | StackConditionStalled => S
  | StackConditionResourcesReady => C
  | StackConditionAvailable => everyDesired stack children childServing
  | StackConditionConverged => C ∧ ¬ hasOrphan stack children
  | StackConditionDegraded => ¬ S ∧ ¬ C ∧ everyDesired stack children childServing ∧ is_Some lc
  | StackConditionProgressing =>
      ¬ S ∧ ((C ∧ hasOrphan stack children) ∨
             (¬ C ∧ noneMissing stack children ∧ newTarget stack lc))
  end.

Definition conditionFlag (stats : childStats) (state : stackState) (rc converged : bool)
    (t : StackCondition) : bool :=
  match t with
  | StackConditionAvailable => serving stats
  | StackConditionConverged => converged
  | StackConditionResourcesReady => rc
  | StackConditionStalled => ss_stalled state
  | StackConditionDegraded => ss_degraded state
  | StackConditionProgressing => ss_progressing state
  end.

Lemma view_stackConditionsOf now gen stats state rc converged cs t :
  ∃ r m,
    view (stackConditionsOf now gen stats state rc converged cs) (stack_condition_name t) =
    Some (bool_status (conditionFlag stats state rc converged t), gen, r, m).
Proof.
  unfold stackConditionsOf. cbv zeta.
  destruct t; eexists _, _; (apply view_set_all; [apply (bool_decide_unpack _); by vm_compute|]);
    cbn [conditionFlag]; repeat (first [by left|right]).
Qed.

Lemma view_stackConditionsOf_other now gen stats state rc converged cs t :
  (∀ c, t ≠ stack_condition_name c) →
  view (stackConditionsOf now gen stats state rc converged cs) t = view cs t.
Proof.
  intros Ht. apply view_set_all_ne. cbn [fmap list_fmap fst]. rewrite !not_elem_of_cons.
  split_and!; first [apply Ht|apply not_elem_of_nil].
Qed.

Lemma conditionFlag_reflect stack children lc t :
  let rootRev := mget (stack_annotations stack) RevisionAnnotation in
  let managed := negb (bool_decide (rootRev = "")) in
  let releaseID := mget (stack_annotations stack) ReleaseIDAnnotation in
  let stats := collectChildStats stack children managed releaseID in
  let rc := convergedCount stats =? desiredCount stats in
  conditionFlag stats (deriveState stats rc managed rootRev lc) rc
    (rc && bool_decide (orphans stats = [])) t = true ↔ conditionClaim stack children lc t.
Proof.
  cbv zeta. destruct (stats_reflect stack children) as (HC & HS & HO & HM & HV & HA).
  set (stats := collectChildStats _ _ _ _) in *.
  destruct (deriveState_flags stats (convergedCount stats =? desiredCount stats)
    (negb (bool_decide (mget (stack_annotations stack) RevisionAnnotation = "")))
    (mget (stack_annotations stack) RevisionAnnotation) lc) as (Es & Ep & Ed).
  pose proof (newTarget_reflect stack lc) as HT. cbv zeta in HT.
  pose proof (bool_decide_eq_true (is_Some lc)) as HL.
  set (nt := negb (negb _) || _) in *. set (rc := convergedCount stats =? _) in *.
  set (s := bool_decide (stalled stats = [])) in *.
  set (o := bool_decide (orphans stats = [])) in *.
  set (m := bool_decide (missing stats = [])) in *. set (l := bool_decide (is_Some lc)) in *.
  destruct t; cbn [conditionFlag conditionClaim]; rewrite ?Es, ?Ep, ?Ed; try done.
  - rewrite <- HC, <- HO. clearbody rc o. clear. solve_bools.
  - rewrite <- HC in HA. rewrite <- HS, <- HL, <- HC.
    revert HA. generalize (allDesiredServing stats), (everyDesired stack children childServing).
    clearbody rc s l. clear. intros a E HA.
    destruct rc; [|rewrite <- HA by done]; clear HA; solve_bools.
  - rewrite <- HC, <- HO, <- HM, <- HT, <- HS. clearbody rc o m nt s. clear. solve_bools.
Qed.

(** Every aggregation writes all six Stack conditions at the Stack's current
    generation; each is True exactly when its claim about the children holds,
    whatever the list held before; no condition of another type changes. *)
Theorem stack_conditions_spec now stack children :
  let status := aggregateStackStatus now stack children in
  (∀ t, ∃ b reason msg,
    view (st_conditions status) (stack_condition_name t) =
      Some (bool_status b, stack_generation stack, reason, msg) ∧
    (b = true ↔ conditionClaim stack children (st_last_converged status) t)) ∧
  (∀ t, (∀ c, t ≠ stack_condition_name c) →
    view (st_conditions status) t = view (st_conditions (stack_status stack)) t).
Proof.
  cbv zeta. rewrite aggregate_eq. cbn [st_conditions st_last_converged].
  split; [|intros; by apply view_stackConditionsOf_other].
  intros t. eexists _. edestruct view_stackConditionsOf as (r & m & ->).
  exists r, m. split; [reflexivity|]. apply conditionFlag_reflect.
Qed.
End stack_condition_properties.

(** * Independence of the listing order *)

Section stack_order.
Context {CA : ConditionsApi}.

Lemma childMap_snoc children c : childMap (children ++ [c]) = <[sr_name c := c]> (childMap children).
Proof. unfold childMap. by rewrite foldl_snoc. Qed.

Lemma childMap_lookup children n c :
  NoDup (sr_name <$> children) →
  childMap children !! n = Some c ↔ c ∈ children ∧ sr_name c = n.
Proof.
  induction children as [|c' children IH] using rev_ind; [set_solver|].
  rewrite fmap_app, NoDup_app. intros (HN & Hne & _). rewrite childMap_snoc, elem_of_app.
  cbn [fmap list_fmap] in Hne. destruct (decide (sr_name c' = n)) as [<-|Hn].
  - rewrite lookup_insert_eq. split; [intros [= ->]; set_solver|].
    intros [[Hc|Hc] He]; [|set_solver].
    exfalso. apply (Hne (sr_name c')); [|set_solver].
    rewrite <- He. by apply list_elem_of_fmap_2.
  - rewrite lookup_insert_ne, IH by done. set_solver.
Qed.

Lemma childMap_perm children children' :
  NoDup (sr_name <$> children) → children ≡ₚ children' → childMap children = childMap children'.
Proof.
  intros HN HP. apply map_eq. intros n. apply option_eq. intros c.
  rewrite !childMap_lookup, HP by (rewrite <- ?HP; done). done.
Qed.

(** The API server lists a Stack's children in no particular order, and the
    aggregated status does not depend on it. *)
Theorem stack_status_list_order now stack children children' :
  NoDup (sr_name <$> children) → children ≡ₚ children' →
  aggregateStackStatus now stack children = aggregateStackStatus now stack children'.
Proof.
  intros HN HP. unfold aggregateStackStatus. cbv zeta.
  assert (∀ ns : gset string, sort_strings (filter (λ n, n ∉ ns) (sr_name <$> children)) =
    sort_strings (filter (λ n, n ∉ ns) (sr_name <$> children'))) as HO.
  { intros ns. apply sort_strings_perm. by rewrite HP. }
  assert (∀ m r, collectChildStats stack children m r = collectChildStats stack children' m r) as HE.
  { intros m r. unfold collectChildStats. rewrite !foldl_collectName, !(foldl_orphans stack).
    rewrite <- (childMap_perm _ _ HN HP). cbn -[sort_strings]. by rewrite HO. }
  by rewrite HE.
Qed.
End stack_order.

(** * The convergence record *)

Section stack_record.
Context {CA : ConditionsApi}.

Lemma converged_reflect stack children :
  let managed := negb (bool_decide (mget (stack_annotations stack) RevisionAnnotation = "")) in
  let releaseID := mget (stack_annotations stack) ReleaseIDAnnotation in
  let stats := collectChildStats stack children managed releaseID in
  (convergedCount stats =? desiredCount stats) && bool_decide (orphans stats = []) = true ↔
  stackConverged stack children ∧ ¬ hasOrphan stack children.
Proof.
  cbv zeta. destruct (stats_reflect stack children) as (HC & _ & HO & _).
  set (stats := collectChildStats _ _ _ _) in *. rewrite <- HC, <- HO.
  set (rc := convergedCount stats =? _). set (o := bool_decide (orphans stats = [])).
  clearbody rc o. clear. solve_bools.
Qed.

(** [status.lastConverged] is written once per target.  When a managed Stack
    is converged without orphans the record names the target revision and
    release, and an existing record of that same target is kept with its time;
    in every other aggregation the record is left as it was. *)
Theorem last_converged_write_once now stack children :
  let rev := mget (stack_annotations stack) RevisionAnnotation in
  let rel := mget (stack_annotations stack) ReleaseIDAnnotation in
  let old := st_last_converged (stack_status stack) in
  let new := st_last_converged (aggregateStackStatus now stack children) in
  let stamps := rev ≠ "" ∧ stackConverged stack children ∧ ¬ hasOrphan stack children in
  (stamps → ∃ t, new = Some (mkConvergenceRecord rev rel t) ∧
            (t = now ∨ old = Some (mkConvergenceRecord rev rel t))) ∧
  (∀ t, old = Some (mkConvergenceRecord rev rel t) → new = old) ∧
  (¬ stamps → new = old).
Proof.
  cbv zeta. rewrite aggregate_eq. cbn [st_last_converged].
  pose proof (converged_reflect stack children) as HC. cbv zeta in HC.
  set (stats := collectChildStats _ _ _ _) in *. rewrite <- HC.
  set (b := _ && _). clearbody b. clear HC. unfold stampStackConverged.
  destruct b, (st_last_converged (stack_status stack)) as [[r1 r2 at1]|];
    case_bool_decide; cbn; try case_decide as E; split_and!; try naive_solver.
  intros _. assert (r1 = mget (stack_annotations stack) RevisionAnnotation ∧
    r2 = mget (stack_annotations stack) ReleaseIDAnnotation) as [-> ->]
    by (split; apply dec_stable; tauto). eauto.
Qed.
End stack_record.

(** * Children that have not caught up *)

Section stale_children.
Context {CA : ConditionsApi}.

(** A child is counted as converged exactly when its Converged condition is
    True at its own current generation and, for a release-managed Stack, it
    carries a revision, has observed it, and belongs to the current release
    when there is one; and a child that is not converged always has a non-empty
    explanation. *)
Theorem child_convergence_spec child managed releaseID :
  let rev := mget (sr_annotations child) RevisionAnnotation in
  let '(ok, msg) := childConvergence child (currentChildConditions child) managed releaseID in
  (ok = true ↔
    (∃ c, find_status_condition (sr_conditions child) "Converged" = Some c ∧
          c_status c = ConditionTrue ∧ c_observed_generation c = sr_generation child) ∧
    (managed = true → rev ≠ "" ∧ observed_revision (sr_status child) = rev ∧
       (releaseID = "" ∨ mget (sr_annotations child) ReleaseIDAnnotation = releaseID))) ∧
  (msg = "" ↔ ok = true).
Proof.
  cbv zeta.
  assert (isTrue (cc_converged (currentChildConditions child)) = true ↔
    ∃ c, find_status_condition (sr_conditions child) "Converged" = Some c ∧
         c_status c = ConditionTrue ∧ c_observed_generation c = sr_generation child) as HC.
  { unfold currentChildConditions, isTrue, findStatusCondition. cbn.
    destruct (find_status_condition _ _) as [c|]; [|naive_solver].
    case_decide; rewrite ?bool_decide_eq_true; naive_solver. }
  revert HC. generalize (currentChildConditions child). intros cc HC.
  set (rev := mget (sr_annotations child) RevisionAnnotation).
  set (rel := mget (sr_annotations child) ReleaseIDAnnotation).
  assert ((if managed
    then isTrue (cc_converged cc) && negb (bool_decide (rev = "")) &&
         bool_decide (observed_revision (sr_status child) = rev) &&
         (bool_decide (releaseID = "") || bool_decide (rel = releaseID))
    else isTrue (cc_converged cc)) = true ↔
    isTrue (cc_converged cc) = true ∧ (managed = true → rev ≠ "" ∧
      observed_revision (sr_status child) = rev ∧ (releaseID = "" ∨ rel = releaseID))) as HB.
  { destruct managed; [|intuition discriminate].
    rewrite !andb_true_iff, orb_true_iff, negb_true_iff, bool_decide_eq_false,
      !bool_decide_eq_true. tauto. }
  rewrite HC in HB. clear HC. unfold childConvergence. fold rev rel. cbv zeta.
  set (b := if managed then _ else _) in *. clearbody b. destruct b; [tauto|].
  assert (∀ P : Prop, (false = true ↔ P) → ∀ m, m ≠ "" →
    (false = true ↔ P) ∧ (m = "" ↔ false = true)) as HF by (split; [done|split; [done|discriminate]]).
  repeat case_match; simplify_eq/=; by apply HF.
Qed.
End stale_children.

(** * Idempotence *)

Section stack_idempotence.
Context {CA : ConditionsApi} {CL : ConditionsLaws}.

Lemma stackConditionsOf_same now now' gen stats state rc converged cs :
  stackConditionsOf now' gen stats state rc converged
    (stackConditionsOf now gen stats state rc converged cs) =
  stackConditionsOf now gen stats state rc converged cs.
Proof.
  apply set_all_idempotent. apply (bool_decide_unpack _). by vm_compute.
Qed.

Lemma stampStackConverged_same now now' converged managed rootRev releaseID lc :
  let stamped := stampStackConverged now converged managed rootRev releaseID lc in
  stampStackConverged now' converged managed rootRev releaseID stamped = stamped.
Proof.
  cbv zeta. unfold stampStackConverged. destruct converged, managed; cbn; try done.
  destruct lc as [[r1 r2 t]|]; cbn; repeat (case_decide; cbn); try done; tauto.
Qed.

Lemma aggregate_idempotent now now' hash stack children :
  let status := aggregateStackStatus now stack children in
  aggregateStackStatus now' (stack <| stack_status := status <| st_status_hash := hash |> |>)
    children = status.
Proof.
  cbv zeta. rewrite !aggregate_eq. cbn [st_last_converged st_conditions stack_status modify
    stack_meta resource_names stack_generation stack_annotations].
  change (collectChildStats (modify ?f stack)) with (collectChildStats stack).
  cbn -[stackConditionsOf]. by rewrite stampStackConverged_same, stackConditionsOf_same.
Qed.
End stack_idempotence.

(** * Witnesses *)

Lemma stack_conditions_spec_witness :
  view (st_conditions (aggregateStackStatus 5 (sample_stack ["web"]) [])) "Ready" = None.
Proof.
  etransitivity; [apply (proj2 (stack_conditions_spec 5 (sample_stack ["web"]) []))|reflexivity].
  by intros [].
Defined.

Lemma stack_status_list_order_witness :
  aggregateStackStatus 5 (sample_stack ["web"]) [sample_resource "web"; sample_resource "db"] =
  aggregateStackStatus 5 (sample_stack ["web"]) [sample_resource "db"; sample_resource "web"].
Proof.
  apply stack_status_list_order; [|constructor].
  apply (bool_decide_unpack _). vm_compute. exact I.
Defined.
