(* ===== verification/StackController.v ===== *)
(** The Stack controller (internal/controller/stack/stack_controller.go):
    fetch the Stack, list its children by label, adopt the ones it does not
    control, aggregate the status, and write it only when its hash changed. *)
From S2P Require Import Prelude Kube Apimachinery Api StackAggregate.

Section stack_controller.
Context {W : Type} {KS : Kind W Stack} {KC : Kind W StackResource} {CK : Clock W}.
Context {CA : ConditionsApi} {OA : OwnerApi} {SD : StatusDigest}.

(** Adopt every listed child the Stack does not control; was any adopted?  Go
    returns the partial answer along with an error, and the only caller drops it. *)
Fixpoint ensureChildOwnership (stack : Stack) (children : list StackResource) : SE W bool :=
  match children with
  | [] => mret false
  | child :: rest =>
      if is_controlled_by (sr_meta child) (stack_meta stack)
      then ensureChildOwnership stack rest
      else
        m ← of_result (set_controller_reference (stack_meta stack) (sr_meta child));
        _ ← kupdate (child <| sr_meta := m |>);
        _ ← ensureChildOwnership stack rest;
        mret true
  end.

(** [Reconcile] from the point where the children are known to be owned. *)
Definition writeStatus (stack : Stack) (children : list StackResource) : SE W CtrlResult :=
  t ← now;
  let previousHash := st_status_hash (stack_status stack) in
  let stack := stack <| stack_status := aggregateStackStatus t stack children |> in
  let stack := stack <| stack_status ::= (λ s, s <| st_status_hash := StackStatusHash stack |>) |> in
  if decide (st_status_hash (stack_status stack) = previousHash)
  then mret no_requeue
  else _ ← kupdate_status stack; mret no_requeue.

Definition Reconcile (req : NamespacedName) : SE W CtrlResult :=
  r ← attempt (kget req.1 req.2);
  match r with
  | Err e => if is_not_found e then mret no_requeue else fail e
  | Ok stack =>
      children ← klist (om_namespace (stack_meta stack))
                   [{[ LabelStackName := om_name (stack_meta stack) ]}];
      adopted ← ensureChildOwnership stack children;
      if (adopted : bool) then mret (mkCtrlResult true 0)
      else writeStatus stack children
  end.

(** * Lemmas *)

Definition controls (stack : Stack) (c : StackResource) : Prop :=
  is_controlled_by (sr_meta c) (stack_meta stack) = true.

Lemma ensure_controlled stack children w :
  Forall (controls stack) children →
  ensureChildOwnership stack children w = (Ok false, w).
Proof.
  induction 1 as [|c cs Hc _ IH]; [done|]. simpl. unfold controls in Hc. by rewrite Hc.
Qed.

Lemma ensure_false stack children w w' :
  ensureChildOwnership stack children w = (Ok false, w') →
  Forall (controls stack) children ∧ w' = w.
Proof.
  revert w. induction children as [|c cs IH]; intros w; simpl; [intros [= <-]; by split|].
  destruct (is_controlled_by _ _) eqn:Hc.
  - intros H. destruct (IH w H). by repeat constructor.
  - intros H. apply se_bind_inv in H as (m & w1 & _ & H).
    apply se_bind_inv in H as (c' & w2 & _ & H).
    by apply se_bind_inv in H as (b & w3 & _ & H).
Qed.

Lemma StackStatusHash_idem stack h :
  StackStatusHash (stack <| stack_status ::= (λ s, s <| st_status_hash := h |>) |>) =
  StackStatusHash stack.
Proof. reflexivity. Qed.
End stack_controller.

Section stack_controller_properties.
Context {W : Type} {KS : Kind W Stack} {KC : Kind W StackResource} {CK : Clock W}.
Context {CA : ConditionsApi} {OA : OwnerApi} {SD : StatusDigest}.

(** C34. The controller reaches a fixed point: when the stored status is the one
    an earlier pass computed from the same spec and children, with its hash, and
    every child is owned, a pass reads the Stack and its children and writes
    nothing, at whatever time it runs. *)
Theorem stack_reconcile_quiescent {CL : ConditionsLaws} req w w1 w2 stack0 t0 children :
  let status := aggregateStackStatus t0 stack0 children in
  let stack := stack0 <| stack_status := status |> in
  let stored := stack <| stack_status ::= (λ s, s <| st_status_hash := StackStatusHash stack |>) |> in
  kget req.1 req.2 w = (Ok stored, w1) →
  klist (om_namespace (stack_meta stored)) [{[ LabelStackName := om_name (stack_meta stored) ]}] w1
    = (Ok children, w2) →
  Forall (controls stored) children →
  Reconcile req w = (Ok no_requeue, (time_now w2).2).
Proof.
  intros status stack stored Hg Hl Hc. unfold Reconcile.
  se_step by (by apply attempt_ok). se_step by (exact Hl).
  se_step by (by apply ensure_controlled).
  unfold writeStatus. unfold now. cbv [mbind se_bind]. destruct (time_now w2) as [t w3].
  assert (aggregateStackStatus t stored children = status) as ->
    by exact (aggregate_idempotent t0 t (StackStatusHash stack) stack0 children).
  rewrite decide_True; reflexivity.
Qed.

(** A status is only ever written for a Stack that controls every listed
    child.  A pass that ends without an error and without asking for a requeue,
    for a Stack that exists, found all children controlled; a pass over a child
    the Stack cannot adopt ends with that error and writes no status. *)
Theorem stack_reconcile_ownership req w w1 w2 stack children :
  kget req.1 req.2 w = (Ok stack, w1) →
  klist (om_namespace (stack_meta stack)) [{[ LabelStackName := om_name (stack_meta stack) ]}] w1
    = (Ok children, w2) →
  (∀ w', Reconcile req w = (Ok no_requeue, w') → Forall (controls stack) children) ∧
  (∀ c rest e, children = c :: rest → ¬ controls stack c →
    set_controller_reference (stack_meta stack) (sr_meta c) = Err e →
    Reconcile req w = (Err e, w2)).
Proof.
  intros Hg Hl. unfold Reconcile.
  se_step by (by apply attempt_ok). se_step by (exact Hl). split.
  - intros w' H. apply se_bind_inv in H as (b & w3 & He & H). destruct b; [done|].
    by apply ensure_false in He as [? _].
  - intros c rest e -> Hc He. apply se_bind_err. unfold controls in Hc. simpl.
    destruct (is_controlled_by _ _); [done|]. apply se_bind_err. unfold of_result. by rewrite He.
Qed.
End stack_controller_properties.

(** * A small API server for the witnesses *)

(** A store of one Stack and its children, and the number of writes so far. *)
Record StackWorld := mkStackWorld {
  sw_stack : Stack;
  sw_children : list StackResource;
  sw_clock : Time;
  sw_writes : nat;
}.
#[export] Instance stack_world_stacks : Kind StackWorld Stack := {
  kget _ _ w := (Ok (sw_stack w), w);
  klist _ _ w := (Ok [sw_stack w], w);
  kcreate s w := (Ok s, w);
  kupdate s w := (Ok s, mkStackWorld s (sw_children w) (sw_clock w) (S (sw_writes w)));
  kupdate_status s w := (Ok s, mkStackWorld s (sw_children w) (sw_clock w) (S (sw_writes w)));
  kdelete _ w := (Ok tt, w);
}.
#[export] Instance stack_world_children : Kind StackWorld StackResource := {
  kget _ _ w := (Err (NotFound "stackresource"), w);
  klist _ _ w := (Ok (sw_children w), w);
  kcreate c w := (Ok c, w);
  kupdate c w := (Ok c, mkStackWorld (sw_stack w) (sw_children w) (sw_clock w) (S (sw_writes w)));
  kupdate_status c w := (Ok c, w);
  kdelete _ w := (Ok tt, w);
}.
#[export] Instance stack_world_clock : Clock StackWorld := λ w,
  (sw_clock w, mkStackWorld (sw_stack w) (sw_children w) (sw_clock w + 1) (sw_writes w)).
#[export] Instance stack_world_digest : StatusDigest := {
  digest_stack_status s := join (st_orphaned_resources s) ",";
  digest_resource_status s := observed_revision s;
}.

Definition owned_child (n : string) : StackResource :=
  (sample_resource n) <| sr_meta ::= (λ m, m <| om_owner_references := [mkOwnerReference "" "shop" true] |>) |>.

Lemma stack_reconcile_quiescent_witness :
  let children := [owned_child "web"; owned_child "old"] in
  let stack0 := sample_stack ["web"] in
  let stack := stack0 <| stack_status := aggregateStackStatus 5 stack0 children |> in
  let stored := stack <| stack_status ::= (λ s, s <| st_status_hash := StackStatusHash stack |>) |> in
  let w := mkStackWorld stored children 9 0 in
  Reconcile (W:=StackWorld) ("default", "shop") w = (Ok no_requeue, mkStackWorld stored children 10 0).
Proof.
  intros children stack0 stack stored w.
  assert (kget "default" "shop" w = (Ok stored, w)) as Hg by reflexivity.
  refine (stack_reconcile_quiescent (W:=StackWorld) (CK:=_) (OA:=_) (SD:=_)
    ("default", "shop") w w w stack0 5 children Hg _ _); [reflexivity|repeat constructor].
Defined.

Lemma stack_reconcile_ownership_witness :
  let children := [owned_child "web"] in
  let w := mkStackWorld (sample_stack ["web"]) children 9 0 in
  Reconcile (W:=StackWorld) ("default", "shop") w = (Ok no_requeue, (Reconcile ("default", "shop") w).2) ∧
  Forall (controls (sample_stack ["web"])) children.
Proof.
  intros children w. split; [vm_compute; reflexivity|].
  assert (kget "default" "shop" w = (Ok (sample_stack ["web"]), w)) as Hg by reflexivity.
  assert (klist "default" [{[ LabelStackName := "shop" ]}] w = (Ok children, w)) as Hl
    by reflexivity.
  refine (proj1 (stack_reconcile_ownership (W:=StackWorld) (CK:=_) (SD:=_) (CA:=_)
    ("default", "shop") w w w (sample_stack ["web"]) children Hg Hl)
    (Reconcile ("default", "shop") w).2 _). vm_compute; reflexivity.
Defined.
