(* ===== verification/Verdicts.v ===== *)
(** Verdicts and sub-reconciler results (internal/controller/verdict.go,
    subreconciler.go): how the steps of one reconcile pass report to its end. *)
From S2P Require Import Prelude.

(** * The verdict collector *)

Record Verdict := mkVerdict { v_reason : string; v_message : string }.
#[export] Instance verdict_eq_dec : EqDecision Verdict.
Proof. solve_decision. Defined.

Record VerdictCollector := mkVerdictCollector {
  NotReady : option Verdict;
  Failed : option Verdict;
}.
#[export] Instance eta_verdict_collector : Eta VerdictCollector := λ c,
  mkVerdictCollector (NotReady c) (Failed c).

(** [ContextWithVerdicts]: a fresh collector. *)
Definition no_verdicts : VerdictCollector := mkVerdictCollector None None.

Definition ReportNotReady (reason msg : string) (c : VerdictCollector) : VerdictCollector :=
  match NotReady c with
  | None => c <| NotReady := Some (mkVerdict reason msg) |>
  | Some _ => c
  end.

Definition ReportFailed (reason msg : string) (c : VerdictCollector) : VerdictCollector :=
  match Failed c with
  | None => c <| Failed := Some (mkVerdict reason msg) |>
  | Some _ => c
  end.

(** One report of a pass. *)
Inductive Report :=
  | NotReadyReport (reason msg : string)
  | FailedReport (reason msg : string).

Definition report (r : Report) (c : VerdictCollector) : VerdictCollector :=
  match r with
  | NotReadyReport reason msg => ReportNotReady reason msg c
  | FailedReport reason msg => ReportFailed reason msg c
  end.

Definition reports (rs : list Report) (c : VerdictCollector) : VerdictCollector :=
  foldl (λ c r, report r c) c rs.

Definition notReadyOf (r : Report) : option Verdict :=
  match r with NotReadyReport reason msg => Some (mkVerdict reason msg) | _ => None end.
Definition failedOf (r : Report) : option Verdict :=
  match r with FailedReport reason msg => Some (mkVerdict reason msg) | _ => None end.

Lemma reports_spec rs c :
  NotReady (reports rs c) = match NotReady c with Some v => Some v | None => head (omap notReadyOf rs) end ∧
  Failed (reports rs c) = match Failed c with Some v => Some v | None => head (omap failedOf rs) end.
Proof.
  revert c. induction rs as [|r rs IH]; intros [n f]; [by destruct n, f|].
  unfold reports in *. cbn [foldl]. destruct (IH (report r (mkVerdictCollector n f))) as [-> ->].
  by destruct r, n, f.
Qed.

(** The first report of each kind wins and nothing retracts it: whatever
    sequence of reports a pass makes, its not-ready verdict is the first
    not-ready report and its failed verdict the first failed report, so the two
    kinds do not interfere. *)
Theorem first_report_wins rs :
  NotReady (reports rs no_verdicts) = head (omap notReadyOf rs) ∧
  Failed (reports rs no_verdicts) = head (omap failedOf rs).
Proof. apply reports_spec. Qed.

(** * Sub-reconciler results *)

Record SubReconcilerResult := mkSubReconcilerResult {
  res_nil : bool;
  res_stop : bool;
  res_requeue : bool;
  res_requeue_after : option Duration;
  res_deferred_requeue_after : option Duration;
}.
#[export] Instance sub_reconciler_result_eq_dec : EqDecision SubReconcilerResult.
Proof. solve_decision. Defined.

Definition ResultNil : SubReconcilerResult := mkSubReconcilerResult true false false None None.
Definition ResultStop : SubReconcilerResult := mkSubReconcilerResult false true false None None.
Definition ResultRequeue : SubReconcilerResult := mkSubReconcilerResult false false true None None.
Definition ResultContinue : SubReconcilerResult := ResultNil.
Definition ResultRequeueAfter (t : Duration) : SubReconcilerResult :=
  mkSubReconcilerResult false false false (Some t) None.
Definition ResultDeferredRequeue (t : Duration) : SubReconcilerResult :=
  mkSubReconcilerResult false false false None (Some t).
