(* ===== verification/StatusDerive.v ===== *)
(** The summary status of a StackResource
    (internal/controller/stackresource/status_derive.go): the only writer of
    the Available, Stalled and Converged conditions, the phase and the summary.
    It runs once, after the chain of sub-reconcilers, on the domain conditions
    and the verdicts they left. *)
From S2P Require Import Prelude Kube Apimachinery Api Verdicts StackAggregate.

Section status_derive.
Context {CA : ConditionsApi} {SD : StatusDigest}.

Definition setSummaryCondition (now : Time) (condType : StackResourceStatusCondition)
    (status : bool) (reason msg : string) (r : StackResource) : StackResource :=
  r <| sr_status ::= λ s, s <| conditions ::= λ cs, set_status_condition now cs
    (new_condition (summary_name condType) (bool_status status) (sr_generation r) reason msg) |> |>.

Definition domainConditionText (r : StackResource) (condType : StackResourceDomainCondition)
    (falseReason falseMsg : string) : bool * string * string :=
  match find_status_condition (sr_conditions r) (domain_name condType) with
  | None => (false, falseReason, falseMsg)
  | Some c =>
      if decide (c_observed_generation c ≠ sr_generation r)
      then (false, falseReason, falseMsg)
      else (bool_decide (c_status c = ConditionTrue), c_reason c, c_message c)
  end.

Definition domainCondition (r : StackResource) (condType : StackResourceDomainCondition)
    (status : ConditionStatus) : option Condition :=
  match find_status_condition (sr_conditions r) (domain_name condType) with
  | None => None
  | Some c =>
      if decide (c_status c ≠ status ∨ c_observed_generation c ≠ sr_generation r)
      then None else Some c
  end.

Definition domainConditionTrue (r : StackResource) (condType : StackResourceDomainCondition) : bool :=
  bool_decide (is_Some (domainCondition r condType ConditionTrue)).

Definition deriveFailed (now : Time) (v : Verdict) (r : StackResource) : StackResource :=
  let r := r <| sr_status ::= λ s, s <| phase := StackResourcePhaseFailed |> |> in
  let r := setSummaryCondition now StackResourceStalled true (v_reason v) (v_message v) r in
  let r := setSummaryCondition now StackResourceConverged false (v_reason v) (v_message v) r in
  if domainConditionTrue r StackResourceWorkloadAvailable
  then setSummaryCondition now StackResourceStatusAvailable true "ServingButStalled"
         ("workload serving; terminal failure: " +:+ v_message v) r
  else setSummaryCondition now StackResourceStatusAvailable false (v_reason v) (v_message v) r.

Definition deriveNotReady (now : Time) (v : Verdict) (r : StackResource) : StackResource :=
  let r := r <| sr_status ::= λ s, s <| phase := StackResourcePhasePending |> |> in
  let r := setSummaryCondition now StackResourceStatusAvailable false (v_reason v) (v_message v) r in
  let r := setSummaryCondition now StackResourceConverged false (v_reason v) (v_message v) r in
  setSummaryCondition now StackResourceStalled false (v_reason v) (v_message v) r.

Definition deriveNoVerdict (now : Time) (r : StackResource) : StackResource :=
  let r := match build_spec (sr_spec r) with
           | Some b => r <| sr_status ::= λ s, s <| image_source_revision :=
                               GetSourceRevisionString (bs_source_revision b) |> |>
           | None => r
           end in
  let '(converged, convergedReason, convergedMsg) :=
    domainConditionText r StackResourceWorkloadConverged "WorkloadNotConverged"
      "workload has not converged" in
  let r := setSummaryCondition now StackResourceConverged converged convergedReason convergedMsg r in
  let r := r <| sr_status ::= λ s, s <| phase :=
               if converged then StackResourcePhaseReady else StackResourcePhaseDegraded |> |> in
  let available := domainConditionTrue r StackResourceWorkloadAvailable in
  let '(reason, msg) :=
    if available && converged then ("StackResourceAvailable", "StackResource is available")
    else if available
    then ("StackResourceAvailable", "workload serving; current rollout not converged")
    else ("WorkloadNotAvailable", "workload is not available") in
  let r := setSummaryCondition now StackResourceStatusAvailable available reason msg r in
  setSummaryCondition now StackResourceStalled false reason msg r.

(** The first failure entry of a classification that carries any detail. *)
Definition failureDetail (r : StackResource) (failureType : string) : option LastFailureDetail :=
  List.find (λ d, bool_decide (lfd_type d = failureType) &&
                  (negb (bool_decide (lfd_reason d = "")) || negb (bool_decide (lfd_message d = ""))))
    (last_failure_details (sr_status r)).

Definition declaredFailingPorts (r : StackResource) : list Z :=
  match port_check (sr_status r) with
  | None => []
  | Some pc =>
      if decide (pc_status pc ≠ PortCheckStatusTypeFailure) then []
      else filter (λ n, n ∈ (port_number <$> ports (sr_spec r))) (pc_failing_port_numbers pc)
  end.

Definition portDialMessage (ps : list Z) : string :=
  let noun := if 1 <? length ps then "ports" else "port" in
  noun +:+ " " +:+ join (pretty <$> ps) ", " +:+ " not accepting connections".

Definition deployingDetail (r : StackResource) (v : option Verdict) : string * string :=
  match declaredFailingPorts r with
  | [] =>
      match v with
      | Some v => (v_reason v, v_message v)
      | None =>
          let '(_, reason, message) :=
            domainConditionText r StackResourceWorkloadConverged "WorkloadNotConverged"
              "workload has not converged" in
          (reason, message)
      end
  | ps => (ReasonPortNotListening, portDialMessage ps)
  end.

Definition classify (r : StackResource) (verdicts : VerdictCollector)
    : StackResourceSummaryState * string * string :=
  let notReady := NotReady verdicts in
  let buildNotReady := domainCondition r StackResourceBuildReady ConditionFalse in
  let depsNotReady := domainCondition r StackResourceDependenciesReady ConditionFalse in
  let crash := failureDetail r FailureTypeRuntimeCrash in
  let converged := domainCondition r StackResourceWorkloadConverged ConditionTrue in
  let deploying :=
    let '(reason, message) := deployingDetail r notReady in
    (SummaryStateDeploying, reason, message) in
  match Failed verdicts, notReady, buildNotReady, depsNotReady, crash, converged with
  | Some v, _, _, _, _, _ => (SummaryStateFailed, v_reason v, v_message v)
  | None, Some _, Some b, _, _, _ => (SummaryStateBuilding, c_reason b, c_message b)
  | None, Some _, None, Some d, _, _ => (SummaryStateWaiting, c_reason d, c_message d)
  | None, Some _, None, None, Some c, _ => (SummaryStateFailed, lfd_reason c, lfd_message c)
  | None, None, _, _, _, Some c =>
      if domainConditionTrue r StackResourceWorkloadAvailable
      then (SummaryStateReady, c_reason c, c_message c)
      else deploying
  | _, _, _, _, _, _ => deploying
  end.

Definition appendServingNote (r : StackResource) (message : string) : string :=
  if negb (domainConditionTrue r StackResourceWorkloadAvailable) then message
  else if decide (message = "") then "previous revision still serving traffic"
  else message +:+ " (previous revision still serving traffic)".

Definition summarize (r : StackResource) (verdicts : VerdictCollector) : StackResourceStatusSummary :=
  let '(state, reason, message) := classify r verdicts in
  let message := if decide (state = SummaryStateDeploying)
                 then appendServingNote r message else message in
  mkStackResourceStatusSummary state reason message (sr_generation r).

(** The switch on the verdicts. *)
Definition deriveFromVerdicts (now : Time) (verdicts : VerdictCollector) (r : StackResource)
    : StackResource :=
  match Failed verdicts, NotReady verdicts with
  | Some v, _ => deriveFailed now v r
  | None, Some v => deriveNotReady now v r
  | None, None => deriveNoVerdict now r
  end.

Definition deriveSummaryStatus (now : Time) (verdicts : VerdictCollector) (r : StackResource)
    : StackResource :=
  let r := r <| sr_status ::= λ s, s <| observed_generation := sr_generation r |> |> in
  let r := match sr_annotations r !! RevisionAnnotation with
           | Some rev => r <| sr_status ::= λ s, s <| observed_revision := rev |> |>
           | None => r
           end in
  let r := deriveFromVerdicts now verdicts r in
  let r := r <| sr_status ::= λ s, s <| summary := Some (summarize r verdicts) |> |> in
  r <| sr_status ::= λ s, s <| status_hash := StackResourceStatusHash r |> |>.
End status_derive.

(** * The derivation in closed form *)

Section derive_facts.
Context {CA : ConditionsApi} {CL : ConditionsLaws} {SD : StatusDigest}.

Abbreviation wa r := (domainConditionTrue r StackResourceWorkloadAvailable).
Abbreviation wc r := (domainConditionTrue r StackResourceWorkloadConverged).

Definition derivedPhase (v : VerdictCollector) (r : StackResource) : StackResourcePhase :=
  match Failed v, NotReady v with
  | Some _, _ => StackResourcePhaseFailed
  | None, Some _ => StackResourcePhasePending
  | None, None => if wc r then StackResourcePhaseReady else StackResourcePhaseDegraded
  end.

(** Status, reason and message of each summary condition, in the order written. *)
Definition derivedSettings (v : VerdictCollector) (r : StackResource)
    : list (StackResourceStatusCondition * (ConditionStatus * string * string)) :=
  match Failed v, NotReady v with
  | Some f, _ =>
      [(StackResourceStalled, (ConditionTrue, v_reason f, v_message f));
       (StackResourceConverged, (ConditionFalse, v_reason f, v_message f));
       (StackResourceStatusAvailable,
         if wa r then (ConditionTrue, "ServingButStalled",
                       "workload serving; terminal failure: " +:+ v_message f)
         else (ConditionFalse, v_reason f, v_message f))]
  | None, Some n =>
      [(StackResourceStatusAvailable, (ConditionFalse, v_reason n, v_message n));
       (StackResourceConverged, (ConditionFalse, v_reason n, v_message n));
       (StackResourceStalled, (ConditionFalse, v_reason n, v_message n))]
  | None, None =>
      let '(_, cr, cm) := domainConditionText r StackResourceWorkloadConverged
                            "WorkloadNotConverged" "workload has not converged" in
      let '(ar, am) := if wa r && wc r then ("StackResourceAvailable", "StackResource is available")
                       else if wa r
                       then ("StackResourceAvailable", "workload serving; current rollout not converged")
                       else ("WorkloadNotAvailable", "workload is not available") in
      [(StackResourceConverged, (bool_status (wc r), cr, cm));
       (StackResourceStatusAvailable, (bool_status (wa r), ar, am));
       (StackResourceStalled, (ConditionFalse, ar, am))]
  end.

Definition settings (v : VerdictCollector) (r : StackResource) :=
  prod_map summary_name id <$> derivedSettings v r.

Definition derivedImageRevision (v : VerdictCollector) (r : StackResource) : string :=
  match Failed v, NotReady v, build_spec (sr_spec r) with
  | None, None, Some b => GetSourceRevisionString (bs_source_revision b)
  | _, _, _ => image_source_revision (sr_status r)
  end.

Definition derivedStatus (now : Time) (v : VerdictCollector) (r : StackResource)
    : StackResourceStatus :=
  (sr_status r)
    <| observed_generation := sr_generation r |>
    <| observed_revision :=
         default (observed_revision (sr_status r)) (sr_annotations r !! RevisionAnnotation) |>
    <| phase := derivedPhase v r |>
    <| image_source_revision := derivedImageRevision v r |>
    <| conditions ::= set_all now (sr_generation r) (settings v r) |>
    <| summary := Some (summarize r v) |>.

Lemma domainConditionText_true r d fr fm :
  (domainConditionText r d fr fm).1.1 = domainConditionTrue r d.
Proof.
  unfold domainConditionText, domainConditionTrue, domainCondition.
  destruct (find_status_condition _ _) as [c|]; [|done].
  repeat case_decide; simpl; repeat case_bool_decide; try done; naive_solver.
Qed.

(** Two resources a derivation cannot tell apart. *)
Definition sameInputs (r r' : StackResource) : Prop :=
  sr_meta r' = sr_meta r ∧ sr_spec r' = sr_spec r ∧
  port_check (sr_status r') = port_check (sr_status r) ∧
  last_failure_details (sr_status r') = last_failure_details (sr_status r) ∧
  ∀ d, findStatusCondition (sr_conditions r') (sr_generation r') (domain_name d) =
       findStatusCondition (sr_conditions r) (sr_generation r) (domain_name d).

Lemma domainCondition_eq r d st :
  domainCondition r d st =
  c ← findStatusCondition (sr_conditions r) (sr_generation r) (domain_name d);
  if decide (c_status c = st) then Some c else None.
Proof.
  unfold domainCondition, findStatusCondition.
  destruct (find_status_condition _ _) as [c|]; [|done].
  repeat case_decide; simpl; repeat case_decide; try done; tauto.
Qed.

Lemma domainConditionText_eq r d fr fm :
  domainConditionText r d fr fm =
  match findStatusCondition (sr_conditions r) (sr_generation r) (domain_name d) with
  | None => (false, fr, fm)
  | Some c => (bool_decide (c_status c = ConditionTrue), c_reason c, c_message c)
  end.
Proof.
  unfold domainConditionText, findStatusCondition.
  destruct (find_status_condition _ _) as [c|]; [|done]. by case_decide.
Qed.

Lemma same_condition r r' d st : sameInputs r r' → domainCondition r' d st = domainCondition r d st.
Proof. intros (Hm & _ & _ & _ & Hd). by rewrite !domainCondition_eq, Hd. Qed.

Lemma same_true r r' d : sameInputs r r' → domainConditionTrue r' d = domainConditionTrue r d.
Proof. intros H. unfold domainConditionTrue. by rewrite (same_condition r). Qed.

Lemma same_text r r' d fr fm :
  sameInputs r r' → domainConditionText r' d fr fm = domainConditionText r d fr fm.
Proof. intros (Hm & _ & _ & _ & Hd). by rewrite !domainConditionText_eq, Hd. Qed.

Lemma same_summarize r r' v : sameInputs r r' → summarize r' v = summarize r v.
Proof.
  intros HS. pose proof HS as (Hm & Hs & Hp & Hf & _).
  unfold summarize, classify, deployingDetail, appendServingNote, declaredFailingPorts,
    failureDetail, sr_generation.
  by rewrite !(same_condition r r'), !(same_true r r'), !(same_text r r'), Hm, Hs, Hp, Hf by done.
Qed.

Lemma same_settings r r' v : sameInputs r r' → settings v r' = settings v r.
Proof.
  intros HS. unfold settings, derivedSettings.
  by rewrite !(same_true r r'), !(same_text r r') by done.
Qed.

(** Writing summary conditions and summary fields keeps the inputs. *)
Lemma same_status r s :
  port_check s = port_check (sr_status r) →
  last_failure_details s = last_failure_details (sr_status r) →
  (∀ d, find_status_condition (conditions s) (domain_name d) =
        find_status_condition (sr_conditions r) (domain_name d)) →
  sameInputs r (r <| sr_status := s |>).
Proof.
  intros Hp Hf Hd. split_and!; try done. intros d. unfold findStatusCondition.
  unfold sr_conditions at 1. cbn. by rewrite Hd.
Qed.

(** The order in which the three summary conditions are written. *)
Definition settingsOrder (v : VerdictCollector) : list StackResourceStatusCondition :=
  match Failed v, NotReady v with
  | Some _, _ => [StackResourceStalled; StackResourceConverged; StackResourceStatusAvailable]
  | None, Some _ => [StackResourceStatusAvailable; StackResourceConverged; StackResourceStalled]
  | None, None => [StackResourceConverged; StackResourceStatusAvailable; StackResourceStalled]
  end.

Lemma settings_types v r : (settings v r).*1 = summary_name <$> settingsOrder v.
Proof. unfold settings, derivedSettings, settingsOrder. by repeat case_match. Qed.

Lemma settings_nodup v r : NoDup (settings v r).*1.
Proof.
  rewrite settings_types. apply NoDup_fmap_2; [apply _|]. unfold settingsOrder.
  repeat case_match; apply (bool_decide_unpack _); by vm_compute.
Qed.

Lemma domain_not_set v r d : domain_name d ∉ (settings v r).*1.
Proof. rewrite settings_types. intros (s & Hs & _)%list_elem_of_fmap. by apply (domain_summary_ne d s). Qed.

Lemma same_derived now v r : sameInputs r (r <| sr_status := derivedStatus now v r |>).
Proof.
  apply same_status; [done|done|]. intros d. cbn.
  apply find_set_all_ne, domain_not_set.
Qed.

Lemma same_refl r : sameInputs r r.
Proof. by split_and!. Qed.

Lemma same_update r r' f :
  sameInputs r r' →
  (∀ s, port_check (f s) = port_check s) →
  (∀ s, last_failure_details (f s) = last_failure_details s) →
  (∀ s d, find_status_condition (conditions (f s)) (domain_name d) =
          find_status_condition (conditions s) (domain_name d)) →
  sameInputs r (r' <| sr_status ::= f |>).
Proof.
  intros (Hm & Hs & Hp & Hf & Hd) H1 H2 H3. split_and!; cbn; [done|done| | |].
  - by rewrite H1.
  - by rewrite H2.
  - intros d. rewrite <- Hd. unfold findStatusCondition, sr_conditions. cbn. by rewrite H3.
Qed.

Lemma same_set now t b rs m r r' :
  sameInputs r r' → sameInputs r (setSummaryCondition now t b rs m r').
Proof.
  intros HS. unfold setSummaryCondition. apply same_update; try done.
  intros s d. cbn. apply find_set_status_condition_ne, domain_summary_ne.
Qed.

Ltac same_inputs := repeat first [assumption | apply same_set | apply same_update; [|done..] | apply same_refl].

Lemma derive_verdicts_eq now v r :
  deriveFromVerdicts now v r =
  r <| sr_status ::= λ s, s <| phase := derivedPhase v r |>
         <| image_source_revision := derivedImageRevision v r |>
         <| conditions ::= set_all now (sr_generation r) (settings v r) |> |>.
Proof.
  unfold deriveFromVerdicts, derivedPhase, derivedImageRevision, settings, derivedSettings.
  destruct (Failed v) as [f|].
  { unfold deriveFailed. cbv zeta. rewrite (same_true r) by same_inputs.
    by destruct (wa r), r as [m sp []]. }
  destruct (NotReady v) as [n|]; [by destruct r as [m sp []]|].
  unfold deriveNoVerdict. set (r1 := match build_spec (sr_spec r) with Some b => modify _ r | None => r end).
  assert (sameInputs r r1) as HS1.
  { unfold r1. destruct (build_spec _); same_inputs. }
  cbv zeta. rewrite (same_text r r1) by done.
  pose proof (domainConditionText_true r StackResourceWorkloadConverged "WorkloadNotConverged"
    "workload has not converged") as Hwc.
  destruct (domainConditionText r _ _ _) as [[c cr] cm]. cbn in Hwc. rewrite Hwc.
  rewrite (same_true r) by same_inputs. clear HS1 Hwc. subst r1.
  destruct (wa r), (wc r), r as [m sp []]; cbn; by destruct (build_spec sp).
Qed.

Lemma derive_eq now v r :
  let r' := r <| sr_status := derivedStatus now v r |> in
  deriveSummaryStatus now v r =
  r' <| sr_status ::= λ s, s <| status_hash := StackResourceStatusHash r' |> |>.
Proof.
  unfold deriveSummaryStatus. cbv zeta.
  set (r1 := modify (λ s, s <| observed_generation := _ |>) r).
  set (r2 := match sr_annotations r1 !! RevisionAnnotation with
             | Some rev => modify _ r1 | None => r1 end).
  assert (r2 = r <| sr_status ::= λ s, s <| observed_generation := sr_generation r |>
     <| observed_revision := default (observed_revision (sr_status r))
                               (sr_annotations r !! RevisionAnnotation) |> |>) as E.
  { unfold r2, r1, sr_annotations. destruct r as [m sp []]. cbn.
    by destruct (om_annotations m !! RevisionAnnotation). }
  assert (sameInputs r r2) as HS by (rewrite E; same_inputs). clearbody r2. clear r1.
  rewrite derive_verdicts_eq.
  rewrite (same_summarize r) by
    (apply same_update; [done|done|done|]; intros s d; cbn; apply find_set_all_ne, domain_not_set).
  rewrite (same_settings r) by done. subst r2. unfold derivedPhase.
  rewrite (same_true r) by same_inputs. by destruct r as [m sp []].
Qed.

(** A domain condition holds when it is True at the current generation. *)
Definition holds (r : StackResource) (d : StackResourceDomainCondition) : Prop :=
  ∃ c, find_status_condition (sr_conditions r) (domain_name d) = Some c ∧
       c_status c = ConditionTrue ∧ c_observed_generation c = sr_generation r.
(** It is denied when it is False at the current generation. *)
Definition denied (r : StackResource) (d : StackResourceDomainCondition) : Prop :=
  ∃ c, find_status_condition (sr_conditions r) (domain_name d) = Some c ∧
       c_status c = ConditionFalse ∧ c_observed_generation c = sr_generation r.

Lemma domainCondition_Some r d st c :
  domainCondition r d st = Some c ↔
  find_status_condition (sr_conditions r) (domain_name d) = Some c ∧
  c_status c = st ∧ c_observed_generation c = sr_generation r.
Proof.
  unfold domainCondition. destruct (find_status_condition _ _) as [c'|]; [|naive_solver].
  case_decide as E; [naive_solver|].
  apply Decidable.not_or in E as [E1 E2]. apply dec_stable in E1, E2. naive_solver.
Qed.

Lemma domainConditionTrue_holds r d : domainConditionTrue r d = true ↔ holds r d.
Proof.
  unfold domainConditionTrue, holds. rewrite bool_decide_eq_true. unfold is_Some.
  by setoid_rewrite domainCondition_Some.
Qed.

Lemma domainCondition_denied r d : is_Some (domainCondition r d ConditionFalse) ↔ denied r d.
Proof. unfold denied, is_Some. by setoid_rewrite domainCondition_Some. Qed.

Lemma derived_view now v r t st rs m :
  (summary_name t, (st, rs, m)) ∈ settings v r →
  view (sr_conditions (deriveSummaryStatus now v r)) (summary_name t) =
  Some (st, sr_generation r, rs, m).
Proof. intros Hin. rewrite derive_eq. cbn. apply view_set_all; [apply settings_nodup|done]. Qed.

(** The value each summary condition gets. *)
Definition summaryValue (v : VerdictCollector) (r : StackResource)
    (t : StackResourceStatusCondition) : bool :=
  match t with
  | StackResourceStalled => bool_decide (is_Some (Failed v))
  | StackResourceConverged =>
      bool_decide (Failed v = None) && bool_decide (NotReady v = None) && wc r
  | StackResourceStatusAvailable =>
      wa r && (bool_decide (is_Some (Failed v)) || bool_decide (NotReady v = None))
  end.

Lemma view_of_setting v r t :
  ∃ st rs m, (summary_name t, (st, rs, m)) ∈ settings v r.
Proof.
  assert (summary_name t ∈ (settings v r).*1) as Hin.
  { rewrite settings_types. apply list_elem_of_fmap_2. unfold settingsOrder.
    repeat case_match; destruct t; set_solver. }
  apply list_elem_of_fmap in Hin as ([t' [[st rs] m]] & Ht & Hin). cbn in Ht. subst t'. eauto.
Qed.

Lemma derived_value now v r t :
  ∃ rs m, view (sr_conditions (deriveSummaryStatus now v r)) (summary_name t) =
          Some (bool_status (summaryValue v r t), sr_generation r, rs, m).
Proof.
  assert (∃ rs m, (t, (bool_status (summaryValue v r t), rs, m)) ∈ derivedSettings v r)
    as (rs & m & Hin).
  { unfold derivedSettings, summaryValue.
    destruct (Failed v) as [f|], (NotReady v) as [n|]; cbn;
      try (destruct (domainConditionText r _ _ _) as [[? cr] cm]);
      destruct t, (wa r), (wc r); cbn;
      eexists _, _; repeat (first [left; reflexivity|right]). }
  exists rs, m. apply derived_view. exact (list_elem_of_fmap_2 (prod_map summary_name id) _ _ Hin).
Qed.

Lemma derived_current now v r t :
  isTrue (findStatusCondition (sr_conditions (deriveSummaryStatus now v r)) (sr_generation r)
            (summary_name t)) = summaryValue v r t.
Proof.
  destruct (derived_value now v r t) as (rs & m & Hv). unfold view in Hv.
  unfold findStatusCondition, isTrue.
  destruct (find_status_condition _ _) as [c|]; [|done].
  injection Hv as Hst Hgen _ _. rewrite decide_False by (rewrite Hgen; tauto).
  rewrite Hst. by destruct (summaryValue v r t).
Qed.

Lemma derived_stale now v r t g :
  g ≠ sr_generation r →
  findStatusCondition (sr_conditions (deriveSummaryStatus now v r)) g (summary_name t) = None.
Proof.
  intros Hne. destruct (derived_value now v r t) as (rs & m & Hv). unfold view in Hv.
  unfold findStatusCondition. destruct (find_status_condition _ _) as [c|]; [|done].
  injection Hv as _ Hgen _ _. rewrite decide_True by congruence. done.
Qed.

Lemma summaryValue_spec v r t :
  summaryValue v r t = true ↔
  match t with
  | StackResourceStalled => is_Some (Failed v)
  | StackResourceConverged => v = no_verdicts ∧ holds r StackResourceWorkloadConverged
  | StackResourceStatusAvailable =>
      holds r StackResourceWorkloadAvailable ∧ (is_Some (Failed v) ∨ NotReady v = None)
  end.
Proof.
  destruct t; cbn; rewrite ?andb_true_iff, ?orb_true_iff, ?bool_decide_eq_true,
    ?domainConditionTrue_holds; [done|done|].
  destruct v as [n f]; cbn. unfold no_verdicts. naive_solver.
Qed.
End derive_facts.

(** * Properties *)

Section derive_properties.
Context {CA : ConditionsApi} {CL : ConditionsLaws} {SD : StatusDigest}.

(** The derived status in full.  The phase is Failed on a failed verdict,
    else Pending on a not-ready verdict, else Ready or Degraded as the workload
    has or has not converged.  All three summary conditions are written at the
    current generation: Stalled is True exactly on a failed verdict, Converged
    exactly when no verdict was reported and the workload converged, Available
    exactly when the workload serves and no not-ready verdict stands alone.  No
    domain condition changes. *)
Theorem derived_status_table now v r :
  let r' := deriveSummaryStatus now v r in
  let serves := holds r StackResourceWorkloadAvailable in
  let converged := holds r StackResourceWorkloadConverged in
  phase (sr_status r') =
    match Failed v, NotReady v with
    | Some _, _ => StackResourcePhaseFailed
    | None, Some _ => StackResourcePhasePending
    | None, None => phase (sr_status r')
    end ∧
  (v = no_verdicts →
    (phase (sr_status r') = StackResourcePhaseReady ↔ converged) ∧
    (phase (sr_status r') = StackResourcePhaseDegraded ↔ ¬ converged)) ∧
  (∀ t, ∃ b reason msg,
    view (sr_conditions r') (summary_name t) =
      Some (bool_status b, sr_generation r, reason, msg) ∧
    (b = true ↔
     match t with
     | StackResourceStalled => is_Some (Failed v)
     | StackResourceConverged => v = no_verdicts ∧ converged
     | StackResourceStatusAvailable => serves ∧ (is_Some (Failed v) ∨ NotReady v = None)
     end)) ∧
  (∀ d, find_status_condition (sr_conditions r') (domain_name d) =
        find_status_condition (sr_conditions r) (domain_name d)).
Proof.
  cbv zeta. split_and!.
  - rewrite derive_eq. cbn. unfold derivedPhase. by destruct (Failed v), (NotReady v).
  - intros ->. rewrite derive_eq. cbn. rewrite <- domainConditionTrue_holds.
    destruct (domainConditionTrue r _); split; split; try done; congruence.
  - intros t. destruct (derived_value now v r t) as (rs & m & Hv).
    exists (summaryValue v r t), rs, m. split; [done|]. apply summaryValue_spec.
  - intros d. rewrite derive_eq. cbn. apply find_set_all_ne, domain_not_set.
Qed.

(** The one-word summary of the pass, and when each word is used.  Ready
    needs a pass without verdicts over a workload that both converged and
    serves; Building and Waiting outrank a runtime crash, which may be the
    leftover of a previous revision. *)
Theorem summary_state_table now v r :
  let building := denied r StackResourceBuildReady in
  let waiting := denied r StackResourceDependenciesReady in
  let crashed := is_Some (failureDetail r FailureTypeRuntimeCrash) in
  ∃ s, summary (sr_status (deriveSummaryStatus now v r)) = Some s ∧
    sum_observed_generation s = sr_generation r ∧
    (sum_state s = SummaryStateReady ↔
      v = no_verdicts ∧ holds r StackResourceWorkloadConverged ∧
      holds r StackResourceWorkloadAvailable) ∧
    (sum_state s = SummaryStateBuilding ↔
      Failed v = None ∧ is_Some (NotReady v) ∧ building) ∧
    (sum_state s = SummaryStateWaiting ↔
      Failed v = None ∧ is_Some (NotReady v) ∧ ¬ building ∧ waiting) ∧
    (sum_state s = SummaryStateFailed ↔
      is_Some (Failed v) ∨ (is_Some (NotReady v) ∧ ¬ building ∧ ¬ waiting ∧ crashed)).
Proof.
  cbv zeta. rewrite derive_eq. cbn. eexists. split; [reflexivity|].
  unfold summarize, classify. rewrite <- !domainCondition_denied, <- !domainConditionTrue_holds.
  unfold domainConditionTrue.
  destruct (deployingDetail r _) as [dr dm]. destruct v as [n f]. unfold no_verdicts. cbn.
  assert (∀ (A : Type) (x : A), is_Some (Some x) ↔ True) as HSome by (split; eauto).
  assert (∀ A : Type, is_Some (@None A) ↔ False) as HNone by (split; [by intros []|done]).
  destruct f as [f|]; [|destruct n as [n|]];
    [|destruct (domainCondition r StackResourceBuildReady _);
      [|destruct (domainCondition r StackResourceDependenciesReady _);
        [|destruct (failureDetail r _)]]
     |destruct (domainCondition r StackResourceWorkloadConverged _);
      [destruct (domainCondition r StackResourceWorkloadAvailable _)|]];
    cbn; rewrite ?HSome, ?HNone, ?bool_decide_eq_true, ?HSome, ?HNone;
    (split; [reflexivity|]); intuition (try discriminate; try congruence).
Qed.

(** Deriving again from the same verdicts, at whatever later time, changes
    nothing, so an unchanged pass never causes a status write. *)
Theorem derive_idempotent now now' v r :
  deriveSummaryStatus now' v (deriveSummaryStatus now v r) = deriveSummaryStatus now v r.
Proof.
  assert (sameInputs r (deriveSummaryStatus now v r)) as HS.
  { rewrite derive_eq. apply same_update; [apply same_derived|done..]. }
  rewrite (derive_eq now' v (deriveSummaryStatus now v r)). cbv zeta.
  assert (derivedStatus now' v (deriveSummaryStatus now v r) =
    sr_status (deriveSummaryStatus now v r)) as ->.
  { unfold derivedStatus at 1. rewrite (same_settings r _ v HS), (same_summarize r _ v HS).
    assert (derivedPhase v (deriveSummaryStatus now v r) = derivedPhase v r) as ->.
    { unfold derivedPhase. by rewrite (same_true r _ _ HS). }
    assert (derivedImageRevision v (deriveSummaryStatus now v r) = derivedImageRevision v r) as ->.
    { rewrite derive_eq. unfold derivedImageRevision. cbn. unfold derivedImageRevision.
      by destruct (Failed v), (NotReady v), (build_spec (sr_spec r)). }
    rewrite derive_eq. unfold derivedStatus, sr_annotations, sr_generation.
    pose proof (settings_nodup v r) as HN. revert HN.
    generalize (settings v r), (summarize r v), (derivedPhase v r), (derivedImageRevision v r).
    intros l sm ph ir HN. cbn -[set_all]. rewrite set_all_idempotent by done.
    generalize (om_annotations (sr_meta r) !! RevisionAnnotation). by intros []. }
  rewrite !derive_eq. generalize (derivedStatus now v r). intros s.
  by destruct r as [m sp st], s.
Qed.

(** A domain condition of an older generation describes a rollout that no
    longer exists, and nothing of it reaches the summary: two resources that
    agree on the domain conditions of the current generation get the same phase,
    the same summary and the same summary conditions, texts included. *)
Theorem stale_conditions_do_not_leak now v r r' :
  sr_meta r' = sr_meta r → sr_spec r' = sr_spec r →
  port_check (sr_status r') = port_check (sr_status r) →
  last_failure_details (sr_status r') = last_failure_details (sr_status r) →
  (∀ d c, c_observed_generation c = sr_generation r →
    find_status_condition (sr_conditions r') (domain_name d) = Some c ↔
    find_status_condition (sr_conditions r) (domain_name d) = Some c) →
  let s := sr_status (deriveSummaryStatus now v r) in
  let s' := sr_status (deriveSummaryStatus now v r') in
  phase s' = phase s ∧ summary s' = summary s ∧
  ∀ t, view (conditions s') (summary_name t) = view (conditions s) (summary_name t).
Proof.
  intros Hm Hs Hp Hf Hc. cbv zeta.
  assert (sr_generation r' = sr_generation r) as Hg by (unfold sr_generation; by rewrite Hm).
  assert (sameInputs r r') as HS.
  { split_and!; try done. intros d. rewrite Hg. apply option_eq. intros c.
    specialize (Hc d c). unfold findStatusCondition.
    destruct (find_status_condition (sr_conditions r') _) as [c1|],
      (find_status_condition (sr_conditions r) _) as [c2|]; repeat case_decide; naive_solver. }
  rewrite !derive_eq. cbn -[set_all settings summarize derivedPhase]. split_and!.
  - unfold derivedPhase. by rewrite (same_true r r').
  - by rewrite (same_summarize r r').
  - intros t. rewrite (same_settings r r'), Hg by done.
    destruct (view_of_setting v r t) as (st & rs & m & Hin).
    by rewrite !(view_set_all _ _ _ _ _ _ _ _ (settings_nodup v r) Hin).
Qed.

(** C13. What the two status layers say to each other.  Right after a pass, the
    Stack aggregation counts the resource as stalled exactly on a failed
    verdict, as serving exactly when the workload serves and no not-ready
    verdict stands alone, and (without release management) as converged exactly
    when no verdict was reported and the workload converged; and once the spec
    moves on, the same resource counts as none of the three until the next
    pass. *)
Theorem derive_then_aggregate now v r g :
  let r' := deriveSummaryStatus now v r in
  let next := r' <| sr_meta ::= λ m, m <| om_generation := g |> |> in
  (childStalled r' = true ↔ is_Some (Failed v)) ∧
  (childServing r' = true ↔ holds r StackResourceWorkloadAvailable ∧
     (is_Some (Failed v) ∨ NotReady v = None)) ∧
  (childOk false "" r' = true ↔ v = no_verdicts ∧ holds r StackResourceWorkloadConverged) ∧
  (g ≠ sr_generation r →
     childStalled next = false ∧ childServing next = false ∧ childOk false "" next = false).
Proof.
  cbv zeta.
  assert (sr_generation (deriveSummaryStatus now v r) = sr_generation r) as Hg by by rewrite derive_eq.
  rewrite !childOk_unmanaged by done.
  unfold childStalled, childServing, currentChildConditions. cbn [cc_stalled cc_available cc_converged].
  rewrite Hg, !derived_current. split_and!.
  - apply (summaryValue_spec v r StackResourceStalled).
  - apply (summaryValue_spec v r StackResourceStatusAvailable).
  - apply (summaryValue_spec v r StackResourceConverged).
  - intros Hne. set (next := modify _ (deriveSummaryStatus now v r)).
    assert (∀ t, findStatusCondition (sr_conditions next) (sr_generation next) (summary_name t)
      = None) as E by (intros t; exact (derived_stale now v r t g Hne)).
    by rewrite !E.
Qed.
End derive_properties.

(** * Witnesses *)

#[local] Instance sample_digest : StatusDigest := {
  digest_stack_status s := join (st_orphaned_resources s) ",";
  digest_resource_status s := observed_revision s;
}.

Definition serving_resource : StackResource :=
  (sample_resource "web") <| sr_status ::= λ s, s <| conditions :=
    [mkCondition "WorkloadAvailable" ConditionTrue 0 3 "DeploymentServing" "";
     mkCondition "WorkloadConverged" ConditionTrue 0 3 "FullyConverged" ""] |> |>.

Lemma derived_status_table_witness :
  phase (sr_status (deriveSummaryStatus 5 no_verdicts serving_resource)) = StackResourcePhaseReady.
Proof.
  apply (derived_status_table 5 no_verdicts serving_resource); [reflexivity|].
  apply domainConditionTrue_holds. reflexivity.
Defined.

Lemma summary_state_table_witness :
  sum_state <$> summary (sr_status (deriveSummaryStatus 5 no_verdicts serving_resource)) =
  Some SummaryStateReady.
Proof.
  destruct (summary_state_table 5 no_verdicts serving_resource) as (s & -> & _ & Hr & _).
  cbn. f_equal. apply Hr. split_and!; [done|..]; apply domainConditionTrue_holds; reflexivity.
Defined.

Lemma derive_idempotent_witness :
  deriveSummaryStatus 9 no_verdicts (deriveSummaryStatus 5 no_verdicts serving_resource) =
  deriveSummaryStatus 5 no_verdicts serving_resource.
Proof. apply derive_idempotent. Defined.

Lemma stale_conditions_do_not_leak_witness :
  let stale := serving_resource <| sr_meta ::= λ m, m <| om_generation := 1%Z |> |> in
  let bare := (sample_resource "web") <| sr_meta ::= λ m, m <| om_generation := 1%Z |> |> in
  phase (sr_status (deriveSummaryStatus 5 no_verdicts stale)) =
  phase (sr_status (deriveSummaryStatus 5 no_verdicts bare)).
Proof.
  intros stale bare. apply (stale_conditions_do_not_leak 5 no_verdicts bare stale); try reflexivity.
  intros d c Hc. split; [|done]. intros Hf. exfalso. revert Hf Hc.
  destruct d; vm_compute; intros [= <-]; discriminate.
Defined.

Lemma derive_then_aggregate_witness :
  childOk false "" (deriveSummaryStatus 5 no_verdicts serving_resource) = true.
Proof.
  destruct (derive_then_aggregate 5 no_verdicts serving_resource 1) as (_ & _ & Hok & _).
  apply (proj2 Hok). split; [done|].
  apply domainConditionTrue_holds. reflexivity.
Defined.
