(* ===== verification/PortCheck.v ===== *)
(** The port verifier (pkg/portcheck): dial results, the stored answers, and
    the bounded worker pool.  The sequential operations are functions on the
    verifier's state; the concurrent program they are part of, with its
    critical sections as atomic steps, is a transition system. *)
From S2P Require Import Prelude.

(** * Dial results (dialer.go) *)

Record PortResult := mkPortResult { pr_port : Z; pr_open : bool }.
Record Result := mkResult { r_ports : list PortResult; r_checked_at : Time }.

Definition AllOpen (r : Result) : bool := forallb pr_open (r_ports r).

Definition ClosedPorts (r : Result) : list Z :=
  sort_ints (pr_port <$> filter (λ p, pr_open p = false) (r_ports r)).

Definition Message (r : Result) : string :=
  let closed := ClosedPorts r in
  if decide (closed = []) then "all declared ports are listening"
  else
    let verified := (λ p, pretty (pr_port p) +:+ " " +:+
                          (if pr_open p then "open" else "refused")) <$> r_ports r in
    let names := pretty <$> closed in
    let plural := if 1 <? length closed then "ports" else "port" in
    "readiness check failed: nothing listening on " +:+ plural +:+ " " +:+ join names ", " +:+
    " (ports verified: [" +:+ join verified ", " +:+ "]). " +:+
    "If your app listens on a different port, update the port in your stack definition. " +:+
    "If it listens on 127.0.0.1, change it to 0.0.0.0.".

(** [Dial]: one goroutine per port, each writing its own slot, so the answer is
    in the order of the ports whatever the order the connections settle in.
    What the network answers is the argument [connect]. *)
Definition Dial (connect : string → Z → bool) (checkedAt : Time) (host : string) (ports : list Z)
    : Result :=
  mkResult ((λ p, mkPortResult p (connect host p)) <$> ports) checkedAt.

Lemma closed_elem r n :
  n ∈ ClosedPorts r ↔ ∃ p, p ∈ r_ports r ∧ pr_open p = false ∧ pr_port p = n.
Proof.
  unfold ClosedPorts. rewrite elem_of_sort_ints, list_elem_of_fmap.
  setoid_rewrite list_elem_of_filter. naive_solver.
Qed.

Lemma closed_nil r : ClosedPorts r = [] ↔ AllOpen r = true.
Proof.
  unfold AllOpen. rewrite forallb_forall. setoid_rewrite <- list_elem_of_In. split.
  - intros HE p Hp. destruct (pr_open p) eqn:E; [done|].
    assert (pr_port p ∈ ClosedPorts r) as Hin by (apply closed_elem; eauto).
    rewrite HE in Hin. by apply not_elem_of_nil in Hin.
  - intros Ha. destruct (ClosedPorts r) as [|n l] eqn:E; [done|].
    assert (n ∈ ClosedPorts r) as Hin by (rewrite E; left).
    apply closed_elem in Hin as (p & Hp & Hf & _). rewrite (Ha p Hp) in Hf. done.
Qed.

(** A dial reports on exactly the declared ports, in their order, as the
    network answered; its list of closed ports is sorted and holds exactly the
    declared ports that refused, so the verdict "all open" and an empty list of
    closed ports are the same thing. *)
Theorem dial_spec connect t host ports :
  let r := Dial connect t host ports in
  pr_port <$> r_ports r = ports ∧
  StronglySorted Z.le (ClosedPorts r) ∧
  (∀ n, n ∈ ClosedPorts r ↔ n ∈ ports ∧ connect host n = false) ∧
  (AllOpen r = true ↔ ClosedPorts r = []) ∧
  (ClosedPorts r = [] ↔ Message r = "all declared ports are listening").
Proof.
  cbv zeta. split_and!.
  - unfold Dial. cbn. rewrite <- list_fmap_compose. apply list_fmap_id.
  - apply (StronglySorted_merge_sort Z.le).
  - intros n. rewrite closed_elem. unfold Dial. cbn. setoid_rewrite list_elem_of_fmap. naive_solver.
  - by rewrite closed_nil.
  - unfold Message. case_decide; [done|]. split; [done|discriminate].
Qed.

(** * The verifier (verifier.go) *)

Definition DefaultWorkers : nat := 8.
Definition DefaultDialTimeout : Duration := second.
Definition queueDepth : nat := 512.

Record Key := mkKey { k_namespace : string; k_name : string; k_revision : string }.
#[export] Instance key_eq_dec : EqDecision Key.
Proof. solve_decision. Defined.

(** [nameKey]. *)
Definition nameKey (k : Key) : string * string := (k_namespace k, k_name k).

Record storedResult := mkStoredResult { stored_revision : string; stored_result : Result }.
Record job := mkJob { j_key : Key; j_pod_ip : string; j_ports : list Z }.

Record Verifier := mkVerifier {
  workers : nat;
  timeout : Duration;
  queue : list job;
  results : gmap (string * string) storedResult;
  pending : gset (string * string);
}.
#[export] Instance eta_verifier : Eta Verifier := λ v,
  mkVerifier (workers v) (timeout v) (queue v) (results v) (pending v).

Definition newVerifier (workers : nat) (timeout : Duration) : Verifier :=
  mkVerifier workers timeout [] ∅ ∅.
Definition NewVerifierWithDefaults : Verifier := newVerifier DefaultWorkers DefaultDialTimeout.

Definition Get (key : Key) (v : Verifier) : option Result :=
  match results v !! nameKey key with
  | None => None
  | Some stored =>
      if decide (stored_revision stored ≠ k_revision key) then None
      else Some (stored_result stored)
  end.

Definition Pending (key : Key) (v : Verifier) : bool := bool_decide (nameKey key ∈ pending v).

Definition Forget (key : Key) (v : Verifier) : Verifier :=
  match results v !! nameKey key with
  | None => v
  | Some stored =>
      if decide (stored_revision stored ≠ k_revision key) then v
      else v <| results ::= delete (nameKey key) |>
  end.

(** The first critical section of [Enqueue]: refuse, or mark as pending. *)
Definition refuses (key : Key) (v : Verifier) : bool :=
  match results v !! nameKey key with
  | Some stored => bool_decide (stored_revision stored = k_revision key)
  | None => false
  end || bool_decide (nameKey key ∈ pending v).
Definition mark (key : Key) (v : Verifier) : Verifier :=
  v <| pending ::= λ p, {[ nameKey key ]} ∪ p |>.
(** The channel send, and the critical section of the [default] case. *)
Definition send (j : job) (v : Verifier) : Verifier := v <| queue ::= λ q, q ++ [j] |>.
Definition unmark (key : Key) (v : Verifier) : Verifier :=
  v <| pending ::= λ p, p ∖ {[ nameKey key ]} |>.

Definition Enqueue (key : Key) (podIP : string) (ports : list Z) (v : Verifier) : bool * Verifier :=
  if refuses key v then (false, v)
  else
    let v := mark key v in
    if length (queue v) <? queueDepth
    then (true, send (mkJob key podIP ports) v)
    else (false, unmark key v).

(** The critical section of a worker that has dialed [j]. *)
Definition complete (j : job) (r : Result) (v : Verifier) : Verifier :=
  v <| results ::= <[nameKey (j_key j) := mkStoredResult (k_revision (j_key j)) r]> |>
    <| pending ::= λ p, p ∖ {[ nameKey (j_key j) ]} |>.

(** * The concurrent program

    Between its critical sections an [Enqueue] call has marked its key and not
    yet sent ([marked]), or found the channel full and not yet unmarked
    ([dropping]); a worker has taken its job and not yet stored the answer
    ([dialing]). *)

Record System := mkSystem {
  sys : Verifier;
  marked : list job;
  dropping : list job;
  dialing : list job;
}.
Definition start (v : Verifier) : System := mkSystem v [] [] [].

(** Steps taken by callers, and steps the program takes by itself. *)
Inductive external : System → System → Prop :=
  | step_mark v m d w j :
      refuses (j_key j) v = false →
      external (mkSystem v m d w) (mkSystem (mark (j_key j) v) (m ++ [j]) d w)
  | step_forget v m d w key :
      external (mkSystem v m d w) (mkSystem (Forget key v) m d w).

Inductive internal : System → System → Prop :=
  | step_send v m1 m2 d w j :
      length (queue v) < queueDepth →
      internal (mkSystem v (m1 ++ j :: m2) d w) (mkSystem (send j v) (m1 ++ m2) d w)
  | step_full v m1 m2 d w j :
      ¬ length (queue v) < queueDepth →
      internal (mkSystem v (m1 ++ j :: m2) d w) (mkSystem v (m1 ++ m2) (d ++ [j]) w)
  | step_drop v m d1 d2 w j :
      internal (mkSystem v m (d1 ++ j :: d2) w)
               (mkSystem (unmark (j_key j) v) m (d1 ++ d2) w)
  | step_take v m d w j q :
      queue v = j :: q → length w < workers v →
      internal (mkSystem v m d w) (mkSystem (v <| queue := q |>) m d (w ++ [j]))
  | step_complete v m d w1 w2 j r :
      internal (mkSystem v m d (w1 ++ j :: w2)) (mkSystem (complete j r v) m d (w1 ++ w2)).

Definition step (s s' : System) : Prop := external s s' ∨ internal s s'.
Definition reachable (workers : nat) (timeout : Duration) (s : System) : Prop :=
  rtc step (start (newVerifier workers timeout)) s.

(** * The invariant *)

Definition inFlight (s : System) : list (string * string) :=
  (λ j, nameKey (j_key j)) <$> marked s ++ dropping s ++ queue (sys s) ++ dialing s.

Record verifier_inv (n : nat) (s : System) : Prop := {
  inv_single : NoDup (inFlight s);
  inv_pending : ∀ k, k ∈ pending (sys s) ↔ k ∈ inFlight s;
  inv_queue : length (queue (sys s)) ≤ queueDepth;
  inv_dialing : length (dialing s) ≤ workers (sys s);
  inv_workers : workers (sys s) = n;
}.

Lemma inv_start n t : verifier_inv n (start (newVerifier n t)).
Proof. split; cbn; [apply NoDup_nil_2|set_solver|lia|lia|done]. Qed.

Ltac perm_flight :=
  unfold inFlight; cbn; rewrite <- ?app_assoc, ?fmap_app; cbn;
  rewrite <- ?Permutation_middle; rewrite ?(assoc_L app); cbn; try reflexivity.

Lemma flight_mark v m d w j :
  inFlight (mkSystem (mark (j_key j) v) (m ++ [j]) d w) ≡ₚ
  nameKey (j_key j) :: inFlight (mkSystem v m d w).
Proof. perm_flight. Qed.

Lemma flight_send v m1 m2 d w j :
  inFlight (mkSystem (send j v) (m1 ++ m2) d w) ≡ₚ inFlight (mkSystem v (m1 ++ j :: m2) d w).
Proof. perm_flight. Qed.

Lemma flight_full v m1 m2 d w j :
  inFlight (mkSystem v (m1 ++ m2) (d ++ [j]) w) ≡ₚ inFlight (mkSystem v (m1 ++ j :: m2) d w).
Proof. perm_flight. Qed.

Lemma flight_drop v m d1 d2 w j :
  inFlight (mkSystem v m (d1 ++ j :: d2) w) ≡ₚ
  nameKey (j_key j) :: inFlight (mkSystem (unmark (j_key j) v) m (d1 ++ d2) w).
Proof. perm_flight. Qed.

Lemma flight_take v m d w j q :
  queue v = j :: q →
  inFlight (mkSystem (v <| queue := q |>) m d (w ++ [j])) ≡ₚ inFlight (mkSystem v m d w).
Proof.
  intros E. unfold inFlight. cbn. rewrite E. apply fmap_Permutation.
  do 2 apply Permutation_app_head. cbn. by rewrite (Permutation_app_comm w), Permutation_middle.
Qed.

Lemma flight_complete v m d w1 w2 j r :
  inFlight (mkSystem v m d (w1 ++ j :: w2)) ≡ₚ
  nameKey (j_key j) :: inFlight (mkSystem (complete j r v) m d (w1 ++ w2)).
Proof. perm_flight. Qed.

Lemma inv_move n v v' m m' d d' w w' :
  inFlight (mkSystem v' m' d' w') ≡ₚ inFlight (mkSystem v m d w) →
  pending v' = pending v → workers v' = workers v →
  length (queue v') ≤ queueDepth → length w' ≤ workers v →
  verifier_inv n (mkSystem v m d w) → verifier_inv n (mkSystem v' m' d' w').
Proof.
  intros HP Hp Hw Hq Hd [H1 H2 H3 H4 H5]. split; cbn in *.
  - by rewrite HP.
  - intros k. rewrite Hp, HP. apply H2.
  - done.
  - lia.
  - congruence.
Qed.

Lemma inv_leave n v v' m m' d d' w w' k :
  inFlight (mkSystem v m d w) ≡ₚ k :: inFlight (mkSystem v' m' d' w') →
  pending v' = pending v ∖ {[ k ]} → workers v' = workers v →
  length (queue v') ≤ queueDepth → length w' ≤ workers v →
  verifier_inv n (mkSystem v m d w) → verifier_inv n (mkSystem v' m' d' w').
Proof.
  intros HP Hp Hw Hq Hd [H1 H2 H3 H4 H5]. rewrite HP, NoDup_cons in H1. destruct H1 as [Hk HN].
  split; cbn in *; [done| |done|lia|congruence].
  intros k'. rewrite Hp, elem_of_difference, elem_of_singleton, H2, HP, elem_of_cons.
  split; [tauto|]. intros Hin. split; [by right|]. by intros ->.
Qed.

Lemma inv_external n s s' : external s s' → verifier_inv n s → verifier_inv n s'.
Proof.
  intros [v m d w j Hr|v m d w key].
  - intros [H1 H2 H3 H4 H5]. unfold refuses in Hr. apply orb_false_iff in Hr as [_ Hr].
    apply bool_decide_eq_false in Hr. split; [| |done..].
    + rewrite flight_mark, NoDup_cons. by rewrite <- H2.
    + intros k. rewrite flight_mark, elem_of_cons, <- H2. cbn. set_solver.
  - intros HI. assert (∃ rs, Forget key v = v <| results := rs |>) as [rs ->].
    { unfold Forget. destruct v as [? ? ? rs ?]. cbn. destruct (rs !! _); [|by eexists].
      case_decide; by eexists. }
    destruct HI. by split.
Qed.

Lemma inv_internal n s s' : internal s s' → verifier_inv n s → verifier_inv n s'.
Proof.
  intros Hs HI. pose proof (inv_queue _ _ HI) as Hq. pose proof (inv_dialing _ _ HI) as Hd.
  destruct Hs as [v m1 m2 d w j Hl|v m1 m2 d w j Hl|v m d1 d2 w j|v m d w j q Eq Hl|v m d w1 w2 j r];
    cbn in Hq, Hd; revert HI.
  - apply inv_move; [apply flight_send|done|done| |done]. cbn. rewrite length_app. cbn. lia.
  - by apply inv_move; [apply flight_full|..].
  - by eapply inv_leave; [apply flight_drop|..].
  - apply inv_move; [by apply flight_take|done|done| |]; cbn.
    + rewrite Eq in Hq. cbn in Hq. lia.
    + rewrite length_app. cbn. lia.
  - eapply inv_leave; [apply flight_complete|done|done|done|].
    rewrite length_app in Hd |- *. cbn in Hd. lia.
Qed.

Lemma reachable_inv n t s : reachable n t s → verifier_inv n s.
Proof.
  intros Hr. pose proof (inv_start n t) as H0. unfold reachable in Hr.
  induction Hr as [s|s1 s2 s3 [Hs|Hs] _ IH]; [done| |]; apply IH.
  - by eapply inv_external.
  - by eapply inv_internal.
Qed.

(** * Progress *)

(** How many internal steps are left before the pool is idle. *)
Definition work (s : System) : nat :=
  3 * length (marked s) + length (dropping s) + 2 * length (queue (sys s)) + length (dialing s).

Lemma internal_work s s' : internal s s' → work s' < work s.
Proof.
  intros [v m1 m2 d w j Hl|v m1 m2 d w j Hl|v m d1 d2 w j|v m d w j q Eq Hl|v m d w1 w2 j r];
    unfold work; cbn; rewrite ?Eq, ?length_app; cbn; rewrite ?length_app; lia.
Qed.

Lemma internal_progress n s :
  verifier_inv n s → 0 < n → work s ≠ 0 → ∃ s', internal s s'.
Proof.
  destruct s as [v m d w]. intros HI Hn. unfold work. cbn.
  destruct m as [|j m].
  - destruct d as [|j d].
    + destruct w as [|j w].
      * destruct (queue v) as [|j q] eqn:E; [cbn; lia|]. intros _. eexists. apply (step_take v [] [] [] j q E).
        destruct HI. cbn in *. lia.
      * intros _. eexists. by apply (step_complete v [] [] [] w j (mkResult [] 0)).
    + intros _. eexists. by apply (step_drop v [] [] d w j).
  - intros _. destruct (decide (length (queue v) < queueDepth)) as [Hl|Hl].
    + eexists. by apply (step_send v [] m d w j).
    + eexists. by apply (step_full v [] m d w j).
Qed.

(** C11. The verifier is single-flight and bounded.  In every state the pool of
    [n] workers can reach, however its callers and workers interleave: at most
    one job per resource is between its admission and its answer, a resource is
    marked pending exactly when it has such a job, at most 512 jobs are queued
    and at most [n] are being dialed. *)
Theorem verifier_single_flight n t s :
  reachable n t s →
  NoDup (inFlight s) ∧
  (∀ key, Pending key (sys s) = true ↔ nameKey key ∈ inFlight s) ∧
  length (queue (sys s)) ≤ 512 ∧ length (dialing s) ≤ n.
Proof.
  intros Hr. destruct (reachable_inv _ _ _ Hr) as [H1 H2 H3 H4 H5]. split_and!; try done; [|lia].
  intros key. unfold Pending. by rewrite bool_decide_eq_true.
Qed.

Lemma nsteps_work k s s' : nsteps internal k s s' → k + work s' ≤ work s.
Proof. induction 1 as [|k s1 s2 s3 Hs _ IH]; [lia|]. apply internal_work in Hs. lia. Qed.

Lemma no_work_idle n s : verifier_inv n s → work s = 0 → ∀ key, Pending key (sys s) = false.
Proof.
  intros HI Hw key. unfold Pending. rewrite bool_decide_eq_false, (inv_pending _ _ HI).
  destruct s as [v m d w]. unfold work in Hw. cbn in Hw. unfold inFlight. cbn.
  destruct m; [|cbn in Hw; lia]. destruct d; [|cbn in Hw; lia].
  destruct (queue v); [|cbn in Hw; lia]. destruct w; [|cbn in Hw; lia]. apply not_elem_of_nil.
Qed.

(** No resource stays pending for ever.  From every reachable state of a
    pool with a worker, the calls and dials already under way take a bounded
    number of steps, and in any state where they can take no more nothing is
    pending. *)
Theorem verifier_drains n t s :
  0 < n → reachable n t s →
  (∃ b, ∀ k s', nsteps internal k s s' → k ≤ b) ∧
  (∀ s', rtc internal s s' → (∀ s'', ¬ internal s' s'') → ∀ key, Pending key (sys s') = false).
Proof.
  intros Hn Hr. split.
  - exists (work s). intros k s' Hk. apply nsteps_work in Hk. lia.
  - intros s' Hs Hstuck. assert (verifier_inv n s') as HI.
    { apply reachable_inv in Hr. clear Hstuck. induction Hs as [|s1 s2 s3 H1 _ IH]; [done|].
      apply IH. by eapply inv_internal. }
    apply (no_work_idle n); [done|]. destruct (decide (work s' = 0)) as [|Hw]; [done|].
    destruct (internal_progress n s' HI Hn Hw) as [s'' Hi]. by apply Hstuck in Hi.
Qed.

(** * The contract of the sequential operations *)

Lemma refuses_false key v :
  refuses key v = false ↔ Get key v = None ∧ Pending key v = false.
Proof.
  unfold refuses, Get, Pending. rewrite orb_false_iff.
  destruct (results v !! nameKey key) as [st|]; [|naive_solver].
  rewrite bool_decide_eq_false. case_decide; naive_solver.
Qed.

Lemma unmark_mark key v : nameKey key ∉ pending v → unmark key (mark key v) = v.
Proof. intros Hk. destruct v. cbn in *. unfold unmark, mark. cbn. f_equal. set_solver. Qed.

(** What a reconciler can rely on.  [Enqueue] admits a dial exactly when
    this revision has no answer, no dial for the resource is in flight and the
    queue has room; otherwise it changes nothing.  An admitted dial is pending
    until a worker answers it; the answer is then what [Get] returns for that
    revision and for no other, and [Forget] drops it, so a new dial can be
    admitted. *)
Theorem verifier_contract key ip ports v :
  let '(ok, v') := Enqueue key ip ports v in
  (ok = true ↔ Get key v = None ∧ Pending key v = false ∧ length (queue v) < 512) ∧
  (ok = false → v' = v) ∧
  (ok = true → Pending key v' = true ∧ queue v' = queue v ++ [mkJob key ip ports] ∧
               results v' = results v) ∧
  (∀ r, let v'' := complete (mkJob key ip ports) r v' in
        Get key v'' = Some r ∧ Pending key v'' = false ∧
        (∀ rev, rev ≠ k_revision key →
           Get (mkKey (k_namespace key) (k_name key) rev) v'' = None) ∧
        Get key (Forget key v'') = None ∧ refuses key (Forget key v'') = false).
Proof.
  assert (∀ v' r, let v'' := complete (mkJob key ip ports) r v' in
        Get key v'' = Some r ∧ Pending key v'' = false ∧
        (∀ rev, rev ≠ k_revision key →
           Get (mkKey (k_namespace key) (k_name key) rev) v'' = None) ∧
        Get key (Forget key v'') = None ∧ refuses key (Forget key v'') = false) as HC.
  { intros v' r v''.
    assert (results v'' !! nameKey key = Some (mkStoredResult (k_revision key) r)) as Hl
      by apply lookup_insert_eq.
    assert (Pending key v'' = false) as Hp.
    { apply bool_decide_eq_false. cbn. set_solver. }
    assert (Forget key v'' = v'' <| results ::= delete (nameKey key) |>) as Hf.
    { unfold Forget. by rewrite Hl, decide_False by tauto. }
    assert (Get key (Forget key v'') = None) as Hg.
    { rewrite Hf. unfold Get. cbn [results modify]. by rewrite lookup_delete_eq. }
    split_and!; [|done| |done|].
    - unfold Get. by rewrite Hl, decide_False by tauto.
    - intros rev Hr. unfold Get. change (nameKey _) with (nameKey key).
      rewrite Hl, decide_True; [done|]. cbn. congruence.
    - apply refuses_false. split; [done|]. by rewrite Hf. }
  unfold Enqueue. destruct (refuses key v) eqn:Hr.
  - split_and!; [|done|done|apply HC]. split; [done|]. intros (Hg & Hp & _).
    rewrite (proj2 (refuses_false _ _)) in Hr by done. done.
  - pose proof Hr as Hr'. apply refuses_false in Hr' as [Hg Hp]. cbn [queue modify mark].
    change (queue (mark key v)) with (queue v).
    destruct (Nat.ltb_spec (length (queue v)) queueDepth) as [Hl|Hl].
    + split_and!; [done|done| |apply HC]. intros _. split_and!; [|done|done].
      apply bool_decide_eq_true. cbn. set_solver.
    + split_and!; [|intros _|done|apply HC].
      * split; [done|]. unfold queueDepth in Hl. lia.
      * apply unmark_mark. by apply bool_decide_eq_false in Hp.
Qed.

(** * Witnesses *)

Definition sample_job : job := mkJob (mkKey "default" "web" "3") "10.0.0.7" [8080%Z].
Definition sample_system : System :=
  mkSystem (mark (j_key sample_job) NewVerifierWithDefaults) [sample_job] [] [].

Lemma sample_reachable : reachable DefaultWorkers DefaultDialTimeout sample_system.
Proof. apply rtc_once. left. by apply (step_mark NewVerifierWithDefaults [] [] []). Qed.

Lemma verifier_single_flight_witness : Pending (j_key sample_job) (sys sample_system) = true.
Proof.
  apply (verifier_single_flight DefaultWorkers DefaultDialTimeout sample_system sample_reachable).
  left.
Defined.

Lemma verifier_drains_witness :
  ∃ b, ∀ k s', nsteps internal k sample_system s' → k ≤ b.
Proof.
  apply (verifier_drains DefaultWorkers DefaultDialTimeout sample_system);
    [unfold DefaultWorkers; lia|apply sample_reachable].
Defined.
