(* ===== verification/Text.v ===== *)
(** Text processing the components share: the pieces of Go's [strings] and
    [regexp] packages that turn arbitrary text into names Kubernetes accepts. *)
From S2P Require Import Prelude.
From Stdlib Require Import Ascii String.

(** [strings.ToLower] and Go's [%q].  Their tables for text outside ASCII are
    not written out: both are parameters, which no theorem constrains. *)
Class GoText := {
  to_lower : string → string;
  quote : string → string;
}.

(** Hexadecimal SHA-256 of a text. *)
Class TextDigest := sha256_text : string → string.

(** * Characters *)

Definition is_digit (c : ascii) : bool := let n := N_of_ascii c in (48 <=? n)%N && (n <=? 57)%N.
Definition is_lower (c : ascii) : bool := let n := N_of_ascii c in (97 <=? n)%N && (n <=? 122)%N.
Definition is_upper (c : ascii) : bool := let n := N_of_ascii c in (65 <=? n)%N && (n <=? 90)%N.
Definition is_label_char (c : ascii) : bool := is_digit c || is_lower c.
Definition dash : ascii := "-"%char.

Fixpoint string_forall (p : ascii → bool) (s : string) : bool :=
  match s with
  | EmptyString => true
  | String c s => p c && string_forall p s
  end.

(** * Operations *)

(** [regexp.MustCompile(`[^...]+`).ReplaceAllString(s, "-")]: every maximal run
    of characters outside the class becomes one dash.  A multi-byte character is
    outside every class used here, and so is each of its bytes. *)
Fixpoint replace_runs (ok : ascii → bool) (in_run : bool) (s : string) : string :=
  match s with
  | EmptyString => EmptyString
  | String c s =>
      if ok c then String c (replace_runs ok false s)
      else if in_run then replace_runs ok true s
      else String dash (replace_runs ok true s)
  end.

(** [strings.Trim(s, cutset)]. *)
Fixpoint trim_left (cut : ascii → bool) (s : string) : string :=
  match s with
  | EmptyString => EmptyString
  | String c s' => if cut c then trim_left cut s' else s
  end.
Fixpoint trim_right (cut : ascii → bool) (s : string) : string :=
  match s with
  | EmptyString => EmptyString
  | String c s =>
      let t := trim_right cut s in
      if decide (t = EmptyString) then if cut c then EmptyString else String c EmptyString
      else String c t
  end.
Definition trim (cut : ascii → bool) (s : string) : string := trim_right cut (trim_left cut s).

(** [s[:n]], for [n] at most the length. *)
Fixpoint take_string (n : nat) (s : string) : string :=
  match n, s with
  | S n, String c s => String c (take_string n s)
  | _, _ => EmptyString
  end.

(** [strings.TrimSuffix(s, "-")]. *)
Fixpoint trim_dash_suffix (s : string) : string :=
  match s with
  | EmptyString => EmptyString
  | String c EmptyString => if decide (c = dash) then EmptyString else s
  | String c s => String c (trim_dash_suffix s)
  end.

(** * DNS labels

    [seg d s]: letters, digits and single dashes, no dash right away when [d].
    [ends s]: empty, or the last character is a letter or digit. *)
Fixpoint seg (d : bool) (s : string) : bool :=
  match s with
  | EmptyString => true
  | String c s => if is_label_char c then seg false s
                  else bool_decide (c = dash) && negb d && seg true s
  end.
Fixpoint ends (s : string) : bool :=
  match s with
  | EmptyString => true
  | String c EmptyString => is_label_char c
  | String _ s => ends s
  end.

(** A label in the sense of RFC 1123, length apart: not empty, lower case letters,
    digits and dashes, starting and ending with a letter or digit. *)
Definition dns_label (s : string) : Prop := s ≠ "" ∧ seg true s = true ∧ ends s = true.

Lemma is_label_dash : is_label_char dash = false.
Proof. reflexivity. Qed.

Lemma seg_weaken s : seg true s = true → seg false s = true.
Proof.
  destruct s as [|c s]; [done|]. simpl. destruct (is_label_char c); [done|].
  rewrite andb_false_r. simpl. done.
Qed.

Lemma seg_replace_runs r s : seg r (replace_runs is_label_char r s) = true.
Proof.
  revert r. induction s as [|c s IH]; intros r; [done|]. simpl.
  destruct (is_label_char c) eqn:E; simpl; [by rewrite E|].
  destruct r; simpl; [done|]. apply IH.
Qed.

Lemma seg_trim_left cut s :
  (∀ c, cut c = bool_decide (c = dash)) → seg false s = true → seg true (trim_left cut s) = true.
Proof.
  intros Hc. assert (∀ d, seg d s = true → seg true (trim_left cut s) = true) as H; [|apply H].
  induction s as [|c s IH]; intros d; [done|]. simpl. rewrite Hc.
  case_bool_decide as E.
  - subst c. rewrite is_label_dash. intros Hs. apply (IH true). by destruct d.
  - simpl. rewrite bool_decide_false by done. destruct (is_label_char c); [done|].
    by destruct d.
Qed.

Lemma seg_trim_right d cut s : seg d s = true → seg d (trim_right cut s) = true.
Proof.
  revert d. induction s as [|c s IH]; intros d; [done|]. simpl.
  destruct (is_label_char c) eqn:E.
  - intros Hs%IH. destruct (decide (trim_right cut s = "")) as [Ht|Ht]; [|by simpl; rewrite E].
    destruct (cut c); simpl; by rewrite ?E.
  - rewrite !andb_true_iff. intros [[Hc Hd] Hs%IH].
    destruct (decide (trim_right cut s = "")) as [Ht|Ht].
    + destruct (cut c); simpl; [done|]. by rewrite E, Hc, Hd.
    + simpl. by rewrite E, Hc, Hd.
Qed.

Lemma ends_trim_right d s :
  seg d s = true → ends (trim_right (λ c, bool_decide (c = dash)) s) = true.
Proof.
  revert d. induction s as [|c s IH]; intros d; [done|]. intros Hs.
  assert (c = dash ∨ is_label_char c = true) as Hc.
  { simpl in Hs. destruct (is_label_char c); [by right|left].
    rewrite !andb_true_iff, bool_decide_eq_true in Hs. tauto. }
  assert (ends (trim_right (λ c, bool_decide (c = dash)) s) = true) as He.
  { simpl in Hs. destruct (is_label_char c); [by eapply IH|].
    rewrite !andb_true_iff in Hs. eapply IH, Hs. }
  simpl. destruct (trim_right _ s) as [|c' t]; simpl; [|done].
  destruct Hc as [->|Hc]; [done|]. case_bool_decide; simpl; [done|]. by rewrite Hc.
Qed.

Lemma seg_take d n s : seg d s = true → seg d (take_string n s) = true.
Proof.
  revert d n. induction s as [|c s IH]; intros d [|n]; simpl; try done.
  destruct (is_label_char c); [apply IH|]. rewrite !andb_true_iff. intros [[-> ->] Hs]. simpl.
  by rewrite IH.
Qed.

Lemma trim_dash_cons c s :
  s ≠ "" → trim_dash_suffix (String c s) = String c (trim_dash_suffix s).
Proof. by destruct s. Qed.

Lemma ends_cons c s : s ≠ "" → ends (String c s) = ends s.
Proof. by destruct s. Qed.

Lemma seg_cons d c s :
  seg d (String c s) = true ↔
  (is_label_char c = true ∧ seg false s = true) ∨
  (is_label_char c = false ∧ c = dash ∧ d = false ∧ seg true s = true).
Proof.
  simpl. destruct (is_label_char c); [intuition congruence|].
  rewrite !andb_true_iff, bool_decide_eq_true, negb_true_iff. intuition congruence.
Qed.

Lemma seg_trim_suffix d s : seg d s = true → seg d (trim_dash_suffix s) = true.
Proof.
  revert d. induction s as [|c s IH]; intros d; [done|].
  destruct (decide (s = "")) as [->|Hs]; [simpl; by case_decide|].
  rewrite trim_dash_cons, !seg_cons by done. intros [[? ?%IH]|(? & ? & ? & ?%IH)]; tauto.
Qed.

Lemma ends_trim_suffix d s : seg d s = true → ends (trim_dash_suffix s) = true.
Proof.
  revert d. induction s as [|c s IH]; intros d; [done|]. rewrite seg_cons.
  destruct (decide (s = "")) as [->|Hs].
  - intros [[Hc _]|(_ & -> & _)]; [|reflexivity]. simpl.
    destruct (decide (c = dash)); simpl; [done|]. by rewrite Hc.
  - rewrite trim_dash_cons by done. intros Hseg.
    assert (ends (trim_dash_suffix s) = true) as He by (destruct Hseg as [[_ H]|(_&_&_&H)]; eauto).
    destruct (decide (trim_dash_suffix s = "")) as [Ht|Ht]; [|by rewrite ends_cons].
    rewrite Ht. destruct Hseg as [[Hc _]|(Hc & -> & _ & Hst)]; [simpl; by rewrite Hc|].
    (* a dash alone after a dash cannot be *)
    exfalso. destruct s as [|c' [|c'' s']]; [done| |by apply Hs; simpl in Ht; case_decide].
    simpl in Ht. case_decide as E; [|done]. subst c'. done.
Qed.

Lemma seg_app d a b :
  seg d a = true → a ≠ "" → ends a = true → seg true b = true →
  seg d (a +:+ String dash b) = true.
Proof.
  revert d. induction a as [|c a IH]; intros d; [done|]. intros Ha _ He Hb.
  change (String c a +:+ String dash b) with (String c (a +:+ String dash b)).
  rewrite seg_cons in Ha |- *. destruct (decide (a = "")) as [->|Hne].
  - simpl in He. destruct Ha as [[Hc _]|(Hc & _)]; [|congruence]. left. split; [done|]. done.
  - rewrite ends_cons in He by done.
    destruct Ha as [[Hc Ha]|(Hc & Hd & Hd' & Ha)]; [left|right]; eauto 6.
Qed.

Lemma ends_app a b : b ≠ "" → ends (a +:+ b) = ends b.
Proof.
  intros Hb. induction a as [|c a IH]; [done|].
  change (String c a +:+ b) with (String c (a +:+ b)). rewrite ends_cons; [done|].
  by destruct a, b.
Qed.

Lemma length_take n s : String.length (take_string n s) = Nat.min n (String.length s).
Proof. revert n. induction s as [|c s IH]; intros [|n]; simpl; [done..|]. by rewrite IH. Qed.

Lemma length_trim_dash s : String.length (trim_dash_suffix s) ≤ String.length s.
Proof.
  induction s as [|c s IH]; [done|]. destruct (decide (s = "")) as [->|Hs].
  - simpl. case_decide; simpl; lia.
  - rewrite trim_dash_cons by done. simpl. lia.
Qed.

Lemma seg_all_label s : string_forall is_label_char s = true → seg true s = true ∧ ends s = true.
Proof.
  assert (∀ d, string_forall is_label_char s = true → seg d s = true ∧ ends s = true) as H;
    [|apply H].
  induction s as [|c s IH]; intros d; [done|]. simpl. rewrite andb_true_iff. intros [Hc Hs].
  rewrite Hc. destruct (IH false Hs) as [H1 H2]. split; [done|]. by destruct s.
Qed.

Lemma length_trim_right cut s : String.length (trim_right cut s) ≤ String.length s.
Proof.
  induction s as [|c s IH]; [done|]. cbn. case_decide as E; [destruct (cut c); cbn; lia|]. cbn. lia.
Qed.

(** * White space *)

(** The UTF-8 encodings of the code points [unicode.IsSpace] accepts. *)
Definition byte_string (l : list nat) : string := string_of_list_ascii (ascii_of_nat <$> l).
Definition space_runes : list string := byte_string <$>
  [[9]; [10]; [11]; [12]; [13]; [32]; [194; 133]; [194; 160]; [225; 154; 128];
   [226; 128; 128]; [226; 128; 129]; [226; 128; 130]; [226; 128; 131]; [226; 128; 132];
   [226; 128; 133]; [226; 128; 134]; [226; 128; 135]; [226; 128; 136]; [226; 128; 137];
   [226; 128; 138]; [226; 128; 168]; [226; 128; 169]; [226; 128; 175]; [226; 129; 159];
   [227; 128; 128]].

(** Remove from the front every text in [runes], at most [fuel] times. *)
Fixpoint strip_runes (fuel : nat) (runes : list string) (s : string) : string :=
  match fuel with
  | O => s
  | S fuel =>
      match list_find (λ r, String.prefix r s = true) runes with
      | Some (_, r) => strip_runes fuel runes (trim_prefix s r)
      | None => s
      end
  end.
Definition reverse_string (s : string) : string := string_of_list_ascii (rev (list_ascii_of_string s)).

(** [strings.TrimSpace].  A text ends in a space rune exactly when its last bytes
    are those of the rune, so the end is trimmed on the reversed bytes; every rune
    has a byte, so the length is fuel enough. *)
Definition trim_space (s : string) : string :=
  let s := strip_runes (String.length s) space_runes s in
  reverse_string (strip_runes (String.length s) (reverse_string <$> space_runes) (reverse_string s)).

Example trim_space_example :
  trim_space (byte_string [32; 226; 128; 137; 72; 32; 69; 10; 194; 160]) = byte_string [72; 32; 69].
Proof. by vm_compute. Qed.
