(* ===== verification/Paths.v ===== *)
(** Slash-separated paths: what the program uses of Go's [path/filepath] on a
    Unix system.  A path is a string; its elements are the strings between the
    slashes.  Every use in the program cleans a rooted path first, so a clean
    path is modelled by its elements. *)
From S2P Require Import Prelude Text.
From Stdlib Require Import Ascii.

Definition slash : ascii := "/"%char.

(** [strings.Split(s, "/")]: never empty. *)
Fixpoint elements (s : string) : list string :=
  match s with
  | EmptyString => [""]
  | String c s =>
      if decide (c = slash) then "" :: elements s
      else match elements s with
           | e :: l => String c e :: l
           | [] => [String c ""]
           end
  end.

(** One step of the lexical elimination of ".", ".." and empty elements in a
    rooted path; at the root ".." stays there.  The elements kept so far are in
    reverse. *)
Definition clean_step (acc : list string) (e : string) : list string :=
  if decide (e = "" ∨ e = ".") then acc
  else if decide (e = "..") then tail acc
  else e :: acc.

(** The elements of [filepath.Clean("/" + s)]. *)
Definition clean_elements (s : string) : list string := rev (foldl clean_step [] (elements s)).

(** [filepath.Clean] of any path: in one that is not rooted ".." stays at the front. *)
Definition clean_step_relative (acc : list string) (e : string) : list string :=
  if decide (e = "" ∨ e = ".") then acc
  else if decide (e = "..") then match acc with
                                 | [] => [".."]
                                 | a :: acc' => if decide (a = "..") then ".." :: acc else acc'
                                 end
  else e :: acc.
Definition clean_path (s : string) : string :=
  if String.prefix "/" s then "/" +:+ join (clean_elements s) "/"
  else match rev (foldl clean_step_relative [] (elements s)) with
       | [] => "."
       | l => join l "/"
       end.
(** [filepath.Join(a, b)]: empty elements are left out. *)
Definition join_path (a b : string) : string :=
  if decide (a = "") then (if decide (b = "") then "" else clean_path b)
  else if decide (b = "") then clean_path a
  else clean_path (a +:+ "/" +:+ b).

(** [strings.Trim(filepath.Clean("/" + s), "/")], and the path itself. *)
Definition relative_clean (s : string) : string := join (clean_elements s) "/".
Definition rooted_clean (s : string) : string := "/" +:+ relative_clean s.

(** [filepath.Join(root, s)] for a rooted [root]. *)
Definition join_rooted (root s : string) : string := rooted_clean (root +:+ "/" +:+ s).

Fixpoint strip_common (base targ : list string) : list string * list string :=
  match base, targ with
  | b :: base', t :: targ' => if decide (b = t) then strip_common base' targ' else (base, targ)
  | _, _ => (base, targ)
  end.

(** [filepath.Rel] on two clean relative paths, given by their elements, of which
    the base has no ".."; it cannot fail then.  The empty target is "." to
    [filepath.Rel], which differs from every element of a base. *)
Definition relative_to (base targ : list string) : string :=
  if decide (base = targ) then "."
  else
    let '(up, down) := strip_common base (if decide (targ = []) then ["."] else targ) in
    join (replicate (length up) ".." ++ down) "/".

(** * Clean elements *)

(** An element a clean rooted path can have. *)
Definition proper (e : string) : Prop :=
  e ≠ "" ∧ e ≠ "." ∧ e ≠ ".." ∧ string_forall (λ c, negb (bool_decide (c = slash))) e = true.

Lemma elements_no_slash s : Forall (λ e, string_forall (λ c, negb (bool_decide (c = slash))) e = true) (elements s).
Proof.
  induction s as [|c s IH]; cbn; [by repeat constructor|].
  case_decide as Hc; [by constructor|]. destruct (elements s) as [|e l].
  - constructor; [|done]. cbn. by rewrite bool_decide_false.
  - apply Forall_cons in IH as [He Hl]. constructor; [|done]. cbn [string_forall].
    by rewrite bool_decide_false, He.
Qed.

Lemma clean_elements_proper s : Forall proper (clean_elements s).
Proof.
  unfold clean_elements. apply Forall_rev.
  pose proof (elements_no_slash s) as HE. revert HE.
  assert (Forall proper []) as HA by constructor. revert HA. generalize ([] : list string).
  induction (elements s) as [|e l IH]; intros acc HA; [done|].
  intros [He Hl]%Forall_cons. cbn [foldl]. apply IH; [|done]. unfold clean_step.
  repeat case_decide; [done|by destruct HA; cbn|].
  constructor; [|done]. unfold proper. tauto.
Qed.

Lemma elements_proper e s :
  string_forall (λ c, negb (bool_decide (c = slash))) e = true →
  elements (e +:+ "/" +:+ s) = e :: elements s.
Proof.
  induction e as [|c e IH]; intros He; [done|].
  cbn [string_forall] in He. apply andb_true_iff in He as [Hc He].
  change (String c e +:+ "/" +:+ s) with (String c (e +:+ "/" +:+ s)). cbn [elements].
  apply negb_true_iff, bool_decide_eq_false in Hc. rewrite decide_False by done.
  by rewrite IH.
Qed.

Lemma elements_single e :
  string_forall (λ c, negb (bool_decide (c = slash))) e = true → elements e = [e].
Proof.
  induction e as [|c e IH]; intros He; [done|]. cbn [string_forall] in He.
  apply andb_true_iff in He as [Hc%negb_true_iff%bool_decide_eq_false He]. cbn [elements].
  rewrite decide_False by done. by rewrite IH.
Qed.

Lemma join_cons e l : l ≠ [] → join (e :: l) "/" = e +:+ "/" +:+ join l "/".
Proof. by destruct l. Qed.

Lemma elements_join l : l ≠ [] → Forall proper l → elements (join l "/") = l.
Proof.
  induction l as [|e l IH]; [done|]. intros _ [(_ & _ & _ & He) Hl]%Forall_cons.
  destruct (decide (l = [])) as [->|Hne]; [by apply elements_single|].
  rewrite join_cons, elements_proper, IH by done. done.
Qed.

Lemma foldl_clean acc l : Forall proper l → foldl clean_step acc l = rev l ++ acc.
Proof.
  revert acc. induction l as [|e l IH]; intros acc; [done|].
  intros [(H1 & H2 & H3 & _) Hl]%Forall_cons. cbn [foldl]. rewrite IH by done.
  unfold clean_step. rewrite decide_False by tauto. rewrite decide_False by done.
  cbn [rev]. by rewrite <- app_assoc.
Qed.

(** Cleaning is idempotent, and joining clean elements loses nothing. *)
Lemma clean_join l : Forall proper l → clean_elements (join l "/") = l.
Proof.
  intros Hl. destruct (decide (l = [])) as [->|Hne]; [done|].
  unfold clean_elements. rewrite elements_join, foldl_clean, app_nil_r by done. by rewrite rev_involutive.
Qed.

Lemma elements_not_nil s : elements s ≠ [].
Proof. destruct s as [|c s]; [done|]. cbn. case_decide; [done|]. by destruct (elements s). Qed.

Lemma elements_app_slash a b :
  elements (a +:+ "/" +:+ b) = elements a ++ elements b.
Proof.
  induction a as [|c a IH]; [done|].
  change (String c a +:+ "/" +:+ b) with (String c (a +:+ "/" +:+ b)). cbn [elements].
  rewrite IH. case_decide; [done|]. destruct (elements a) eqn:E; [|done]. by apply elements_not_nil in E.
Qed.

Lemma clean_app a b :
  Forall proper (elements a) → clean_elements (a +:+ "/" +:+ b) =
    rev (foldl clean_step (rev (elements a)) (elements b)).
Proof.
  intros Ha. unfold clean_elements. rewrite elements_app_slash, foldl_app, (foldl_clean [] (elements a)) by done.
  by rewrite app_nil_r.
Qed.

(** ** Joining *)

Lemma prefix_slash_app a b : a ≠ "" → String.prefix "/" (a +:+ b) = String.prefix "/" a.
Proof. destruct a as [|c a]; [done|]. intros _. change (String c a +:+ b) with (String c (a +:+ b)).
  cbn. by destruct (ascii_dec "/" c), b, a. Qed.

(** A slash in front of what is joined changes nothing. *)
Lemma join_path_slash a d : a ≠ "" → d ≠ "" → join_path a ("/" +:+ d) = join_path a d.
Proof.
  intros Ha Hd. unfold join_path. rewrite !(decide_False (P:=a = "")) by done.
  rewrite (decide_False (P:="/" +:+ d = "")) by done. rewrite (decide_False (P:=d = "")) by done.
  unfold clean_path. rewrite !prefix_slash_app by done.
  assert (elements (a +:+ "/" +:+ "/" +:+ d) = elements a ++ "" :: elements d) as E.
  { rewrite elements_app_slash. change ("/" +:+ d) with ("" +:+ "/" +:+ d). by rewrite elements_app_slash. }
  unfold clean_elements. rewrite E, elements_app_slash, !foldl_app. cbn [foldl].
  unfold clean_step at 2, clean_step_relative at 2. by rewrite !decide_True by (by left).
Qed.

Lemma clean_elements_path s : String.prefix "/" s = true → clean_elements (clean_path s) = clean_elements s.
Proof.
  intros Hs. unfold clean_path. rewrite Hs.
  change (clean_elements ("/" +:+ join (clean_elements s) "/"))
    with (clean_elements ("" +:+ "/" +:+ join (clean_elements s) "/")).
  transitivity (clean_elements (join (clean_elements s) "/")); [|apply clean_join, clean_elements_proper].
  unfold clean_elements at 1 3. by rewrite elements_app_slash.
Qed.

(** What is joined to a rooted path is directly below it. *)
Lemma clean_elements_join a d :
  String.prefix "/" a = true → proper d → clean_elements (join_path a d) = clean_elements a ++ [d].
Proof.
  intros Ha (Hd & Hdot & Hup & Hs). assert (a ≠ "") as Hne by (by intros ->).
  unfold join_path. rewrite !decide_False by done.
  rewrite clean_elements_path by (by rewrite prefix_slash_app).
  unfold clean_elements. rewrite elements_app_slash, foldl_app, (elements_single d) by done. cbn [foldl].
  unfold clean_step at 1. rewrite decide_False by tauto. by rewrite decide_False.
Qed.

(** What comes before the last element. *)
Definition join_front (l : list string) : string := if decide (l = []) then "" else join l "/" +:+ "/".
Lemma join_snoc l d : join (l ++ [d]) "/" = join_front l +:+ d.
Proof.
  unfold join_front. induction l as [|e l IH]; [done|]. rewrite decide_False by done.
  cbn [app]. rewrite join_cons, IH by (by destruct l). case_decide as Hl; [subst l; by rewrite string_app_assoc|].
  rewrite join_cons by done. by rewrite !string_app_assoc.
Qed.

(** Cleaning a path that ends in a proper element. *)
Definition clean_front (rooted : bool) (l : list string) : string :=
  if rooted then "/" +:+ join_front (rev (foldl clean_step [] l)) else join_front (rev (foldl clean_step_relative [] l)).
Lemma clean_path_last s l d :
  proper d → elements s = l ++ [d] → clean_path s = clean_front (String.prefix "/" s) l +:+ d.
Proof.
  intros (Hd & Hdot & Hup & _) E. unfold clean_path, clean_front, clean_elements. rewrite E, !foldl_app.
  cbn [foldl]. unfold clean_step at 1, clean_step_relative at 1. rewrite !(decide_False (P:=d = "" ∨ d = ".")) by tauto.
  rewrite !(decide_False (P:=d = "..")) by done. cbn [rev].
  destruct (String.prefix _ _); [by rewrite join_snoc, string_app_assoc|].
  destruct (rev _ ++ [d]) eqn:En; [by destruct (rev _)|]. by rewrite <- En, join_snoc.
Qed.

Lemma join_path_clean a d : proper d → join_path a d = if decide (a = "") then clean_path d else clean_path (a +:+ "/" +:+ d).
Proof. intros [Hd _]. unfold join_path. by rewrite !(decide_False (P:=d = "")) by done. Qed.

(** What is joined to a path is at its end. *)
Lemma join_path_last a d : proper d → ∃ p, join_path a d = p +:+ d.
Proof.
  intros Hp. pose proof Hp as (_ & _ & _ & Hs). rewrite join_path_clean by done.
  case_decide; eexists; (eapply clean_path_last; [done|]).
  - rewrite elements_single by done. by instantiate (1:=[]).
  - by rewrite elements_app_slash, (elements_single d) by done.
Qed.

Lemma clean_front_snoc r l h : proper h → clean_front r (l ++ [h]) = clean_front r l +:+ h +:+ "/".
Proof.
  intros (Hh & Hdot & Hup & _). assert (∀ k, join_front (k ++ [h]) = join_front k +:+ h +:+ "/") as H.
  { intros k. unfold join_front at 1. rewrite decide_False by (by destruct k). by rewrite join_snoc, string_app_assoc. }
  unfold clean_front. rewrite !foldl_app. cbn [foldl]. unfold clean_step at 1, clean_step_relative at 1.
  rewrite !(decide_False (P:=h = "" ∨ h = ".")) by tauto. rewrite !(decide_False (P:=h = "..")) by done.
  cbn [rev]. destruct r; rewrite H; [by rewrite string_app_assoc|done].
Qed.
Lemma clean_front_shape r l : clean_front r l = "" ∨ ∃ q, clean_front r l = q +:+ "/".
Proof.
  assert (∀ k, join_front k = "" ∨ ∃ q, join_front k = q +:+ "/") as H
    by (intros k; unfold join_front; case_decide; [by left|right; by eexists]).
  unfold clean_front. destruct r; [right|apply H]. destruct (H (rev (foldl clean_step [] l))) as [->|[q ->]].
  - by exists "".
  - exists ("/" +:+ q). by rewrite string_app_assoc.
Qed.

Lemma proper_not_rooted h t : proper h → String.prefix "/" (h +:+ t) = false.
Proof.
  intros (Hh & _ & _ & Hs). destruct h as [|c h]; [done|]. cbn [string_forall] in Hs.
  apply andb_true_iff in Hs as [Hc%negb_true_iff%bool_decide_eq_false _].
  change (String c h +:+ t) with (String c (h +:+ t)). cbn [String.prefix].
  destruct (ascii_dec "/" c) as [<-|]; [by destruct Hc|done].
Qed.

(** Two elements joined one after the other: what comes before them does not depend
    on them. *)
Lemma join_path_twice a d :
  proper d → ∃ p, ∀ h, proper h → join_path (join_path a h) d = p +:+ h +:+ "/" +:+ d.
Proof.
  intros Hd. pose proof Hd as (_ & _ & _ & Hds).
  set (c := clean_front (String.prefix "/" a) (if decide (a = "") then [] else elements a)).
  assert (∀ h, proper h → join_path a h = c +:+ h) as Hj.
  { intros h Hh. pose proof Hh as (_ & _ & _ & Hhs). rewrite join_path_clean by done. unfold c.
    case_decide as Ha.
    - subst a. rewrite (clean_path_last h [] h Hh) by by rewrite elements_single.
      rewrite <- (string_app_nil h) at 1. by rewrite proper_not_rooted.
    - rewrite (clean_path_last (a +:+ "/" +:+ h) (elements a) h Hh) by (by rewrite elements_app_slash, (elements_single h)).
      by rewrite prefix_slash_app. }
  assert (∃ r l, ∀ h, proper h → String.prefix "/" ((c +:+ h) +:+ "/" +:+ d) = r ∧
    elements ((c +:+ h) +:+ "/" +:+ d) = (l ++ [h]) ++ [d]) as (r & l & Hc).
  { destruct (clean_front_shape (String.prefix "/" a) (if decide (a = "") then [] else elements a)) as [E|[q E]];
      fold c in E; rewrite E.
    - exists false, []. intros h Hh. pose proof Hh as (_ & _ & _ & Hhs). split; [by apply proper_not_rooted|].
      change ("" +:+ h) with h. by rewrite elements_app_slash, (elements_single h), (elements_single d).
    - exists (String.prefix "/" (q +:+ "/")), (elements q). intros h Hh. pose proof Hh as (_ & _ & _ & Hhs). split.
      + rewrite string_app_assoc. apply prefix_slash_app. by destruct q.
      + rewrite elements_app_slash, (elements_single d), string_app_assoc, elements_app_slash, (elements_single h) by done.
        done. }
  exists (clean_front r l). intros h Hh. destruct (Hc h Hh) as [Hr Hl]. rewrite (Hj h Hh).
  rewrite join_path_clean by done. rewrite decide_False by (destruct Hh as [Hh _]; by destruct c, h).
  rewrite (clean_path_last _ _ _ Hd Hl), Hr, clean_front_snoc by done. by rewrite !string_app_assoc.
Qed.
