(* ===== verification/Pass.v ===== *)
(** One reconcile pass over a StackResource: the outside world, the in-memory
    copy of the resource that the sub-reconcilers mutate, and the verdicts they
    collect (internal/controller/stackresource/stackresource_controller.go).
    [defaultStatusReporter] is the only implementation of the [StatusReporter]
    interface, so its three methods are used directly. *)
From S2P Require Import Prelude Kube Api Verdicts.

Record Pass (W : Type) := mkPass {
  world : W;
  resource : StackResource;
  verdicts : VerdictCollector;
}.
Arguments mkPass {W} _ _ _.
Arguments world {W} _.
Arguments resource {W} _.
Arguments verdicts {W} _.

(** A sub-reconciler's code. *)
Abbreviation PM W A := (SE (Pass W) A) (only parsing).

Section pass.
Context {W : Type}.

Definition set_resource (f : StackResource → StackResource) (p : Pass W) : Pass W :=
  mkPass (world p) (f (resource p)) (verdicts p).
Definition set_status (f : StackResourceStatus → StackResourceStatus) : Pass W → Pass W :=
  set_resource (λ r, r <| sr_status ::= f |>).
Definition set_verdicts (f : VerdictCollector → VerdictCollector) (p : Pass W) : Pass W :=
  mkPass (world p) (resource p) (f (verdicts p)).

(** Run a call on the outside world. *)
Definition lift {A} (m : SE W A) : PM W A := λ p,
  let '(r, w) := m (world p) in (r, mkPass w (resource p) (verdicts p)).

Definition reportNotReady (reason msg : string) : PM W unit :=
  modifies (set_verdicts (ReportNotReady reason msg)).
Definition reportFailed (reason msg : string) : PM W unit :=
  modifies (set_verdicts (ReportFailed reason msg)).

Context {CA : ConditionsApi}.

Definition setResourceCondition (now : Time) (condType : StackResourceDomainCondition)
    (ready : bool) (reason msg : string) (r : StackResource) : StackResource :=
  r <| sr_status ::= λ s, s <| conditions ::= λ cs, set_status_condition now cs
    (new_condition (domain_name condType) (bool_status ready) (sr_generation r) reason msg) |> |>.

Context {CK : Clock W}.

(** [SetCondition]; the library reads the clock. *)
Definition setCondition (condType : StackResourceDomainCondition) (ready : bool)
    (reason msg : string) : PM W unit :=
  t ← lift now;
  modifies (set_resource (setResourceCondition t condType ready reason msg)).

(** * Rules for [post] *)

Lemma post_lift {A} (m : SE W A) Q (p : Pass W) :
  (∀ a w, m (world p) = (Ok a, w) → Q a (mkPass w (resource p) (verdicts p))) → post (lift m) Q p.
Proof.
  unfold post, lift. intros HQ a p' H. destruct (m (world p)) as [[b|e] w] eqn:E; [|done].
  injection H as <- <-. by apply HQ.
Qed.

Lemma post_lift_any {A} (m : SE W A) Q (p : Pass W) :
  (∀ a w, Q a (mkPass w (resource p) (verdicts p))) → post (lift m) Q p.
Proof. intros HQ. apply post_lift. eauto. Qed.

Lemma post_setCondition d b rs m Q (p : Pass W) :
  (∀ t w, Q tt (mkPass w (setResourceCondition t d b rs m (resource p)) (verdicts p))) →
  post (setCondition d b rs m) Q p.
Proof.
  intros HQ. apply post_bind, post_lift_any. intros t w. apply post_modifies. apply HQ.
Qed.
End pass.

(** Decompose a program into its final states. *)
Ltac vcg_step :=
  first
  [ apply post_bind
  | apply post_ret
  | apply post_fail
  | apply post_gets
  | apply post_setCondition; intros ? ?
  | apply post_modifies
  | apply post_of_result; intros ? ?
  | apply post_lift_any; intros ? ?
  | match goal with
    | |- post (match ?x with _ => _ end) _ _ => destruct x eqn:?
    | |- post (let '(_, _) := ?x in _) _ _ => destruct x eqn:?
    end ].
Ltac vcg := repeat vcg_step.

(** * Invariants of the outside world *)

Section world_invariants.
Context {W : Type} {CA : ConditionsApi} {CK : Clock W} (I : W → Prop).

Lemma inv_lift {A} (m : SE W A) : Inv I m → Inv (λ p, I (world p)) (lift m).
Proof. intros Hm p Hp. specialize (Hm (world p) Hp). unfold lift. by destruct (m (world p)). Qed.
Lemma inv_local f : (∀ p : Pass W, world (f p) = world p) → Inv (λ p, I (world p)) (modifies f).
Proof. intros Hf p Hp. cbn. by rewrite Hf. Qed.
Lemma inv_setCondition d b rs m :
  Inv I now → Inv (λ p, I (world p)) (setCondition d b rs m).
Proof. intros Hn. apply inv_bind; [by apply inv_lift|]. intros t _. by apply inv_local. Qed.
End world_invariants.
#[export] Hint Resolve inv_lift inv_setCondition : inv.
#[export] Hint Extern 2 (Inv _ (modifies _)) => apply inv_local; reflexivity : inv.

(** * What a program leaves alone

    [Preserves R m]: whatever [m] does, error or not, the pass before and the
    pass after are related by [R], an order that the outside world does not
    matter to.  [solve_preserves] decomposes a program and leaves the
    assignments it cannot justify.  Two families are used: [keeps ds] says that
    metadata, spec and all conditions but the domain conditions [ds] are left
    alone, [same f] that the status field [f] is. *)

Class Stable {W} (R : Pass W → Pass W → Prop) : Prop := {
  #[global] stable_refl :: Reflexive R;
  #[global] stable_trans :: Transitive R;
  stable_world p w : R p (mkPass w (resource p) (verdicts p));
}.

Definition Preserves {W A} (R : Pass W → Pass W → Prop) (m : PM W A) : Prop := ∀ p, R p (m p).2.

Section preserves.
Context {W : Type} (R : Pass W → Pass W → Prop) {HR : Stable R}.

Lemma Preserves_bind {A B} (m : PM W A) (k : A → PM W B) :
  Preserves R m → (∀ a, Preserves R (k a)) → Preserves R (m ≫= k).
Proof.
  intros Hm Hk p. specialize (Hm p). cbv [mbind se_bind].
  destruct (m p) as [[a|e] p1]; [|done]. etrans; [exact Hm|apply Hk].
Qed.
Lemma Preserves_ret {A} (a : A) : Preserves R (mret a).
Proof. intros p. apply stable_refl. Qed.
Lemma Preserves_fail {A} e : Preserves R (fail (A:=A) e).
Proof. intros p. apply stable_refl. Qed.
Lemma Preserves_gets {A} (f : Pass W → A) : Preserves R (gets f).
Proof. intros p. apply stable_refl. Qed.
Lemma Preserves_of_result {A} (r : result A) : Preserves R (of_result r).
Proof. intros p. apply stable_refl. Qed.
Lemma Preserves_lift {A} (m : SE W A) : Preserves R (lift m).
Proof. intros p. unfold lift. destruct (m (world p)). apply stable_world. Qed.
Lemma Preserves_modifies f : (∀ p, R p (f p)) → Preserves R (modifies f).
Proof. intros Hf p. apply Hf. Qed.
Lemma Preserves_setCondition {CA : ConditionsApi} {CK : Clock W} d b rs m :
  (∀ p t, R p (set_resource (setResourceCondition t d b rs m) p)) →
  Preserves R (setCondition d b rs m).
Proof. intros H. apply Preserves_bind; [apply Preserves_lift|]. intros t. by apply Preserves_modifies. Qed.

Lemma Preserves_mono {A} (R' : Pass W → Pass W → Prop) (m : PM W A) :
  (∀ p p', R p p' → R' p p') → Preserves R m → Preserves R' m.
Proof. intros HR' Hm p. apply HR', Hm. Qed.

Lemma Preserves_post {A} (m : PM W A) p : Preserves R m → post m (λ _, R p) p.
Proof. intros H a p' E. specialize (H p). by rewrite E in H. Qed.
End preserves.

(** A status field that is left alone. *)
Definition same {W B} (f : StackResourceStatus → B) (p p' : Pass W) : Prop :=
  f (sr_status (resource p')) = f (sr_status (resource p)).
#[export] Instance same_stable {W B} (f : StackResourceStatus → B) : Stable (W:=W) (same f).
Proof. split; [by intros p|by intros p q r Hp Hq; unfold same in *; congruence|done]. Qed.

Section keeps.
Context {W : Type} {CA : ConditionsApi}.

Definition keeps (ds : list StackResourceDomainCondition) (p p' : Pass W) : Prop :=
  sr_meta (resource p') = sr_meta (resource p) ∧
  sr_spec (resource p') = sr_spec (resource p) ∧
  ∀ t, t ∉ domain_name <$> ds →
    view (sr_conditions (resource p')) t = view (sr_conditions (resource p)) t.

#[export] Instance keeps_stable ds : Stable (keeps ds).
Proof.
  split; [by intros p| |done]. intros p q r (Hm & Hs & Hc) (Hm' & Hs' & Hc').
  split_and!; [congruence..|]. intros t Ht. by rewrite Hc', Hc.
Qed.

Lemma keeps_mono ds ds' p p' : ds ⊆ ds' → keeps ds p p' → keeps ds' p p'.
Proof.
  intros Hds (Hm & Hs & Hc). split_and!; [done..|]. intros t Ht. apply Hc.
  intros (d & -> & Hd)%list_elem_of_fmap. apply Ht, list_elem_of_fmap_2, Hds, Hd.
Qed.

Lemma keeps_set_verdicts ds f p : keeps ds p (set_verdicts f p).
Proof. done. Qed.
Lemma keeps_set_status ds f p : (∀ s, conditions (f s) = conditions s) → keeps ds p (set_status f p).
Proof. intros Hf. split_and!; [done..|]. intros t _. cbn. unfold sr_conditions. cbn. by rewrite Hf. Qed.
Lemma keeps_setCondition {CL : ConditionsLaws} ds t d b rs m p :
  d ∈ ds → keeps ds p (set_resource (setResourceCondition t d b rs m) p).
Proof.
  intros Hd. split_and!; [done..|]. intros t' Ht. cbn. unfold sr_conditions. cbn.
  rewrite view_set_new, decide_False; [done|]. intros ->. by apply Ht, list_elem_of_fmap_2.
Qed.

(** The domain condition [d] is True for the current generation. *)
Definition holds (d : StackResourceDomainCondition) (p : Pass W) : Prop :=
  ∃ rs m, view (sr_conditions (resource p)) (domain_name d) =
          Some (ConditionTrue, sr_generation (resource p), rs, m).

Lemma keeps_view ds d p p' :
  d ∉ ds → keeps ds p p' →
  view (sr_conditions (resource p')) (domain_name d) = view (sr_conditions (resource p)) (domain_name d).
Proof.
  intros Hd (_ & _ & Hc). apply Hc. intros (d' & E & Hd')%list_elem_of_fmap.
  apply (inj domain_name) in E as ->. done.
Qed.

Lemma keeps_holds ds d p p' : d ∉ ds → keeps ds p p' → holds d p → holds d p'.
Proof.
  intros Hd Hk (rs & m & Hv). exists rs, m. rewrite (keeps_view ds d p p'), Hv by done.
  unfold sr_generation. by rewrite (proj1 Hk).
Qed.

Lemma holds_setCondition {CL : ConditionsLaws} t d rs m (p : Pass W) w v :
  holds d (mkPass w (setResourceCondition t d true rs m (resource p)) v).
Proof. exists rs, m. cbn. unfold sr_conditions. cbn. by rewrite view_set_new, decide_True. Qed.
End keeps.

(** The pass has a verdict for the status derivation to report. *)
Definition has_verdict {W} (p : Pass W) : Prop :=
  is_Some (NotReady (verdicts p)) ∨ is_Some (Failed (verdicts p)).

(** Does the chain of sub-reconcilers end at this result? *)
Definition halts (res : SubReconcilerResult) : bool :=
  bool_decide (res = ResultStop) || bool_decide (res = ResultRequeue) ||
  bool_decide (is_Some (res_requeue_after res)).

(** What a sub-reconciler owes the chain: where it halts there is a verdict,
    where it goes on the facts [ds] it is responsible for hold. *)
Definition outcome {W} {CA : ConditionsApi} (ds : list StackResourceDomainCondition)
    (res : SubReconcilerResult) (p : Pass W) : Prop :=
  if halts res then has_verdict p else ∀ d, d ∈ ds → holds d p.

Lemma verdict_notReady {W} reason msg (p : Pass W) :
  has_verdict (set_verdicts (ReportNotReady reason msg) p).
Proof. left. cbn. unfold ReportNotReady. by destruct (NotReady (verdicts p)) eqn:E; cbn; rewrite ?E. Qed.
Lemma verdict_failed {W} reason msg (p : Pass W) :
  has_verdict (set_verdicts (ReportFailed reason msg) p).
Proof. right. cbn. unfold ReportFailed. by destruct (Failed (verdicts p)) eqn:E; cbn; rewrite ?E. Qed.

Create HintDb preserves discriminated.

Ltac preserves_step :=
  lazymatch goal with
  | |- Preserves _ (mret _) => apply Preserves_ret; exact _
  | |- Preserves _ (fail _) => apply Preserves_fail; exact _
  | |- Preserves _ (gets _) => apply Preserves_gets; exact _
  | |- Preserves _ (of_result _) => apply Preserves_of_result; exact _
  | |- Preserves _ (lift _) => apply Preserves_lift; exact _
  | |- Preserves _ (_ ≫= _) => apply Preserves_bind; [exact _| |intros ?]
  | |- Preserves _ (setCondition _ _ _ _) => apply Preserves_setCondition; [exact _|intros ? ?]
  | |- Preserves _ (modifies _) => apply Preserves_modifies; intros ?
  | |- Preserves _ (match ?x with _ => _ end) => destruct x
  | |- Preserves _ (let '(_, _) := ?x in _) => destruct x
  | |- keeps _ _ (set_verdicts _ _) => apply keeps_set_verdicts
  | |- keeps _ _ (set_status _ _) => apply keeps_set_status; intros ?
  | |- keeps _ _ (set_resource (setResourceCondition _ _ _ _ _) _) =>
      apply keeps_setCondition; set_solver
  | |- same _ _ _ => reflexivity
  | |- conditions _ = conditions _ => reflexivity
  | |- Preserves _ _ => solve [eauto with preserves]
  end.
Ltac solve_preserves := repeat preserves_step.

(** A rule for the parts of a program a statement does not depend on. *)
Lemma post_any {S A} (m : SE S A) (Q : A → S → Prop) s : (∀ a s', Q a s') → post m Q s.
Proof. intros HQ a s' _. apply HQ. Qed.

(** A rule for the parts of which only the frame matters. *)
Lemma post_frame {W A} R {HR : Stable R} (m : PM W A) (Q : A → Pass W → Prop) p :
  Preserves R m → (∀ a p', R p p' → Q a p') → post m Q p.
Proof. intros Hm HQ. eapply post_mono; [by apply Preserves_post|]. intros a p'. apply HQ. Qed.
