(* ===== verification/Builds.v ===== *)
(** The ImageBuild resource (api/builds/v1alpha1/imagebuild_types.go) and the
    names derived from a build spec. *)
From S2P Require Import Prelude Text Kube Api.
From Stdlib Require Import Ascii.

(** * Types *)

Inductive BuildPhase :=
  | BuildPhaseUnset | BuildPhaseSuccess | BuildPhaseFailed | BuildPhasePending | BuildPhaseCancelled.
#[export] Instance build_phase_eq_dec : EqDecision BuildPhase.
Proof. solve_decision. Defined.

Definition build_phase_string (p : BuildPhase) : string :=
  match p with
  | BuildPhaseUnset => ""
  | BuildPhaseSuccess => "Success"
  | BuildPhaseFailed => "Failed"
  | BuildPhasePending => "Pending"
  | BuildPhaseCancelled => "Cancelled"
  end.

Definition BuildAvailable : string := "Available".
Definition BuildFailed : string := "Failed".
Definition BuildJobCreated : string := "BuildJobCreated".
Definition BuildCancelled : string := "Cancelled".

Record BuildContextSpec := mkBuildContextSpec {
  bc_dockerfile_path : string;
  bc_context_path : string;
  bc_context_source : option BuildContextSource;
}.

Record ImageBuildSpec := mkImageBuildSpec {
  ib_resource_name : string;
  ib_source_revision : SourceRevisionSpec;
  ib_build_context : BuildContextSpec;
  ib_repository : ImageRepositorySpec;
  ib_build_args : list BuildArg;
  ib_cancelled : bool;
}.
#[export] Instance eta_image_build_spec : Eta ImageBuildSpec := λ s,
  mkImageBuildSpec (ib_resource_name s) (ib_source_revision s) (ib_build_context s)
    (ib_repository s) (ib_build_args s) (ib_cancelled s).

Record ImageBuildStatus := mkImageBuildStatus {
  ibs_observed_generation : Z;
  ibs_conditions : list Condition;
  ibs_phase : BuildPhase;
  ibs_build_source_revision : string;
  ibs_image_url : string;
  ibs_status_hash : string;
  ibs_last_build_failure_detail : option LastFailureDetail;
}.
#[export] Instance eta_image_build_status : Eta ImageBuildStatus := λ s,
  mkImageBuildStatus (ibs_observed_generation s) (ibs_conditions s) (ibs_phase s)
    (ibs_build_source_revision s) (ibs_image_url s) (ibs_status_hash s)
    (ibs_last_build_failure_detail s).

Record ImageBuild := mkImageBuild {
  ib_meta : ObjectMeta;
  ib_spec : ImageBuildSpec;
  ib_status : ImageBuildStatus;
}.
#[export] Instance eta_image_build : Eta ImageBuild := λ b,
  mkImageBuild (ib_meta b) (ib_spec b) (ib_status b).

Definition ib_name (b : ImageBuild) : string := om_name (ib_meta b).
Definition empty_build_status : ImageBuildStatus :=
  mkImageBuildStatus 0 [] BuildPhaseUnset "" "" "" None.

(** * Names *)

Definition SanitizeDNSLabel `{GoText} (s fallback : string) : string :=
  let s := to_lower s in
  let s := replace_runs is_label_char false s in
  let s := trim (λ c, bool_decide (c = dash)) s in
  if decide (s = "") then fallback else s.

(** [truncateString] counts runes; so does this, on UTF-8: a byte that starts
    a rune is one outside 0x80..0xBF. *)
Definition is_continuation (c : ascii) : bool :=
  let n := N_of_ascii c in (128 <=? n)%N && (n <=? 191)%N.
Fixpoint truncateString (s : string) (maxLen : nat) : string :=
  match s with
  | EmptyString => EmptyString
  | String c s' =>
      if is_continuation c then String c (truncateString s' maxLen)
      else match maxLen with
           | O => EmptyString
           | S n => String c (truncateString s' n)
           end
  end.

Definition imageBuildNameMaxLen : nat := 100.
Definition buildInputsHashLen : nat := 8.

(** Hexadecimal SHA-256 of the JSON of a spec; both come from the standard
    library, and only the shape of a hexadecimal digest is relied on. *)
Class BuildDigest := {
  sha256_build_spec : StackResourceBuildSpec → string;
  sha256_image_build_spec : ImageBuildSpec → string;
}.
Class BuildDigestLaws {BD : BuildDigest} : Prop := {
  sha256_build_spec_hex s :
    String.length (sha256_build_spec s) = 64 ∧ string_forall is_label_char (sha256_build_spec s) = true;
  sha256_image_build_spec_hex s :
    String.length (sha256_image_build_spec s) = 64 ∧
    string_forall is_label_char (sha256_image_build_spec s) = true;
}.

Section names.
Context {GT : GoText} {BD : BuildDigest}.

Definition ImageBuildName (resourceName : string) (buildSpec : StackResourceBuildSpec) : string :=
  let cleanName := SanitizeDNSLabel resourceName "app" in
  let cleanRev := SanitizeDNSLabel (GetSourceRevisionString (bs_source_revision buildSpec)) "rev" in
  let name := cleanName +:+ "-" +:+ cleanRev in
  let maxLen := imageBuildNameMaxLen - buildInputsHashLen - 1 in
  let name := if maxLen <? String.length name
              then trim_dash_suffix (take_string maxLen name) else name in
  name +:+ "-" +:+ take_string buildInputsHashLen (sha256_build_spec buildSpec).

Definition buildJobSuffix : string := "-build".
Definition maxLabelValueLen : nat := 63.
Definition maxResourceNameInJob : nat :=
  maxLabelValueLen - buildInputsHashLen - String.length buildJobSuffix - 1.

Definition BuildJobName (w : ImageBuild) : string :=
  let cleanName := SanitizeDNSLabel (ib_resource_name (ib_spec w)) "app" in
  let cleanName := if maxResourceNameInJob <? String.length cleanName
                   then trim_dash_suffix (take_string maxResourceNameInJob cleanName)
                   else cleanName in
  let inputs := (ib_spec w) <| ib_cancelled := false |> in
  cleanName +:+ "-" +:+ take_string buildInputsHashLen (sha256_image_build_spec inputs) +:+
  buildJobSuffix.
End names.

Definition ShortBuildSrcRevisionFromStatus (w : ImageBuild) : string :=
  truncateString (ibs_build_source_revision (ib_status w)) 7.
Definition ShortBuildSrcRevisionFromSpec (w : ImageBuild) : string :=
  truncateString (GetSourceRevisionString (ib_source_revision (ib_spec w))) 7.

(** * Properties *)

Section name_facts.
Context {GT : GoText} {BD : BuildDigest} {BL : BuildDigestLaws}.

Lemma sanitize_label s fb : dns_label fb → dns_label (SanitizeDNSLabel s fb).
Proof.
  intros Hfb. unfold SanitizeDNSLabel. case_decide as E; [done|]. split; [done|].
  unfold trim in *. set (cut := λ c, bool_decide (c = dash)) in *.
  assert (seg true (trim_left cut (replace_runs is_label_char false (to_lower s))) = true) as Hs.
  { apply seg_trim_left; [done|]. apply seg_replace_runs. }
  split; [by apply seg_trim_right|by eapply ends_trim_right].
Qed.

Lemma label_app_dash : dns_label "app" ∧ dns_label "rev".
Proof. by split; split_and!. Qed.

(** Cutting a label down to at least one character gives a label. *)
Lemma truncate_label n s :
  dns_label s → 0 < n →
  dns_label (trim_dash_suffix (take_string n s)) ∧
  String.length (trim_dash_suffix (take_string n s)) ≤ n.
Proof.
  intros (Hne & Hs & _) Hn.
  assert (seg true (take_string n s) = true) as Ht by by apply seg_take.
  split; [split_and!|].
  - destruct n as [|n]; [lia|]. destruct s as [|c s]; [done|]. simpl in Ht |- *.
    destruct (is_label_char c) eqn:E.
    + destruct (take_string n s); [|done]. case_decide as Ec; [|done]. by subst.
    + by rewrite andb_false_r in Ht.
  - by apply seg_trim_suffix.
  - by eapply ends_trim_suffix.
  - pose proof (length_trim_dash (take_string n s)) as H1. rewrite length_take in H1. lia.
Qed.

Lemma take_hex n s :
  String.length s = 64 → string_forall is_label_char s = true → 0 < n → n ≤ 64 →
  dns_label (take_string n s) ∧ String.length (take_string n s) = n.
Proof.
  intros Hl Ha Hn Hn'. rewrite length_take. split; [|lia].
  assert (string_forall is_label_char (take_string n s) = true) as Ht.
  { clear Hl Hn Hn'. revert n. induction s as [|c s IH]; intros [|n]; simpl in *; try done.
    rewrite andb_true_iff in Ha |- *. destruct Ha. eauto. }
  apply seg_all_label in Ht as [H1 H2]. split_and!; [|done|done].
  destruct n; [lia|]. by destruct s.
Qed.

Lemma join_labels a b : dns_label a → dns_label b → dns_label (a +:+ "-" +:+ b).
Proof.
  intros (Ha & Hsa & Hea) (Hb & Hsb & Heb). split_and!.
  - by destruct a.
  - by apply seg_app.
  - change ("-" +:+ b) with (String dash b). rewrite ends_app by done. by rewrite ends_cons.
Qed.

Lemma length_app_string a b : String.length (a +:+ b) = String.length a + String.length b.
Proof. induction a as [|c a IH]; [done|]. simpl. by rewrite <- IH. Qed.

(** Whatever text a user puts in the resource name and the revision, the
    name of its ImageBuild is an RFC 1123 label of at most 100 characters, and
    the name of its build Job one of at most 63, the limit of a label value. *)
Theorem build_names_valid resourceName buildSpec build :
  dns_label (ImageBuildName resourceName buildSpec) ∧
  String.length (ImageBuildName resourceName buildSpec) ≤ 100 ∧
  dns_label (BuildJobName build) ∧
  String.length (BuildJobName build) ≤ 63.
Proof.
  destruct label_app_dash as [Happ Hrev].
  assert (dns_label "build") as Hbuild by done.
  pose proof (sha256_build_spec_hex buildSpec) as [H1 H2].
  pose proof (sha256_image_build_spec_hex ((ib_spec build) <| ib_cancelled := false |>)) as [H3 H4].
  destruct (take_hex buildInputsHashLen _ H1 H2) as [Hh Hlh]; [unfold buildInputsHashLen; lia..|].
  destruct (take_hex buildInputsHashLen _ H3 H4) as [Hg Hlg]; [unfold buildInputsHashLen; lia..|].
  assert (∀ n s, dns_label s → 0 < n → let s' := if n <? String.length s
    then trim_dash_suffix (take_string n s) else s in dns_label s' ∧ String.length s' ≤ n) as Hcut.
  { intros n s Hs Hn. cbv zeta. destruct (Nat.ltb_spec n (String.length s)); [by apply truncate_label|done]. }
  unfold ImageBuildName, BuildJobName. cbv zeta.
  destruct (Hcut (imageBuildNameMaxLen - buildInputsHashLen - 1)
    (SanitizeDNSLabel resourceName "app" +:+ "-" +:+
     SanitizeDNSLabel (GetSourceRevisionString (bs_source_revision buildSpec)) "rev")) as [Hn Hln];
    [apply join_labels; by apply sanitize_label|unfold imageBuildNameMaxLen, buildInputsHashLen; lia|].
  destruct (Hcut maxResourceNameInJob (SanitizeDNSLabel (ib_resource_name (ib_spec build)) "app"))
    as [Hj Hlj]; [by apply sanitize_label|vm_compute; lia|].
  revert Hn Hln Hj Hlj.
  match goal with |- dns_label ?x → _ → dns_label ?y → _ => generalize x y end.
  intros name j Hn Hln Hj Hlj. split_and!.
  - by apply join_labels.
  - rewrite !length_app_string, Hlh. change (String.length "-") with 1.
    assert (imageBuildNameMaxLen - buildInputsHashLen - 1 = 91 ∧ buildInputsHashLen = 8) by done.
    lia.
  - apply join_labels; [done|]. by apply join_labels.
  - rewrite !length_app_string, Hlg. change (String.length "-") with 1.
    assert (maxResourceNameInJob = 48 ∧ buildInputsHashLen = 8 ∧
      String.length buildJobSuffix = 6) by done. lia.
Qed.

Lemma app_suffix_inj a b h k :
  a +:+ h = b +:+ k → String.length h = String.length k → h = k.
Proof.
  revert b. induction a as [|c a IH]; intros [|c' b] E Hl.
  - done.
  - change (h = String c' (b +:+ k)) in E. subst h. simpl in Hl.
    rewrite length_app_string in Hl. lia.
  - change (String c (a +:+ h) = k) in E. subst k. simpl in Hl.
    rewrite length_app_string in Hl. lia.
  - change (String c (a +:+ h) = String c' (b +:+ k)) in E. injection E as _ E. by eapply IH.
Qed.

(** The names follow the build inputs and nothing else.  Two build specs
    with different digests get different ImageBuild names, even for different
    resources and however the readable part was truncated; cancelling a build
    does not change the name of its Job. *)
Theorem build_names_follow_inputs r r' s s' build :
  (ImageBuildName r s = ImageBuildName r' s' →
   take_string 8 (sha256_build_spec s) = take_string 8 (sha256_build_spec s')) ∧
  (∀ b, BuildJobName (build <| ib_spec ::= λ sp, sp <| ib_cancelled := b |> |>) =
        BuildJobName build).
Proof.
  split; [|done]. unfold ImageBuildName. cbv zeta. unfold buildInputsHashLen.
  repeat match goal with |- context [if ?c then ?x else ?y] =>
    let n := fresh "name" in set (n := if c then x else y) end.
  intros E. apply app_suffix_inj in E.
  - by injection E.
  - rewrite !length_app_string, !length_take.
    by rewrite (proj1 (sha256_build_spec_hex s)), (proj1 (sha256_build_spec_hex s')).
Qed.
End name_facts.

(** * Witnesses *)

#[local] Instance sample_text : GoText := { to_lower := id; quote s := s }.
#[local] Instance sample_build_digest : BuildDigest := {
  sha256_build_spec s :=
    if decide (bs_docker_file_path s = "")
    then "0000000000000000000000000000000000000000000000000000000000000000"
    else "1111111111111111111111111111111111111111111111111111111111111111";
  sha256_image_build_spec _ :=
    "0123456789abcdef0123456789abcdef0123456789abcdef0123456789abcdef";
}.
#[local] Instance sample_build_digest_laws : BuildDigestLaws.
Proof. split; intros s; [|done]. simpl. by case_decide. Qed.

Definition sample_build_spec : StackResourceBuildSpec :=
  mkStackResourceBuildSpec (mkBuildContextSource None None) "/" "Dockerfile"
    (mkSourceRevisionSpec None (Some (mkGitRepoRevision "main" "" "Feature/X_1")))
    (mkImageRepositorySpec None None "shop/web" None None) [].
Definition sample_build : ImageBuild :=
  mkImageBuild (object_meta "web-build" "default")
    (mkImageBuildSpec "Web__App" (bs_source_revision sample_build_spec)
       (mkBuildContextSpec "Dockerfile" "/" None) (bs_repository sample_build_spec) [] false)
    empty_build_status.

Example build_name_example :
  ImageBuildName "web" sample_build_spec = "web-eature-1-11111111".
Proof. vm_compute. reflexivity. Qed.

Lemma build_names_valid_witness : dns_label (ImageBuildName "web" sample_build_spec).
Proof. apply (build_names_valid "web" sample_build_spec sample_build). Defined.

Lemma build_names_follow_inputs_witness :
  BuildJobName (sample_build <| ib_spec ::= λ sp, sp <| ib_cancelled := true |> |>) =
  BuildJobName sample_build.
Proof. apply (build_names_follow_inputs "a" "b" sample_build_spec sample_build_spec sample_build). Defined.
