(* ===== verification/Storage.v ===== *)
(** The Volume resource (api/storage/v1alpha1/volume_types.go). *)
From S2P Require Import Prelude Kube Api.

Definition StorageLabel : string := "storage.stackdome.io/storagename".

Inductive VolumePhase := VolumePhaseUnset | VolumePhasePending | VolumePhaseReady.
Inductive VolumeCondition :=
  | VolumeConditionAvailable
  | VolumeConditionSyncedFromRemote
  | VolumeConditionSyncedFromGitSource.
Definition volume_condition_name (c : VolumeCondition) : string :=
  match c with
  | VolumeConditionAvailable => "Available"
  | VolumeConditionSyncedFromRemote => "SyncedFromRemote"
  | VolumeConditionSyncedFromGitSource => "VolumeSyncedFromGitSource"
  end.

(** [GitRepoSource], [GitAuth] of this package, next to the core package's. *)
Record VolumeGitAuth := mkVolumeGitAuth {
  vga_username_password : option CredentialSecretKeyPair;
  vga_personal_access_token : option CredentialSecretKeyPair;
}.
Record VolumeGitRepoSource := mkVolumeGitRepoSource {
  vgs_repo_url : string;
  vgs_revision : GitRepoRevision;
  vgs_destination_within_volume : string;
  vgs_auth : option VolumeGitAuth;
}.
Record RemoteDirSource := mkRemoteDirSource {
  rds_path : string;
  rds_current_directory_hash : string;
}.
#[export] Instance eta_remote_dir_source : Eta RemoteDirSource := λ s,
  mkRemoteDirSource (rds_path s) (rds_current_directory_hash s).

(** [StackResourceReference] has the single field [name]. *)
Abbreviation StackResourceReference := string (only parsing).
Record BuildArtifactSource := mkBuildArtifactSource {
  bas_build_source : StackResourceReference;
  bas_source_path : string;
  bas_destination_path : string;
}.
(** A nil and an empty [buildArtifacts] slice differ to the code that tests
    [!= nil], hence the option. *)
Record VolumeSource := mkVolumeSource {
  vs_remote_dir : option RemoteDirSource;
  vs_build_artifacts : option (list BuildArtifactSource);
  vs_git_repo : option VolumeGitRepoSource;
}.
#[export] Instance eta_volume_source : Eta VolumeSource := λ s,
  mkVolumeSource (vs_remote_dir s) (vs_build_artifacts s) (vs_git_repo s).
Record VolumeSpec := mkVolumeSpec {
  vsp_annotations : gmap string string;
  vsp_labels : gmap string string;
  vsp_size : string;
  vsp_storage_class : string;
  vsp_source : option VolumeSource;
  vsp_needs_sync_before_use : bool;
  vsp_access_mode : string;
}.
#[export] Instance volume_git_auth_eq_dec : EqDecision VolumeGitAuth.
Proof. solve_decision. Defined.
#[export] Instance volume_git_repo_source_eq_dec : EqDecision VolumeGitRepoSource.
Proof. solve_decision. Defined.
#[export] Instance remote_dir_source_eq_dec : EqDecision RemoteDirSource.
Proof. solve_decision. Defined.
#[export] Instance build_artifact_source_eq_dec : EqDecision BuildArtifactSource.
Proof. solve_decision. Defined.
#[export] Instance volume_source_eq_dec : EqDecision VolumeSource.
Proof. solve_decision. Defined.
#[export] Instance volume_spec_eq_dec : EqDecision VolumeSpec.
Proof. solve_decision. Defined.
#[export] Instance eta_volume_spec : Eta VolumeSpec := λ s,
  mkVolumeSpec (vsp_annotations s) (vsp_labels s) (vsp_size s) (vsp_storage_class s)
    (vsp_source s) (vsp_needs_sync_before_use s) (vsp_access_mode s).

Inductive BuildArtifactSyncStatus :=
  | BuildArtifactSyncStatusPending
  | BuildArtifactSyncStatusInProgress
  | BuildArtifactSyncStatusCompleted
  | BuildArtifactSyncStatusFailed.
#[export] Instance sync_status_eq_dec : EqDecision BuildArtifactSyncStatus.
Proof. solve_decision. Defined.
Record BuildArtifactSyncInfo := mkBuildArtifactSyncInfo {
  bai_build_id : string;
  bai_status : BuildArtifactSyncStatus;
}.

Record VolumeStatus := mkVolumeStatus {
  vst_observed_generation : Z;
  vst_conditions : list Condition;
  vst_pvc_name : string;
  vst_phase : VolumePhase;
  vst_build_artifact_syncs : gmap string BuildArtifactSyncInfo;
  vst_status_hash : string;
  vst_last_synced_git_reference : string;
  vst_last_remote_sync_hash : string;
  vst_git_repo_synced_path : string;
}.
#[export] Instance eta_volume_status : Eta VolumeStatus := λ s,
  mkVolumeStatus (vst_observed_generation s) (vst_conditions s) (vst_pvc_name s) (vst_phase s)
    (vst_build_artifact_syncs s) (vst_status_hash s) (vst_last_synced_git_reference s)
    (vst_last_remote_sync_hash s) (vst_git_repo_synced_path s).

Record Volume := mkVolume {
  vol_meta : ObjectMeta;
  vol_spec : VolumeSpec;
  vol_status : VolumeStatus;
}.
#[export] Instance eta_volume : Eta Volume := λ v,
  mkVolume (vol_meta v) (vol_spec v) (vol_status v).
Definition vol_name (v : Volume) : string := om_name (vol_meta v).

Definition MarkAsSynced (clientDirectoryHash : string) (w : Volume) : Volume :=
  w <| vol_spec ::= λ sp, sp <| vsp_source ::= fmap (λ src,
    src <| vs_remote_dir ::= fmap (λ d, d <| rds_current_directory_hash := clientDirectoryHash |>) |>) |> |>.

Definition SetBuildArtifactSyncStatus (ref : StackResourceReference) (buildID : string)
    (st : BuildArtifactSyncStatus) (s : VolumeStatus) : VolumeStatus :=
  s <| vst_build_artifact_syncs ::= <[ref := mkBuildArtifactSyncInfo buildID st]> |>.

(** [SetGitSourceSyncStatus] has the same body. *)
Definition SetGitSourceSyncStatus (ref : StackResourceReference) (buildID : string)
    (st : BuildArtifactSyncStatus) (s : VolumeStatus) : VolumeStatus :=
  s <| vst_build_artifact_syncs ::= <[ref := mkBuildArtifactSyncInfo buildID st]> |>.

Definition sample_volume (n : string) (src : option VolumeSource) : Volume :=
  mkVolume (object_meta n "default")
    (mkVolumeSpec ∅ ∅ "1Gi" "" src false "ReadWriteMany")
    (mkVolumeStatus 0 [] n VolumePhaseReady ∅ "" "" "" "").
