(* ===== verification/KubeWorkloads.v ===== *)
(** The Kubernetes workload objects (apps/v1, batch/v1, core/v1) as far as the
    agent fills them in or reads them.  They are third-party data types; this
    file holds records with the fields the program uses, no behaviour. *)
From S2P Require Import Prelude Kube Api.

(** * Pods *)

Record IntOrString := mkIntOrString { ios_int : Z; ios_str : string }.
Definition FromInt32 (n : Z) : IntOrString := mkIntOrString n "".
Definition FromString (s : string) : IntOrString := mkIntOrString 0 s.

Inductive ProbeHandler :=
  | NoHandler
  | HTTPGetAction (path : string) (port : Z)
  | TCPSocketAction (port : Z)
  | ExecAction (command : list string).

Record KProbe := mkKProbe {
  kp_handler : ProbeHandler;
  kp_initial_delay_seconds : Z;
  kp_period_seconds : Z;
  kp_timeout_seconds : Z;
  kp_failure_threshold : Z;
}.

Record EnvVar := mkEnvVar {
  env_name : string; env_value : string; env_secret_key_ref : option SecretKeySelector }.
Record ContainerPort := mkContainerPort { cp_name : string; cp_container_port : Z }.
Record KVolumeMount := mkKVolumeMount {
  kvm_name : string; kvm_mount_path : string; kvm_sub_path : string; kvm_read_only : bool }.
Record SecretVolumeSource := mkSecretVolumeSource {
  svs_secret_name : string; svs_items : list (string * string) }.
Record ConfigMapVolumeSource := mkConfigMapVolumeSource {
  cmv_name : string; cmv_items : list (string * string) }.
(** What a volume is made of: a claim, keys of a Secret or of a ConfigMap, a
    directory of the node, or nothing that outlives the pod. *)
Inductive KVolumeKind :=
  | ClaimVolume (claim : string)
  | SecretVolume (s : SecretVolumeSource)
  | ConfigMapVolume (c : ConfigMapVolumeSource)
  | HostPathVolume (path type : string)
  | EmptyDirVolume.
Record KVolume := mkKVolume { kv_name : string; kv_kind : KVolumeKind }.
Definition kv_claim_name (v : KVolume) : string :=
  match kv_kind v with ClaimVolume c => c | _ => "" end.

Record SecurityContext := mkSecurityContext {
  sc_allow_privilege_escalation : option bool;
  sc_capabilities_drop : list string;
  sc_capabilities_add : list string;
  sc_read_only_root_filesystem : option bool;
  sc_privileged : option bool;
}.
Record PodSecurityContext := mkPodSecurityContext {
  psc_run_as_non_root : option bool;
  psc_seccomp_profile : string;
  psc_run_as_user : option Z;
}.

Record Container := mkContainer {
  ct_name : string;
  ct_image : string;
  ct_image_pull_policy : string;
  ct_termination_message_policy : string;
  ct_command : list string;
  ct_args : list string;
  ct_ports : list ContainerPort;
  ct_env : list EnvVar;
  ct_volume_mounts : list KVolumeMount;
  ct_readiness_probe : option KProbe;
  ct_liveness_probe : option KProbe;
  ct_startup_probe : option KProbe;
  ct_resources : ResourceRequirements;
  ct_security_context : option SecurityContext;
  (** the Secrets whose keys become environment variables *)
  ct_env_from : list string;
}.
#[export] Instance eta_container : Eta Container := λ c,
  mkContainer (ct_name c) (ct_image c) (ct_image_pull_policy c) (ct_termination_message_policy c)
    (ct_command c) (ct_args c) (ct_ports c) (ct_env c) (ct_volume_mounts c)
    (ct_readiness_probe c) (ct_liveness_probe c) (ct_startup_probe c) (ct_resources c)
    (ct_security_context c) (ct_env_from c).
(** A composite literal that sets only name and image. *)
Definition new_container (name image : string) : Container :=
  mkContainer name image "" "" [] [] [] [] [] None None None (∅, ∅) None [].

Record PodSpec := mkPodSpec {
  ps_containers : list Container;
  ps_init_containers : list Container;
  ps_volumes : list KVolume;
  ps_restart_policy : string;
  ps_termination_grace_period_seconds : option Z;
  ps_security_context : option PodSecurityContext;
  ps_image_pull_secrets : list string;
  ps_host_pid : bool;
}.
#[export] Instance eta_pod_spec : Eta PodSpec := λ p,
  mkPodSpec (ps_containers p) (ps_init_containers p) (ps_volumes p) (ps_restart_policy p)
    (ps_termination_grace_period_seconds p) (ps_security_context p) (ps_image_pull_secrets p) (ps_host_pid p).

Record PodTemplateSpec := mkPodTemplateSpec {
  pt_labels : gmap string string;
  pt_annotations : gmap string string;
  pt_spec : PodSpec;
}.
#[export] Instance eta_pod_template_spec : Eta PodTemplateSpec := λ t,
  mkPodTemplateSpec (pt_labels t) (pt_annotations t) (pt_spec t).
Definition empty_pod_spec : PodSpec := mkPodSpec [] [] [] "" None None [] false.
Definition empty_pod_template : PodTemplateSpec := mkPodTemplateSpec ∅ ∅ empty_pod_spec.

Record ContainerStateWaiting := mkContainerStateWaiting { csw_reason : string; csw_message : string }.
Record ContainerStateTerminated := mkContainerStateTerminated {
  cst_exit_code : Z; cst_reason : string; cst_message : string }.
Record ContainerStatus := mkContainerStatus {
  cstat_name : string;
  cstat_restart_count : Z;
  cstat_waiting : option ContainerStateWaiting;
  cstat_terminated : option ContainerStateTerminated;
  cstat_last_terminated : option ContainerStateTerminated;
}.
Definition PodRunning : string := "Running".
Record Pod := mkPod {
  pod_meta : ObjectMeta;
  pod_phase : string;
  pod_ip : string;
  pod_init_container_statuses : list ContainerStatus;
  pod_container_statuses : list ContainerStatus;
}.

(** * Controllers of pods *)

Record ReplicaSet := mkReplicaSet {
  rs_meta : ObjectMeta;
  (** [spec.selector.matchLabels]; [spec.selector] is a pointer *)
  rs_selector : option (gmap string string);
}.

Record DeploymentCondition := mkDeploymentCondition {
  dc_type : string;
  dc_status : ConditionStatus;
  dc_reason : string;
  dc_last_transition_time : Time;
}.
Definition DeploymentAvailableType : string := "Available".
Definition DeploymentProgressingType : string := "Progressing".

Record DeploymentSpec := mkDeploymentSpec {
  dsp_replicas : option Z;
  dsp_selector : gmap string string;
  dsp_strategy_type : string;
  dsp_max_unavailable : option IntOrString;
  dsp_max_surge : option IntOrString;
  dsp_progress_deadline_seconds : option Z;
  dsp_min_ready_seconds : Z;
  dsp_template : PodTemplateSpec;
}.
#[export] Instance eta_deployment_spec : Eta DeploymentSpec := λ s,
  mkDeploymentSpec (dsp_replicas s) (dsp_selector s) (dsp_strategy_type s)
    (dsp_max_unavailable s) (dsp_max_surge s) (dsp_progress_deadline_seconds s)
    (dsp_min_ready_seconds s) (dsp_template s).
Record DeploymentStatus := mkDeploymentStatus {
  dst_observed_generation : Z;
  dst_replicas : Z;
  dst_updated_replicas : Z;
  dst_ready_replicas : Z;
  dst_available_replicas : Z;
  dst_unavailable_replicas : Z;
  dst_conditions : list DeploymentCondition;
}.
Record Deployment := mkDeployment {
  dep_meta : ObjectMeta;
  dep_spec : DeploymentSpec;
  dep_status : DeploymentStatus;
}.
#[export] Instance eta_deployment : Eta Deployment := λ d,
  mkDeployment (dep_meta d) (dep_spec d) (dep_status d).
(** A composite literal that sets only name and namespace. *)
Definition new_deployment (n ns : string) : Deployment :=
  mkDeployment (object_meta n ns)
    (mkDeploymentSpec None ∅ "" None None None 0 empty_pod_template)
    (mkDeploymentStatus 0 0 0 0 0 0 []).

(** [resource.ParseQuantity]; the quantity is kept as text. *)
Class QuantityParse := parse_quantity : string → result string.

(** A claim: its access modes, the storage it requests and its class. *)
Record PersistentVolumeClaim := mkPersistentVolumeClaim {
  pvc_meta : ObjectMeta;
  pvc_access_modes : list string;
  pvc_storage_request : string;
  pvc_storage_class_name : option string;
}.
#[export] Instance eta_pvc : Eta PersistentVolumeClaim := λ c,
  mkPersistentVolumeClaim (pvc_meta c) (pvc_access_modes c) (pvc_storage_request c) (pvc_storage_class_name c).

Record StatefulSetSpec := mkStatefulSetSpec {
  ssp_replicas : option Z;
  ssp_service_name : string;
  ssp_pod_management_policy : string;
  ssp_update_strategy : string;
  ssp_min_ready_seconds : Z;
  ssp_selector : gmap string string;
  ssp_template : PodTemplateSpec;
  ssp_volume_claim_templates : list PersistentVolumeClaim;
}.
#[export] Instance eta_stateful_set_spec : Eta StatefulSetSpec := λ s,
  mkStatefulSetSpec (ssp_replicas s) (ssp_service_name s) (ssp_pod_management_policy s)
    (ssp_update_strategy s) (ssp_min_ready_seconds s) (ssp_selector s) (ssp_template s)
    (ssp_volume_claim_templates s).
Record StatefulSetStatus := mkStatefulSetStatus {
  sst_observed_generation : Z;
  sst_replicas : Z;
  sst_updated_replicas : Z;
  sst_ready_replicas : Z;
  sst_available_replicas : Z;
  sst_current_revision : string;
  sst_update_revision : string;
}.
Record StatefulSet := mkStatefulSet {
  sts_meta : ObjectMeta;
  sts_spec : StatefulSetSpec;
  sts_status : StatefulSetStatus;
}.
#[export] Instance eta_stateful_set : Eta StatefulSet := λ s,
  mkStatefulSet (sts_meta s) (sts_spec s) (sts_status s).
Definition new_stateful_set (n ns : string) : StatefulSet :=
  mkStatefulSet (object_meta n ns)
    (mkStatefulSetSpec None "" "" "" 0 ∅ empty_pod_template [])
    (mkStatefulSetStatus 0 0 0 0 0 "" "").

Record JobCondition := mkJobCondition {
  jc_type : string; jc_status : ConditionStatus; jc_message : string }.
Definition JobComplete : string := "Complete".
Definition JobFailed : string := "Failed".
Record JobSpec := mkJobSpec {
  js_completions : option Z;
  js_parallelism : option Z;
  js_backoff_limit : option Z;
  js_ttl_seconds_after_finished : option Z;
  js_template : PodTemplateSpec;
}.
#[export] Instance eta_job_spec : Eta JobSpec := λ s,
  mkJobSpec (js_completions s) (js_parallelism s) (js_backoff_limit s)
    (js_ttl_seconds_after_finished s) (js_template s).
Record JobStatus := mkJobStatus {
  jst_conditions : list JobCondition;
  jst_succeeded : Z;
  jst_completion_time : option Time;
}.
Record Job := mkJob {
  job_meta : ObjectMeta;
  job_spec : JobSpec;
  job_status : JobStatus;
}.
#[export] Instance eta_job : Eta Job := λ j, mkJob (job_meta j) (job_spec j) (job_status j).

Record CronJobSpec := mkCronJobSpec {
  cjs_schedule : string;
  cjs_concurrency_policy : string;
  cjs_successful_jobs_history_limit : option Z;
  cjs_failed_jobs_history_limit : option Z;
  cjs_job_template : JobSpec;
}.
#[export] Instance eta_cron_job_spec : Eta CronJobSpec := λ s,
  mkCronJobSpec (cjs_schedule s) (cjs_concurrency_policy s) (cjs_successful_jobs_history_limit s)
    (cjs_failed_jobs_history_limit s) (cjs_job_template s).
Record CronJob := mkCronJob {
  cj_meta : ObjectMeta;
  cj_spec : CronJobSpec;
  (** [status.lastScheduleTime] *)
  cj_last_schedule_time : option Time;
}.
#[export] Instance eta_cron_job : Eta CronJob := λ c,
  mkCronJob (cj_meta c) (cj_spec c) (cj_last_schedule_time c).
Definition new_cron_job (n ns : string) : CronJob :=
  mkCronJob (object_meta n ns)
    (mkCronJobSpec "" "" None None (mkJobSpec None None None None empty_pod_template)) None.

(** A Secret; [stringData] and immutability are not used. *)
Record Secret := mkSecret {
  sec_meta : ObjectMeta;
  sec_type : string;
  sec_data : gmap string string;
}.
#[export] Instance eta_secret : Eta Secret := λ s, mkSecret (sec_meta s) (sec_type s) (sec_data s).

(** * Services *)

Record ServicePort := mkServicePort {
  svp_name : string; svp_port : Z; svp_target_port : IntOrString; svp_node_port : Z }.
Record ServiceSpec := mkServiceSpec {
  svs_selector : gmap string string;
  svs_ports : list ServicePort;
  svs_cluster_ip : string;
  svs_type : string;
}.
#[export] Instance eta_service_spec : Eta ServiceSpec := λ s,
  mkServiceSpec (svs_selector s) (svs_ports s) (svs_cluster_ip s) (svs_type s).
Record Service := mkService { svc_meta : ObjectMeta; svc_spec : ServiceSpec }.
#[export] Instance eta_service : Eta Service := λ s, mkService (svc_meta s) (svc_spec s).
Definition svc_name (s : Service) : string := om_name (svc_meta s).

(** * Cluster objects *)

Record DaemonSetSpec := mkDaemonSetSpec {
  dss_selector : gmap string string; dss_template : PodTemplateSpec }.
#[export] Instance eta_daemon_set_spec : Eta DaemonSetSpec := λ s, mkDaemonSetSpec (dss_selector s) (dss_template s).
Record DaemonSetStatus := mkDaemonSetStatus {
  dss_desired_number_scheduled : Z; dss_number_available : Z; dss_number_ready : Z }.
Record DaemonSet := mkDaemonSet {
  ds_meta : ObjectMeta; ds_spec : DaemonSetSpec; ds_status : DaemonSetStatus }.
#[export] Instance eta_daemon_set : Eta DaemonSet := λ d, mkDaemonSet (ds_meta d) (ds_spec d) (ds_status d).

Record ConfigMap := mkConfigMap { cm_meta : ObjectMeta; cm_data : gmap string string }.
#[export] Instance eta_config_map : Eta ConfigMap := λ c, mkConfigMap (cm_meta c) (cm_data c).
Record KNamespace := mkKNamespace { ns_meta : ObjectMeta }.
#[export] Instance eta_namespace : Eta KNamespace := λ n, mkKNamespace (ns_meta n).
Record ServiceAccount := mkServiceAccount { sa_meta : ObjectMeta }.
#[export] Instance eta_service_account : Eta ServiceAccount := λ a, mkServiceAccount (sa_meta a).
(** Of a node, the version its kubelet reports. *)
Record Node := mkNode { node_meta : ObjectMeta; node_kubelet_version : string }.

(** * Storage *)

Record StorageClass := mkStorageClass {
  stc_meta : ObjectMeta;
  stc_provisioner : string;
  stc_reclaim_policy : option string;
  stc_mount_options : list string;
  stc_allow_volume_expansion : option bool;
  stc_volume_binding_mode : string;
}.
(** A volume on an NFS server. *)
Record NFSVolumeSource := mkNFSVolumeSource { nfs_server : string; nfs_path : string; nfs_read_only : bool }.
Record PersistentVolume := mkPersistentVolume {
  pv_meta : ObjectMeta;
  pv_reclaim_policy : string;
  pv_access_modes : list string;
  pv_mount_options : list string;
  pv_capacity : string;
  pv_nfs : option NFSVolumeSource;
}.

(** * Access control *)

Record PolicyRule := mkPolicyRule {
  pr_verbs : list string;
  pr_api_groups : list string;
  pr_resources : list string;
  pr_resource_names : list string;
  pr_non_resource_urls : list string;
}.
#[export] Instance policy_rule_eq_dec : EqDecision PolicyRule.
Proof. solve_decision. Defined.
Record ClusterRole := mkClusterRole { cr_meta : ObjectMeta; cr_rules : list PolicyRule }.
#[export] Instance eta_cluster_role : Eta ClusterRole := λ r, mkClusterRole (cr_meta r) (cr_rules r).
Record Subject := mkSubject { sub_kind : string; sub_name : string; sub_namespace : string }.
Record RoleRef := mkRoleRef { rr_kind : string; rr_name : string; rr_api_group : string }.
Record RoleBinding := mkRoleBinding {
  rb_meta : ObjectMeta; rb_subjects : list Subject; rb_role_ref : RoleRef }.
#[export] Instance eta_role_binding : Eta RoleBinding := λ b,
  mkRoleBinding (rb_meta b) (rb_subjects b) (rb_role_ref b).
