(* ===== verification/Kaniko.v ===== *)
(** The image build Job (pkg/imagebuilder/kaniko.go).  The Job is written as YAML
    text by [text/template] and decoded by sigs.k8s.io/yaml; the text is modelled
    line by line, the decoder is a parameter, and what the code then does to the
    decoded Job is modelled on the object. *)
From S2P Require Import Prelude Text Paths Kube Api KubeWorkloads.
From Stdlib Require Import Ascii.

Definition KanikoExecutorImage : string := "ghcr.io/osscontainertools/kaniko:v1.28.0".

(** * Parameters of a build *)

Record VolumeBuildSource := mkVolumeBuildSource { vbs_pvc_name : string; vbs_git_repo_path : string }.
Record GitRepoBuildSource := mkGitRepoBuildSource {
  gbs_repo : GitRepoSource; gbs_revision : GitRepoRevision }.
(** [Source] has a pointer for each kind; the code tests the volume first. *)
Record Source := mkSource {
  src_volume : option VolumeBuildSource; src_git_repo : option GitRepoBuildSource }.
Record BuildVolumeMount := mkBuildVolumeMount {
  bvm_container_mount_path : string; bvm_pvc_name : string; bvm_sub_path : string }.
Record ResolvedBuildArg := mkResolvedBuildArg { rba_name : string; rba_value : string }.

Record BuildParams := mkBuildParams {
  JobName : string;
  Namespace : string;
  DockerfilePath : string;
  Context : string;
  Destination : string;
  DockerConfigSecret : option Secret;
  DockerConfigSecretKey : string;
  Insecure : bool;
  UniqueVolumes : list string;
  VolumeMounts : list BuildVolumeMount;
  BuildSource : option Source;
  IsGitSource : bool;
  ContextSubPath : string;
  GitContextUrl : string;
  HasGitAuth : bool;
  GitSecretName : string;
  GitUsernameKey : string;
  GitPasswordKey : string;
  BuildArgs : list ResolvedBuildArg;
}.
#[export] Instance eta_build_params : Eta BuildParams := λ b,
  mkBuildParams (JobName b) (Namespace b) (DockerfilePath b) (Context b) (Destination b)
    (DockerConfigSecret b) (DockerConfigSecretKey b) (Insecure b) (UniqueVolumes b) (VolumeMounts b)
    (BuildSource b) (IsGitSource b) (ContextSubPath b) (GitContextUrl b) (HasGitAuth b)
    (GitSecretName b) (GitUsernameKey b) (GitPasswordKey b) (BuildArgs b).

(** The builder: a fresh value, and one setter per option. *)
Definition NewBuildParams : BuildParams :=
  mkBuildParams "" "" "" "" "" None "" false [] [] None false "" "" false "" "" "" [].
Definition WithJobName (name : string) (b : BuildParams) : BuildParams := b <| JobName := name |>.
Definition WithNamespace (namespace : string) (b : BuildParams) : BuildParams := b <| Namespace := namespace |>.
Definition WithDockerfilePath (path : string) (b : BuildParams) : BuildParams := b <| DockerfilePath := path |>.
Definition WithContextPath (path : string) (b : BuildParams) : BuildParams := b <| Context := path |>.
Definition WithDestination (ref : string) (b : BuildParams) : BuildParams := b <| Destination := ref |>.
Definition WithInsecureRegistry (insecure : bool) (b : BuildParams) : BuildParams := b <| Insecure := insecure |>.
Definition WithSource (source : Source) (b : BuildParams) : BuildParams := b <| BuildSource := Some source |>.
Definition WithDockerAuth (secret : option Secret) (key : string) (b : BuildParams) : BuildParams :=
  b <| DockerConfigSecret := secret |> <| DockerConfigSecretKey := key |>.
Definition WithBuildArgs (args : list ResolvedBuildArg) (b : BuildParams) : BuildParams := b <| BuildArgs := args |>.

(** * Git contexts *)

Definition gitContextSubPath (contextPath : string) : string := relative_clean contextPath.

(** The sub path is clean, so [filepath.Rel] is applied to clean paths. *)
Definition dockerfileWithinSubPath (subPath dockerfilePath : string) : string :=
  let rel := relative_to (clean_elements subPath) (clean_elements dockerfilePath) in
  if String.prefix ".." rel then dockerfilePath else rel.

Definition buildGitContextUrl (repo : GitRepoSource) (revision : GitRepoRevision) : string :=
  let gitUrl := gs_repo_url repo in
  let gitUrl :=
    if String.prefix "https://" gitUrl then "git://" +:+ trim_prefix gitUrl "https://"
    else if negb (String.prefix "git://" gitUrl) then "git://" +:+ gitUrl
    else gitUrl in
  let gitUrl :=
    if decide (gr_branch revision ≠ "") then gitUrl +:+ "#refs/heads/" +:+ gr_branch revision
    else if decide (gr_tag revision ≠ "") then gitUrl +:+ "#refs/tags/" +:+ gr_tag revision
    else gitUrl in
  if decide (gr_commit revision ≠ "") then gitUrl +:+ "#" +:+ gr_commit revision else gitUrl.

(** * The text *)

(** The source-dependent fields, as [generateImageBuildJobYAML] fills them in. *)
Definition withGitAuth (auth : option GitAuth) (b : BuildParams) : BuildParams :=
  match auth with
  | None => b
  | Some a =>
      let b := b <| HasGitAuth := true |> in
      match ga_username_password a, ga_personal_access_token a with
      | Some c, _ | None, Some c =>
          b <| GitSecretName := sr_ref_name (cs_secret_ref c) |>
            <| GitUsernameKey := cs_username_key c |> <| GitPasswordKey := cs_password_key c |>
      | None, None => b
      end
  end.

Definition withSource (b : BuildParams) : BuildParams :=
  match BuildSource b with
  | None => b
  | Some s =>
      match src_volume s, src_git_repo s with
      | Some v, _ =>
          b <| IsGitSource := false |>
            <| VolumeMounts ::= λ ms, ms ++
                 [mkBuildVolumeMount "/workspace" (vbs_pvc_name v) (vbs_git_repo_path v)] |>
            <| Context ::= join_rooted "/workspace" |>
            <| DockerfilePath ::= join_rooted "/workspace" |>
      | None, Some g =>
          let b := b <| IsGitSource := true |>
                     <| GitContextUrl := buildGitContextUrl (gbs_repo g) (gbs_revision g) |> in
          let b := withGitAuth (gs_auth (gbs_repo g)) b in
          let sub := gitContextSubPath (Context b) in
          if decide (sub ≠ "")
          then b <| ContextSubPath := sub |> <| DockerfilePath ::= dockerfileWithinSubPath sub |>
          else b
      | None, None => b
      end
  end.

(** The loop over the mounts: the claims in order of first appearance, after
    those already listed. *)
Fixpoint newVolumes (seen : gset string) (ms : list BuildVolumeMount) : list string :=
  match ms with
  | [] => []
  | m :: ms =>
      if decide (bvm_pvc_name m ∈ seen) then newVolumes seen ms
      else bvm_pvc_name m :: newVolumes ({[ bvm_pvc_name m ]} ∪ seen) ms
  end.
Definition withUniqueVolumes (b : BuildParams) : BuildParams :=
  b <| UniqueVolumes ::= λ vs, vs ++ newVolumes (list_to_set vs) (VolumeMounts b) |>.

Definition prepared (b : BuildParams) : BuildParams := withUniqueVolumes (withSource b).

Definition dq : string := String (ascii_of_nat 34) EmptyString.
Definition newline : string := String (ascii_of_nat 10) EmptyString.
(** One element of the argument list, in double quotes. *)
Definition argLine (arg : string) : string := "        - " +:+ dq +:+ arg +:+ dq.
Definition bool_text (b : bool) : string := if b then "true" else "false".

Definition gitArgLines (b : BuildParams) : list string :=
  [argLine ("--dockerfile=" +:+ DockerfilePath b);
   argLine ("--context=" +:+ GitContextUrl b);
   "        # One key=value per --git flag; kaniko's parser rejects comma-joined pairs.";
   "        # depth=10: shallow clone; pinned sha must be within 10 commits of the";
   "        # branch tip at clone time, else the build fails and the newer revision's";
   "        # build supersedes it.";
   argLine "--git=single-branch=true";
   argLine "--git=depth=10"] ++
  (if decide (ContextSubPath b ≠ "") then [argLine ("--context-sub-path=" +:+ ContextSubPath b)] else []).
Definition dirArgLines (b : BuildParams) : list string :=
  [argLine ("--dockerfile=" +:+ DockerfilePath b); argLine ("--context=dir://" +:+ Context b)].
Definition insecureArgLines (b : BuildParams) : list string :=
  if Insecure b
  then [argLine ("--insecure-registry=" +:+ bool_text (Insecure b));
        argLine ("--insecure=" +:+ bool_text (Insecure b));
        argLine ("--insecure-pull=" +:+ bool_text (Insecure b))]
  else [].
Definition gitEnvLines (b : BuildParams) : list string :=
  if HasGitAuth b
  then ["        - name: GIT_USERNAME"; "          valueFrom:"; "            secretKeyRef:";
        "              name: " +:+ GitSecretName b; "              key: " +:+ GitUsernameKey b;
        "        - name: GIT_PASSWORD"; "          valueFrom:"; "            secretKeyRef:";
        "              name: " +:+ GitSecretName b; "              key: " +:+ GitPasswordKey b]
  else [].
Definition mountLines (m : BuildVolumeMount) : list string :=
  ["        - name: " +:+ bvm_pvc_name m;
   "          mountPath: " +:+ bvm_container_mount_path m] ++
  (if decide (bvm_sub_path m ≠ "") then ["          subPath: " +:+ bvm_sub_path m] else []).
Definition volumeLines (v : string) : list string :=
  ["      - name: " +:+ v; "        persistentVolumeClaim:"; "          claimName: " +:+ v].

(** [jobTemplate], executed. *)
Definition templateLines (b : BuildParams) : list string :=
  ["apiVersion: batch/v1"; "kind: Job"; "metadata:"; "  name: " +:+ JobName b;
   "  namespace: " +:+ Namespace b; "spec:"; "  template:"; "    spec:"; "      containers:";
   "      - name: kaniko"; "        image: kaniko-image"; "        args:"] ++
  (if IsGitSource b then gitArgLines b else dirArgLines b) ++
  [argLine ("--destination=" +:+ Destination b)] ++
  insecureArgLines b ++
  ["        env:"; "        # Kaniko pushes over HTTP/1.1; HTTP/2 to registries is slower and flaky.";
   "        - name: GODEBUG"; "          value: " +:+ dq +:+ "http2client=0" +:+ dq] ++
  gitEnvLines b ++
  ["        volumeMounts:"] ++ (VolumeMounts b ≫= mountLines) ++
  ["      restartPolicy: Never"; "      volumes:"] ++ (UniqueVolumes b ≫= volumeLines).
Definition templateText (b : BuildParams) : string :=
  newline +:+ join (templateLines b) newline +:+ newline.

Definition generateImageBuildJobYAML (b : BuildParams) : string := templateText (prepared b).

(** * The Job *)

Definition ImageUrl (b : BuildParams) : string := Destination b.

Definition kanikoCommonArgs : list string :=
  ["--cache=true"; "--cache-copy-layers=true"; "--cache-run-layers=true"; "--cache-ttl=336h";
   "--cleanup=true"; "--ignore-path=/product_uuid"; "--snapshot-mode=redo"; "--use-new-run";
   "--skip-unused-stages=true"; "--compressed-caching=false"].

(** [&job.Spec.Template.Spec.Containers[0]]: an index out of range panics. *)
Definition firstContainer (f : Container → Container) (j : Job) : result Job :=
  match ps_containers (pt_spec (js_template (job_spec j))) with
  | [] => Err (Panic "index out of range")
  | c :: cs => Ok (j <| job_spec ::= λ s, s <| js_template ::= λ t, t <| pt_spec ::= λ p,
                         p <| ps_containers := f c :: cs |> |> |> |>)
  end.

Definition executor (c : Container) : Container :=
  c <| ct_image := KanikoExecutorImage |>
    <| ct_termination_message_policy := "FallbackToLogsOnError" |>
    <| ct_resources := ({[ "cpu" := "200m"; "memory" := "200Mi" ]}, ∅) |>.

Definition dockerConfigMount : KVolumeMount := mkKVolumeMount "dockerconfig" "/kaniko/.docker" "" true.
Definition configureAuth (params : BuildParams) (j : Job) : result Job :=
  match DockerConfigSecret params with
  | None => firstContainer id j
  | Some secret =>
      j ← firstContainer (λ c, c <| ct_volume_mounts ::= λ ms, ms ++ [dockerConfigMount] |>) j;
      Ok (j <| job_spec ::= λ s, s <| js_template ::= λ t, t <| pt_spec ::= λ p, p
            <| ps_volumes ::= λ vs, vs ++ [mkKVolume "dockerconfig"
                 (SecretVolume (mkSecretVolumeSource (om_name (sec_meta secret))
                          [(DockerConfigSecretKey params, "config.json")]))] |> |> |> |>)
  end.

Definition buildArgFlag (a : ResolvedBuildArg) : string :=
  "--build-arg=" +:+ rba_name a +:+ "=" +:+ rba_value a.

(** [yaml.Unmarshal] of a Job. *)
Class JobDecoder := decode_job : string → result Job.

Definition wrap_decode (r : result Job) : result Job :=
  match r with
  | Err e => Err (Errorf ("failed to decode Job YAML: " +:+ error_text e))
  | Ok j => Ok j
  end.

Definition GenerateImageBuildJob `{JobDecoder} (params : BuildParams) : result Job :=
  job ← wrap_decode (decode_job (generateImageBuildJobYAML params));
  job ← firstContainer executor job;
  job ← configureAuth (prepared params) job;
  let job := job <| job_spec ::= λ s, s <| js_ttl_seconds_after_finished := Some (60 * 30)%Z |>
                                        <| js_backoff_limit := Some 3%Z |> |> in
  firstContainer (λ c, c <| ct_args ::= λ l,
    l ++ kanikoCommonArgs ++ (buildArgFlag <$> BuildArgs params) |>) job.

(** * Re-basing the Dockerfile *)

Lemma strip_common_prefix base rest : strip_common base (base ++ rest) = ([], rest).
Proof. induction base as [|b base IH]; [by destruct rest|]. cbn. by rewrite decide_True. Qed.

Lemma strip_common_nil base targ down : strip_common base targ = ([], down) → targ = base ++ down.
Proof.
  revert targ. induction base as [|b base IH]; intros [|t targ]; cbn; try done; [by intros [= <-]..|].
  case_decide as E; [|done]. subst. intros H. by rewrite (IH _ H).
Qed.

Lemma sub_path_elements ctx :
  gitContextSubPath ctx ≠ "" →
  clean_elements ctx ≠ [] ∧ elements (gitContextSubPath ctx) = clean_elements ctx ∧
  clean_elements (gitContextSubPath ctx) = clean_elements ctx.
Proof.
  unfold gitContextSubPath, relative_clean. intros H.
  assert (clean_elements ctx ≠ []) as Hne by (intros E; by rewrite E in H).
  pose proof (clean_elements_proper ctx) as HP.
  split; [done|]. split; [by apply elements_join|by apply clean_join].
Qed.

Lemma relative_to_inside base rest :
  relative_to base (base ++ rest) = if decide (rest = []) then "." else join rest "/".
Proof.
  unfold relative_to. case_decide as E1.
  - assert (rest = []) as -> by (apply (app_inv_head base); by rewrite app_nil_r). by rewrite decide_True.
  - assert (rest ≠ []) as Hr by (intros ->; by rewrite app_nil_r in E1).
    rewrite (decide_False (P:=base ++ rest = [])) by (intros [_ ?]%app_nil; done).
    rewrite strip_common_prefix, decide_False by done. done.
Qed.

Lemma relative_to_outside base targ :
  base ≠ [] → Forall proper base → (∀ rest, targ ≠ base ++ rest) →
  String.prefix ".." (relative_to base targ) = true.
Proof.
  intros Hb HP Hout. unfold relative_to.
  rewrite decide_False by (intros E; apply (Hout []); by rewrite app_nil_r).
  destruct (strip_common base _) as [up down] eqn:E.
  assert (up ≠ []) as Hup.
  { intros ->. apply strip_common_nil in E. case_decide; [|by eapply Hout].
    destruct base as [|b base]; [done|]. apply Forall_cons in HP as [(_ & Hd & _) _]. by injection E. }
  destruct up as [|u up]; [done|]. cbn [length replicate app]. destruct (replicate _ _ ++ down); done.
Qed.

(** C39. A Dockerfile inside the context sub path of a git build is re-based to a
    path that names the same file from there, unless what is left of it starts
    with two dots; a Dockerfile outside the sub path is passed on as it was
    written.  The sub path itself has no dot elements left, so it cannot leave
    the repository. *)
Theorem dockerfile_rebase_roundtrip (ctx path : string) :
  let sub := gitContextSubPath ctx in
  let file := dockerfileWithinSubPath sub path in
  sub ≠ "" →
  Forall proper (elements sub) ∧
  (∀ rest, clean_elements path = clean_elements ctx ++ rest →
     String.prefix ".." (join rest "/") = false →
     clean_elements (sub +:+ "/" +:+ file) = clean_elements path ∧ clean_elements file = rest) ∧
  ((∀ rest, clean_elements path ≠ clean_elements ctx ++ rest) → file = path).
Proof.
  intros sub file Hsub. subst sub file. destruct (sub_path_elements ctx Hsub) as (Hne & He & Hc).
  pose proof (clean_elements_proper ctx) as HP. pose proof (clean_elements_proper path) as HPp.
  unfold dockerfileWithinSubPath. rewrite Hc. split; [by rewrite He|]. split.
  - intros rest Hin Hdots. rewrite Hin in HPp |- *. apply Forall_app in HPp as [_ HPr].
    rewrite relative_to_inside. destruct (decide (rest = [])) as [->|Hr].
    + cbn [String.prefix]. rewrite clean_app, He, app_nil_r by (by rewrite He). split; [|done].
      cbn. apply rev_involutive.
    + rewrite Hdots, clean_app, He, elements_join, foldl_clean by (done || by rewrite He).
      split; [|by apply clean_join]. by rewrite rev_app_distr, !rev_involutive.
  - intros Hout. by rewrite relative_to_outside.
Qed.

Lemma dockerfile_rebase_roundtrip_witness :
  gitContextSubPath "./services/api/" = "services/api" ∧
  clean_elements ("services/api/" +:+ dockerfileWithinSubPath "services/api" "/services/api/docker/Dockerfile") =
    ["services"; "api"; "docker"; "Dockerfile"].
Proof.
  split; [by vm_compute|].
  destruct (dockerfile_rebase_roundtrip "./services/api/" "/services/api/docker/Dockerfile") as (_ & H & _);
    [by vm_compute|].
  by destruct (H ["docker"; "Dockerfile"]); vm_compute.
Defined.

(** The test on the two dots also catches file names that merely start with them. *)
Example dots_are_not_rebased : dockerfileWithinSubPath "app" "app/..Dockerfile" = "app/..Dockerfile".
Proof. by vm_compute. Qed.

(** * The volumes *)

Lemma elem_of_newVolumes seen ms x :
  x ∈ newVolumes seen ms ↔ x ∈ bvm_pvc_name <$> ms ∧ x ∉ seen.
Proof.
  revert seen. induction ms as [|m ms IH]; intros seen; cbn; [set_solver|].
  case_decide; rewrite ?elem_of_cons, IH; [set_solver|].
  destruct (decide (x = bvm_pvc_name m)); set_solver.
Qed.

Lemma NoDup_newVolumes seen ms : NoDup (newVolumes seen ms).
Proof.
  revert seen. induction ms as [|m ms IH]; intros seen; cbn; [constructor|].
  case_decide; [done|]. constructor; [rewrite elem_of_newVolumes; set_solver|done].
Qed.

(** Every mounted claim is declared as a volume, once. *)
Lemma build_volumes_cover (b : BuildParams) :
  NoDup (UniqueVolumes b) →
  NoDup (UniqueVolumes (withUniqueVolumes b)) ∧
  ∀ x, x ∈ UniqueVolumes (withUniqueVolumes b) ↔
       x ∈ UniqueVolumes b ∨ x ∈ bvm_pvc_name <$> VolumeMounts b.
Proof.
  intros HN. unfold withUniqueVolumes; cbn. split.
  - apply NoDup_app. split; [done|]. split; [|apply NoDup_newVolumes].
    intros x Hx [_ Hs]%elem_of_newVolumes. by apply Hs, elem_of_list_to_set.
  - intros x. rewrite elem_of_app, elem_of_newVolumes, elem_of_list_to_set.
    destruct (decide (x ∈ UniqueVolumes b)); naive_solver.
Qed.

(** * The Job *)

Definition job_pod (j : Job) : PodSpec := pt_spec (js_template (job_spec j)).

Section job.
Context `{!JobDecoder}.

Definition kanikoArgs (params : BuildParams) : list string :=
  kanikoCommonArgs ++ (buildArgFlag <$> BuildArgs params).

(** What a build Job is, for whatever the decoder answers.  A Job with a
    container keeps its name, its other containers and the arguments it was
    decoded with, which the common and the build arguments follow in order; the
    first container runs the kaniko image; the registry credentials are mounted,
    read-only, exactly when there are any; the Job is retried three times and
    removed half an hour after it finished.  A decoding error is reported
    without the error value it carries. *)
Theorem kaniko_job_spec (params : BuildParams) :
  let decoded := decode_job (generateImageBuildJobYAML params) in
  (∀ e, decoded = Err e →
     GenerateImageBuildJob params = Err (Errorf ("failed to decode Job YAML: " +:+ error_text e))) ∧
  (∀ d c cs, decoded = Ok d → ps_containers (job_pod d) = c :: cs →
     ∃ j c', GenerateImageBuildJob params = Ok j ∧
       job_meta j = job_meta d ∧ ps_containers (job_pod j) = c' :: cs ∧
       ct_name c' = ct_name c ∧ ct_image c' = KanikoExecutorImage ∧ ct_env c' = ct_env c ∧
       ct_args c' = ct_args c ++ kanikoArgs params ∧
       ct_volume_mounts c' = ct_volume_mounts c ++
         (if DockerConfigSecret params is Some _ then [dockerConfigMount] else []) ∧
       ps_volumes (job_pod j) = ps_volumes (job_pod d) ++
         match DockerConfigSecret params with
         | Some s => [mkKVolume "dockerconfig"
                        (SecretVolume (mkSecretVolumeSource (om_name (sec_meta s))
                                 [(DockerConfigSecretKey params, "config.json")]))]
         | None => []
         end ∧
       js_backoff_limit (job_spec j) = Some 3%Z ∧
       js_ttl_seconds_after_finished (job_spec j) = Some 1800%Z).
Proof.
  intros decoded. split.
  - intros e He. unfold GenerateImageBuildJob. subst decoded. by rewrite He.
  - intros d c cs Hd Hc. unfold GenerateImageBuildJob. subst decoded. rewrite Hd. cbn [wrap_decode].
    assert (DockerConfigSecret (prepared params) = DockerConfigSecret params ∧
            DockerConfigSecretKey (prepared params) = DockerConfigSecretKey params) as [HS HK].
    { unfold prepared, withUniqueVolumes, withSource, withGitAuth.
      repeat (case_match; cbn in *); done. }
    unfold job_pod in *. unfold configureAuth. rewrite HS, HK.
    destruct d as [dm ds dst]. cbn in Hc. unfold firstContainer. cbn. rewrite Hc. cbn.
    destruct (DockerConfigSecret params) as [s|]; cbn;
      do 2 eexists; (split; [reflexivity|]); repeat split; cbn; by rewrite ?app_nil_r.
Qed.
End job.

(** A decoder that answers with one container, whatever the text. *)
#[local] Instance sample_decoder : JobDecoder := λ _,
  Ok (mkJob (object_meta "build" "default")
        (mkJobSpec None None None None (mkPodTemplateSpec ∅ ∅ (empty_pod_spec
           <| ps_containers := [mkContainer "kaniko" "kaniko-image" "" "" [] ["--dockerfile=Dockerfile"]
                                  [] [] [] None None None (∅, ∅) None []] |>)))
        (mkJobStatus [] 0 None)).

Lemma kaniko_job_spec_witness :
  ∃ j, GenerateImageBuildJob (NewBuildParams <| BuildArgs := [mkResolvedBuildArg "GO" "1.24"] |>) = Ok j ∧
    js_backoff_limit (job_spec j) = Some 3%Z ∧
    (last ∘ ct_args) <$> ps_containers (job_pod j) = [Some "--build-arg=GO=1.24"].
Proof.
  destruct (kaniko_job_spec (NewBuildParams <| BuildArgs := [mkResolvedBuildArg "GO" "1.24"] |>)) as [_ H].
  edestruct H as (j & c' & Hj & _ & Hcs & _ & _ & _ & Ha & _ & _ & Hb & _); [reflexivity|reflexivity|].
  exists j. split; [exact Hj|]. split; [exact Hb|].
  rewrite Hcs. cbn [fmap list_fmap]. unfold compose. rewrite Ha. by vm_compute.
Defined.
