(* ===== verification/PodSpecs.v ===== *)
(** How a StackResource becomes a pod template
    (internal/controller/stackresource/workload: helpers.go, labels.go,
    pod_template.go, availability.go). *)
From S2P Require Import Prelude Text Kube Api Storage KubeWorkloads.
From Stdlib Require Import Ascii.

(** * Labels (labels.go) *)

Definition GetWorkloadNameForResource (r : StackResource) : string := sr_name r.

Definition GetWorkloadLabelForResource (r : StackResource) : gmap string string :=
  {[ "resource" := GetWorkloadNameForResource r ]}.

Definition identityKeys : list string :=
  [LabelManagedBy; LabelStackName; LabelStackID; LabelResourceName; LabelResourceID].

Definition IdentityLabels (r : StackResource) : gmap string string :=
  foldl (λ out key,
    match om_labels (sr_meta r) !! key with
    | Some val => <[key := val]> out
    | None => out
    end) ∅ identityKeys.

(** Later entries win: the labels of [extra] override those of [base]. *)
Definition mergeLabels (base extra : gmap string string) : gmap string string := extra ∪ base.

(** * Environment, probes, ports (helpers.go) *)

Definition buildEnvVars (r : StackResource) : list EnvVar :=
  (λ env, match ev_value_from env with
          | Some src => mkEnvVar (ev_name env) "" (Some src)
          | None => mkEnvVar (ev_name env) (ev_value env) None
          end) <$> environment_variables (sr_spec r).

Record probeSet := mkProbeSet {
  probe_readiness : option KProbe;
  probe_liveness : option KProbe;
  probe_startup : option KProbe;
}.
Definition no_probes : probeSet := mkProbeSet None None None.

Definition portNumberByName (name : string) (ps : list Port) : option Z :=
  port_number <$> List.find (λ p, bool_decide (port_name p = name)) ps.

Definition primaryProbePort (ps : list Port) : option Z :=
  match ps with
  | [] => None
  | p0 :: _ =>
      match List.find port_expose_to_public ps with
      | Some p => Some (port_number p)
      | None => Some (port_number p0)
      end
  end.

Definition defaultReadinessInitialDelaySeconds : Z := 5.
Definition defaultReadinessPeriodSeconds : Z := 10.
Definition defaultReadinessTimeoutSeconds : Z := 3.
Definition defaultReadinessFailureThreshold : Z := 30.

Definition defaultReadinessProbe (r : StackResource) : option KProbe :=
  if decide (workload_type (sr_spec r) = WorkloadTypeService ∨
             workload_type (sr_spec r) = WorkloadTypeStatefulService)
  then
    port ← primaryProbePort (ports (sr_spec r));
    Some (mkKProbe (TCPSocketAction port) defaultReadinessInitialDelaySeconds
            defaultReadinessPeriodSeconds defaultReadinessTimeoutSeconds
            defaultReadinessFailureThreshold)
  else None.

Section helpers.
Context {GT : GoText}.

Definition buildProbe (p : option Probe) (ps : list Port) : result (option KProbe) :=
  match p with
  | None => Ok None
  | Some p =>
      let probe h := mkKProbe h (p_initial_delay_seconds p) (p_period_seconds p)
                       (p_timeout_seconds p) (p_failure_threshold p) in
      let unknown n := Err (Errorf ("probe references unknown port " +:+ quote n)) in
      match p_http_get p, p_tcp_socket p with
      | Some h, _ =>
          match portNumberByName (http_port_name h) ps with
          | None => unknown (http_port_name h)
          | Some n => Ok (Some (probe (HTTPGetAction (http_path h) n)))
          end
      | None, Some t =>
          match portNumberByName (tcp_port_name t) ps with
          | None => unknown (tcp_port_name t)
          | Some n => Ok (Some (probe (TCPSocketAction n)))
          end
      | None, None =>
          if 0 <? length (p_command p)
          then Ok (Some (probe (ExecAction (p_command p))))
          else Ok (Some (probe NoHandler))
      end
  end.

Definition wrap_result {A} (prefix : string) (r : result A) : result A :=
  match r with Ok a => Ok a | Err e => Err (Wrapf prefix e) end.

Definition buildProbes (r : StackResource) : result probeSet :=
  match health_checks (sr_spec r) with
  | None => Ok (mkProbeSet (defaultReadinessProbe r) None None)
  | Some hc =>
      readiness ← wrap_result "readiness probe: " (buildProbe (hc_readiness hc) (ports (sr_spec r)));
      let readiness := match readiness with None => defaultReadinessProbe r | _ => readiness end in
      liveness ← wrap_result "liveness probe: " (buildProbe (hc_liveness hc) (ports (sr_spec r)));
      startup ← wrap_result "startup probe: " (buildProbe (hc_startup hc) (ports (sr_spec r)));
      mret (mkProbeSet readiness liveness startup)
  end.
End helpers.

Definition containerPorts (r : StackResource) : list ContainerPort :=
  (λ p, mkContainerPort (port_name p) (port_number p)) <$> ports (sr_spec r).

Definition hardenedContext : SecurityContext := mkSecurityContext (Some false) ["ALL"] [] None None.

Definition applySecurityDefaults (podSpec : PodSpec) (hardened : option bool) : PodSpec :=
  match hardened with
  | None | Some false => podSpec
  | Some true =>
      let harden := fmap (λ c, c <| ct_security_context := Some hardenedContext |>) in
      podSpec
        <| ps_security_context := Some (mkPodSecurityContext (Some true) "RuntimeDefault" None) |>
        <| ps_containers ::= harden |>
        <| ps_init_containers ::= harden |>
  end.

Definition volumeMountList (r : StackResource) : list KVolumeMount :=
  (λ m, mkKVolumeMount (vm_source_volume m) (vm_destination m)
          (if 0 <? String.length (vm_source_sub_path m)
           then trim_prefix (vm_source_sub_path m) "/" else "")
          (vm_read_only m)) <$> volume_mounts (sr_spec r).

(** One volume per distinct source; a source without an entry in the map is a
    nil dereference. *)
Fixpoint volumesFrom (mounts : list VolumeMount) (info : gmap string Volume)
    (added : gset string) : result (list KVolume) :=
  match mounts with
  | [] => Ok []
  | m :: mounts =>
      let n := vm_source_volume m in
      if decide (n ∈ added) then volumesFrom mounts info added
      else match info !! n with
           | None => Err (Panic "nil volume")
           | Some v =>
               rest ← volumesFrom mounts info ({[ n ]} ∪ added);
               mret (mkKVolume n (ClaimVolume (vst_pvc_name (vol_status v))) :: rest)
           end
  end.
Definition volumesList (r : StackResource) (info : gmap string Volume) : result (list KVolume) :=
  volumesFrom (volume_mounts (sr_spec r)) info ∅.

Definition PullAlways : string := "Always".
Definition PullIfNotPresent : string := "IfNotPresent".

Definition resolveImagePullPolicy (r : StackResource) (image : string) : string :=
  let inferred := match after_last ":"%char image with
                  | None => PullAlways
                  | Some tag => if decide (tag = "latest") then PullAlways else PullIfNotPresent
                  end in
  match image_spec (sr_spec r) with
  | Some i => if decide (is_image_pull_policy i ≠ "") then is_image_pull_policy i else inferred
  | None => inferred
  end.

(** [getVolumeMountInfoMap]. *)
Fixpoint volumeInfo {W} `{Kind W Volume} (r : StackResource) (mounts : list VolumeMount)
    (res : gmap string Volume) : SE W (gmap string Volume) :=
  match mounts with
  | [] => mret res
  | m :: mounts =>
      let n := vm_source_volume m in
      v ← wrapping ("failed to get the referenced volume '" +:+ n +:+ "' in resource '" +:+
                    sr_name r +:+ "': ") (kget (sr_namespace r) n);
      volumeInfo r mounts (<[n := v]> res)
  end.
Definition getVolumeMountInfoMap {W} `{Kind W Volume} (r : StackResource)
    : SE W (gmap string Volume) := volumeInfo r (volume_mounts (sr_spec r)) ∅.

(** * The pod template (pod_template.go) *)

Record podTemplateConfig := mkPodTemplateConfig {
  cfg_resource : StackResource;
  cfg_image : string;
  cfg_env_vars : list EnvVar;
  cfg_probes : probeSet;
  cfg_volume_mount_info : gmap string Volume;
  cfg_restart_policy : string;
  cfg_needs_restart : bool;
}.

Definition TerminationMessageFallbackToLogsOnError : string := "FallbackToLogsOnError".

(** A timestamp printed by [time.Time.String]; the format is a parameter. *)
Class TimeFormat := { time_string : Time → string }.

Section template.
Context {TF : TimeFormat}.

Definition initContainer (cfg : podTemplateConfig) (i : InitSpec) : Container :=
  let r := cfg_resource cfg in
  let initImage := match init_image_spec i with
                   | Some s => is_image s
                   | None => cfg_image cfg
                   end in
  mkContainer (InitContainerName r) initImage (resolveImagePullPolicy r initImage)
    TerminationMessageFallbackToLogsOnError (init_command i) (init_args i) []
    (cfg_env_vars cfg) (volumeMountList r) None None None (∅, ∅) None [].

(** [now] is read only when a restart is requested.  An empty and a nil slice
    are the same list here, so [nilIfEmpty] disappears. *)
Definition buildPodTemplateSpec (now : Time) (cfg : podTemplateConfig) : result PodTemplateSpec :=
  let r := cfg_resource cfg in
  let c := mkContainer (sr_name r) (cfg_image cfg) (resolveImagePullPolicy r (cfg_image cfg))
             TerminationMessageFallbackToLogsOnError (command (sr_spec r)) (args (sr_spec r))
             (containerPorts r) (cfg_env_vars cfg) (volumeMountList r)
             (probe_readiness (cfg_probes cfg)) (probe_liveness (cfg_probes cfg))
             (probe_startup (cfg_probes cfg))
             (default (∅, ∅) (resources (sr_spec r))) None [] in
  volumes ← volumesList r (cfg_volume_mount_info cfg);
  let spec := mkPodSpec [c]
                (match init_spec (sr_spec r) with Some i => [initContainer cfg i] | None => [] end)
                volumes (cfg_restart_policy cfg)
                (termination_grace_period_seconds (sr_spec r)) None [] false in
  let spec := applySecurityDefaults spec (hardened_security_defaults (sr_spec r)) in
  let annotations : gmap string string :=
    if cfg_needs_restart cfg
    then {[ RestartResourceAnnotation := time_string now ]} else ∅ in
  mret (mkPodTemplateSpec (mergeLabels (GetWorkloadLabelForResource r) (IdentityLabels r))
          annotations spec).
End template.

(** * Availability (availability.go) *)

Definition has_condition (t : string) (st : ConditionStatus) (d : Deployment) : bool :=
  existsb (λ c, bool_decide (dc_type c = t) && bool_decide (dc_status c = st))
    (dst_conditions (dep_status d)).

Definition deploymentObserved (d : Deployment) : bool :=
  (om_generation (dep_meta d) =? dst_observed_generation (dep_status d))%Z.

Definition deploymentRolledOut (d : Deployment) : bool :=
  deploymentObserved d && (dst_replicas (dep_status d) =? dst_updated_replicas (dep_status d))%Z.

Definition deploymentServing (d : Deployment) : bool :=
  deploymentObserved d && has_condition DeploymentAvailableType ConditionTrue d.

Definition deploymentConverged (d : Deployment) : bool :=
  let st := dep_status d in
  let desired := default 1%Z (dsp_replicas (dep_spec d)) in
  deploymentObserved d &&
  (dst_updated_replicas st =? desired)%Z && (dst_ready_replicas st =? desired)%Z &&
  (dst_available_replicas st =? desired)%Z && (dst_unavailable_replicas st =? 0)%Z &&
  has_condition DeploymentAvailableType ConditionTrue d.

(** Go's integer division truncates towards zero. *)
Definition maxUnavailableForReplicas (replicas : Z) : Z :=
  if (replicas <=? 1)%Z then 0 else Z.max 1 (Z.quot replicas 4).

(** * Facts *)

Lemma IdentityLabels_keys r k v : IdentityLabels r !! k = Some v → k ∈ identityKeys.
Proof.
  unfold IdentityLabels.
  assert (∀ ks (out : gmap string string), foldl (λ (out : gmap string string) key,
    match om_labels (sr_meta r) !! key with Some val => <[key := val]> out | None => out end)
    out ks !! k = Some v → k ∈ ks ∨ is_Some (out !! k)) as H.
  { induction ks as [|k' ks IH]; intros out; cbn [foldl]; [eauto|].
    intros [Hk|Hk]%IH; [left; by right|].
    destruct (om_labels _ !! k') as [v'|]; [|by right].
    destruct (decide (k = k')) as [->|Hne]; [left; left|].
    rewrite lookup_insert_ne in Hk by done. by right. }
  intros [Hk|[x Hx]]%H; [done|]. by rewrite lookup_empty in Hx.
Qed.

Lemma selector_in_template r :
  GetWorkloadLabelForResource r ⊆ mergeLabels (GetWorkloadLabelForResource r) (IdentityLabels r).
Proof.
  unfold mergeLabels. apply map_union_subseteq_r. apply map_disjoint_spec. intros k v1 v2 Hi Hs.
  apply IdentityLabels_keys in Hi. unfold GetWorkloadLabelForResource in Hs.
  apply lookup_singleton_Some in Hs as [<- _]. revert Hi.
  apply (bool_decide_unpack (¬ _)). vm_compute. exact I.
Qed.

Lemma volumesFrom_ok mounts info added :
  (∀ m, m ∈ mounts → is_Some (info !! vm_source_volume m)) →
  ∃ vs, volumesFrom mounts info added = Ok vs ∧ NoDup (kv_name <$> vs) ∧
    (∀ n, n ∈ kv_name <$> vs ↔ n ∈ vm_source_volume <$> mounts ∧ n ∉ added) ∧
    (∀ kv, kv ∈ vs → ∃ v, info !! kv_name kv = Some v ∧ kv_claim_name kv = vst_pvc_name (vol_status v)).
Proof.
  revert added. induction mounts as [|m mounts IH]; intros added Hin.
  { exists []. split_and!; [done|constructor|set_solver|set_solver]. }
  simpl. case_decide as Ha.
  - destruct (IH added) as (vs & -> & HN & Hn & Hv); [set_solver|]. exists vs. split_and!; try done.
    intros n. rewrite Hn. set_solver.
  - destruct (Hin m) as [v Hv]; [left|]. rewrite Hv.
    destruct (IH ({[vm_source_volume m]} ∪ added)) as (vs & -> & HN & Hn & Hc); [set_solver|].
    cbn. eexists. split; [reflexivity|]. cbn [fmap list_fmap kv_name]. split_and!.
    + apply NoDup_cons. rewrite Hn. set_solver.
    + intros n. rewrite elem_of_cons, Hn. destruct (decide (n = vm_source_volume m)); set_solver.
    + intros kv. rewrite elem_of_cons. intros [->|Hkv]; [by exists v|by apply Hc].
Qed.

(** The calls that fetch Volumes, and a Volume that a run from [w] to [w'] fetched
    by its name, making no other calls. *)
Definition volume_reads {W} `{Kind W Volume} (I : W → Prop) : Prop :=
  ∀ ns n, Inv I (kget (O:=Volume) ns n).
Definition volume_fetched {W} `{Kind W Volume} (ns n : string) (v : Volume) (w w' : W) : Prop :=
  ∃ w1 w2, via volume_reads w w1 ∧ kget ns n w1 = (Ok v, w2) ∧ via volume_reads w2 w'.

Lemma volumeInfo_inv {W} `{Kind W Volume} I r mounts res :
  volume_reads I → Inv I (volumeInfo r mounts res).
Proof.
  intros HI. revert res. induction mounts as [|m mounts IH]; intros res; cbn; [apply inv_ret|].
  apply inv_bind; [apply inv_wrapping, HI|]. auto.
Qed.

Lemma volumeInfo_ok {W} `{Kind W Volume} r mounts res w info w' :
  volumeInfo r mounts res w = (Ok info, w') →
  (∀ n, is_Some (res !! n) → is_Some (info !! n)) ∧
  (∀ m, m ∈ mounts → is_Some (info !! vm_source_volume m)) ∧
  (∀ n v, info !! n = Some v → res !! n = Some v ∨ volume_fetched (sr_namespace r) n v w w').
Proof.
  revert res w. induction mounts as [|m mounts IH]; intros res w; cbn [volumeInfo].
  { intros [= <- <-]. split_and!; [done|set_solver|by left]. }
  intros (v & w1 & Hv & Hi)%se_bind_inv.
  pose proof (via_call volume_reads _ _ _ _ (λ I HI, volumeInfo_inv I r mounts _ HI) Hi) as Hrest.
  apply IH in Hi as (H1 & H2 & H3). apply wrapping_ok in Hv.
  assert (via volume_reads w w1) as Hw1 by (eapply via_call; [|exact Hv]; intros I HI; exact (HI _ _)).
  split_and!.
  - intros n Hn. apply H1. destruct (decide (n = vm_source_volume m)) as [->|Hne].
    + by rewrite lookup_insert_eq.
    + by rewrite lookup_insert_ne.
  - intros m'. rewrite elem_of_cons. intros [->|Hm]; [|by apply H2].
    apply H1. by rewrite lookup_insert_eq.
  - intros n v' [Hn|(wa & wb & Ha & Hg & Hb)]%H3.
    + destruct (decide (n = vm_source_volume m)) as [->|Hne].
      * rewrite lookup_insert_eq in Hn. simplify_eq. right. exists w, w1. split_and!; [apply via_refl|done..].
      * rewrite lookup_insert_ne in Hn by done. by left.
    + right. exists wa, wb. split_and!; [by eapply via_trans|done..].
Qed.

Definition all_containers (p : PodSpec) : list Container := ps_containers p ++ ps_init_containers p.

Lemma security_defaults_spec p h :
  ps_volumes (applySecurityDefaults p h) = ps_volumes p ∧
  ∀ c, c ∈ all_containers (applySecurityDefaults p h) →
    (∃ c0, c0 ∈ all_containers p ∧ ct_volume_mounts c = ct_volume_mounts c0) ∧
    (h = Some true → ct_security_context c = Some hardenedContext).
Proof.
  destruct h as [[]|]; (split; [done|]);
    [|by intros c Hc; split; [eauto|discriminate]..].
  intros c. unfold applySecurityDefaults, all_containers. cbn. rewrite <- fmap_app.
  intros (c0 & -> & Hc)%list_elem_of_fmap. eauto.
Qed.

Section template_properties.
Context {TF : TimeFormat} {W : Type} {KV : Kind W Volume}.

(** C40. The pod template of a resource, built from the volume map that the
    program itself fetched, always exists (no nil volume is dereferenced), carries
    the labels its workload selects pods by, and mounts only volumes the pod has:
    every mount of every container names one of the pod's volumes, and each volume
    appears once.  Each of them is the claim that the status of a Volume records,
    and that Volume is the one the run fetched from the resource's namespace under
    the volume's own name.  With hardened defaults every container refuses
    privilege escalation and drops all capabilities, and adds none. *)
Theorem pod_template_well_formed now cfg w info w' :
  getVolumeMountInfoMap (cfg_resource cfg) w = (Ok info, w') →
  cfg_volume_mount_info cfg = info →
  ∃ t, buildPodTemplateSpec now cfg = Ok t ∧
    GetWorkloadLabelForResource (cfg_resource cfg) ⊆ pt_labels t ∧
    NoDup (kv_name <$> ps_volumes (pt_spec t)) ∧
    (∀ c m, c ∈ all_containers (pt_spec t) →
       m ∈ ct_volume_mounts c → kvm_name m ∈ kv_name <$> ps_volumes (pt_spec t)) ∧
    (∀ kv, kv ∈ ps_volumes (pt_spec t) →
       ∃ v, volume_fetched (sr_namespace (cfg_resource cfg)) (kv_name kv) v w w' ∧
         kv_claim_name kv = vst_pvc_name (vol_status v)) ∧
    (hardened_security_defaults (sr_spec (cfg_resource cfg)) = Some true →
     ∀ c, c ∈ all_containers (pt_spec t) →
       ∃ sc, ct_security_context c = Some sc ∧ sc_allow_privilege_escalation sc = Some false ∧
         "ALL" ∈ sc_capabilities_drop sc ∧ sc_capabilities_add sc = []).
Proof.
  intros (_ & Hi & Hf)%volumeInfo_ok <-. destruct (volumesFrom_ok _ _ ∅ Hi) as (vs & Hvs & HN & Hn & Hc).
  unfold buildPodTemplateSpec. cbv zeta. unfold volumesList. rewrite Hvs.
  eexists. split; [reflexivity|]. cbn [pt_labels pt_spec].
  assert (∀ m, m ∈ volumeMountList (cfg_resource cfg) → kvm_name m ∈ kv_name <$> vs) as Hm.
  { intros m (vm & -> & Hvm)%list_elem_of_fmap. apply Hn. split; [|set_solver].
    exact (list_elem_of_fmap_2 vm_source_volume _ _ Hvm). }
  split; [apply selector_in_template|].
  match goal with |- context [applySecurityDefaults ?p ?h] =>
    destruct (security_defaults_spec p h) as [-> Hs]; set (spec := p) in * end.
  split_and!; [done| | |].
  - intros c m Hcs Hin. destruct (proj1 (Hs c Hcs)) as (c0 & Hc0 & E). rewrite E in Hin.
    apply Hm. unfold all_containers, spec in Hc0. cbn in Hc0.
    rewrite elem_of_cons in Hc0. destruct Hc0 as [->|Hc0]; [done|].
    destruct (init_spec _) as [i|]; [|by apply not_elem_of_nil in Hc0].
    by apply list_elem_of_singleton in Hc0 as ->.
  - intros kv (v & Hv & Ekv)%Hc. exists v. split; [|done].
    apply Hf in Hv as [Hv|Hv]; [by rewrite lookup_empty in Hv|done].
  - intros Hh c Hcs. exists hardenedContext. split; [by apply Hs|]. split_and!; [done|by left|done].
Qed.

End template_properties.

Section probe_properties.
Context {GT : GoText}.

(** The ports a probe dials. *)
Definition probe_port (p : KProbe) : option Z :=
  match kp_handler p with
  | HTTPGetAction _ n | TCPSocketAction n => Some n
  | _ => None
  end.
(** The port name a declared probe refers to. *)
Definition referenced_port (p : Probe) : option string :=
  match p_http_get p, p_tcp_socket p with
  | Some h, _ => Some (http_port_name h)
  | None, Some t => Some (tcp_port_name t)
  | None, None => None
  end.
Definition probe_resolves (ps : list Port) (p : option Probe) : Prop :=
  ∀ pr n, p = Some pr → referenced_port pr = Some n → n ∈ port_name <$> ps.

Lemma portNumberByName_Some n ps k :
  portNumberByName n ps = Some k → ∃ p, p ∈ ps ∧ port_name p = n ∧ port_number p = k.
Proof.
  unfold portNumberByName. destruct (List.find _ ps) as [p|] eqn:E; [|done]. intros [= <-].
  apply find_some in E as [Hin Hb]. exists p. rewrite list_elem_of_In.
  by apply bool_decide_eq_true in Hb.
Qed.

Lemma portNumberByName_None n ps : portNumberByName n ps = None → n ∉ port_name <$> ps.
Proof.
  unfold portNumberByName. destruct (List.find _ ps) as [p|] eqn:E; [done|]. intros _ Hin.
  apply list_elem_of_fmap in Hin as (p & -> & Hp). apply list_elem_of_In in Hp.
  pose proof (find_none _ _ E p Hp) as Hb. by rewrite bool_decide_eq_false in Hb.
Qed.

Lemma buildProbe_spec p ps :
  (probe_resolves ps p → ∃ k, buildProbe p ps = Ok k ∧ (is_Some k ↔ is_Some p) ∧
     ∀ kp n, k = Some kp → probe_port kp = Some n → n ∈ port_number <$> ps) ∧
  (¬ probe_resolves ps p → ∃ n, buildProbe p ps = Err (Errorf ("probe references unknown port " +:+ quote n))).
Proof.
  unfold probe_resolves. destruct p as [p|]; [|split].
  - unfold buildProbe. destruct (p_http_get p) as [h|] eqn:Eh.
    + destruct (portNumberByName _ ps) as [k|] eqn:E.
      * apply portNumberByName_Some in E as (q & Hq & Hn & Hk). split.
        -- intros _. eexists. split; [done|]. split; [done|]. intros kp n [= <-] [= <-].
           rewrite <- Hk. by apply list_elem_of_fmap_2.
        -- intros []. intros pr n [= <-]. unfold referenced_port. rewrite Eh. intros [= <-].
           rewrite <- Hn. by apply list_elem_of_fmap_2.
      * apply portNumberByName_None in E. split; [|eauto]. intros H. destruct E.
        apply (H p); [done|]. unfold referenced_port. by rewrite Eh.
    + destruct (p_tcp_socket p) as [t|] eqn:Et.
      * destruct (portNumberByName _ ps) as [k|] eqn:E.
        -- apply portNumberByName_Some in E as (q & Hq & Hn & Hk). split.
           ++ intros _. eexists. split; [done|]. split; [done|]. intros kp n [= <-] [= <-].
              rewrite <- Hk. by apply list_elem_of_fmap_2.
           ++ intros []. intros pr n [= <-]. unfold referenced_port. rewrite Eh, Et. intros [= <-].
              rewrite <- Hn. by apply list_elem_of_fmap_2.
        -- apply portNumberByName_None in E. split; [|eauto]. intros H. destruct E.
           apply (H p); [done|]. unfold referenced_port. by rewrite Eh, Et.
      * split.
        -- intros _. destruct (0 <? _); (eexists; split; [done|]); (split; [done|]);
             by intros kp n [= <-].
        -- intros []. intros pr n [= <-]. unfold referenced_port. by rewrite Eh, Et.
  - intros _. exists None. by split_and!.
  - intros []. by intros.
Qed.

Lemma default_probe_port r kp n :
  defaultReadinessProbe r = Some kp → probe_port kp = Some n →
  n ∈ port_number <$> ports (sr_spec r).
Proof.
  unfold defaultReadinessProbe, primaryProbePort. case_decide; [|done].
  destruct (ports (sr_spec r)) as [|p0 ps]; [done|].
  destruct (List.find _ _) as [p|] eqn:E; cbn [mbind option_bind]; intros [= <-] [= <-].
  - apply find_some in E as [Hin _]. apply list_elem_of_In in Hin.
    by apply (list_elem_of_fmap_2 port_number).
  - left.
Qed.

Lemma default_probe_exists r :
  (workload_type (sr_spec r) = WorkloadTypeService ∨
   workload_type (sr_spec r) = WorkloadTypeStatefulService) →
  ports (sr_spec r) ≠ [] → is_Some (defaultReadinessProbe r).
Proof.
  intros Ht Hp. unfold defaultReadinessProbe, primaryProbePort. rewrite decide_True by done.
  destruct (ports (sr_spec r)) as [|p0 ps]; [done|]. by destruct (List.find _ _).
Qed.

(** The three probes a health check declares. *)
Definition declared_probes (r : StackResource) : list (option Probe) :=
  match health_checks (sr_spec r) with
  | None => []
  | Some hc => [hc_readiness hc; hc_liveness hc; hc_startup hc]
  end.
Definition probes_of (ps : probeSet) : list (option KProbe) :=
  [probe_readiness ps; probe_liveness ps; probe_startup ps].

Lemma wrap_result_Ok {A} p (x : result A) a : wrap_result p x = Ok a ↔ x = Ok a.
Proof. destruct x; naive_solver. Qed.

#[local] Instance probe_resolves_dec ps p : Decision (probe_resolves ps p).
Proof.
  unfold probe_resolves. destruct p as [p|]; [|by left; intros].
  destruct (referenced_port p) as [n|] eqn:E; [|by left; intros ? ? [= <-]; rewrite E].
  destruct (decide (n ∈ port_name <$> ps)) as [Hn|Hn].
  - left. intros ? ? [= <-]. rewrite E. by intros [= <-].
  - right. intros Hr. apply Hn. by apply (Hr p).
Defined.

Lemma buildProbe_Ok ps p k :
  buildProbe p ps = Ok k →
  probe_resolves ps p ∧
  ∀ kp n, k = Some kp → probe_port kp = Some n → n ∈ port_number <$> ps.
Proof.
  intros Hk. destruct (buildProbe_spec p ps) as [H1 H2].
  destruct (decide (probe_resolves ps p)) as [Hd|Hd].
  - split; [done|]. destruct (H1 Hd) as (k' & Hk' & _ & Hp).
    rewrite Hk in Hk'. injection Hk' as <-. done.
  - destruct (H2 Hd) as (n & Hn). congruence.
Qed.

(** An accepted health check is three accepted probes. *)
Lemma buildProbes_inv r hc q :
  health_checks (sr_spec r) = Some hc → buildProbes r = Ok q →
  ∃ k1 k2 k3,
    buildProbe (hc_readiness hc) (ports (sr_spec r)) = Ok k1 ∧
    buildProbe (hc_liveness hc) (ports (sr_spec r)) = Ok k2 ∧
    buildProbe (hc_startup hc) (ports (sr_spec r)) = Ok k3 ∧
    q = mkProbeSet (match k1 with None => defaultReadinessProbe r | _ => k1 end) k2 k3.
Proof.
  intros E. unfold buildProbes, mbind, result_bind. rewrite E.
  destruct (buildProbe (hc_readiness hc) _) as [k1|]; [|done].
  destruct (buildProbe (hc_liveness hc) _) as [k2|]; [|done].
  destruct (buildProbe (hc_startup hc) _) as [k3|]; [|done].
  cbn. intros [= <-]. by exists k1, k2, k3.
Qed.

(** A spec is accepted exactly when every port name its probes refer to is
    declared.  Every port an accepted spec makes the kubelet dial is a declared
    one, and a Service or StatefulService with ports always gets a readiness
    probe, so a container on the wrong port never counts as ready. *)
Theorem probes_spec r :
  ((∀ p, p ∈ declared_probes r → probe_resolves (ports (sr_spec r)) p) ↔
   ∃ ps, buildProbes r = Ok ps) ∧
  ∀ ps, buildProbes r = Ok ps →
    (∀ kp n, Some kp ∈ probes_of ps → probe_port kp = Some n →
       n ∈ port_number <$> ports (sr_spec r)) ∧
    ((workload_type (sr_spec r) = WorkloadTypeService ∨
      workload_type (sr_spec r) = WorkloadTypeStatefulService) →
     ports (sr_spec r) ≠ [] → is_Some (probe_readiness ps)).
Proof.
  unfold declared_probes. destruct (health_checks _) as [hc|] eqn:E.
  2: { unfold buildProbes. rewrite E. split; [split; [eauto|set_solver]|]. intros ps [= <-].
       split; [|apply default_probe_exists].
       intros kp n Hin. unfold probes_of in Hin. cbn in Hin. apply default_probe_port. set_solver. }
  split; [split|].
  - intros Hall. unfold buildProbes, wrap_result. rewrite E. set (ps := ports (sr_spec r)) in *.
    destruct (proj1 (buildProbe_spec (hc_readiness hc) ps)) as (k1 & -> & _); [apply Hall; set_solver|].
    destruct (proj1 (buildProbe_spec (hc_liveness hc) ps)) as (k2 & -> & _); [apply Hall; set_solver|].
    destruct (proj1 (buildProbe_spec (hc_startup hc) ps)) as (k3 & -> & _); [apply Hall; set_solver|].
    cbn. eauto.
  - intros [q Hq] p. destruct (buildProbes_inv _ _ _ E Hq) as (k1 & k2 & k3 & E1 & E2 & E3 & _).
    rewrite !elem_of_cons, elem_of_nil. intros [->|[->|[->|[]]]]; by eapply buildProbe_Ok.
  - intros q Hq. destruct (buildProbes_inv _ _ _ E Hq) as (k1 & k2 & k3 & E1 & E2 & E3 & ->). split.
    + intros kp n. unfold probes_of. cbn [probe_readiness probe_liveness probe_startup].
      rewrite !elem_of_cons, elem_of_nil. intros [Hk|[Hk|[Hk|[]]]] Hp.
      * destruct k1 as [k1|]; [|by apply (default_probe_port r kp)].
        by apply (proj2 (buildProbe_Ok _ _ _ E1) kp n).
      * by apply (proj2 (buildProbe_Ok _ _ _ E2) kp n).
      * by apply (proj2 (buildProbe_Ok _ _ _ E3) kp n).
    + intros Ht Hp. cbn. destruct k1; [done|]. by apply default_probe_exists.
Qed.
End probe_properties.

(** A rolling update never stops the last pod: for at least one replica the
    number allowed unavailable stays below the number of replicas, never below
    zero, and is at least one as soon as there are two; and the replica
    arithmetic cannot leave 32 bits. *)
Theorem rollout_keeps_a_pod replicas :
  (0 ≤ replicas < 2 ^ 31 →
   let m := maxUnavailableForReplicas replicas in
   0 ≤ m < 2 ^ 31 ∧ (1 ≤ replicas → m < replicas) ∧ (2 ≤ replicas → 1 ≤ m) ∧
   (replicas ≤ 1 → m = 0))%Z.
Proof.
  intros Hr. cbv zeta. unfold maxUnavailableForReplicas.
  pose proof (Z.quot_lt replicas 4). pose proof (Z.quot_pos replicas 4).
  destruct (Z.leb_spec replicas 1); lia.
Qed.

(** A converged Deployment is a serving one. *)
Lemma converged_serving d : deploymentConverged d = true → deploymentServing d = true.
Proof. unfold deploymentConverged, deploymentServing. rewrite !andb_true_iff. tauto. Qed.

(** An image reference without a tag whose registry has a port is pulled only
    when absent, although its implied tag is "latest". *)
Example untagged_with_port :
  resolveImagePullPolicy (sample_resource "web") "localhost:5000/app" = PullIfNotPresent ∧
  resolveImagePullPolicy (sample_resource "web") "docker.io/app" = PullAlways.
Proof. by vm_compute. Qed.

(** * Witnesses *)

#[local] Instance sample_volumes : Kind (gmap string Volume) Volume := {
  kget _ n w := (match w !! n with Some v => Ok v | None => Err (NotFound n) end, w);
  klist _ _ w := (Ok (map_to_list w).*2, w);
  kcreate v w := (Ok v, <[vol_name v := v]> w);
  kupdate v w := (Ok v, <[vol_name v := v]> w);
  kupdate_status v w := (Ok v, <[vol_name v := v]> w);
  kdelete v w := (Ok tt, delete (vol_name v) w);
}.
#[local] Instance sample_time_format : TimeFormat := { time_string t := pretty t }.
#[local] Instance sample_probe_text : GoText := { to_lower := id; quote := id }.

Definition mounting_resource : StackResource :=
  (sample_resource "web") <| sr_spec ::= λ s, s
    <| volume_mounts := [mkVolumeMount "data" "" "/data" false; mkVolumeMount "data" "/sub" "/sub" true] |>
    <| workload_type := WorkloadTypeService |>
    <| ports := [mkPort "http" 8080 "" true "" false ""] |> |>.

Lemma pod_template_well_formed_witness :
  ∃ t, buildPodTemplateSpec 5 (mkPodTemplateConfig mounting_resource "app:1" [] no_probes
         {[ "data" := sample_volume "data" None ]} "Always" false) = Ok t ∧
       length (ps_volumes (pt_spec t)) = 1.
Proof.
  destruct (pod_template_well_formed (W:=gmap string Volume) 5
    (mkPodTemplateConfig mounting_resource "app:1" [] no_probes
       {[ "data" := sample_volume "data" None ]} "Always" false)
    {[ "data" := sample_volume "data" None ]} {[ "data" := sample_volume "data" None ]}
    {[ "data" := sample_volume "data" None ]}) as (t & Ht & _); [reflexivity|reflexivity|].
  exists t. split; [exact Ht|]. vm_compute in Ht. by injection Ht as <-.
Defined.

Lemma probes_spec_witness :
  ∃ ps, buildProbes mounting_resource = Ok ps.
Proof.
  apply (probes_spec mounting_resource). intros p Hp. by apply not_elem_of_nil in Hp.
Defined.

Lemma rollout_keeps_a_pod_witness : (maxUnavailableForReplicas 10 < 10)%Z.
Proof. apply (rollout_keeps_a_pod 10); lia. Defined.
