(* ===== verification/Crash.v ===== *)
(** Crash detection and the failure details taken from pods
    (internal/controller/util.go, workload/failure.go, and
    [captureFailureDetailsOnce] of workload/deployment.go). *)
From S2P Require Import Prelude Text Kube Api Verdicts Pass KubeWorkloads Storage PodSpecs.
From Stdlib Require Import Ascii.

(** * Container states (util.go) *)

Definition crashReasons : list string :=
  ["CrashLoopBackOff"; "ImagePullBackOff"; "ErrImagePull"; "CreateContainerError"; "OOMKilled";
   "Error"].

Definition IsCrashState (cs : ContainerStatus) : bool :=
  match cstat_waiting cs with
  | Some w => bool_decide (csw_reason w ∈ crashReasons)
  | None => false
  end ||
  match cstat_terminated cs with
  | Some t => negb (cst_exit_code t =? 0)%Z
  | None => false
  end.

(** The regular expression [\x1b\[[0-9;]*m]: the text after a match that has
    consumed the escape character. *)
Definition escape : ascii := ascii_of_nat 27.
Definition carriage_return : ascii := ascii_of_nat 13.
Fixpoint ansi_params (s : string) : option string :=
  match s with
  | EmptyString => None
  | String c s =>
      if is_digit c || bool_decide (c = ";"%char) then ansi_params s
      else if decide (c = "m"%char) then Some s else None
  end.
Definition ansi_rest (s : string) : option string :=
  match s with
  | String c s => if decide (c = "["%char) then ansi_params s else None
  | EmptyString => None
  end.
(** Each step consumes a character, so the length is enough fuel. *)
Fixpoint strip_ansi (fuel : nat) (s : string) : string :=
  match fuel, s with
  | S fuel, String c s' =>
      match (if decide (c = escape) then ansi_rest s' else None) with
      | Some rest => strip_ansi fuel rest
      | None => String c (strip_ansi fuel s')
      end
  | _, _ => EmptyString
  end.
Fixpoint remove_char (d : ascii) (s : string) : string :=
  match s with
  | EmptyString => EmptyString
  | String c s => if decide (c = d) then remove_char d s else String c (remove_char d s)
  end.
Definition sanitizeTerminationMessage (msg : string) : string :=
  remove_char carriage_return (strip_ansi (String.length msg) msg).

Definition GetTerminatedState (cs : ContainerStatus) : option ContainerStateTerminated :=
  match cstat_terminated cs with
  | Some t => Some t
  | None => cstat_last_terminated cs
  end.

Definition BuildLastFailureDetail (cs : ContainerStatus) : LastFailureDetail :=
  let detail := mkLastFailureDetail FailureTypeRuntimeCrash "" (cstat_name cs)
                  (cstat_restart_count cs) in
  match GetTerminatedState cs, cstat_waiting cs with
  | Some t, _ => detail (cst_reason t) (sanitizeTerminationMessage (cst_message t))
                   (Some (cst_exit_code t))
  | None, Some w => detail (csw_reason w) (sanitizeTerminationMessage (csw_message w)) None
  | None, None => detail "" "" None
  end.

(** * Pods (failure.go) *)

(** [slices.SortFunc] with the newest pod first.  Go does not fix the order of
    pods created at the same instant, so the sort is a parameter. *)
Class PodSort := sort_newest_first : list Pod → list Pod.
Definition created (p : Pod) : Time := om_creation_timestamp (pod_meta p).
Class PodSortLaws {PS : PodSort} : Prop := {
  sort_newest_perm l : sort_newest_first l ≡ₚ l;
  sort_newest_sorted l : StronglySorted (λ p q, (created q ≤ created p)%Z) (sort_newest_first l);
}.

(** The client that bypasses the cache only ever lists; [None] when the
    reconciler has none. *)
Class UncachedList (W O : Type) := ulist : string → list (gmap string string) → SE W (list O).

Definition hasAnyCrashingContainer (p : Pod) : bool :=
  existsb IsCrashState (pod_container_statuses p) ||
  existsb IsCrashState (pod_init_container_statuses p).

(** The details of the crashing containers of a pod, init containers first. *)
Definition crashDetails (p : Pod) : list LastFailureDetail :=
  BuildLastFailureDetail <$>
    filter (λ cs, IsCrashState cs = true) (pod_init_container_statuses p ++ pod_container_statuses p).

Definition withRelease (r : StackResource) (d : LastFailureDetail) : LastFailureDetail :=
  d <| lfd_release_id := mget (sr_annotations r) ReleaseIDAnnotation |>.

Definition deploymentRevisionAnnotation : string := "deployment.kubernetes.io/revision".
Definition podTemplateHashLabel : string := "pod-template-hash".

Section capture.
Context {W : Type} {PS : PodSort} {UR : UncachedList W ReplicaSet} {UP : UncachedList W Pod}.

Definition newestCrashing (pods : list Pod) : option Pod :=
  List.find hasAnyCrashingContainer (sort_newest_first pods).

(** The ReplicaSet of a Deployment revision. *)
Definition findReplicaSet (revision : string) (l : list ReplicaSet) : option ReplicaSet :=
  List.find (λ rs, bool_decide (mget (om_annotations (rs_meta rs)) deploymentRevisionAnnotation
                                = revision)) l.

(** Selectors of the pods of a ReplicaSet: a nil [spec.selector] panics. *)
Definition replicaSetSelectors (rs : ReplicaSet) (hash : string) : SE W (list (gmap string string)) :=
  match rs_selector rs with
  | None => fail (Panic "nil selector")
  | Some sel => mret [sel; {[ podTemplateHashLabel := hash ]}]
  end.

Definition captureLastFailureDetails (r : StackResource) (deploymentRevision : string)
    : SE W (list LastFailureDetail) :=
  replicaSets ← wrapping "failed to list replicasets: "
    (ulist (sr_namespace r) [GetWorkloadLabelForResource r]);
  match findReplicaSet deploymentRevision replicaSets with
  | None => mret []
  | Some rs =>
      match om_labels (rs_meta rs) !! podTemplateHashLabel with
      | None => mret []
      | Some hash =>
          sel ← replicaSetSelectors rs hash;
          pods ← wrapping "failed to list pods: " (ulist (sr_namespace r) sel);
          match pods with
          | [] => mret []
          | _ =>
              match newestCrashing pods with
              | None => mret []
              | Some p => mret (withRelease r <$> crashDetails p)
              end
          end
      end
  end.

Definition capturePodFailureDetails (r : StackResource) : SE W (list LastFailureDetail) :=
  pods ← wrapping "failed to list pods: "
    (ulist (sr_namespace r) [GetWorkloadLabelForResource r]);
  match newestCrashing pods with
  | None => mret []
  | Some p => mret (crashDetails p)
  end.

(** A failed capture is logged and reads as no details. *)
Definition logged {A} (m : SE W (list A)) : PM W (list A) :=
  res ← lift (attempt m);
  match res with Ok l => mret l | Err _ => mret [] end.

Definition storeDetails (details : list LastFailureDetail) (revision : string)
    (s : StackResourceStatus) : StackResourceStatus :=
  let s := s <| last_failure_details := details |> in
  if 0 <? length details then s <| last_failure_deployment_revision := revision |> else s.

Definition captureFailureDetailsOnce (deploymentRevision : string) : PM W unit :=
  r ← gets resource;
  if decide (last_failure_deployment_revision (sr_status r) = deploymentRevision)
  then mret tt
  else
    details ← logged (captureLastFailureDetails r deploymentRevision);
    modifies (set_status (storeDetails details deploymentRevision)).

Definition capturePodFailureDetailsOnce (failureKey : string) : PM W unit :=
  r ← gets resource;
  if decide (failureKey = "" ∨ last_failure_deployment_revision (sr_status r) = failureKey)
  then mret tt
  else
    details ← logged (capturePodFailureDetails r);
    modifies (set_status (storeDetails (withRelease r <$> details) failureKey)).
End capture.

(** * Facts *)

Section crash_facts.
Context {W : Type} {PS : PodSort} {PL : PodSortLaws} {UR : UncachedList W ReplicaSet}
  {UP : UncachedList W Pod}.

Lemma newestCrashing_spec pods p :
  newestCrashing pods = Some p →
  p ∈ pods ∧ hasAnyCrashingContainer p = true ∧
  ∀ q, q ∈ pods → hasAnyCrashingContainer q = true → (created q ≤ created p)%Z.
Proof.
  unfold newestCrashing. pose proof (sort_newest_perm pods) as HP.
  pose proof (sort_newest_sorted pods) as HS. revert HP HS.
  generalize (sort_newest_first pods). intros l HP HS Hf. setoid_rewrite <- HP. clear HP pods.
  induction HS as [|x l _ IH Hx]; [done|]. simpl in Hf.
  destruct (hasAnyCrashingContainer x) eqn:E.
  - injection Hf as <-. split_and!; [left|done|]. intros q.
    rewrite elem_of_cons. intros [->|Hq] _; [lia|]. rewrite Forall_forall in Hx. by apply Hx.
  - destruct (IH Hf) as (Hin & Hc & Hn). split_and!; [by right|done|].
    intros q. rewrite elem_of_cons. intros [->|Hq]; [congruence|]. by apply Hn.
Qed.

Lemma newestCrashing_None pods q :
  newestCrashing pods = None → q ∈ pods → hasAnyCrashingContainer q = false.
Proof.
  unfold newestCrashing. intros Hf Hq. rewrite <- (sort_newest_perm pods) in Hq.
  apply list_elem_of_In in Hq. by apply (find_none _ _ Hf).
Qed.

Lemma crashDetails_nonempty p : hasAnyCrashingContainer p = true → crashDetails p ≠ [].
Proof.
  unfold hasAnyCrashingContainer, crashDetails. rewrite orb_true_iff, !existsb_exists.
  intros H E. apply fmap_nil_inv in E. rewrite filter_nil_iff in E.
  destruct H as [(cs & Hin & Hc)|(cs & Hin & Hc)]; apply list_elem_of_In in Hin;
    apply (E cs); rewrite ?elem_of_app; tauto.
Qed.

(** The failure details a workload reports belong to the newest of its
    crashing pods: if there is any crashing pod in the listing the details are
    those of a crashing pod than which no crashing pod is newer, there is at
    least one, and each is classified as a runtime crash; without a crashing pod
    there are none. *)
Theorem pod_failure_details_newest r w details w' :
  capturePodFailureDetails r w = (Ok details, w') →
  ∃ pods, ulist (sr_namespace r) [GetWorkloadLabelForResource r] w = (Ok pods, w') ∧
    (details = [] ↔ ∀ p, p ∈ pods → hasAnyCrashingContainer p = false) ∧
    (details ≠ [] → ∃ p, p ∈ pods ∧ details = crashDetails p ∧
       (∀ q, q ∈ pods → hasAnyCrashingContainer q = true → (created q ≤ created p)%Z) ∧
       ∀ d, d ∈ details → lfd_type d = FailureTypeRuntimeCrash).
Proof.
  unfold capturePodFailureDetails. intros (pods & w1 & Hl & H)%se_bind_inv.
  unfold wrapping in Hl. apply se_bind_inv in Hl as (res & w2 & Ha & Hl).
  apply attempt_inv in Ha. destruct res as [l|e]; [|done]. injection Hl as -> ->.
  exists pods. destruct (newestCrashing pods) as [p|] eqn:E.
  - injection H as <- <-. apply newestCrashing_spec in E as (Hin & Hc & Hn).
    split; [done|]. split.
    + split; [by intros ?%crashDetails_nonempty|]. intros Hall. rewrite Hall in Hc; done.
    + intros _. exists p. split_and!; try done. intros d.
      unfold crashDetails. intros (cs & -> & _)%list_elem_of_fmap.
      unfold BuildLastFailureDetail. by repeat case_match.
  - injection H as <- <-. split; [done|]. split; [|done]. split; [|done]. intros _ q Hq.
    by apply (newestCrashing_None pods).
Qed.
End crash_facts.

(** * Witnesses *)

Definition pod_order (p q : Pod) : Prop := (created q ≤ created p)%Z.
#[local] Instance pod_order_dec : RelDecision pod_order.
Proof. intros p q. unfold pod_order. apply _. Defined.
#[local] Instance pod_order_total : Total pod_order.
Proof. intros p q. unfold pod_order. lia. Qed.
#[local] Instance pod_order_trans : Transitive pod_order.
Proof. intros p q r. unfold pod_order. lia. Qed.
#[local] Instance sample_pod_sort : PodSort := merge_sort pod_order.
#[local] Instance sample_pod_sort_laws : PodSortLaws.
Proof.
  split; intros l; [apply merge_sort_Permutation|apply (StronglySorted_merge_sort pod_order)].
Qed.
#[local] Instance sample_pods : UncachedList (list Pod) Pod := λ _ _ w, (Ok w, w).

Definition crashing_pod (n : string) (t : Time) : Pod :=
  mkPod ((object_meta n "default") <| om_creation_timestamp := t |>) PodRunning "10.0.0.7" []
    [mkContainerStatus "web" 3 (Some (mkContainerStateWaiting "CrashLoopBackOff" "back-off")) None
       (Some (mkContainerStateTerminated 137 "OOMKilled" "out of memory"))].

Lemma pod_failure_details_newest_witness :
  ∃ p, p ∈ [crashing_pod "a" 3; crashing_pod "b" 7] ∧ crashDetails p ≠ [].
Proof.
  destruct (pod_failure_details_newest (W:=list Pod) (sample_resource "web")
    [crashing_pod "a" 3; crashing_pod "b" 7] (crashDetails (crashing_pod "b" 7))
    [crashing_pod "a" 3; crashing_pod "b" 7]) as (pods & Hl & _ & Hd); [reflexivity|].
  injection Hl as <-. destruct Hd as (p & Hp & Hpd & _); [discriminate|].
  exists p. split; [exact Hp|]. rewrite <- Hpd. discriminate.
Defined.
