(* ===== verification/Readiness.v ===== *)
(** The port verdict of a workload
    (internal/controller/stackresource/workload/readiness.go): read what the
    verifier has answered, walk the grace window, state the verdict. *)
From S2P Require Import Prelude Kube Apimachinery Api Verdicts Pass PortCheck KubeWorkloads.
From S2P Require Import Storage PodSpecs Crash.

Definition DefaultPortCheckGrace : Duration := (3 * minute)%Z.
Definition portCheckRequeueInterval : Duration := (30 * second)%Z.
Definition minPortRetryInterval : Duration := (1 * minute)%Z.
Definition maxPortRetryInterval : Duration := (10 * minute)%Z.

(** The verifier's operations on the outside world; other goroutines may act
    between any two of them. *)
Class VerifierOps (W : Type) := {
  v_get : Key → SE W (option PortCheck.Result);
  v_enqueue : Key → string → list Z → SE W bool;
  v_pending : Key → SE W bool;
  v_forget : Key → SE W unit;
}.

(** What [NewReconciler] is given: is there a port verifier, is there a client
    that bypasses the cache, and the configured grace period. *)
Record ReconcilerConfig := mkReconcilerConfig {
  has_port_verifier : bool;
  has_uncached_client : bool;
  cfg_port_check_grace : Duration;
}.

Definition declaredPortNumbers (r : StackResource) : list Z := port_number <$> ports (sr_spec r).

Definition portCheckGrace (cfg : ReconcilerConfig) : Duration :=
  if (cfg_port_check_grace cfg <=? 0)%Z then DefaultPortCheckGrace else cfg_port_check_grace cfg.

Definition graceClockStart (pc : option PortCheckStatus) (revision : string) : option Time :=
  match pc with
  | None => None
  | Some pc => if decide (pc_revision pc ≠ revision) then None else pc_failing_since pc
  end.

Definition portDiagnosisAllowed (r : StackResource) : bool :=
  match last_failure_details (sr_status r) with
  | [] => true
  | d :: _ => bool_decide (lfd_type d = FailureTypeReadinessFailure)
  end.

(** [portRetryAfter] at an instant. *)
Definition portRetryAfter (now : Time) (pc : option PortCheckStatus) (grace : Duration) : Duration :=
  match pc ≫= pc_failing_since with
  | None => minPortRetryInterval
  | Some since =>
      let deadFor := int64_sub (time_sub now since) grace in
      Z.min (Z.max deadFor minPortRetryInterval) maxPortRetryInterval
  end.

(** What [recordPortFailure] renders from the closed ports on status. *)
Definition renderedDial (r : StackResource) (failing : list Z) : PortCheck.Result :=
  PortCheck.mkResult ((λ p, mkPortResult (port_number p)
    (negb (bool_decide (port_number p ∈ failing)))) <$> ports (sr_spec r)) zero_time.

Definition readinessDetail (r : StackResource) (msg : string) : LastFailureDetail :=
  mkLastFailureDetail FailureTypeReadinessFailure "" (sr_name r) 0 ReasonPortNotListening msg None.

Definition firstDialablePodIP (pods : list Pod) : option string :=
  pod_ip <$> List.find (λ p, bool_decide (pod_phase p = PodRunning) &&
                             negb (bool_decide (pod_ip p = ""))) pods.

Section readiness.
Context {W : Type} (cfg : ReconcilerConfig).
Context {CA : ConditionsApi} {CK : Clock W} {VO : VerifierOps W}.
Context {UR : UncachedList W ReplicaSet} {UP : UncachedList W Pod}.

(** A list error is logged and means there is no pod to dial. *)
Definition listOrNone {A} (m : SE W (list A)) : SE W (option (list A)) :=
  res ← attempt m;
  match res with Ok l => mret (Some l) | Err _ => mret None end.

Definition deploymentPodIP (r : StackResource) (revision : string) : SE W (option string) :=
  replicaSets ← listOrNone (ulist (sr_namespace r) [GetWorkloadLabelForResource r]);
  match replicaSets ≫= findReplicaSet revision with
  | None => mret None
  | Some rs =>
      match om_labels (rs_meta rs) !! podTemplateHashLabel with
      | None => mret None
      | Some hash =>
          sel ← replicaSetSelectors rs hash;
          pods ← listOrNone (ulist (sr_namespace r) sel);
          mret (pods ≫= firstDialablePodIP)
      end
  end.

Definition statefulSetPodIP (r : StackResource) (controllerRevision : string)
    : SE W (option string) :=
  if decide (controllerRevision = "") then mret None
  else
    pods ← listOrNone (ulist (sr_namespace r)
      [GetWorkloadLabelForResource r; {[ "controller-revision-hash" := controllerRevision ]}]);
    mret (pods ≫= firstDialablePodIP).

Definition representativePodIP (r : StackResource) (revision : string) : SE W (option string) :=
  if negb (has_uncached_client cfg) then mret None
  else if decide (workload_type (sr_spec r) = WorkloadTypeStatefulService)
  then statefulSetPodIP r revision
  else deploymentPodIP r revision.

(** Answers [podFound] and [accepted]. *)
Definition schedulePortCheck (r : StackResource) (key : Key) : SE W (bool * bool) :=
  ip ← representativePodIP r (k_revision key);
  match ip with
  | None => mret (false, false)
  | Some podIP =>
      ok ← v_enqueue key podIP (declaredPortNumbers r);
      if (ok : bool) then mret (true, true)
      else p ← v_pending key; mret (true, p)
  end.

(** The clock is read only when there is a failure to compare it with. *)
Definition portAlreadyFailed (pc : option PortCheckStatus) (revision : string) (grace : Duration)
    : SE W bool :=
  match graceClockStart pc revision, pc with
  | Some start, Some pc =>
      if 0 <? length (pc_failing_port_numbers pc)
      then t ← now; mret (grace <=? time_sub t start)%Z
      else mret false
  | _, _ => mret false
  end.

Definition setPortCheck (pc : option PortCheckStatus) : PM W unit :=
  modifies (set_status (λ s, s <| port_check := pc |>)).
Definition setFailureDetails (l : list LastFailureDetail) : PM W unit :=
  modifies (set_status (λ s, s <| last_failure_details := l |>)).

(** A closed port was reported: start or continue the grace window. *)
Definition judgeClosedPorts (key : Key) (result : PortCheck.Result) : PM W (bool * Duration) :=
  r ← gets resource;
  start ← match graceClockStart (port_check (sr_status r)) (k_revision key) with
          | Some start => mret start
          | None => lift now
          end;
  _ ← setPortCheck (Some (mkPortCheckStatus (k_revision key) PortCheckStatusTypeFailure
                            (ClosedPorts result) (Some start)));
  _ ← lift (v_forget key);
  t ← lift now;
  if (time_sub t start <? portCheckGrace cfg)%Z
  then mret (false, portCheckRequeueInterval)
  else mret (true, 0%Z).

Definition verifyPorts (revision : string) : PM W (bool * Duration) :=
  r ← gets resource;
  if negb (has_port_verifier cfg) || bool_decide (length (ports (sr_spec r)) = 0)
  then _ ← setPortCheck None; mret (false, 0%Z)
  else
    let key := mkKey (sr_namespace r) (sr_name r) revision in
    answer ← lift (v_get key);
    match answer with
    | None =>
        scheduled ← lift (schedulePortCheck r key);
        failed ← lift (portAlreadyFailed (port_check (sr_status r)) revision (portCheckGrace cfg));
        if scheduled.2 || scheduled.1
        then mret (failed, portCheckRequeueInterval)
        else mret (failed, 0%Z)
    | Some result =>
        if AllOpen result
        then
          _ ← setPortCheck (Some (mkPortCheckStatus revision PortCheckStatusTypeSuccess [] None));
          mret (false, 0%Z)
        else judgeClosedPorts key result
    end.

Definition recordPortFailure : PM W string :=
  r ← gets resource;
  match port_check (sr_status r) with
  | None => fail (Panic "nil port check")
  | Some pc =>
      let msg := Message (renderedDial r (pc_failing_port_numbers pc)) in
      _ ← setFailureDetails [readinessDetail r msg];
      mret msg
  end.

Definition reportPortNotListening (msg : string) : PM W unit :=
  _ ← setCondition StackResourceWorkloadConverged false ReasonPortNotListening msg;
  reportFailed ReasonPortNotListening msg.

Definition checkPorts (revision : string) (serving : bool) : PM W Duration :=
  r ← gets resource;
  if negb (portDiagnosisAllowed r)
  then _ ← setPortCheck None; mret 0%Z
  else
    verdict ← verifyPorts revision;
    let '(failed, requeueAfter) := verdict in
    if negb failed
    then _ ← setFailureDetails []; mret requeueAfter
    else
      msg ← recordPortFailure;
      _ ← reportPortNotListening msg;
      if (serving : bool)
      then
        if (0 <? requeueAfter)%Z then mret requeueAfter
        else
          r ← gets resource;
          match port_check (sr_status r) ≫= pc_failing_since with
          | None => mret (portRetryAfter zero_time None (portCheckGrace cfg))
          | Some _ =>
              t ← lift now;
              mret (portRetryAfter t (port_check (sr_status r)) (portCheckGrace cfg))
          end
      else mret 0%Z.
End readiness.

(** * Facts *)

Section readiness_facts.
Context {W : Type} (cfg : ReconcilerConfig).
Context {CA : ConditionsApi} {CK : Clock W} {VO : VerifierOps W}.
Context {UR : UncachedList W ReplicaSet} {UP : UncachedList W Pod}.

(** An instant the clock showed. *)
Definition reading (t : Time) : Prop := ∃ w : W, (time_now w).1 = t.

Lemma post_now Q (p : Pass W) :
  (∀ t w, reading t → Q t (mkPass w (resource p) (verdicts p))) → post (lift now) Q p.
Proof.
  intros HQ. apply post_lift. intros t w. unfold now. destruct (time_now _) as [t' w'] eqn:E.
  intros [= <- <-]. apply HQ. exists (world p). by rewrite E.
Qed.

Lemma portCheckGrace_pos : (0 < portCheckGrace cfg)%Z.
Proof. unfold portCheckGrace. destruct (Z.leb_spec (cfg_port_check_grace cfg) 0); [done|lia]. Qed.

(** A recorded failure of [revision] that has outlived the grace period, whose
    clock started at [start]. *)
Definition grace_expired (r : StackResource) (revision : string) (start : Time) : Prop :=
  ∃ pc t, port_check (sr_status r) = Some pc ∧ pc_revision pc = revision ∧
    pc_status pc = PortCheckStatusTypeFailure ∧
    pc_failing_port_numbers pc ≠ [] ∧ pc_failing_since pc = Some start ∧
    reading t ∧ (portCheckGrace cfg ≤ time_sub t start)%Z.

(** The status never holds closed ports without the Failure type. *)
Definition port_check_wf (r : StackResource) : Prop :=
  ∀ pc, port_check (sr_status r) = Some pc →
    (pc_status pc = PortCheckStatusTypeFailure ↔ pc_failing_port_numbers pc ≠ []) ∧
    (pc_status pc = PortCheckStatusTypeSuccess → pc_failing_since pc = None).

Lemma graceClockStart_Some pc rev start :
  graceClockStart pc rev = Some start ↔
  ∃ pc', pc = Some pc' ∧ pc_revision pc' = rev ∧ pc_failing_since pc' = Some start.
Proof.
  unfold graceClockStart. destruct pc as [pc|]; [|naive_solver].
  destruct (decide (pc_revision pc = rev)) as [E|E].
  - rewrite decide_False by tauto. naive_solver.
  - rewrite decide_True by done. naive_solver.
Qed.

Lemma portAlreadyFailed_true r rev w w' :
  port_check_wf r →
  portAlreadyFailed (port_check (sr_status r)) rev (portCheckGrace cfg) w = (Ok true, w') →
  ∃ start, grace_expired r rev start ∧ graceClockStart (port_check (sr_status r)) rev = Some start.
Proof.
  intros Hwf. unfold portAlreadyFailed. destruct (graceClockStart _ _) as [start|] eqn:E; [|done].
  apply graceClockStart_Some in E as (pc & Hpc & Hr & Hs). rewrite Hpc.
  destruct (Nat.ltb_spec 0 (length (pc_failing_port_numbers pc))) as [Hl|Hl]; [|done].
  unfold now. cbv [mbind se_bind]. destruct (time_now w) as [t w1] eqn:Et. intros [= Hg <-].
  exists start. split; [|done]. assert (pc_failing_port_numbers pc ≠ []) as Hne
    by (intros E; rewrite E in Hl; simpl in Hl; lia).
  exists pc, t. split_and!; try done; [by apply (Hwf pc)| |lia]. exists w. by rewrite Et.
Qed.

(** What [verifyPorts] leaves behind.  A failed verdict has outlived the grace
    period of this revision, on a clock that was running before the pass or that
    the pass started; an answer of open ports is recorded as Success; a closed
    port within the grace period comes back in 30 seconds. *)
Definition verified (p : Pass W) (revision : string) (v : bool * Duration) (p' : Pass W) : Prop :=
  verdicts p' = verdicts p ∧
  (∃ pc, resource p' = (resource p) <| sr_status ::= λ s, s <| port_check := pc |> |>) ∧
  port_check_wf (resource p') ∧
  (v.1 = true → ∃ start, grace_expired (resource p') revision start ∧
     (graceClockStart (port_check (sr_status (resource p))) revision = Some start ∨ reading start)) ∧
  (v.2 = 0%Z ∨ v.2 = portCheckRequeueInterval).

Lemma post_judge p key result :
  port_check_wf (resource p) → AllOpen result = false →
  post (judgeClosedPorts cfg key result) (verified p (k_revision key)) p.
Proof.
  intros Hwf Ho. unfold judgeClosedPorts. do 2 vcg_step.
  assert (ClosedPorts result ≠ []) as Hne by (intros E; apply closed_nil in E; congruence).
  set (Pstart := λ start, graceClockStart (port_check (sr_status (resource p))) (k_revision key)
    = Some start ∨ reading start).
  assert (∀ start w, Pstart start →
    post (_ ← setPortCheck (Some (mkPortCheckStatus (k_revision key) PortCheckStatusTypeFailure
                                  (ClosedPorts result) (Some start)));
          _ ← lift (v_forget key);
          t ← lift now;
          if (time_sub t start <? portCheckGrace cfg)%Z
          then mret (false, portCheckRequeueInterval) else mret (true, 0%Z))
      (verified p (k_revision key)) (mkPass w (resource p) (verdicts p))) as Hrest.
  { intros start w Hs. do 2 vcg_step. vcg_step. vcg_step. apply post_bind, post_now.
    intros t w' Ht. 
    assert (port_check_wf (resource (set_status (λ s, s <| port_check := Some (mkPortCheckStatus
      (k_revision key) PortCheckStatusTypeFailure (ClosedPorts result) (Some start)) |>) p))) as Hwf'.
    { intros pc [= <-]. cbn. split; [by split|done]. }
    destruct (Z.ltb_spec (time_sub t start) (portCheckGrace cfg)) as [Hg|Hg]; vcg_step;
      (split_and!; [done|by eexists|exact Hwf'| |cbn; tauto]); [done|].
    intros _. exists start. split; [|exact Hs].
    eexists _, t. cbn. split_and!; done. }
  destruct (graceClockStart _ _) as [start|] eqn:E.
  - apply post_bind, post_ret. destruct p as [w r v]. by apply Hrest; left.
  - apply post_bind, post_now. intros t w Ht. by apply Hrest; right.
Qed.

Lemma verified_same p w rev d :
  port_check_wf (resource p) → (d = 0%Z ∨ d = portCheckRequeueInterval) →
  verified p rev (false, d) (mkPass w (resource p) (verdicts p)).
Proof.
  intros Hwf Hd. split_and!; [done| |done|done|done].
  exists (port_check (sr_status (resource p))). by destruct (resource p) as [m sp []].
Qed.

Lemma post_verifyPorts p revision :
  port_check_wf (resource p) →
  post (verifyPorts cfg revision) (verified p revision) p.
Proof.
  intros Hwf. unfold verifyPorts. do 2 vcg_step.
  destruct (_ || _).
  { unfold setPortCheck. vcg. split_and!; [done|by eexists|done|done|by left]. }
  do 2 vcg_step. destruct a as [result|].
  - destruct (AllOpen result) eqn:Ho.
    + unfold setPortCheck. vcg. split_and!; [done|by eexists| |done|by left].
      intros pc [= <-]. cbn. done.
    + exact (post_judge (mkPass w (resource p) (verdicts p))
        (mkKey (sr_namespace (resource p)) (sr_name (resource p)) revision) result Hwf Ho).
  - do 2 vcg_step. apply post_bind, post_lift. intros failed w' Hf. cbn [resource verdicts world] in *.
    assert (∀ d, d = 0%Z ∨ d = portCheckRequeueInterval →
      verified p revision (failed, d) (mkPass w' (resource p) (verdicts p))) as HV.
    { intros d Hd. destruct failed; [|by apply verified_same].
      apply portAlreadyFailed_true in Hf as (start & Hg & Hs); [|done]. split_and!; [done| |done| |done].
      - exists (port_check (sr_status (resource p))). by destruct (resource p) as [m sp []].
      - intros _. exists start. split; [done|by left]. }
    destruct (_ || _); vcg_step; apply HV; tauto.
Qed.
End readiness_facts.

Section readiness_properties.
Context {W : Type} (cfg : ReconcilerConfig).
Context {CA : ConditionsApi} {CL : ConditionsLaws} {CK : Clock W} {VO : VerifierOps W}.
Context {UR : UncachedList W ReplicaSet} {UP : UncachedList W Pod}.

(** How a pass ends for a workload whose ports are condemned. *)
Definition condemned (p : Pass W) (revision : string) (serving : bool) (d : Duration)
    (p' : Pass W) : Prop :=
  let r' := resource p' in
  ∃ msg start,
    grace_expired (W:=W) cfg r' revision start ∧
    (graceClockStart (port_check (sr_status (resource p))) revision = Some start ∨
     reading (W:=W) start) ∧
    verdicts p' = ReportFailed ReasonPortNotListening msg (verdicts p) ∧
    last_failure_details (sr_status r') = [readinessDetail r' msg] ∧
    view (sr_conditions r') (domain_name StackResourceWorkloadConverged) =
      Some (ConditionFalse, sr_generation r', ReasonPortNotListening, msg) ∧
    if serving then (portCheckRequeueInterval ≤ d ≤ maxPortRetryInterval)%Z else d = 0%Z.

(** How it ends otherwise: no verdict, and either no failure detail or the crash
    detail that was there before. *)
Definition not_condemned (p : Pass W) (d : Duration) (p' : Pass W) : Prop :=
  verdicts p' = verdicts p ∧
  sr_conditions (resource p') = sr_conditions (resource p) ∧
  (d = 0%Z ∨ d = portCheckRequeueInterval) ∧
  (if portDiagnosisAllowed (resource p)
   then last_failure_details (sr_status (resource p')) = []
   else last_failure_details (sr_status (resource p')) =
          last_failure_details (sr_status (resource p)) ∧
        port_check (sr_status (resource p')) = None ∧ d = 0%Z).

Lemma retry_bounds now pc grace :
  (minPortRetryInterval ≤ portRetryAfter now pc grace ≤ maxPortRetryInterval)%Z.
Proof.
  unfold portRetryAfter, minPortRetryInterval, maxPortRetryInterval, minute, second.
  destruct (pc ≫= pc_failing_since); lia.
Qed.

Lemma view_setResourceCondition t d b rs m r :
  view (sr_conditions (setResourceCondition t d b rs m r)) (domain_name d) =
  Some (bool_status b, sr_generation r, rs, m).
Proof. unfold setResourceCondition, sr_conditions. cbn. by rewrite view_set_new, decide_True. Qed.

(** C12. A workload is condemned for a closed port only after the full grace
    period: the dial on record is a failure of this very revision, names at
    least one port, and its clock, which was running before the pass or was
    started by it, shows that the grace period has passed.  The verdict, the
    failure detail and WorkloadConverged=False then carry the same message, and
    a workload that still serves is looked at again within ten minutes.  In
    every other case no verdict is reported, no condition changes, and a crash
    detail of another kind survives while the port record is dropped. *)
Theorem port_verdict_sound revision serving (p : Pass W) :
  port_check_wf (resource p) →
  post (checkPorts cfg revision serving)
    (λ d p', port_check_wf (resource p') ∧
             (condemned p revision serving d p' ∨ not_condemned p d p')) p.
Proof.
  intros Hwf. unfold checkPorts. do 2 vcg_step.
  destruct (portDiagnosisAllowed (resource p)) eqn:Hd; cbn [negb].
  2: { unfold setPortCheck. vcg. split; [done|]. right. unfold not_condemned. rewrite Hd.
       split_and!; try done. by left. }
  apply post_bind. eapply post_mono; [by apply post_verifyPorts|].
  intros [failed d] p1 (Hv & [pc Hr] & Hwf1 & Hf & Hdur). cbn [fst snd] in *.
  destruct failed; cbn [negb].
  2: { unfold setFailureDetails. vcg. split; [done|]. right. unfold not_condemned. rewrite Hd.
       split_and!; cbn; try done. by rewrite Hr. }
  destruct (Hf eq_refl) as (start & Hg & Hs). clear Hf.
  pose proof Hg as (pc0 & t0 & Hpc & _ & _ & _ & Hsince & _).
  unfold recordPortFailure. do 3 vcg_step. rewrite Hpc. cbv zeta.
  set (msg := Message _). unfold setFailureDetails. do 3 vcg_step.
  unfold reportPortNotListening, reportFailed. apply post_bind, post_bind, post_setCondition.
  intros t w. apply post_modifies.
  assert (∀ d' w', (if serving then (portCheckRequeueInterval ≤ d' ≤ maxPortRetryInterval)%Z
                    else d' = 0%Z) →
    let p' := mkPass w' (setResourceCondition t StackResourceWorkloadConverged false
                ReasonPortNotListening msg (resource (set_status (λ s, s <| last_failure_details :=
                  [readinessDetail (resource p1) msg] |>) p1)))
                (ReportFailed ReasonPortNotListening msg (verdicts p1)) in
    port_check_wf (resource p') ∧ (condemned p revision serving d' p' ∨ not_condemned p d' p'))
    as Hfin.
  { intros d' w' Hd'. split; [done|]. left. exists msg, start.
    split_and!; [|done|by rewrite <- Hv|done| |done].
    - destruct Hg as (pc1 & t1 & Hg). exists pc1, t1. exact Hg.
    - cbn [resource]. rewrite view_setResourceCondition. done. }
  destruct serving.
  - destruct (Z.ltb_spec 0 d) as [Hpos|Hpos].
    + apply post_ret. apply Hfin. destruct Hdur as [->| ->]; [lia|done].
    + do 2 vcg_step. match goal with |- post (match ?x with _ => _ end) _ _ =>
        assert (x = Some start) as -> by
          (change (port_check (sr_status (resource p1)) ≫= pc_failing_since = Some start);
           by rewrite Hpc) end.
      apply post_bind, post_lift_any. intros t' w'. apply post_ret, Hfin.
      match goal with |- context [portRetryAfter t' ?pc ?g] => pose proof (retry_bounds t' pc g) end.
      cbv iota. unfold portCheckRequeueInterval, minPortRetryInterval, minute, second in *. lia.
  - apply post_ret, Hfin. done.
Qed.

(** The wait before a dead port is dialed again is always between one and
    ten minutes, even where the 64-bit subtraction wraps, and in between it is
    the time the port has been dead beyond the grace period, so that it doubles
    from one retry to the next. *)
Theorem port_retry_interval now since pc grace :
  pc_failing_since pc = Some since →
  (minPortRetryInterval ≤ portRetryAfter now (Some pc) grace ≤ maxPortRetryInterval)%Z ∧
  ((0 ≤ grace → 0 ≤ 2 * (now - since) ≤ max_duration →
    let dead := now - since - grace in
    minPortRetryInterval ≤ dead ≤ maxPortRetryInterval →
    portRetryAfter now (Some pc) grace = dead ∧
    portRetryAfter (now + dead) (Some pc) grace = Z.min (2 * dead) maxPortRetryInterval)%Z).
Proof.
  intros Hs. split; [apply retry_bounds|]. intros Hg Hn dead Hd.
  unfold portRetryAfter. cbn. rewrite Hs. subst dead.
  assert (0 ≤ minPortRetryInterval)%Z by done.
  rewrite !time_sub_id by (unfold min_duration; lia).
  rewrite !int64_sub_id by (unfold min_duration; lia). lia.
Qed.
End readiness_properties.

(** * Witnesses *)

(** A world that is a clock, and a verifier that found port 8080 closed. *)
#[local] Instance sample_clock : Clock Z := λ t, (t, (t + second)%Z).
#[local] Instance sample_verifier : VerifierOps Z := {
  v_get _ t := (Ok (Some (PortCheck.mkResult [mkPortResult 8080 false] t)), t);
  v_enqueue _ _ _ t := (Ok false, t);
  v_pending _ t := (Ok false, t);
  v_forget _ t := (Ok tt, t);
}.
#[local] Instance no_replica_sets : UncachedList Z ReplicaSet := λ _ _ t, (Ok [], t).
#[local] Instance no_pods : UncachedList Z Pod := λ _ _ t, (Ok [], t).

Definition refusing_resource : StackResource :=
  (sample_resource "web")
    <| sr_spec ::= (λ s, s <| ports := [mkPort "http" 8080 "TCP" true "" false ""] |>) |>
    <| sr_status ::= (λ s, s <| port_check :=
         Some (mkPortCheckStatus "3" PortCheckStatusTypeFailure [8080%Z] (Some 5%Z)) |>) |>.
Definition refusing_pass (t : Time) : Pass Z := mkPass t refusing_resource no_verdicts.

Lemma port_verdict_sound_witness :
  let cfg := mkReconcilerConfig true true 0 in
  let p := refusing_pass (4 * minute) in
  ∃ d p', checkPorts cfg "3" true p = (Ok d, p') ∧ port_check_wf (resource p') ∧
    is_Some (Failed (verdicts p')) ∧
    (condemned cfg p "3" true d p' ∨ not_condemned p d p').
Proof.
  intros cfg p.
  destruct (checkPorts cfg "3" true p) as [res p'] eqn:E.
  assert (is_Some (Failed (verdicts p')) ∧ ∃ d, res = Ok d) as [Hf [d ->]].
  { vm_compute in E. injection E as <- <-. split; eexists; reflexivity. }
  exists d, p'. split; [reflexivity|].
  destruct (port_verdict_sound cfg "3" true p) with (a := d) (s' := p') as [Hwf Hc]; [|exact E|].
  { intros pc [= <-]. split; [by split|discriminate]. }
  split; [exact Hwf|]. split; [exact Hf|exact Hc].
Defined.

Lemma port_retry_interval_witness :
  let pc := mkPortCheckStatus "3" PortCheckStatusTypeFailure [8080%Z] (Some 0%Z) in
  portRetryAfter (5 * minute) (Some pc) (3 * minute) = (2 * minute)%Z ∧
  portRetryAfter (5 * minute + 2 * minute) (Some pc) (3 * minute) = (4 * minute)%Z.
Proof.
  intros pc.
  destruct (port_retry_interval (5 * minute) 0 pc (3 * minute) eq_refl) as [_ H].
  apply H; vm_compute; intuition discriminate.
Defined.
