(* ===== verification/Samples.v ===== *)
(** A small outside world for the witnesses: the state is only a clock, reads find
    no object but those an instance says so of, writes succeed, nothing is
    scheduled.  The instances live in a module, so that only the witnesses that
    import it see them. *)
From S2P Require Import Prelude Text Kube Apimachinery Api Builds Storage KubeWorkloads PodSpecs Crash.
From S2P Require Import Readiness.

(** A kind of which the cluster has these objects, whatever is asked for. *)
Definition only_objects {O} (os : list O) : Kind Z O := {|
  kget _ _ t := (match os with o :: _ => Ok o | [] => Err (NotFound "object") end, t);
  klist _ _ t := (Ok os, t);
  kcreate o t := (Ok o, t);
  kupdate o t := (Ok o, t);
  kupdate_status o t := (Ok o, t);
  kdelete _ t := (Ok tt, t);
|}.

Module Cluster.
#[export] Instance clock_only : Clock Z := λ t, (t, (t + second)%Z).
#[export] Instance silent_verifier : VerifierOps Z := {
  v_get _ t := (Ok None, t);
  v_enqueue _ _ _ t := (Ok false, t);
  v_pending _ t := (Ok false, t);
  v_forget _ t := (Ok tt, t);
}.
#[export] Instance no_uncached {O} : UncachedList Z O := λ _ _ t, (Ok [], t).
#[export] Instance id_sort : PodSort := id.
#[export] Instance plain_text : GoText := { to_lower := id; quote := id }.
#[export] Instance plain_time : TimeFormat := { time_string t := pretty t }.
#[export] Instance zero_digest : BuildDigest := {
  sha256_build_spec _ := "00000000";
  sha256_image_build_spec _ := "00000000";
}.
#[export] Instance status_digest : StatusDigest := {
  digest_stack_status s := join (st_orphaned_resources s) ",";
  digest_resource_status s := observed_revision s;
}.
#[export] Instance run_mutation {O} : CreateOrUpdate Z O := λ A o f t,
  match f o t with
  | (Ok (o, a), t) => (Ok (o, a, OpCreated), t)
  | (Err e, t) => (Err e, t)
  end.
#[export] Instance no_objects {O} : Kind Z O | 100 := only_objects [].
End Cluster.
