(* ===== verification/Workloads.v ===== *)
(** The workload reconciler (internal/controller/stackresource/workload:
    reconciler.go, deployment.go, statefulset.go, job.go, cronjob.go, image.go,
    and the rollout predicates of internal/controller/util.go): the gates before
    a workload may run, the four kinds of workload, and what each of them says
    about the resource. *)
From S2P Require Import Prelude Text Kube Apimachinery Api Verdicts Pass PortCheck Builds Storage Samples.
From S2P Require Import KubeWorkloads PodSpecs Crash Readiness.

(** [DependencyChecker].  The error of [VolumeMountsReadyForUse] comes with the
    answer [(false, "")]. *)
Class DependencyChecker (W : Type) := {
  DependenciesAvailable : StackResource → SE W (bool * string);
  VolumeMountsReadyForUse : StackResource → SE W (bool * string);
}.

Definition DefaultRequeueTime : Duration := (5 * second)%Z.
Definition deploymentGracePeriodAfterNewReplicaSetAvailable : Duration := (3 * minute)%Z.
Definition workloadMinReadySeconds : Z := 10.

(** * Predicates *)

(** [imageBuildComplete]; the stackresource package repeats it. *)
Definition imageBuildComplete `{ConditionsApi} (b : ImageBuild) : bool :=
  match find_status_condition (ibs_conditions (ib_status b)) BuildAvailable with
  | Some c => bool_decide (c_status c = ConditionTrue)
  | None => false
  end.

Definition requiresRestart (r : StackResource) : bool :=
  match restart_request (sr_spec r), last_restart_request_processed_at (sr_status r) with
  | Some _, None => true
  | Some request, Some processed => (processed <? request)%Z
  | None, _ => false
  end.

Definition jobFinished (j : Job) : bool :=
  existsb (λ c, (bool_decide (jc_type c = JobComplete) || bool_decide (jc_type c = JobFailed)) &&
                bool_decide (jc_status c = ConditionTrue)) (jst_conditions (job_status j)).

Definition convergenceMessage (d : Deployment) : string :=
  let desired := default 1%Z (dsp_replicas (dep_spec d)) in
  let st := dep_status d in
  "rollout not converged: " +:+ pretty (dst_updated_replicas st) +:+ "/" +:+ pretty desired +:+
  " updated, " +:+ pretty (dst_ready_replicas st) +:+ "/" +:+ pretty desired +:+ " ready, " +:+
  pretty (dst_unavailable_replicas st) +:+ " unavailable" +:+
  match List.find (λ c, bool_decide (dc_type c = DeploymentProgressingType) &&
                        bool_decide (dc_status c = ConditionFalse)) (dst_conditions st) with
  | Some c => "; " +:+ dc_reason c
  | None => ""
  end.

Definition DeploymentAvailable (d : Deployment) : bool :=
  existsb (λ c, bool_decide (dc_type c = DeploymentAvailableType) &&
                bool_decide (dc_status c = ConditionTrue) &&
                (om_generation (dep_meta d) =? dst_observed_generation (dep_status d))%Z)
    (dst_conditions (dep_status d)).

Definition DeploymentProgressDeadlineExceeded (d : Deployment) : bool :=
  existsb (λ c, bool_decide (dc_type c = DeploymentProgressingType) &&
                bool_decide (dc_status c = ConditionFalse) &&
                bool_decide (dc_reason c = "ProgressDeadlineExceeded"))
    (dst_conditions (dep_status d)).

(** The resource's own revision. *)
Definition revisionOf (m : ObjectMeta) : string := mget (om_annotations m) RevisionAnnotation.

(** The revision [stampLastConverged] has to record, if any: once per revision. *)
Definition unstampedRevision (r : StackResource) : option string :=
  match sr_annotations r !! RevisionAnnotation, last_converged (sr_status r) with
  | Some rev, Some lc => if decide (src_revision lc ≠ rev) then Some rev else None
  | rev, _ => rev
  end.

Definition clearFailure (s : StackResourceStatus) : StackResourceStatus :=
  s <| last_failure_details := [] |> <| last_failure_deployment_revision := "" |>.

(** * Desired workload objects *)

Section specs.
Context {TF : TimeFormat}.

Definition applyDeploymentSpec (now : Time) (r : StackResource) (image : string) (replicas : Z)
    (envVars : list EnvVar) (probes : probeSet) (info : gmap string Volume) (needsRestart : bool)
    (d : Deployment) : result Deployment :=
  template ← buildPodTemplateSpec now
    (mkPodTemplateConfig r image envVars probes info "" needsRestart);
  mret (d
    <| dep_meta ::= (λ m, m <| om_labels ::= (λ l, mergeLabels l (IdentityLabels r)) |>) |>
    <| dep_spec ::= (λ s, s
         <| dsp_selector := GetWorkloadLabelForResource r |>
         <| dsp_replicas := Some replicas |>
         <| dsp_strategy_type := "RollingUpdate" |>
         <| dsp_max_unavailable := Some (FromInt32 (maxUnavailableForReplicas replicas)) |>
         <| dsp_max_surge := Some (FromString "25%") |>
         <| dsp_progress_deadline_seconds := Some 300%Z |>
         <| dsp_min_ready_seconds := workloadMinReadySeconds |>
         <| dsp_template := template |>) |>).

Definition statefulSetSpec (now : Time) (r : StackResource) (image : string)
    (envVars : list EnvVar) (probes : probeSet) (info : gmap string Volume) (needsRestart : bool)
    (s : StatefulSet) : result StatefulSet :=
  template ← buildPodTemplateSpec now
    (mkPodTemplateConfig r image envVars probes info "Always" needsRestart);
  mret (s
    <| sts_meta ::= (λ m, m <| om_labels ::= (λ l, mergeLabels l (IdentityLabels r)) |>) |>
    <| sts_spec ::= (λ s, s
         <| ssp_replicas := Some 1%Z |>
         <| ssp_service_name := GetWorkloadNameForResource r |>
         <| ssp_pod_management_policy := "OrderedReady" |>
         <| ssp_update_strategy := "RollingUpdate" |>
         <| ssp_min_ready_seconds := workloadMinReadySeconds |>
         <| ssp_selector := GetWorkloadLabelForResource r |>
         <| ssp_template := template |>) |>).

(** A Job has no probes and never needs the clock. *)
Definition jobTemplate (r : StackResource) (image : string) (info : gmap string Volume)
    : result PodTemplateSpec :=
  buildPodTemplateSpec zero_time
    (mkPodTemplateConfig r image (buildEnvVars r) no_probes info "OnFailure" false).

Definition newJob (r : StackResource) (template : PodTemplateSpec) : Job :=
  mkJob
    ((object_meta (GetWorkloadNameForResource r) (sr_namespace r))
       <| om_labels := mergeLabels (GetWorkloadLabelForResource r) (IdentityLabels r) |>
       <| om_annotations := {[ RevisionAnnotation := revisionOf (sr_meta r) ]} |>)
    (mkJobSpec (Some 1%Z) (Some 1%Z) (Some 6%Z) None template)
    (mkJobStatus [] 0 None).

Definition cronJobSpec (r : StackResource) (template : PodTemplateSpec) (c : CronJob) : CronJob :=
  c <| cj_meta ::= (λ m, m <| om_labels ::= (λ l, mergeLabels l (IdentityLabels r)) |>) |>
    <| cj_spec ::= (λ s, s
         <| cjs_schedule := schedule (sr_spec r) |>
         <| cjs_concurrency_policy := "Forbid" |>
         <| cjs_successful_jobs_history_limit := Some 3%Z |>
         <| cjs_failed_jobs_history_limit := Some 1%Z |>
         <| cjs_job_template ::= (λ j, j
              <| js_completions := Some 1%Z |>
              <| js_parallelism := Some 1%Z |>
              <| js_backoff_limit := Some 6%Z |>
              <| js_template := template |>) |>) |>.
End specs.

Definition withPullSecret (name : option string) (p : PodSpec) : PodSpec :=
  match name with Some n => p <| ps_image_pull_secrets := [n] |> | None => p end.

(** * Operations *)

Section workload.
Context {W : Type} (cfg : ReconcilerConfig).
Context {CA : ConditionsApi} {OA : OwnerApi} {GT : GoText} {BD : BuildDigest} {TF : TimeFormat}.
Context {CK : Clock W} {VO : VerifierOps W} {DC : DependencyChecker W} {PS : PodSort}.
Context {UR : UncachedList W ReplicaSet} {UP : UncachedList W Pod}.
Context {KB : Kind W ImageBuild} {KSec : Kind W Secret} {KV : Kind W Volume} {KJ : Kind W Job}.
Context {UD : CreateOrUpdate W Deployment} {US : CreateOrUpdate W StatefulSet}
  {UC : CreateOrUpdate W CronJob}.

(** ** Images (image.go) *)

Definition getImageBuild (r : StackResource) (b : StackResourceBuildSpec) : SE W ImageBuild :=
  kget (sr_namespace r) (ImageBuildName (sr_name r) b).

Definition getImageForResource (r : StackResource) : SE W string :=
  match build_spec (sr_spec r), image_spec (sr_spec r) with
  | Some b, _ => build ← getImageBuild r b; mret (ibs_image_url (ib_status build))
  | None, Some i => mret (is_image i)
  | None, None => fail (Panic "nil image spec")
  end.

(** The name of the Secret that holds the pull credentials. *)
Definition pullSecretRef (r : StackResource) : result string :=
  let name_of (d : DockerConfigAuth) := match dca_secret_ref d with
                                        | Some s => Ok (sr_ref_name s)
                                        | None => Err (Panic "nil secret ref")
                                        end in
  match build_spec (sr_spec r) with
  | Some b =>
      match ir_auth (bs_repository b) with
      | None => Err (Errorf "build spec has no repository auth")
      | Some auth =>
          match rc_docker_config auth, rc_basic auth with
          | Some d, _ => name_of d
          | None, Some _ => Ok (SynthesizedDockerConfigSecretName (sr_name r))
          | None, None => Err (Errorf "build spec has no valid auth credentials")
          end
      end
  | None =>
      match image_spec (sr_spec r) with
      | None => Err (Panic "nil image spec")
      | Some i =>
          match is_pull_auth i ≫= ra_docker_config_auth with
          | None => Err (Errorf "image spec has no pull auth")
          | Some d => name_of d
          end
      end
  end.

Definition resolveImagePullSecretName (r : StackResource) : SE W string :=
  secretRef ← of_result (pullSecretRef r);
  res ← attempt (kget (sr_namespace r) secretRef);
  match res with
  | Ok secret => mret (om_name (sec_meta secret))
  | Err e => fail (Wrapf (if is_not_found e then "docker config secret not found: "
                          else "failed to get docker config secret: ") e)
  end.

(** The name [resolveAndSetImagePullSecret] puts into the pod spec, if any. *)
Definition resolveAndSetImagePullSecret (r : StackResource) : SE W (option string) :=
  if NeedsPullSecret r then name ← resolveImagePullSecretName r; mret (Some name)
  else mret None.

(** The clock, for code that reads it only when a restart is requested. *)
Definition restartClock (needsRestart : bool) : SE W Time :=
  if needsRestart then now else mret zero_time.

(** ** Deployments (deployment.go) *)

Definition mutateDeployment (r : StackResource) (image : string) (replicas : Z)
    (probes : probeSet) (info : gmap string Volume) (d : Deployment) : SE W (Deployment * unit) :=
  t ← restartClock (requiresRestart r);
  d ← of_result (applyDeploymentSpec t r image replicas (buildEnvVars r) probes info
                   (requiresRestart r) d);
  secret ← resolveAndSetImagePullSecret r;
  let d := d <| dep_spec ::= (λ s, s <| dsp_template ::= (λ t, t
             <| pt_spec ::= withPullSecret secret |>) |>) |> in
  m ← of_result (set_controller_reference (sr_meta r) (dep_meta d));
  mret (d <| dep_meta := m |>, tt).

(** [None]: the spec is invalid, and that has been reported. *)
Definition applyDeployment : PM W (option Deployment * bool) :=
  r ← gets resource;
  info ← lift (getVolumeMountInfoMap r);
  image ← lift (getImageForResource r);
  match buildProbes r with
  | Err e => _ ← reportFailed "InvalidSpec" (error_text e); mret (None, false)
  | Ok probes =>
      res ← lift (create_or_update unit
        (new_deployment (GetWorkloadNameForResource r) (sr_namespace r))
        (mutateDeployment r image (default 1%Z (replicas (sr_spec r))) probes info));
      mret (Some res.1.1, requiresRestart r)
  end.

(** The loop of [DeploymentRolloutSettled]; it reads the clock when it meets a
    rollout that completed. *)
Fixpoint rolloutSettled (gracePeriod : Duration) (cs : list DeploymentCondition) : SE W bool :=
  match cs with
  | [] => mret false
  | c :: cs =>
      if decide (dc_type c = DeploymentProgressingType) then
        if bool_decide (dc_status c = ConditionFalse) &&
           bool_decide (dc_reason c = "ProgressDeadlineExceeded")
        then mret true
        else if bool_decide (dc_status c = ConditionTrue) &&
                bool_decide (dc_reason c = "NewReplicaSetAvailable")
        then t ← now; mret (gracePeriod <=? time_sub t (dc_last_transition_time c))%Z
        else rolloutSettled gracePeriod cs
      else rolloutSettled gracePeriod cs
  end.
Definition DeploymentRolloutSettled (d : Deployment) (gracePeriod : Duration) : SE W bool :=
  rolloutSettled gracePeriod (dst_conditions (dep_status d)).

Definition setReplicas (n available updated : Z) : PM W unit :=
  modifies (set_status (λ s, s <| status_replicas := n |>
    <| available_replicas := available |> <| updated_replicas := updated |>)).

Definition stampLastConverged : PM W unit :=
  r ← gets resource;
  match unstampedRevision r with
  | None => mret tt
  | Some rev =>
      t ← lift now;
      modifies (set_status (λ s, s <| last_converged :=
        Some (mkStackResourceConvergenceRecord rev t) |>))
  end.

Definition deploymentNotServing (d : Deployment) (revision : string) : PM W SubReconcilerResult :=
  _ ← setCondition StackResourceWorkloadAvailable false "DeploymentNotAvailable"
        "deployment is not yet available";
  _ ← captureFailureDetailsOnce revision;
  portRequeueAfter ← checkPorts cfg revision false;
  _ ← reportNotReady "StackResourceDeploymentNotReady" "StackResourceDeploymentNotReady";
  settled ← lift (DeploymentRolloutSettled d deploymentGracePeriodAfterNewReplicaSetAvailable);
  if negb settled then mret (ResultRequeueAfter (10 * second)%Z)
  else if (0 <? portRequeueAfter)%Z then mret (ResultRequeueAfter portRequeueAfter)
  else mret ResultStop.

Definition deploymentServes (d : Deployment) (revision : string) : PM W SubReconcilerResult :=
  _ ← setCondition StackResourceWorkloadAvailable true "DeploymentServing"
        "deployment serving at minimum availability";
  _ ← (if deploymentConverged d then modifies (set_status clearFailure)
       else captureFailureDetailsOnce revision);
  requeueAfter ← checkPorts cfg revision true;
  if (0 <? requeueAfter)%Z then mret (ResultDeferredRequeue requeueAfter)
  else
    r ← gets resource;
    if negb (deploymentConverged d) &&
       bool_decide (length (last_failure_details (sr_status r)) = 0)
    then
      settled ← lift (DeploymentRolloutSettled d deploymentGracePeriodAfterNewReplicaSetAvailable);
      if negb settled then mret (ResultDeferredRequeue (10 * second)%Z)
      else mret ResultContinue
    else mret ResultContinue.

Definition evaluateDeploymentStatus (d : Deployment) : PM W SubReconcilerResult :=
  _ ← setReplicas (dst_replicas (dep_status d)) (dst_available_replicas (dep_status d))
        (dst_updated_replicas (dep_status d));
  _ ← (if deploymentConverged d then
         _ ← setCondition StackResourceWorkloadConverged true "FullyConverged"
               "all replicas updated and available on the target revision";
         stampLastConverged
       else setCondition StackResourceWorkloadConverged false "NotConverged" (convergenceMessage d));
  let revision := mget (om_annotations (dep_meta d)) deploymentRevisionAnnotation in
  if deploymentServing d then deploymentServes d revision else deploymentNotServing d revision.

(** The restart was handed to the workload: remember when, and stop. *)
Definition restartRequested (reason msg : string) : PM W SubReconcilerResult :=
  t ← lift now;
  _ ← modifies (set_status (λ s, s <| last_restart_request_processed_at := Some t |>));
  _ ← reportNotReady reason msg;
  mret ResultStop.

Definition reconcileDeployment : PM W SubReconcilerResult :=
  applied ← applyDeployment;
  match applied with
  | (None, _) => mret ResultStop
  | (Some d, restartAnnotationApplied) =>
      if (restartAnnotationApplied : bool)
      then restartRequested "StackResourceDeploymentNotReady"
             "StackResource deployment restart requested"
      else evaluateDeploymentStatus d
  end.

(** ** StatefulSets (statefulset.go) *)

Definition mutateStatefulSet (r : StackResource) (image : string) (probes : probeSet)
    (info : gmap string Volume) (s : StatefulSet) : SE W (StatefulSet * unit) :=
  t ← restartClock (requiresRestart r);
  s ← of_result (statefulSetSpec t r image (buildEnvVars r) probes info (requiresRestart r) s);
  secret ← resolveAndSetImagePullSecret r;
  let s := s <| sts_spec ::= (λ s, s <| ssp_template ::= (λ t, t
             <| pt_spec ::= withPullSecret secret |>) |>) |> in
  m ← of_result (set_controller_reference (sr_meta r) (sts_meta s));
  mret (s <| sts_meta := m |>, tt).

Definition applyStatefulSet : PM W (option StatefulSet * bool) :=
  r ← gets resource;
  info ← lift (getVolumeMountInfoMap r);
  image ← lift (getImageForResource r);
  match buildProbes r with
  | Err e => _ ← reportFailed "InvalidSpec" (error_text e); mret (None, false)
  | Ok probes =>
      res ← lift (create_or_update unit
        (new_stateful_set (GetWorkloadNameForResource r) (sr_namespace r))
        (mutateStatefulSet r image probes info));
      mret (Some res.1.1, requiresRestart r)
  end.

Definition statefulSetConverged (s : StatefulSet) : bool :=
  let st := sts_status s in
  (sst_observed_generation st =? om_generation (sts_meta s))%Z &&
  bool_decide (sst_current_revision st = sst_update_revision st) &&
  (sst_ready_replicas st =? 1)%Z && (sst_updated_replicas st =? 1)%Z &&
  (sst_available_replicas st =? 1)%Z.

Definition evaluateStatefulSetStatus (s : StatefulSet) : PM W SubReconcilerResult :=
  let st := sts_status s in
  _ ← setReplicas (sst_replicas st) (sst_available_replicas st) (sst_updated_replicas st);
  if statefulSetConverged s then
    _ ← setCondition StackResourceWorkloadAvailable true "StatefulSetAvailable"
          "statefulset available";
    _ ← setCondition StackResourceWorkloadConverged true "FullyConverged"
          "statefulset pod ready on the target revision";
    _ ← stampLastConverged;
    _ ← modifies (set_status clearFailure);
    requeueAfter ← checkPorts cfg (sst_update_revision st) true;
    if (0 <? requeueAfter)%Z then mret (ResultDeferredRequeue requeueAfter)
    else mret ResultContinue
  else
    _ ← setCondition StackResourceWorkloadConverged false "NotConverged"
          ("statefulset not converged: ready=" +:+ pretty (sst_ready_replicas st) +:+
           " updated=" +:+ pretty (sst_updated_replicas st) +:+
           " available=" +:+ pretty (sst_available_replicas st));
    _ ← capturePodFailureDetailsOnce (sst_update_revision st);
    portRequeueAfter ← checkPorts cfg (sst_update_revision st) false;
    _ ← setCondition StackResourceWorkloadAvailable false "StatefulSetNotAvailable"
          "statefulset pod not ready";
    _ ← reportNotReady "StackResourceStatefulSetNotReady" "statefulset pod not yet ready";
    r ← gets resource;
    if (0 <? portRequeueAfter)%Z then mret (ResultRequeueAfter portRequeueAfter)
    else if 0 <? length (last_failure_details (sr_status r)) then mret ResultStop
    else mret (ResultRequeueAfter (10 * second)%Z).

Definition reconcileStatefulSet : PM W SubReconcilerResult :=
  applied ← applyStatefulSet;
  match applied with
  | (None, _) => mret ResultStop
  | (Some s, restartApplied) =>
      if (restartApplied : bool)
      then restartRequested "StackResourceStatefulSetNotReady"
             "StackResource statefulset restart requested"
      else evaluateStatefulSetStatus s
  end.

(** ** Jobs (job.go) *)

Definition applyJob (r : StackResource) : SE W unit :=
  info ← getVolumeMountInfoMap r;
  image ← getImageForResource r;
  template ← of_result (jobTemplate r image info);
  secret ← resolveAndSetImagePullSecret r;
  let job := newJob r (template <| pt_spec ::= withPullSecret secret |>) in
  m ← of_result (set_controller_reference (sr_meta r) (job_meta job));
  _ ← kcreate (job <| job_meta := m |>);
  mret tt.

(** The first condition that says the job failed. *)
Definition jobFailure (j : Job) : option JobCondition :=
  List.find (λ c, bool_decide (jc_type c = JobFailed) && bool_decide (jc_status c = ConditionTrue))
    (jst_conditions (job_status j)).

Definition evaluateJobStatus (j : Job) : PM W SubReconcilerResult :=
  r ← gets resource;
  if (1 <=? jst_succeeded (job_status j))%Z then
    _ ← modifies (set_status (λ s, clearFailure
          (s <| last_run_time := jst_completion_time (job_status j) |>
             <| last_run_succeeded := Some true |>)));
    _ ← setCondition StackResourceWorkloadConverged true "JobComplete" "job completed successfully";
    _ ← setCondition StackResourceWorkloadAvailable true "JobComplete" "job completed successfully";
    mret ResultContinue
  else match jobFailure j with
  | Some c =>
      t ← lift now;
      _ ← modifies (set_status (λ s, s <| last_run_time := Some t |>
                                       <| last_run_succeeded := Some false |>));
      _ ← capturePodFailureDetailsOnce (revisionOf (sr_meta r));
      _ ← reportFailed "JobFailed" (jc_message c);
      mret ResultStop
  | None =>
      _ ← capturePodFailureDetailsOnce (revisionOf (sr_meta r));
      _ ← reportNotReady "JobRunning" "job is still running";
      r ← gets resource;
      if 0 <? length (last_failure_details (sr_status r)) then mret ResultStop
      else mret (ResultRequeueAfter (10 * second)%Z)
  end.

(** [applyJob] answers a Job or an error, so the branch for "neither" that the
    code keeps for the future cannot be taken. *)
Definition reconcileJob : PM W SubReconcilerResult :=
  r ← gets resource;
  res ← lift (attempt (kget (sr_namespace r) (GetWorkloadNameForResource r)));
  match (res : result Job) with
  | Err e =>
      if is_not_found e then
        _ ← lift (applyJob r);
        _ ← reportNotReady "JobRunning" "job created, waiting for completion";
        mret (ResultRequeueAfter (5 * second)%Z)
      else fail e
  | Ok job =>
      if jobFinished job &&
         bool_decide (revisionOf (job_meta job) ≠ revisionOf (sr_meta r))
      then
        _ ← lift (ignore_not_found (kdelete job));
        _ ← reportNotReady "JobRunning" "waiting for the new revision's job to be created";
        mret (ResultRequeueAfter (2 * second)%Z)
      else evaluateJobStatus job
  end.

(** ** CronJobs (cronjob.go) *)

Definition mutateCronJob (r : StackResource) (image : string) (info : gmap string Volume)
    (c : CronJob) : SE W (CronJob * unit) :=
  template ← of_result (jobTemplate r image info);
  secret ← resolveAndSetImagePullSecret r;
  let c := cronJobSpec r (template <| pt_spec ::= withPullSecret secret |>) c in
  m ← of_result (set_controller_reference (sr_meta r) (cj_meta c));
  mret (c <| cj_meta := m |>, tt).

Definition applyCronJob (r : StackResource) : SE W CronJob :=
  info ← getVolumeMountInfoMap r;
  image ← getImageForResource r;
  res ← create_or_update unit (new_cron_job (GetWorkloadNameForResource r) (sr_namespace r))
          (mutateCronJob r image info);
  mret res.1.1.

(** Does [j] replace [latest] as the latest completed run? *)
Definition laterJob (c : CronJob) (latest : option Job) (j : Job) : option Job :=
  if negb (is_controlled_by (job_meta j) (cj_meta c)) then latest
  else match jst_completion_time (job_status j), latest with
       | None, _ => latest
       | Some _, None => Some j
       | Some t, Some l =>
           match jst_completion_time (job_status l) with
           | Some u => if (u <? t)%Z then Some j else latest
           | None => latest
           end
       end.
Definition latestCompleted (c : CronJob) (jobs : list Job) : option Job :=
  foldl (laterJob c) None jobs.

Definition latestCompletedChildJob (r : StackResource) (c : CronJob) : SE W (option Job) :=
  res ← attempt (klist (sr_namespace r) []);
  match res with
  | Err _ => mret None
  | Ok jobs => mret (latestCompleted c jobs)
  end.

Definition evaluateCronJobStatus (c : CronJob) : PM W SubReconcilerResult :=
  r ← gets resource;
  _ ← setCondition StackResourceWorkloadConverged true "CronJobScheduled"
        "cronjob installed with valid schedule";
  _ ← setCondition StackResourceWorkloadAvailable true "CronJobScheduled"
        "cronjob installed with valid schedule";
  _ ← (match cj_last_schedule_time c with
       | Some t => modifies (set_status (λ s, s <| last_run_time := Some t |>))
       | None => mret tt
       end);
  latest ← lift (latestCompletedChildJob r c);
  match latest with
  | None => mret ResultContinue
  | Some j =>
      let succeeded := (1 <=? jst_succeeded (job_status j))%Z in
      _ ← modifies (set_status (λ s, s <| last_run_succeeded := Some succeeded |>));
      _ ← (if succeeded then modifies (set_status clearFailure)
           else capturePodFailureDetailsOnce (om_name (job_meta j)));
      mret ResultContinue
  end.

(** [applyCronJob] answers a CronJob or an error; see [reconcileJob]. *)
Definition reconcileCronJob : PM W SubReconcilerResult :=
  r ← gets resource;
  c ← lift (applyCronJob r);
  evaluateCronJobStatus c.

(** ** The reconciler (reconciler.go) *)

(** A gate that is shut: the fact, the verdict, and another look in 5 seconds. *)
Definition gateShut (reason msg : string) : PM W SubReconcilerResult :=
  _ ← setCondition StackResourceDependenciesReady false reason msg;
  _ ← reportNotReady reason msg;
  mret (ResultRequeueAfter DefaultRequeueTime).

Definition dispatch : PM W SubReconcilerResult :=
  r ← gets resource;
  let t := workload_type (sr_spec r) in
  if decide (t = WorkloadTypeService ∨ t = WorkloadTypeWorker ∨ t = "") then reconcileDeployment
  else if decide (t = WorkloadTypeStatefulService) then reconcileStatefulSet
  else if decide (t = WorkloadTypeJob) then reconcileJob
  else if decide (t = WorkloadTypeCronJob) then reconcileCronJob
  else fail (Errorf ("unknown workload type: " +:+ t)).

(** The build gate; without a build spec it is open. *)
Definition buildGate (r : StackResource) (k : PM W SubReconcilerResult) : PM W SubReconcilerResult :=
  match build_spec (sr_spec r) with
  | None => k
  | Some b =>
      build ← lift (getImageBuild r b);
      if negb (imageBuildComplete build) then
        _ ← setCondition StackResourceBuildReady false "BuildNotReady"
              "application build is not yet ready";
        _ ← reportNotReady "ApplicationBuildNotYetReady" "Application build is not yet ready";
        mret ResultStop
      else
        _ ← setCondition StackResourceBuildReady true "BuildReady" "application build complete";
        k
  end.

Definition Reconcile : PM W SubReconcilerResult :=
  r ← gets resource;
  deps ← lift (DependenciesAvailable r);
  if negb deps.1 then gateShut "DependenciesNotReady" deps.2
  else
    r ← gets resource;
    res ← lift (attempt (VolumeMountsReadyForUse r));
    let mounts := match res with Ok m => m | Err _ => (false, "") end in
    if negb mounts.1 then gateShut "VolumeMountsNotReady" mounts.2
    else
      _ ← setCondition StackResourceDependenciesReady true "DependenciesReady"
            "dependencies and volume mounts ready";
      buildGate r dispatch.
End workload.

(** * Frames *)

Section frames.
Context {W : Type} (cfg : ReconcilerConfig).
Context {CA : ConditionsApi} {CL : ConditionsLaws} {CK : Clock W} {VO : VerifierOps W}.
Context {PS : PodSort} {UR : UncachedList W ReplicaSet} {UP : UncachedList W Pod}.

(** What the status says about a rollout. *)
Definition rollout_facts (s : StackResourceStatus) :=
  (last_converged s, (status_replicas s, available_replicas s, updated_replicas s)).

Lemma storeDetails_conditions l v s : conditions (storeDetails l v s) = conditions s.
Proof. unfold storeDetails. by destruct (_ <? _). Qed.
Lemma storeDetails_rollout l v s : rollout_facts (storeDetails l v s) = rollout_facts s.
Proof. unfold storeDetails. by destruct (_ <? _). Qed.

Lemma capture_keeps ds rev : Preserves (keeps ds) (captureFailureDetailsOnce (W:=W) rev).
Proof. unfold captureFailureDetailsOnce, logged. solve_preserves. apply storeDetails_conditions. Qed.
Lemma capture_rollout rev : Preserves (same rollout_facts) (captureFailureDetailsOnce (W:=W) rev).
Proof.
  unfold captureFailureDetailsOnce, logged. solve_preserves. apply storeDetails_rollout.
Qed.
Lemma capturePod_keeps ds rev : Preserves (keeps ds) (capturePodFailureDetailsOnce (W:=W) rev).
Proof. unfold capturePodFailureDetailsOnce, logged. solve_preserves. apply storeDetails_conditions. Qed.
Lemma checkPorts_keeps ds rev b :
  StackResourceWorkloadConverged ∈ ds → Preserves (keeps ds) (checkPorts cfg rev b).
Proof.
  intros Hd.
  unfold checkPorts, verifyPorts, judgeClosedPorts, recordPortFailure, reportPortNotListening,
    setPortCheck, setFailureDetails, reportFailed. solve_preserves.
Qed.
Lemma checkPorts_rollout rev b : Preserves (same rollout_facts) (checkPorts cfg rev b).
Proof.
  unfold checkPorts, verifyPorts, judgeClosedPorts, recordPortFailure, reportPortNotListening,
    setPortCheck, setFailureDetails, reportFailed. solve_preserves.
Qed.
End frames.
#[export] Hint Resolve capture_keeps capturePod_keeps capture_rollout checkPorts_rollout
  checkPorts_keeps : preserves.
#[export] Hint Extern 1 (_ ∈ _) => set_solver : preserves.

(** * What each workload owes the chain *)

Section workload_outcome.
Context {W : Type} (cfg : ReconcilerConfig).
Context {CA : ConditionsApi} {CL : ConditionsLaws} {OA : OwnerApi} {GT : GoText} {BD : BuildDigest}.
Context {TF : TimeFormat} {CK : Clock W} {VO : VerifierOps W} {DC : DependencyChecker W} {PS : PodSort}.
Context {UR : UncachedList W ReplicaSet} {UP : UncachedList W Pod}.
Context {KB : Kind W ImageBuild} {KSec : Kind W Secret} {KV : Kind W Volume} {KJ : Kind W Job}.
Context {UD : CreateOrUpdate W Deployment} {US : CreateOrUpdate W StatefulSet}
  {UC : CreateOrUpdate W CronJob}.

Local Abbreviation available := [StackResourceWorkloadAvailable].

Lemma outcome_halt ds res (p : Pass W) : halts res = true → has_verdict p → outcome ds res p.
Proof. intros Hh Hv. unfold outcome. by rewrite Hh. Qed.
Lemma outcome_go d res (p : Pass W) : halts res = false → holds d p → outcome [d] res p.
Proof. intros Hh Hv. unfold outcome. rewrite Hh. by intros d' ->%list_elem_of_singleton. Qed.

Lemma checkPorts_holds rev b p :
  holds StackResourceWorkloadAvailable p →
  post (checkPorts cfg rev b) (λ _, holds StackResourceWorkloadAvailable) p.
Proof.
  intros Hh. eapply (post_frame (keeps [StackResourceWorkloadConverged])); [apply checkPorts_keeps; set_solver|]. intros d p' Hk.
  eapply keeps_holds; [|exact Hk|done]. set_solver.
Qed.

Lemma deploymentServes_outcome d rev p :
  post (deploymentServes cfg d rev) (outcome available) p.
Proof.
  unfold deploymentServes. apply post_bind, post_setCondition. intros t w. apply post_bind.
  eapply (post_frame (keeps [])).
  { destruct (deploymentConverged d); [solve_preserves|apply capture_keeps]. }
  intros _ p1 Hk. eapply (keeps_holds _ StackResourceWorkloadAvailable) in Hk; [|set_solver|apply holds_setCondition].
  apply post_bind. eapply post_mono; [by apply checkPorts_holds|]. intros d' p2 Hh. cbv beta.
  destruct (0 <? d')%Z; [by apply post_ret, outcome_go|].
  do 2 vcg_step. destruct (_ && _); [|by apply post_ret, outcome_go].
  apply post_bind, post_lift_any. intros [] w'; by apply post_ret, outcome_go.
Qed.

Lemma deploymentNotServing_outcome d rev p :
  post (deploymentNotServing cfg d rev) (outcome available) p.
Proof.
  unfold deploymentNotServing. do 3 (apply post_bind, post_any; intros ? ?).
  do 2 vcg_step. apply post_bind, post_lift_any. intros [] w; cbn [negb];
  [destruct (0 <? _)%Z|]; by apply post_ret, outcome_halt, verdict_notReady.
Qed.

Lemma evaluateDeployment_outcome d p : post (evaluateDeploymentStatus cfg d) (outcome available) p.
Proof.
  unfold evaluateDeploymentStatus. do 2 (apply post_bind, post_any; intros ? ?).
  destruct (deploymentServing d); [apply deploymentServes_outcome|apply deploymentNotServing_outcome].
Qed.

Lemma restartRequested_outcome reason msg (p : Pass W) :
  post (restartRequested reason msg) (outcome available) p.
Proof.
  unfold restartRequested. do 2 (apply post_bind, post_any; intros ? ?). do 2 vcg_step.
  by apply post_ret, outcome_halt, verdict_notReady.
Qed.

Lemma evaluateStatefulSet_outcome s p : post (evaluateStatefulSetStatus cfg s) (outcome available) p.
Proof.
  unfold evaluateStatefulSetStatus. apply post_bind, post_any; intros ? ?.
  destruct (statefulSetConverged s).
  - apply post_bind, post_setCondition. intros t w. apply post_bind.
    eapply (post_frame (keeps [StackResourceWorkloadConverged])); [solve_preserves|].
    intros _ p1 Hk. eapply (keeps_holds _ StackResourceWorkloadAvailable) in Hk; [|set_solver|apply holds_setCondition].
    apply post_bind. 
    eapply (post_frame (keeps [])); [unfold stampLastConverged; solve_preserves|].
    intros _ p2 Hk2. eapply (keeps_holds _ StackResourceWorkloadAvailable) in Hk2; [|set_solver|exact Hk]. clear Hk; rename Hk2 into Hk.
    do 2 vcg_step. apply post_bind. eapply post_mono; [apply checkPorts_holds, Hk|].
    intros d p3 Hh. cbv beta. destruct (0 <? d)%Z; by apply post_ret, outcome_go.
  - do 4 (apply post_bind, post_any; intros ? ?). do 4 vcg_step.
    repeat case_match; by apply post_ret, outcome_halt, verdict_notReady.
Qed.

Lemma evaluateJob_outcome j p : post (evaluateJobStatus j) (outcome available) p.
Proof.
  unfold evaluateJobStatus. do 2 vcg_step. destruct (1 <=? _)%Z.
  - do 2 (apply post_bind, post_any; intros ? ?). apply post_bind, post_setCondition.
    intros t w. apply post_ret, outcome_go; [done|]. apply holds_setCondition.
  - destruct (jobFailure j).
    + do 3 (apply post_bind, post_any; intros ? ?). do 2 vcg_step.
      by apply post_ret, outcome_halt, verdict_failed.
    + apply post_bind, post_any; intros ? ?. do 4 vcg_step.
      case_match; by apply post_ret, outcome_halt, verdict_notReady.
Qed.

Lemma evaluateCronJob_outcome c p : post (evaluateCronJobStatus c) (outcome available) p.
Proof.
  unfold evaluateCronJobStatus. do 2 vcg_step. apply post_bind, post_any; intros _ p1.
  apply post_bind, post_setCondition. intros t w. apply post_bind.
  eapply (post_frame (keeps [])); [solve_preserves|]. intros _ p2 Hk.
  eapply (keeps_holds _ StackResourceWorkloadAvailable) in Hk;
    [|set_solver|apply holds_setCondition].
  apply post_bind, post_lift_any. intros [j|] w'; [|by apply post_ret, outcome_go].
  do 2 vcg_step. apply post_bind.
  eapply (post_frame (keeps [])); [destruct (1 <=? _)%Z; solve_preserves|]. intros _ p3 Hk3.
  apply post_ret, outcome_go; [done|].
  by eapply (keeps_holds _ StackResourceWorkloadAvailable) in Hk3; [|set_solver|exact Hk].
Qed.

Lemma reconcileJob_outcome p : post reconcileJob (outcome available) p.
Proof.
  unfold reconcileJob. do 2 vcg_step. apply post_bind, post_lift_any. intros [j|e] w.
  - destruct (_ && _); [|apply evaluateJob_outcome].
    apply post_bind, post_lift_any. intros _ w'. do 2 vcg_step.
    by apply post_ret, outcome_halt, verdict_notReady.
  - destruct (is_not_found e); [|apply post_fail].
    apply post_bind, post_lift_any. intros _ w'. do 2 vcg_step.
    by apply post_ret, outcome_halt, verdict_notReady.
Qed.

Lemma applied_outcome {A} (m : PM W (option A * bool)) (k : A → PM W SubReconcilerResult)
    (restart : PM W SubReconcilerResult) p :
  post m (λ a p', a.1 = None → has_verdict p') p →
  (∀ a p', post (k a) (outcome available) p') → (∀ p', post restart (outcome available) p') →
  post (applied ← m;
        match applied with
        | (None, _) => mret ResultStop
        | (Some a, b) => if (b : bool) then restart else k a
        end) (outcome available) p.
Proof.
  intros Hm Hk Hr. apply post_bind. eapply post_mono; [exact Hm|].
  intros [[a|] b] p' Hv; [destruct b; [apply Hr|apply Hk]|].
  by apply post_ret, outcome_halt, Hv.
Qed.

Lemma dispatch_outcome p : post (dispatch cfg) (outcome available) p.
Proof.
  unfold dispatch. do 2 vcg_step. repeat case_decide.
  - apply applied_outcome; [|apply evaluateDeployment_outcome|apply restartRequested_outcome].
    unfold applyDeployment. vcg; try done. intros _. apply verdict_failed.
  - apply applied_outcome; [|apply evaluateStatefulSet_outcome|apply restartRequested_outcome].
    unfold applyStatefulSet. vcg; try done. intros _. apply verdict_failed.
  - apply reconcileJob_outcome.
  - unfold reconcileCronJob. do 4 vcg_step. apply evaluateCronJob_outcome.
  - apply post_fail.
Qed.

Lemma dispatch_keeps :
  Preserves (keeps [StackResourceWorkloadAvailable; StackResourceWorkloadConverged]) (dispatch cfg).
Proof.
  unfold dispatch, reconcileDeployment, applyDeployment, evaluateDeploymentStatus,
    deploymentServes, deploymentNotServing, reconcileStatefulSet, applyStatefulSet,
    evaluateStatefulSetStatus, reconcileJob, evaluateJobStatus, reconcileCronJob,
    evaluateCronJobStatus, restartRequested, setReplicas, stampLastConverged, reportFailed, reportNotReady.
  solve_preserves.
Qed.
End workload_outcome.

(** * What an evaluation does to a Deployment's status *)

Section deployment_facts.
Context {W : Type} (cfg : ReconcilerConfig).
Context {CA : ConditionsApi} {CL : ConditionsLaws} {CK : Clock W} {VO : VerifierOps W} {PS : PodSort}.
Context {UR : UncachedList W ReplicaSet} {UP : UncachedList W Pod}.

(** A pass may have overwritten WorkloadConverged, but only to condemn a port. *)
Definition converged_or_condemned (p p' : Pass W) : Prop :=
  view (sr_conditions (resource p')) (domain_name StackResourceWorkloadConverged) =
    view (sr_conditions (resource p)) (domain_name StackResourceWorkloadConverged) ∨
  (∃ m, view (sr_conditions (resource p')) (domain_name StackResourceWorkloadConverged) =
     Some (ConditionFalse, sr_generation (resource p'), ReasonPortNotListening, m)) ∧
  is_Some (Failed (verdicts p')).

(** What the rest of an evaluation does to what its beginning has recorded. *)
Definition evaluated (p p' : Pass W) : Prop :=
  keeps [StackResourceWorkloadAvailable; StackResourceWorkloadConverged] p p' ∧
  same rollout_facts p p' ∧ converged_or_condemned p p'.

Lemma evaluated_prefix p q r :
  keeps [StackResourceWorkloadAvailable] p q → same rollout_facts p q → evaluated q r → evaluated p r.
Proof.
  intros Hk' Hs' (Hk & Hs & Hc).
  assert (StackResourceWorkloadConverged ∉ [StackResourceWorkloadAvailable]) as Hn by set_solver.
  split; [|split; [by etrans|]].
  - destruct Hk' as (? & ? & Hk'), Hk as (? & ? & Hk). split_and!; [congruence..|].
    intros t Ht. rewrite Hk by done. apply Hk'. set_solver.
  - unfold converged_or_condemned. by rewrite <- (keeps_view _ _ _ _ Hn Hk').
Qed.

Lemma post_checkPorts_evaluated rev b p : post (checkPorts cfg rev b) (λ _, evaluated p) p.
Proof.
  intros d p' E. split; [|split].
  - revert d p' E. apply Preserves_post, checkPorts_keeps; set_solver.
  - revert d p' E. apply Preserves_post, checkPorts_rollout.
  - revert d p' E. 
    change (post (checkPorts cfg rev b) (λ _, converged_or_condemned p) p).
    unfold checkPorts. do 2 vcg_step.
    destruct (negb _).
    { unfold setPortCheck. vcg. by left. }
    apply post_bind. eapply (post_frame (keeps [])).
    { unfold verifyPorts, judgeClosedPorts, setPortCheck. solve_preserves. }
    intros [failed d] p1 Hk. destruct failed; cbn [negb].
    2: { unfold setFailureDetails. vcg. left.
         eapply (keeps_view []) in Hk; [exact Hk|set_solver]. }
    apply post_bind, post_any. intros msg p2. apply post_bind.
    assert (∀ t w v, converged_or_condemned p (set_verdicts (ReportFailed ReasonPortNotListening msg)
      (mkPass w (setResourceCondition t StackResourceWorkloadConverged false
         ReasonPortNotListening msg (resource p2)) v))) as Hfin.
    { intros t w v. right. split;
        [exists msg; exact (view_setResourceCondition t _ false _ msg (resource p2))|].
      cbn. unfold ReportFailed. by destruct (Failed v) eqn:E; cbn; rewrite ?E. }
    unfold reportPortNotListening, reportFailed.
    apply post_bind, post_setCondition. intros t w. apply post_modifies.
    vcg; apply Hfin.
Qed.


(** The first half of [evaluateDeploymentStatus]. *)
Definition recordRollout (d : Deployment) : PM W unit :=
  _ ← setReplicas (dst_replicas (dep_status d)) (dst_available_replicas (dep_status d))
        (dst_updated_replicas (dep_status d));
  (if deploymentConverged d then
     _ ← setCondition StackResourceWorkloadConverged true "FullyConverged"
           "all replicas updated and available on the target revision";
     stampLastConverged
   else setCondition StackResourceWorkloadConverged false "NotConverged" (convergenceMessage d)).

Definition stamped (conv : bool) (r : StackResource) (lc : option StackResourceConvergenceRecord) : Prop :=
  if conv then
    ∀ rev, sr_annotations r !! RevisionAnnotation = Some rev →
      ∃ at_, lc = Some (mkStackResourceConvergenceRecord rev at_) ∧
        ∀ at0, last_converged (sr_status r) = Some (mkStackResourceConvergenceRecord rev at0) → at_ = at0
  else lc = last_converged (sr_status r).

Definition recorded (d : Deployment) (p p1 : Pass W) : Prop :=
  sr_meta (resource p1) = sr_meta (resource p) ∧
  (∃ rs m, view (sr_conditions (resource p1)) (domain_name StackResourceWorkloadConverged) =
     Some (bool_status (deploymentConverged d), sr_generation (resource p), rs, m)) ∧
  stamped (deploymentConverged d) (resource p) (rollout_facts (sr_status (resource p1))).1 ∧
  (rollout_facts (sr_status (resource p1))).2 =
    (dst_replicas (dep_status d), dst_available_replicas (dep_status d),
     dst_updated_replicas (dep_status d)).

Lemma recordRollout_spec d p : post (recordRollout d) (λ _, recorded d p) p.
Proof.
  unfold recordRollout, setReplicas. do 2 vcg_step. unfold recorded.
  destruct (deploymentConverged d).
  - apply post_bind, post_setCondition. intros t w. unfold stampLastConverged. do 2 vcg_step.
    match goal with |- context [unstampedRevision ?r] => set (r1 := r) end.
    assert (∃ rs m, view (sr_conditions r1) (domain_name StackResourceWorkloadConverged) =
      Some (ConditionTrue, sr_generation (resource p), rs, m)) as Hv.
    { do 2 eexists. exact (view_setResourceCondition t _ true _ _ _). }
    assert (sr_annotations r1 = sr_annotations (resource p) ∧
            last_converged (sr_status r1) = last_converged (sr_status (resource p))) as [Ha Hl] by done.
    unfold stamped. rewrite <- Ha, <- Hl. unfold unstampedRevision.
    destruct (sr_annotations r1 !! RevisionAnnotation) as [rev|];
      [|apply post_ret; by split_and!].
    destruct (last_converged (sr_status r1)) as [[rev0 at0]|] eqn:E; [case_decide as Hd|].
    all: vcg; (split_and!; [done|exact Hv| |done]); intros ? [= <-]; cbn [fst rollout_facts].
    + eexists. split; [done|]. cbn in Hd. intros at1 [= -> _]. done.
    + cbn in Hd. destruct (decide (rev0 = rev)) as [->|]; [|done].
      exists at0. split; [exact E|]. by intros ? [= ->].
    + eexists. split; [done|]. by intros ? [=].
  - apply post_setCondition. intros t w. split_and!; [done| |done|done].
    do 2 eexists. exact (view_setResourceCondition t _ false _ _ _).
Qed.

(** The second half, from either branch. *)
Definition answered (serving : bool) (p1 : Pass W) (res : SubReconcilerResult) (p' : Pass W) : Prop :=
  evaluated p1 p' ∧ halts res = negb serving ∧
  ∃ rs m, view (sr_conditions (resource p')) (domain_name StackResourceWorkloadAvailable) =
          Some (bool_status serving, sr_generation (resource p'), rs, m).

Lemma availability_kept b (p q r : Pass W) :
  (∃ rs m, view (sr_conditions (resource p)) (domain_name StackResourceWorkloadAvailable) =
          Some (bool_status b, sr_generation (resource p), rs, m)) →
  keeps [] p q → keeps [StackResourceWorkloadConverged] q r →
  ∃ rs m, view (sr_conditions (resource r)) (domain_name StackResourceWorkloadAvailable) =
          Some (bool_status b, sr_generation (resource r), rs, m).
Proof.
  intros (rs & m & Hv) Hpq Hqr. exists rs, m.
  eapply (keeps_view _ StackResourceWorkloadAvailable) in Hqr as Hv2; [|set_solver].
  eapply (keeps_view _ StackResourceWorkloadAvailable) in Hpq as Hv1; [|set_solver].
  rewrite Hv2, Hv1, Hv. unfold sr_generation. by rewrite (proj1 Hqr), (proj1 Hpq).
Qed.

(** Both branches: say whether it serves, look at failures, check the ports. *)
Lemma branch_spec b rs m (capture : PM W unit) rev p1 :
  Preserves (keeps []) capture → Preserves (same rollout_facts) capture →
  post (_ ← setCondition StackResourceWorkloadAvailable b rs m; _ ← capture; checkPorts cfg rev b)
    (λ _ p', answered b p1 (if b then ResultContinue else ResultStop) p') p1.
Proof.
  intros Hk Hr. apply post_bind, post_setCondition. intros t w.
  set (p2 := mkPass w _ _).
  apply post_bind. intros [] p3 E3.
  pose proof (Preserves_post _ _ p2 Hk _ _ E3) as Hk3.
  pose proof (Preserves_post _ _ p2 Hr _ _ E3) as Hr3.
  intros d p4 E4.
  assert (StackResourceWorkloadConverged ∈ [StackResourceWorkloadConverged]) as Hin by set_solver.
  pose proof (Preserves_post _ _ p3 (checkPorts_keeps cfg _ rev b Hin) _ _ E4) as Hk4.
  split; [|split; [by destruct b|]].
  - eapply evaluated_prefix; [| |by eapply post_checkPorts_evaluated].
    + etrans; [apply (keeps_setCondition _ t StackResourceWorkloadAvailable b rs m p1); set_solver|].
      destruct Hk3 as (? & ? & Hk3). split_and!; [done..|]. intros t' _. apply Hk3. set_solver.
    + exact Hr3.
  - eapply availability_kept; [|exact Hk3|exact Hk4].
    exists rs, m. exact (view_setResourceCondition t _ b rs m _).
Qed.
Lemma post_seq3 {A B} (m1 m2 : PM W unit) (m3 : PM W A) (k : A → PM W B) Q p :
  post (_ ← m1; _ ← m2; m3) (λ a, post (k a) Q) p → post (_ ← m1; _ ← m2; a ← m3; k a) Q p.
Proof.
  intros H b p'. specialize (H). cbv [mbind se_bind]. cbv [post mbind se_bind] in H.
  destruct (m1 p) as [[[]|] p1]; [|done]. destruct (m2 p1) as [[[]|] p2]; [|done].
  destruct (m3 p2) as [[a|] p3]; [|done]. by apply (H a p3).
Qed.

Lemma post_seq2 {B} (m1 m2 : PM W unit) (k : PM W B) Q p :
  post (_ ← m1; m2) (λ _, post k Q) p → post (_ ← m1; _ ← m2; k) Q p.
Proof.
  intros H b p'. cbv [mbind se_bind]. cbv [post mbind se_bind] in H.
  destruct (m1 p) as [[[]|] p1]; [|done]. destruct (m2 p1) as [[[]|] p2]; [|done]. by apply (H tt p2).
Qed.

(** Only the world, the not-ready verdict and the result may still change. *)
Lemma answered_res b p1 res res' w r v w' :
  answered b p1 res (mkPass w r v) → halts res' = negb b → answered b p1 res' (mkPass w' r v).
Proof. by intros (He & _ & Ha) Hh. Qed.

Lemma clear_frames :
  Preserves (W:=W) (keeps []) (modifies (set_status clearFailure)) ∧
  Preserves (W:=W) (same rollout_facts) (modifies (set_status clearFailure)).
Proof. split; solve_preserves. Qed.

Lemma deploymentServes_spec d rev p1 : post (deploymentServes cfg d rev) (answered true p1) p1.
Proof.
  unfold deploymentServes. apply post_seq3.
  eapply post_mono; [apply branch_spec|].
  { destruct (deploymentConverged d); [apply clear_frames|apply capture_keeps]. }
  { destruct (deploymentConverged d); [apply clear_frames|apply capture_rollout]. }
  intros dur [w r v] Ha. cbv beta. destruct (0 <? dur)%Z.
  { by apply post_ret, (answered_res _ _ ResultContinue _ w). }
  do 2 vcg_step. destruct (_ && _); [|by apply post_ret, (answered_res _ _ ResultContinue _ w)].
  apply post_bind, post_lift_any.
  intros [] w'; by apply post_ret, (answered_res _ _ ResultContinue _ w).
Qed.

Lemma deploymentNotServing_spec d rev p1 : post (deploymentNotServing cfg d rev) (answered false p1) p1.
Proof.
  unfold deploymentNotServing. apply post_seq3.
  eapply post_mono; [apply branch_spec; [apply capture_keeps|apply capture_rollout]|].
  intros dur p2 ((Hk & Hr & Hc) & _ & Ha). unfold reportNotReady. do 2 vcg_step.
  apply post_bind, post_lift_any. intros settled w'.
  assert (evaluated p1 (mkPass w' (resource p2) (ReportNotReady "StackResourceDeploymentNotReady"
    "StackResourceDeploymentNotReady" (verdicts p2)))) as He.
  { split; [exact Hk|split; [exact Hr|]]. destruct Hc as [Hc|[Hc Hf]]; [by left|right].
    split; [done|]. cbn. unfold ReportNotReady. by destruct (NotReady _). }
  destruct settled; cbn [negb]; [destruct (0 <? dur)%Z|]; apply post_ret; by split.
Qed.

(** What a Deployment's status becomes.  The replica counts are copied;
    WorkloadAvailable says whether the Deployment serves, and exactly when it
    does not the chain halts; WorkloadConverged is True only for a converged
    Deployment, and a converged one is denied it only by a condemned port, which
    then has a failure verdict.  The convergence record is written once per
    revision: a converged pass leaves the record of its revision, the existing
    one where there was one, and any other pass leaves the record alone. *)
Theorem deployment_status_spec d p :
  let st := dep_status d in
  post (evaluateDeploymentStatus cfg d) (λ res p',
    let s' := sr_status (resource p') in
    let cs' := sr_conditions (resource p') in
    let gen := sr_generation (resource p') in
    (status_replicas s', available_replicas s', updated_replicas s') =
      (dst_replicas st, dst_available_replicas st, dst_updated_replicas st) ∧
    (∃ rs m, view cs' (domain_name StackResourceWorkloadAvailable) =
       Some (bool_status (deploymentServing d), gen, rs, m)) ∧
    halts res = negb (deploymentServing d) ∧
    (∃ b rs m, view cs' (domain_name StackResourceWorkloadConverged) =
       Some (bool_status b, gen, rs, m) ∧
       (b = true → deploymentConverged d = true) ∧
       (deploymentConverged d = true → b = false →
          rs = ReasonPortNotListening ∧ is_Some (Failed (verdicts p')))) ∧
    (if deploymentConverged d then
       ∀ rev, sr_annotations (resource p) !! RevisionAnnotation = Some rev →
         ∃ at_, last_converged s' = Some (mkStackResourceConvergenceRecord rev at_) ∧
           ∀ at0, last_converged (sr_status (resource p)) =
             Some (mkStackResourceConvergenceRecord rev at0) → at_ = at0
     else last_converged s' = last_converged (sr_status (resource p)))) p.
Proof.
  intros st. unfold evaluateDeploymentStatus.
  apply (post_seq2 (setReplicas _ _ _)).
  eapply post_mono; [apply recordRollout_spec|].
  intros _ p1 (Hm & (rs & m & Hc) & Hl & Hn). cbv beta zeta.
  set (rev := mget _ _). assert (post (if deploymentServing d then deploymentServes cfg d rev
    else deploymentNotServing cfg d rev) (answered (deploymentServing d) p1) p1) as Hb.
  { destruct (deploymentServing d); [apply deploymentServes_spec|apply deploymentNotServing_spec]. }
  eapply post_mono; [exact Hb|]. intros res p' ((Hk & Hr & Hcv) & Hh & Ha).
  assert (sr_generation (resource p') = sr_generation (resource p)) as Hg.
  { unfold sr_generation. rewrite <- Hm. by rewrite (proj1 Hk). }
  unfold same in Hr. pose proof (f_equal fst Hr) as Hr1. pose proof (f_equal snd Hr) as Hr2.
  rewrite <- Hr1 in Hl. rewrite <- Hr2 in Hn. cbn [fst snd rollout_facts] in Hl, Hn.
  split_and!; [exact Hn|exact Ha|exact Hh| |].
  - destruct Hcv as [E|[[m' E] Hf]].
    + exists (deploymentConverged d), rs, m. rewrite E, Hc, Hg. split; [done|]. by split; [|intros -> [=]].
    + exists false, ReasonPortNotListening, m'. by split_and!.
  - unfold stamped in Hl. exact Hl.
Qed.
End deployment_facts.

Section workload_properties.
Context {W : Type} (cfg : ReconcilerConfig).
Context {CA : ConditionsApi} {CL : ConditionsLaws} {OA : OwnerApi} {GT : GoText} {BD : BuildDigest}.
Context {TF : TimeFormat} {CK : Clock W} {VO : VerifierOps W} {DC : DependencyChecker W} {PS : PodSort}.
Context {UR : UncachedList W ReplicaSet} {UP : UncachedList W Pod}.
Context {KB : Kind W ImageBuild} {KSec : Kind W Secret} {KV : Kind W Volume} {KJ : Kind W Job}.
Context {UD : CreateOrUpdate W Deployment} {US : CreateOrUpdate W StatefulSet}
  {UC : CreateOrUpdate W CronJob}.

(** The facts the step owes the chain, for a resource with this spec. *)
Definition workload_owes (sp : StackResourceSpec) : list StackResourceDomainCondition :=
  [StackResourceWorkloadAvailable; StackResourceDependenciesReady] ++
  match build_spec sp with Some _ => [StackResourceBuildReady] | None => [] end.

Lemma dispatch_all p sp :
  (∀ d, d ∈ workload_owes sp → d ≠ StackResourceWorkloadAvailable → holds d p) →
  post (dispatch cfg) (outcome (workload_owes sp)) p.
Proof.
  intros Hd res p' E. pose proof (dispatch_outcome cfg p res p' E) as Ho.
  pose proof (Preserves_post _ _ p (dispatch_keeps cfg) res p' E) as Hk. unfold outcome in *.
  destruct (halts res); [done|]. intros d Hin.
  destruct (decide (d = StackResourceWorkloadAvailable)) as [->|Hne]; [by apply Ho; left|].
  eapply keeps_holds; [|exact Hk|by apply Hd]. unfold workload_owes in Hin.
  destruct (build_spec sp); set_solver.
Qed.

Lemma Reconcile_outcome p : post (Reconcile cfg) (outcome (workload_owes (sr_spec (resource p)))) p.
Proof.
  unfold Reconcile. do 2 vcg_step. apply post_bind, post_lift_any. intros deps w.
  destruct deps.1; cbn [negb]; [|by unfold gateShut; vcg; apply verdict_notReady].
  do 2 vcg_step. apply post_bind, post_lift_any. intros mounts w1. cbv zeta.
  destruct (fst _); cbn [negb]; [|by unfold gateShut; vcg; apply verdict_notReady].
  apply post_bind, post_setCondition. intros t w2.
  match goal with |- post _ _ ?p2 => assert (holds StackResourceDependenciesReady p2) as Hdep
    by apply holds_setCondition; generalize dependent p2 end. intros p2 Hdep.
  unfold buildGate. cbn [resource]. destruct (build_spec (sr_spec (resource p))) as [b|] eqn:Hb.
  2: { apply dispatch_all. intros d. unfold workload_owes. rewrite Hb. set_solver. }
  apply post_bind, post_lift_any. intros build w3.
  destruct (imageBuildComplete build); cbn [negb]; [|by vcg; apply verdict_notReady].
  apply post_bind, post_setCondition. intros t' w4. apply dispatch_all. intros d. unfold workload_owes.
  rewrite Hb. intros Hin Hne. destruct (decide (d = StackResourceBuildReady)) as [->|Hnb].
  { apply holds_setCondition. }
  assert (d = StackResourceDependenciesReady) as -> by set_solver.
  eapply (keeps_holds [StackResourceBuildReady]); [set_solver|by apply keeps_setCondition; left|exact Hdep].
Qed.

(** The workload step is never silent.  Whatever the world answers, a pass
    that does not end in an error either halts with a verdict for the status
    derivation, or goes on with the dependencies, the build (for a resource built
    from source) and the workload's availability all True for the current
    generation. *)
Theorem workload_never_silent p :
  post (Reconcile cfg) (λ res p',
    if halts res then has_verdict p'
    else holds StackResourceWorkloadAvailable p' ∧ holds StackResourceDependenciesReady p' ∧
         (is_Some (build_spec (sr_spec (resource p))) → holds StackResourceBuildReady p')) p.
Proof.
  intros res p' E. pose proof (Reconcile_outcome p res p' E) as Ho. unfold outcome in Ho.
  destruct (halts res); [done|]. unfold workload_owes in Ho.
  split_and!; [apply Ho; set_solver..|]. intros [b Hb]. rewrite Hb in Ho. apply Ho. set_solver.
Qed.

(** The answer of the mount check: an error is logged and reads as "not ready". *)
Definition mounts_answer (res : result (bool * string)) : bool * string :=
  match res with Ok m => m | Err _ => (false, "") end.

(** How a shut gate leaves the pass: one reading of the clock after the world
    [w] the check left behind, a False condition, and a not-ready verdict. *)
Definition shut (d : StackResourceDomainCondition) (creason reason cmsg msg : string) (w : W)
    (r : StackResource) (v : VerdictCollector) (p' : Pass W) : Prop :=
  ∃ t w', time_now w = (t, w') ∧
    p' = mkPass w' (setResourceCondition t d false creason cmsg r) (ReportNotReady reason msg v).

Lemma setCondition_run d b rs m (p : Pass W) :
  ∃ t w', time_now (world p) = (t, w') ∧
    setCondition d b rs m p = (Ok tt, mkPass w' (setResourceCondition t d b rs m (resource p)) (verdicts p)).
Proof.
  destruct p as [w r v]. cbn. destruct (time_now w) as [t w'] eqn:E. exists t, w'. split; [done|].
  unfold setCondition, lift, now. cbv [mbind se_bind]. cbn. by rewrite E.
Qed.

Lemma gateShut_run reason msg p :
  ∃ p', gateShut reason msg p = (Ok (ResultRequeueAfter DefaultRequeueTime), p') ∧
    shut StackResourceDependenciesReady reason reason msg msg (world p) (resource p) (verdicts p) p'.
Proof.
  destruct (setCondition_run StackResourceDependenciesReady false reason msg p) as (t & w' & E & H).
  eexists. split; [unfold gateShut, reportNotReady; se_step by (exact H); reflexivity|]. by exists t, w'.
Qed.

(** C18. The gates hold back everything behind them.  When the dependencies are
    not available, when the volume mounts are not ready or could not be checked,
    or when the build is not complete, the pass ends right there: the world has
    seen the checks and the clock and nothing else (no workload is applied), the
    gate's condition is False with the message of the check, and the verdict is
    not-ready. *)
Theorem gates_hold_back w0 r v w1 deps :
  DependenciesAvailable r w0 = (Ok deps, w1) →
  (deps.1 = false → ∃ p', Reconcile cfg (mkPass w0 r v) = (Ok (ResultRequeueAfter DefaultRequeueTime), p') ∧
     shut StackResourceDependenciesReady "DependenciesNotReady" "DependenciesNotReady"
       deps.2 deps.2 w1 r v p') ∧
  (deps.1 = true → ∀ res w2, VolumeMountsReadyForUse r w1 = (res, w2) → (∀ m, res ≠ Err (Panic m)) →
     let mounts := mounts_answer res in
     (mounts.1 = false → ∃ p', Reconcile cfg (mkPass w0 r v) = (Ok (ResultRequeueAfter DefaultRequeueTime), p') ∧
        shut StackResourceDependenciesReady "VolumeMountsNotReady" "VolumeMountsNotReady"
          mounts.2 mounts.2 w2 r v p') ∧
     (mounts.1 = true → ∀ b build w3,
        build_spec (sr_spec r) = Some b →
        getImageBuild r b (time_now w2).2 = (Ok build, w3) → imageBuildComplete build = false →
        ∃ t p', Reconcile cfg (mkPass w0 r v) = (Ok ResultStop, p') ∧
          shut StackResourceBuildReady "BuildNotReady" "ApplicationBuildNotYetReady"
            "application build is not yet ready" "Application build is not yet ready" w3
            (setResourceCondition t StackResourceDependenciesReady true "DependenciesReady"
               "dependencies and volume mounts ready" r) v p')).
Proof.
  intros Hd.
  assert (∀ k, (r ← gets resource; deps ← lift (DependenciesAvailable r); k r deps) (mkPass w0 r v)
    = (k r deps : PM W SubReconcilerResult) (mkPass w1 r v)) as Hstep.
  { intros k. cbv [mbind se_bind gets lift]. cbn. by rewrite Hd. }
  unfold Reconcile. rewrite Hstep. clear Hstep. split; intros Hdeps; rewrite Hdeps; cbn [negb].
  { apply gateShut_run. }
  intros res w2 Hv Hp. set (mounts := mounts_answer res).
  assert (attempt (VolumeMountsReadyForUse r) w1 = (Ok res, w2)) as Ha.
  { destruct res; [by apply attempt_ok|apply attempt_err; naive_solver]. }
  assert (∀ k, (r ← gets resource; res ← lift (attempt (VolumeMountsReadyForUse r)); k r res) (mkPass w1 r v)
    = (k r res : PM W SubReconcilerResult) (mkPass w2 r v)) as Hstep.
  { intros k. cbv [mbind se_bind gets lift]. cbn. by rewrite Ha. }
  rewrite Hstep. clear Hstep. change (match res with Ok m => m | Err _ => (false, "") end) with mounts.
  cbv zeta. split; intros Hm; rewrite Hm; cbn [negb]; [apply gateShut_run|].
  intros b build w3 Hb Hg Hc.
  destruct (setCondition_run StackResourceDependenciesReady true "DependenciesReady"
    "dependencies and volume mounts ready" (mkPass w2 r v)) as (t & w' & Et & E).
  cbn in Et. rewrite Et in Hg. cbn in Hg. exists t.
  destruct (setCondition_run StackResourceBuildReady false "BuildNotReady"
    "application build is not yet ready" (mkPass w3 (setResourceCondition t
      StackResourceDependenciesReady true "DependenciesReady"
      "dependencies and volume mounts ready" r) v)) as (t' & w'' & Et' & E').
  eexists. split; [|exists t', w''; split; [exact Et'|reflexivity]].
  se_step by (exact E). unfold buildGate. rewrite Hb.
  se_step by (unfold lift; cbn; rewrite Hg; reflexivity). rewrite Hc. cbn [negb].
  se_step by (exact E'). reflexivity.
Qed.

(** A Job that has run: a condition of it says that it completed or failed. *)
Definition jobDone (j : Job) : Prop :=
  ∃ c, c ∈ jst_conditions (job_status j) ∧ (jc_type c = JobComplete ∨ jc_type c = JobFailed) ∧
    jc_status c = ConditionTrue.

Lemma jobFinished_spec j : jobFinished j = true ↔ jobDone j.
Proof.
  unfold jobFinished, jobDone. rewrite existsb_exists. split.
  - intros (c & Hc & H). exists c. rewrite list_elem_of_In. split; [done|].
    apply andb_true_iff in H as [H Hs%bool_decide_eq_true]. split; [|done].
    apply orb_true_iff in H as [H%bool_decide_eq_true|H%bool_decide_eq_true]; auto.
  - intros (c & Hc%list_elem_of_In & Ht & Hs). exists c. split; [done|].
    rewrite (bool_decide_true (jc_status c = _)), andb_true_r by done. apply orb_true_iff.
    destruct Ht; [left|right]; by apply bool_decide_true.
Qed.

(** The calls of a pass that looks at a Job, and those that gather what a new one
    is made of. *)
Definition looks (I : W → Prop) : Prop :=
  Inv I now ∧ ∀ ns sels, Inv I (ulist (O:=Pod) ns sels).
Definition gathers (I : W → Prop) : Prop :=
  (∀ ns n, Inv I (kget (O:=Volume) ns n)) ∧ (∀ ns n, Inv I (kget (O:=ImageBuild) ns n)) ∧
  (∀ ns n, Inv I (kget (O:=Secret) ns n)).

Lemma evaluateJob_inv I job : looks I → Inv (λ p, I (world p)) (evaluateJobStatus job).
Proof.
  intros [Hn Hl].
  assert (∀ rev, Inv (λ p, I (world p)) (capturePodFailureDetailsOnce (W:=W) rev)) as Hcap.
  { intros rev. apply inv_bind; [apply inv_gets|]. intros r' _. case_decide; [apply inv_ret|].
    apply inv_bind; [|intros ? _; by apply inv_local].
    apply inv_bind; [|intros [] _; auto with inv]. apply inv_lift, inv_attempt.
    apply inv_bind; [apply inv_wrapping, Hl|]. intros pods _. case_match; auto with inv. }
  unfold evaluateJobStatus, reportFailed, reportNotReady.
  apply inv_bind; [apply inv_gets|]. intros r' _. destruct (1 <=? _)%Z; [|destruct (jobFailure job)].
  all: repeat (apply inv_bind; [auto using inv_lift, inv_setCondition with inv|intros ? _]).
  all: try case_match; auto with inv.
Qed.
Lemma evaluateJob_via job w r v :
  via looks w (world (evaluateJobStatus job (mkPass w r v)).2).
Proof. intros I HI Hw. by apply (evaluateJob_inv I job HI (mkPass w r v)). Qed.

(** The chain goes on only past a Job that has succeeded. *)
Lemma evaluateJob_continues job w r v :
  (evaluateJobStatus job (mkPass w r v)).1 = Ok ResultContinue ↔ (1 <= jst_succeeded (job_status job))%Z.
Proof.
  split.
  - assert (post (evaluateJobStatus job)
      (λ res _, res = ResultContinue → (1 <= jst_succeeded (job_status job))%Z) (mkPass w r v)) as Hp.
    { unfold evaluateJobStatus. do 2 vcg_step. destruct (Z.leb_spec 1 (jst_succeeded (job_status job))).
      - by repeat (apply post_bind, post_any; intros ? ?); apply post_ret.
      - case_match; repeat (apply post_bind, post_any; intros ? ?); repeat case_match; by apply post_ret. }
    destruct (evaluateJobStatus job (mkPass w r v)) as [[res|e] p'] eqn:E; intros [= Hr]. by eapply Hp.
  - intros Hs. unfold evaluateJobStatus. se_step by reflexivity.
    rewrite (proj2 (Z.leb_le 1 _) Hs). se_step by reflexivity.
    do 2 match goal with |- context [(setCondition ?d ?b ?rs ?m ≫= _) ?p] =>
      destruct (setCondition_run d b rs m p) as (? & ? & _ & E); rewrite (se_bind_ok _ _ _ _ _ E); clear E end.
    reflexivity.
Qed.

(** The Job of the resource's revision: its name, the revision it carries, and its owner. *)
Definition jobOf (r : StackResource) (j : Job) : Prop :=
  om_name (job_meta j) = sr_name r ∧ om_namespace (job_meta j) = sr_namespace r ∧
  om_annotations (job_meta j) !! RevisionAnnotation = Some (revisionOf (sr_meta r)) ∧
  is_controlled_by (job_meta j) (sr_meta r) = true.

Context {OL : OwnerLaws}.

(** What is gathered for a Job precedes its creation, which is tried once. *)
Lemma applyJob_run r w :
  let out := applyJob r w in
  (via gathers w out.2 ∧ ∃ e, out.1 = Err e) ∨
  ∃ j w1 ans, via gathers w w1 ∧ jobOf r j ∧ kcreate j w1 = (ans, out.2) ∧ out.1 = (_ ← ans; mret tt).
Proof.
  cbv zeta. unfold applyJob.
  assert (∀ I, gathers I → Inv I (getVolumeMountInfoMap r)) as HI1
    by (intros I (H & _); by apply volumeInfo_inv).
  assert (∀ I, gathers I → Inv I (getImageForResource r)) as HI2.
  { intros I (_ & H & _). unfold getImageForResource, getImageBuild.
    repeat case_match; auto with inv. apply inv_bind; auto with inv. }
  assert (∀ I, gathers I → Inv I (resolveAndSetImagePullSecret r)) as HI3.
  { intros I (_ & _ & H). unfold resolveAndSetImagePullSecret, resolveImagePullSecretName.
    case_match; [|apply inv_ret]. apply inv_bind; [|auto with inv].
    apply inv_bind; [auto with inv|]. intros n _. apply inv_bind; [auto with inv|].
    intros [] _; auto with inv. }
  cbv [mbind se_bind of_result].
  destruct (getVolumeMountInfoMap r w) as [[info|e] w1] eqn:E1; apply (via_call gathers _ _ _ _ HI1) in E1;
    [|left; cbn; eauto].
  destruct (getImageForResource r w1) as [[image|e] w2] eqn:E2; apply (via_call gathers _ _ _ _ HI2) in E2;
    (pose proof (via_trans _ _ _ _ E1 E2)); [|left; cbn; eauto].
  destruct (jobTemplate r image info) as [template|e]; [|left; cbn; eauto].
  destruct (resolveAndSetImagePullSecret r w2) as [[secret|e] w3] eqn:E3;
    apply (via_call gathers _ _ _ _ HI3) in E3; pose proof (via_trans _ w w2 w3 ltac:(done) E3); [|left; cbn; eauto].
  destruct (set_controller_reference (sr_meta r) _) as [m|e] eqn:Em; [|left; cbn; eauto].
  right. destruct (kcreate _ w3) as [ans w4] eqn:Ec. eexists _, w3, ans.
  split; [done|]. split; [|split; [rewrite Ec; by destruct ans|by destruct ans]].
  - pose proof (controlled_after_set_controller _ _ _ Em) as Hc.
    apply set_controller_keeps in Em as [refs ->]. split_and!; [done..| |exact Hc].
    apply (lookup_singleton_eq (M:=gmap string) RevisionAnnotation).
Qed.

(** C33. A Job runs once per revision.  The pass reads the Job of the resource's
    name first, and what it then does depends on the answer.  (1) The Job is
    there, and has not finished or has finished for the resource's own revision
    (finished: a condition of type Complete or Failed is True): the pass makes no
    call but reads of the clock and of the pods, so it neither creates nor deletes
    anything, and the chain goes on exactly when the Job has a success.  (2) The Job
    has finished for another revision: that Job is deleted, which is the only call
    after the read; if it is deleted, or was already gone, the pass comes back in
    two seconds with the verdict that the new Job has yet to be created and with
    the resource as it was, and any other error is the pass's.
    (3) There is no Job: nothing but reads of volumes, the image build and the pull
    secret happen before one attempt to create the Job, which has the resource's
    name, is controlled by it and carries its revision; when it succeeds the pass
    comes back in five seconds, when it fails, or what the Job needs is not there,
    the pass fails.  (4) The read fails otherwise: the pass fails and makes no
    other call. *)
Theorem job_runs_once_per_revision w r v w1 found :
  kget (sr_namespace r) (GetWorkloadNameForResource r) w = (found, w1) →
  let out := reconcileJob (mkPass w r v) in
  match found with
  | Ok job =>
      (¬ jobDone job ∨ revisionOf (job_meta job) = revisionOf (sr_meta r) →
         via looks w1 (world out.2) ∧
         (out.1 = Ok ResultContinue ↔ (1 <= jst_succeeded (job_status job))%Z)) ∧
      (jobDone job → revisionOf (job_meta job) ≠ revisionOf (sr_meta r) →
         ∀ res w2, kdelete job w1 = (res, w2) →
           world out.2 = w2 ∧
           (res = Ok tt ∨ (∃ e, res = Err e ∧ is_not_found e = true) →
              out = (Ok (ResultRequeueAfter (2 * second)%Z),
                     mkPass w2 r (ReportNotReady "JobRunning"
                       "waiting for the new revision's job to be created" v))) ∧
           (∀ e, res = Err e → is_not_found e = false → out.1 = Err e))
  | Err e =>
      if is_not_found e then
        (via gathers w1 (world out.2) ∧ ∃ e', out.1 = Err e') ∨
        ∃ j w2 ans, via gathers w1 w2 ∧ jobOf r j ∧ kcreate j w2 = (ans, world out.2) ∧
          out.1 = (_ ← ans; mret (ResultRequeueAfter (5 * second)%Z))
      else out = (Err e, mkPass w1 r v)
  end.
Proof.
  intros Hg. cbv zeta. unfold reconcileJob. se_step by reflexivity.
  assert (lift (attempt (kget (sr_namespace r) (GetWorkloadNameForResource r))) (mkPass w r v)
    = ((if found is Err (Panic m) then Err (Panic m) else Ok found), mkPass w1 r v)) as Hl.
  { unfold lift, attempt. cbn [world resource verdicts]. rewrite Hg. by destruct found as [|[]]. }
  destruct found as [job|e].
  - se_step by (exact Hl). split.
    + intros Hor. replace (_ && _) with false; [split; [apply evaluateJob_via|apply evaluateJob_continues]|]. symmetry.
      apply andb_false_iff. destruct Hor as [Hn|E].
      * left. apply not_true_iff_false. by rewrite jobFinished_spec.
      * right. rewrite E. apply bool_decide_eq_false. by intros [].
    + intros Hd Hr res w2 Hk. rewrite (proj2 (jobFinished_spec job) Hd), bool_decide_true by done.
      cbn [andb].
      assert (ignore_not_found (kdelete job) w1
        = ((if res is Err e then if is_not_found e then Ok tt else Err e else Ok tt), w2)) as Hi.
      { unfold ignore_not_found, attempt, mbind, se_bind. rewrite Hk.
        destruct res as [[]|[]]; cbn; by repeat case_match. }
      cbv [mbind se_bind lift]. cbn. rewrite Hi. destruct res as [[]|e]; [by split_and!|].
      destruct (is_not_found e) eqn:He; cbn; split_and!; [done|done| | |intros [|(? & [= <-] & ?)]|]; congruence.
  - destruct (is_not_found e) eqn:He.
    + se_step by (etrans; [exact Hl|]; by destruct e). rewrite He.
      destruct (applyJob_run r w1) as [[Hv [e' E]]|(j & w2 & ans & Hv & Hj & Hc & E)];
        destruct (applyJob r w1) as [ra wa] eqn:Ea; cbn [fst snd] in *; subst ra; cbv [mbind se_bind lift]; cbn; rewrite Ea.
      * left. cbn. eauto.
      * right. exists j, w2, ans. destruct ans; cbn in *; by split_and!.
    + destruct e; try discriminate He; first [by erewrite se_bind_err by (exact Hl)|se_step by (exact Hl)].
      all: cbn in He |- *; by rewrite ?He.
Qed.

(** A run a CronJob may report, and when it completed. *)
Definition candidate (c : CronJob) (j : Job) (t : Time) : Prop :=
  is_controlled_by (job_meta j) (cj_meta c) = true ∧ jst_completion_time (job_status j) = Some t.

(** The run a CronJob reports is its latest completed one: a Job of the
    listing that the CronJob controls and that has completed, such that no other
    of those completed later; and there is one whenever any completed. *)
Theorem latest_completed_spec c jobs :
  match latestCompleted c jobs with
  | Some j => j ∈ jobs ∧ ∃ t, candidate c j t ∧ ∀ k u, k ∈ jobs → candidate c k u → (u ≤ t)%Z
  | None => ∀ k u, k ∈ jobs → ¬ candidate c k u
  end.
Proof.
  unfold latestCompleted. induction jobs as [|k jobs IH] using rev_ind.
  { by intros k u ?%not_elem_of_nil. }
  rewrite foldl_app. cbn [foldl]. unfold laterJob at 1.
  assert (∀ x, x ∈ jobs ++ [k] ↔ x ∈ jobs ∨ x = k) as Hin
    by (intros x; by rewrite elem_of_app, list_elem_of_singleton).
  unfold candidate in *.
  destruct (is_controlled_by (job_meta k) (cj_meta c)) eqn:Hk; cbn [negb];
    [destruct (jst_completion_time (job_status k)) as [tk|] eqn:Htk|];
    destruct (foldl (laterJob c) None jobs) as [j|].
  1: destruct IH as (Hj & t & [Hc Ht] & Hmax); rewrite Ht; destruct (Z.ltb_spec t tk).
  all: try (destruct IH as (Hj & t & [Hc Ht] & Hmax)).
  all: setoid_rewrite Hin; clear Hin.
  - split; [by right|]. exists tk. split; [done|]. intros k' u [Hin| ->] [H1 H2]; [|simplify_eq; lia].
    assert (u ≤ t)%Z by eauto. lia.
  - split; [by left|]. exists t. split; [done|].
    intros k' u [Hin| ->] [H1 H2]; [by eapply Hmax|simplify_eq; lia].
  - split; [by right|]. exists tk. split; [done|].
    intros k' u [Hin| ->] H; [by destruct (IH k' u)|]. destruct H; simplify_eq; lia.
  - split; [by left|]. exists t. split; [done|].
    intros k' u [Hin| ->] [H1 H2]; [by eapply Hmax|congruence].
  - intros k' u [Hin| ->] [H1 H2]; [by destruct (IH k' u)|congruence].
  - split; [by left|]. exists t. split; [done|].
    intros k' u [Hin| ->] [H1 H2]; [by eapply Hmax|congruence].
  - intros k' u [Hin| ->] [H1 H2]; [by destruct (IH k' u)|congruence].
Qed.
End workload_properties.

(** * Witnesses *)

Import Cluster.

#[local] Instance dependencies_missing : DependencyChecker Z := {
  DependenciesAvailable _ t := (Ok (false, "Dependent resource 'db' not yet available"), t);
  VolumeMountsReadyForUse _ t := (Ok (true, ""), t);
}.
Definition finished_job : Job :=
  mkJob ((object_meta "web" "default") <| om_annotations := {[ RevisionAnnotation := "1" ]} |>)
    (mkJobSpec None None None None empty_pod_template)
    (mkJobStatus [mkJobCondition JobComplete ConditionTrue ""] 1 (Some 7%Z)).
#[local] Instance one_job : Kind Z Job := only_objects [finished_job].

Lemma gates_hold_back_witness :
  ∃ p', Reconcile (mkReconcilerConfig false false 0) (mkPass 5%Z (sample_resource "web") no_verdicts) =
          (Ok (ResultRequeueAfter DefaultRequeueTime), p') ∧
    NotReady (verdicts p') =
      Some (mkVerdict "DependenciesNotReady" "Dependent resource 'db' not yet available").
Proof.
  assert (DependenciesAvailable (sample_resource "web") 5%Z =
    (Ok (false, "Dependent resource 'db' not yet available"), 5%Z)) as Hd by reflexivity.
  destruct (gates_hold_back (W:=Z) (mkReconcilerConfig false false 0) 5%Z (sample_resource "web")
    no_verdicts 5%Z (false, "Dependent resource 'db' not yet available") Hd) as [H _].
  destruct (H eq_refl) as (p' & HR & t & w' & _ & ->).
  eexists. split; [exact HR|reflexivity].
Defined.

(** The Job that is there has finished for revision 1, and the resource is at revision 2. *)
Lemma job_runs_once_per_revision_witness :
  let r := (sample_resource "web") <| sr_meta ::= (λ m, m <| om_annotations :=
             {[ RevisionAnnotation := "2" ]} |>) |> in
  ∃ v, reconcileJob (mkPass 5%Z r no_verdicts) =
         (Ok (ResultRequeueAfter (2 * second)%Z), mkPass 5%Z r v).
Proof.
  intros r. eexists.
  assert (kget (sr_namespace r) (GetWorkloadNameForResource r) 5%Z = (Ok finished_job, 5%Z)) as Hg
    by reflexivity.
  destruct (job_runs_once_per_revision (W:=Z) 5%Z r no_verdicts 5%Z (Ok finished_job) Hg) as [_ H].
  assert (jobDone finished_job) as Hd by (apply jobFinished_spec; reflexivity).
  apply (H Hd ltac:(discriminate) (Ok tt) 5%Z eq_refl). left. reflexivity.
Defined.

Lemma workload_never_silent_witness :
  ∃ res p', Reconcile (mkReconcilerConfig false false 0) (mkPass 5%Z (sample_resource "web") no_verdicts) =
      (Ok res, p') ∧ has_verdict p'.
Proof.
  destruct (Reconcile _ _) as [[res|e] p'] eqn:E; [|exfalso; vm_compute in E; discriminate].
  exists res, p'. split; [reflexivity|].
  pose proof (workload_never_silent (mkReconcilerConfig false false 0)
    (mkPass 5%Z (sample_resource "web") no_verdicts) res p' E) as H.
  assert (halts res = true) as Hh by (vm_compute in E; injection E as <- _; reflexivity).
  cbv beta in H. rewrite Hh in H. exact H.
Defined.

Lemma deployment_status_spec_witness :
  ∃ res p', evaluateDeploymentStatus (mkReconcilerConfig false false 0)
      (new_deployment "web" "default") (mkPass 5%Z (sample_resource "web") no_verdicts) =
      (Ok res, p') ∧ halts res = true.
Proof.
  destruct (evaluateDeploymentStatus _ _ _) as [[res|e] p'] eqn:E;
    [|exfalso; vm_compute in E; discriminate].
  exists res, p'. split; [reflexivity|].
  destruct (deployment_status_spec (mkReconcilerConfig false false 0)
    (new_deployment "web" "default") (mkPass 5%Z (sample_resource "web") no_verdicts)
    res p' E) as (_ & _ & -> & _). vm_compute. reflexivity.
Defined.
