(* ===== verification/Dependencies.v ===== *)
(** What a workload waits for: its sibling resources and its volumes
    (internal/controller/stackresource/workload_dependency_checker.go), the only
    implementation of the [DependencyChecker] interface. *)
From S2P Require Import Prelude Text Kube Apimachinery Api Storage Workloads.

Section checker.
Context {CA : ConditionsApi}.

(** [stackResourceAvailable] (stackresource_controller.go). *)
Definition stackResourceAvailable (r : StackResource) : bool :=
  match find_status_condition (sr_conditions r) (summary_name StackResourceStatusAvailable) with
  | Some c => bool_decide (c_status c = ConditionTrue) &&
              (c_observed_generation c =? sr_generation r)%Z
  | None => false
  end.

(** A sync condition that is True, of a status that has seen this generation. *)
Definition syncedCondition (t : VolumeCondition) (v : Volume) : bool :=
  match find_status_condition (vst_conditions (vol_status v)) (volume_condition_name t) with
  | Some c => bool_decide (c_status c = ConditionTrue) &&
              (vst_observed_generation (vol_status v) =? om_generation (vol_meta v))%Z
  | None => false
  end.
Definition localDirSyncedToVolume (d : RemoteDirSource) (v : Volume) : bool :=
  syncedCondition VolumeConditionSyncedFromRemote v &&
  bool_decide (vst_last_remote_sync_hash (vol_status v) = rds_current_directory_hash d).
Definition gitRepoSyncedToVolume (g : VolumeGitRepoSource) (v : Volume) : bool :=
  syncedCondition VolumeConditionSyncedFromGitSource v &&
  bool_decide (vst_last_synced_git_reference (vol_status v) = GetGitRevisionString (vgs_revision g)).
Definition buildSyncCompletedAndUptoDate (i : BuildArtifactSyncInfo) (currentBuildID : string) : bool :=
  bool_decide (bai_status i = BuildArtifactSyncStatusCompleted) &&
  bool_decide (bai_build_id i = currentBuildID).

Definition isVolumeReady (v : Volume) (r : StackResource) : bool * string :=
  match vsp_source (vol_spec v) with
  | None => (true, "")
  | Some src =>
      match vs_remote_dir src, vs_git_repo src, vs_build_artifacts src with
      | Some d, _, _ =>
          if negb (localDirSyncedToVolume d v)
          then (false, "Local directory not yet synced to volume") else (true, "")
      | None, Some g, _ =>
          if negb (gitRepoSyncedToVolume g v)
          then (false, "Git repository not yet synced to volume") else (true, "")
      | None, None, Some _ =>
          match current_build (sr_status r) with
          | None => (false, "Current build not yet available")
          | Some b =>
              if negb (bst_available b) then (false, "Current build not yet available")
              else
                let up_to_date :=
                  match vst_build_artifact_syncs (vol_status v) !! sr_name r with
                  | Some i => buildSyncCompletedAndUptoDate i (bst_source_revision b)
                  | None => false
                  end in
                if negb up_to_date then (false, "Volume sync from build not yet complete")
                else (true, "")
          end
      | None, None, None => (true, "")
      end
  end.

Context {W : Type} {KR : Kind W StackResource} {KV : Kind W Volume}.

(** The dependencies among the resources of the namespace. *)
Definition dependenciesAmong (r : StackResource) (l : list StackResource) : list StackResource :=
  filter (λ s, sr_name s ≠ sr_name r ∧ sr_name s ∈ depends_on (sr_spec r)) l.

Definition getDependencies (r : StackResource) : SE W (list StackResource) :=
  if decide (length (depends_on (sr_spec r)) = 0) then mret []
  else
    l ← klist (sr_namespace r) [];
    let res := dependenciesAmong r l in
    if decide (length res ≠ length (depends_on (sr_spec r)))
    then fail (Errorf "missing workspace resource deps") else mret res.

Definition firstUnavailable (l : list StackResource) : option StackResource :=
  List.find (λ s, negb (stackResourceAvailable s)) l.

Definition DependenciesAvailable (r : StackResource) : SE W (bool * string) :=
  if decide (length (depends_on (sr_spec r)) = 0) then mret (true, "")
  else
    l ← getDependencies r;
    if decide (length l ≠ length (depends_on (sr_spec r)))
    then fail (Errorf "some dependency resource are not yet created")
    else match firstUnavailable l with
         | Some s => mret (false, "Dependent resource '" +:+ sr_name s +:+ "' not yet available")
         | None => mret (true, "")
         end.

Definition getVolumes (r : StackResource) : SE W (list Volume) :=
  l ← klist (sr_namespace r) [];
  mret (Unique vol_name (filter (λ v, vol_name v ∈ VolumeMountSources r) l)).

(** The loop over the volumes stops at the first that is not ready. *)
Definition firstNotReady (r : StackResource) (l : list Volume) : bool * string :=
  match List.find (λ v, negb (isVolumeReady v r).1) l with
  | Some v => (false, (isVolumeReady v r).2)
  | None => (true, "")
  end.

Definition VolumeMountsReadyForUse (r : StackResource) : SE W (bool * string) :=
  if decide (length (volume_mounts (sr_spec r)) = 0) then mret (true, "")
  else
    volumes ← wrapping "failed to get workspace volumes: " (getVolumes r);
    mret (firstNotReady r volumes).

#[export] Instance workloadDependencyChecker : DependencyChecker W := {
  Workloads.DependenciesAvailable := DependenciesAvailable;
  Workloads.VolumeMountsReadyForUse := VolumeMountsReadyForUse;
}.
End checker.

(** * Properties *)

Section checker_facts.
Context {CA : ConditionsApi}.

Lemma firstUnavailable_None l :
  firstUnavailable l = None ↔ ∀ s, s ∈ l → stackResourceAvailable s = true.
Proof.
  unfold firstUnavailable. split.
  - intros H s Hs%list_elem_of_In. pose proof (find_none _ _ H s Hs) as Hn.
    cbn in Hn. by apply negb_false_iff in Hn.
  - intros H. destruct (List.find _ l) as [s|] eqn:E; [|done].
    apply find_some in E as [Hs%list_elem_of_In Hn]. cbn in Hn. by rewrite H in Hn.
Qed.

(** Counting: a filtered listing of distinct names is as long as the list of
    wanted names exactly when those are distinct, not the resource itself, and
    all present. *)
Lemma dependencies_count r l :
  NoDup (sr_name <$> l) →
  length (dependenciesAmong r l) = length (depends_on (sr_spec r)) ↔
  NoDup (depends_on (sr_spec r)) ∧
  ∀ n, n ∈ depends_on (sr_spec r) → n ≠ sr_name r ∧ n ∈ sr_name <$> l.
Proof.
  intros HN. set (ds := depends_on (sr_spec r)). set (found := sr_name <$> dependenciesAmong r l).
  assert (length (dependenciesAmong r l) = length found) as -> by (unfold found; by rewrite length_fmap).
  assert (NoDup found) as HF.
  { eapply sublist_NoDup; [exact HN|]. apply fmap_sublist, sublist_filter. }
  assert (∀ n, n ∈ found ↔ n ≠ sr_name r ∧ n ∈ ds ∧ n ∈ sr_name <$> l) as Hf.
  { intros n. unfold found, dependenciesAmong. rewrite !list_elem_of_fmap.
    setoid_rewrite list_elem_of_filter. unfold ds. naive_solver. }
  split.
  - intros HL. assert (found ⊆+ ds) as Hsub by (apply NoDup_submseteq; [done|]; intros n; rewrite Hf; tauto).
    assert (found ≡ₚ ds) as HP by (apply submseteq_length_Permutation; [done|lia]).
    split; [by rewrite <- HP|]. intros n Hn. fold ds in Hn. rewrite <- HP in Hn. apply Hf in Hn. tauto.
  - intros [HD Hd]. apply Permutation_length, NoDup_Permutation; [done..|].
    intros n. rewrite Hf. naive_solver.
Qed.

Context {W : Type} {KR : Kind W StackResource} {KV : Kind W Volume}.

(** The dependency gate opens exactly when every name in [dependsOn] is
    another resource of the namespace whose Available condition is True for its
    current generation.  The names of a listing being distinct, a repeated name
    can never be satisfied, nor can a resource that depends on itself. *)
Theorem dependency_gate r w l w' :
  klist (sr_namespace r) [] w = (Ok l, w') → NoDup (sr_name <$> l) →
  (DependenciesAvailable r w).1 = Ok (true, "") ↔
  NoDup (depends_on (sr_spec r)) ∧
  ∀ n, n ∈ depends_on (sr_spec r) →
    n ≠ sr_name r ∧ ∃ s, s ∈ l ∧ sr_name s = n ∧ stackResourceAvailable s = true.
Proof.
  intros Hl HN. pose proof (dependencies_count r l HN) as Hcount.
  unfold DependenciesAvailable. destruct (decide (length (depends_on (sr_spec r)) = 0)) as [H0|H0].
  { apply length_zero_iff_nil in H0. rewrite H0. split; [|done]. intros _. split; [constructor|set_solver]. }
  unfold getDependencies. rewrite (decide_False _ _ H0).
  cbv [mbind se_bind]. rewrite Hl. cbv zeta.
  destruct (decide (length (dependenciesAmong r l) ≠ length (depends_on (sr_spec r)))) as [Hne|He].
  { cbn. split; [done|]. intros [HD Hd]. destruct Hne. apply Hcount. split; [done|].
    intros n Hn. destruct (Hd n Hn) as (? & s & Hs & <- & _). split; [done|]. by apply list_elem_of_fmap_2. }
  apply dec_stable, Hcount in He as [HD Hd]. cbn [mret se_ret].
  rewrite decide_False by (intros Hc; by apply Hc, Hcount).
  assert (∀ s, s ∈ dependenciesAmong r l ↔ s ∈ l ∧ sr_name s ∈ depends_on (sr_spec r)) as Hin.
  { intros s. unfold dependenciesAmong. rewrite list_elem_of_filter. split; [tauto|].
    intros [Hs Hn]. by destruct (Hd _ Hn). }
  destruct (firstUnavailable (dependenciesAmong r l)) as [s|] eqn:E; cbn.
  - split; [done|]. intros [_ Ha]. exfalso. unfold firstUnavailable in E.
    apply find_some in E as [Hs%list_elem_of_In Hn]. apply Hin in Hs as [Hs Hsn].
    destruct (Ha _ Hsn) as (_ & s' & Hs' & E' & Hav).
    assert (s' = s) as ->; [|cbn in Hn; by rewrite Hav in Hn].
    by apply (NoDup_name_inj sr_name l).
  - split; [|done]. intros _. split; [done|]. intros n Hn. destruct (Hd n Hn) as [Hne Hfm].
    split; [done|]. apply list_elem_of_fmap in Hfm as (s & -> & Hs). exists s. split_and!; [done..|].
    rewrite firstUnavailable_None in E. apply E. by apply Hin.
Qed.

(** What it takes for a volume to be used: its source, if any, is synced to what
    the spec or the current build asks for. *)
Definition volume_synced (r : StackResource) (v : Volume) : Prop :=
  match vsp_source (vol_spec v) with
  | None => True
  | Some src =>
      match vs_remote_dir src, vs_git_repo src, vs_build_artifacts src with
      | Some d, _, _ => syncedCondition VolumeConditionSyncedFromRemote v = true ∧
                        vst_last_remote_sync_hash (vol_status v) = rds_current_directory_hash d
      | None, Some g, _ => syncedCondition VolumeConditionSyncedFromGitSource v = true ∧
                           vst_last_synced_git_reference (vol_status v) = gr_commit (vgs_revision g)
      | None, None, Some _ => ∃ b, current_build (sr_status r) = Some b ∧ bst_available b = true ∧
          vst_build_artifact_syncs (vol_status v) !! sr_name r =
            Some (mkBuildArtifactSyncInfo (bst_source_revision b) BuildArtifactSyncStatusCompleted)
      | None, None, None => True
      end
  end.

Lemma isVolumeReady_spec v r :
  ((isVolumeReady v r).1 = true ↔ volume_synced r v) ∧
  ((isVolumeReady v r).2 = "" ↔ (isVolumeReady v r).1 = true).
Proof.
  unfold isVolumeReady, volume_synced, localDirSyncedToVolume, gitRepoSyncedToVolume,
    buildSyncCompletedAndUptoDate, GetGitRevisionString.
  destruct (vsp_source _) as [[rd ba gr]|]; [|done].
  cbn [vs_remote_dir vs_git_repo vs_build_artifacts].
  destruct rd as [d|]; [|destruct gr as [g|]; [|destruct ba as [a|]; [|done]]].
  1-2: destruct (syncedCondition _ v); cbn [andb]; [case_bool_decide|]; cbn [negb fst snd];
    split; intuition congruence.
  destruct (current_build _) as [b|]; [|split; [split|]; [done|intros (? & [=] & _)|done]].
  destruct (bst_available b) eqn:Hb; cbn [negb];
    [|split; [split|]; [done|intros (? & [= <-] & ? & _); congruence|done]].
  destruct (vst_build_artifact_syncs _ !! _) as [[id st]|]; cbn [negb bai_status bai_build_id];
    [|split; [split|]; [done|intros (? & _ & _ & [=])|done]].
  repeat case_bool_decide; cbn [andb negb fst snd]; split; try done; split; try done.
  1: intros _; exists b; by subst.
  all: intros (? & [= <-] & _ & [= -> ->]); done.
Qed.

(** The volume gate opens exactly when every mounted volume the listing
    shows is synced to what is asked of it: the directory hash of the spec, the
    commit of the spec, or the revision of the resource's current build.  When
    it stays shut it says why. *)
Theorem volume_gate r w l w' :
  klist (sr_namespace r) [] w = (Ok l, w') → NoDup (vol_name <$> l) →
  volume_mounts (sr_spec r) ≠ [] →
  ∃ ok msg, VolumeMountsReadyForUse r w = (Ok (ok, msg), w') ∧
    (ok = true ↔ ∀ v, v ∈ l → vol_name v ∈ VolumeMountSources r → volume_synced r v) ∧
    (msg = "" ↔ ok = true).
Proof.
  intros Hl HN Hm. unfold VolumeMountsReadyForUse.
  rewrite decide_False by (by intros ?%length_zero_iff_nil).
  set (vs := Unique vol_name (filter (λ v, vol_name v ∈ VolumeMountSources r) l)).
  assert (getVolumes r w = (Ok vs, w')) as Hg.
  { unfold getVolumes. cbv [mbind se_bind]. by rewrite Hl. }
  assert (∀ v, v ∈ vs ↔ v ∈ l ∧ vol_name v ∈ VolumeMountSources r) as Hvs.
  { intros v. unfold vs, Unique. rewrite elem_of_uniqueFrom, list_elem_of_filter; [set_solver|].
    eapply sublist_NoDup; [exact HN|]. apply fmap_sublist, sublist_filter. }
  exists (firstNotReady r vs).1, (firstNotReady r vs).2. split_and!.
  - se_step by (unfold wrapping; se_step by (by apply attempt_ok); reflexivity).
    by destruct (firstNotReady r vs).
  - unfold firstNotReady. destruct (List.find _ vs) as [v|] eqn:E; cbn.
    + split; [done|]. intros H. apply find_some in E as [Hv%list_elem_of_In Hn]. cbn in Hn.
      apply Hvs in Hv as [Hv Hs]. apply negb_true_iff in Hn.
      rewrite (proj2 (proj1 (isVolumeReady_spec v r)) (H v Hv Hs)) in Hn. done.
    + split; [|done]. intros _ v Hv Hs. apply isVolumeReady_spec.
      assert (v ∈ vs) as Hin%list_elem_of_In by by apply Hvs.
      pose proof (find_none _ _ E v Hin) as Hn. cbn in Hn. by apply negb_false_iff in Hn.
  - unfold firstNotReady. destruct (List.find _ vs) as [v|] eqn:E; cbn; [|done].
    apply find_some in E as [_ Hn]. cbn in Hn. apply negb_true_iff in Hn.
    rewrite (proj2 (isVolumeReady_spec v r)), Hn. done.
Qed.
End checker_facts.

(** * Witnesses *)

#[local] Instance sample_resources : Kind (list StackResource * list Volume) StackResource := {
  kget _ _ w := (Err (NotFound "stackresource"), w);
  klist _ _ w := (Ok w.1, w);
  kcreate c w := (Ok c, w);
  kupdate c w := (Ok c, w);
  kupdate_status c w := (Ok c, w);
  kdelete _ w := (Ok tt, w);
}.
#[local] Instance sample_volumes : Kind (list StackResource * list Volume) Volume := {
  kget _ _ w := (Err (NotFound "volume"), w);
  klist _ _ w := (Ok w.2, w);
  kcreate c w := (Ok c, w);
  kupdate c w := (Ok c, w);
  kupdate_status c w := (Ok c, w);
  kdelete _ w := (Ok tt, w);
}.

Definition available_resource (n : string) : StackResource :=
  (sample_resource n) <| sr_status ::= (λ s, s <| conditions :=
    [mkCondition "Available" ConditionTrue 0 0 "Ready" ""] |>) |>.
Definition waiting_resource : StackResource :=
  (sample_resource "web") <| sr_spec ::= (λ s, s
    <| depends_on := ["db"] |>
    <| volume_mounts := [mkVolumeMount "data" "" "/data" false] |>) |>.
Definition stale_volume : Volume :=
  sample_volume "data" (Some (mkVolumeSource (Some (mkRemoteDirSource "/src" "h1")) None None)).

Lemma dependency_gate_witness :
  let w := ([waiting_resource; available_resource "db"], [stale_volume]) in
  (DependenciesAvailable waiting_resource w).1 = Ok (true, "").
Proof.
  intros w.
  assert (klist "default" [] w = (Ok w.1, w)) as Hl by reflexivity.
  apply (dependency_gate waiting_resource w w.1 w Hl).
  - apply (bool_decide_unpack _). vm_compute. exact I.
  - split; [apply (bool_decide_unpack _); vm_compute; exact I|].
    intros n ->%list_elem_of_singleton. split; [discriminate|].
    exists (available_resource "db"). split; [right; left|]. split; reflexivity.
Defined.

Lemma volume_gate_witness :
  let w := ([waiting_resource], [stale_volume]) in
  ∃ msg, VolumeMountsReadyForUse waiting_resource w = (Ok (false, msg), w) ∧ msg ≠ "".
Proof.
  intros w.
  assert (klist "default" [] w = (Ok w.2, w)) as Hl by reflexivity.
  destruct (volume_gate waiting_resource w w.2 w Hl) as (ok & msg & H & Hok & Hmsg).
  - apply (bool_decide_unpack _). vm_compute. exact I.
  - discriminate.
  - exists msg. destruct ok; [vm_compute in H; discriminate H|]. split; [exact H|].
    intros E. apply Hmsg in E. discriminate E.
Defined.
