(* ===== verification/Rollout.v ===== *)
(** The resources of a stack waiting for one another: the dependency gate of each
    (workload_dependency_checker.go), read against the Available conditions the status
    derivation of the others publishes (status_derive.go).  A rollout is any order in
    which they become available. *)
From stdpp Require Import relations.
From S2P Require Import Prelude Text Kube Apimachinery Api Verdicts Pass StatusDerive Storage Workloads Dependencies.

Section rollout.
Context {CA : ConditionsApi} {CL : ConditionsLaws} {SD : StatusDigest}.

(** The API server as far as the gate reads it. *)
#[local] Instance stored : Kind (list StackResource) StackResource := {
  kget ns n l := (match List.find (λ r, bool_decide (sr_namespace r = ns ∧ sr_name r = n)) l with
                  | Some r => Ok r | None => Err (NotFound "stackresource") end, l);
  klist ns _ l := (Ok (filter (λ r, sr_namespace r = ns) l), l);
  kcreate r l := (Ok r, l ++ [r]);
  kupdate r l := (Ok r, l);
  kupdate_status r l := (Ok r, l);
  kdelete _ l := (Ok tt, l);
}.

Definition gateOpen (l : list StackResource) (r : StackResource) : Prop :=
  (DependenciesAvailable r l).1 = Ok (true, "").
(** A pass that found the workload serving, and had nothing to complain about. *)
Definition served (t : Time) (r : StackResource) : StackResource :=
  deriveSummaryStatus t no_verdicts
    (setResourceCondition t StackResourceWorkloadAvailable true "WorkloadAvailable" "" r).
(** One of the resources gets past its gate, and its workload comes up. *)
Inductive advance (l : list StackResource) : list StackResource → Prop :=
  | advance_one i r t :
      l !! i = Some r → stackResourceAvailable r = false → gateOpen l r → advance l (<[i := served t r]> l).

(** * Becoming available *)

Lemma served_frame t r : sr_meta (served t r) = sr_meta r ∧ sr_spec (served t r) = sr_spec r.
Proof. unfold served. by rewrite derive_eq. Qed.
Lemma served_available t r : stackResourceAvailable (served t r) = true.
Proof.
  set (r0 := setResourceCondition t StackResourceWorkloadAvailable true "WorkloadAvailable" "" r).
  destruct (derived_status_table t no_verdicts r0) as (_ & _ & H & _).
  destruct (H StackResourceStatusAvailable) as (b & reason & msg & Hv & Hb).
  assert (b = true) as ->.
  { apply Hb. split; [|by right].
    destruct (find_set_status_condition_eq t (sr_conditions r) (new_condition (domain_name StackResourceWorkloadAvailable)
      (bool_status true) (sr_generation r) "WorkloadAvailable" "")) as (c & Hc & [= Hs Hg _ _]). by exists c. }
  unfold stackResourceAvailable. change (served t r) with (deriveSummaryStatus t no_verdicts r0).
  unfold view in Hv. destruct (find_status_condition _ _) as [c|]; [|done]. injection Hv as Hs Hg _ _.
  cbn in Hs. rewrite Hs, Hg, bool_decide_true by done. apply Z.eqb_eq.
  change (om_generation (sr_meta r) = om_generation (sr_meta (served t r))). by rewrite (proj1 (served_frame t r)).
Qed.

(** * Who waits for whom *)

(** A resource as the others see it: its name, its namespace, what it depends on. *)
Definition shapeOf (r : StackResource) : string * string * list string :=
  (sr_name r, sr_namespace r, depends_on (sr_spec r)).
Definition shape (l : list StackResource) := shapeOf <$> l.
Definition names (S : list (string * string * list string)) : list string := S.*1.*1.
Definition needs (S : list (string * string * list string)) (a b : string) : Prop :=
  ∃ ns deps, (b, ns, deps) ∈ S ∧ a ∈ deps.
(** Every resource depends on distinct others that exist, and never in a circle. *)
Definition orderly (S : list (string * string * list string)) : Prop :=
  ∀ n ns deps, (n, ns, deps) ∈ S → NoDup deps ∧ (∀ d, d ∈ deps → d ∈ names S) ∧ Acc (needs S) n.
Definition allAvailable (l : list StackResource) : Prop := ∀ r, r ∈ l → stackResourceAvailable r = true.
Definition availableIn (l : list StackResource) (n : string) : Prop :=
  ∃ s, s ∈ l ∧ sr_name s = n ∧ stackResourceAvailable s = true.
Definition unavailable (l : list StackResource) : list StackResource :=
  filter (λ r, stackResourceAvailable r = false) l.

Lemma shape_names l : names (shape l) = sr_name <$> l.
Proof. unfold names, shape. by rewrite <- !list_fmap_compose. Qed.
Lemma shape_elem l r : r ∈ l → shapeOf r ∈ shape l.
Proof. apply list_elem_of_fmap_2. Qed.
Lemma needs_dep l r d : r ∈ l → d ∈ depends_on (sr_spec r) → needs (shape l) d (sr_name r).
Proof. intros Hr Hd. do 2 eexists. split; [by apply shape_elem|done]. Qed.

Lemma advance_shape l l' : advance l l' → shape l' = shape l.
Proof.
  intros [i r t Hi _ _]. unfold shape. rewrite list_fmap_insert. apply list_insert_id.
  rewrite list_lookup_fmap, Hi. cbn. destruct (served_frame t r) as [Hm Hs]. unfold shapeOf, sr_name, sr_namespace.
  by rewrite Hm, Hs.
Qed.
Lemma advance_unavailable l l' : advance l l' → length (unavailable l) = S (length (unavailable l')).
Proof.
  intros [i r t Hi Hr _]. unfold unavailable. pose proof (take_drop_middle l i r Hi) as Hl.
  rewrite <- Hl at 1. rewrite insert_take_drop by (by eapply lookup_lt_Some).
  rewrite !filter_app, !filter_cons, (decide_True _ _ Hr), decide_False by (by rewrite served_available).
  rewrite !length_app. cbn [length]. lia.
Qed.

Section namespace.
Context (ns : string).
Definition wellPlaced (S : list (string * string * list string)) : Prop :=
  NoDup (names S) ∧ ∀ e, e ∈ S → e.1.2 = ns.

Lemma gate_open l r :
  wellPlaced (shape l) → r ∈ l →
  gateOpen l r ↔ NoDup (depends_on (sr_spec r)) ∧
    ∀ d, d ∈ depends_on (sr_spec r) → d ≠ sr_name r ∧ availableIn l d.
Proof.
  intros [HN Hns] Hr. rewrite shape_names in HN. unfold gateOpen.
  rewrite (dependency_gate r l (filter (λ s, sr_namespace s = sr_namespace r) l) l);
    [|done|eapply sublist_NoDup; [exact HN|]; apply fmap_sublist, sublist_filter].
  assert (∀ s, s ∈ filter (λ s, sr_namespace s = sr_namespace r) l ↔ s ∈ l) as Hin.
  { intros s. rewrite list_elem_of_filter. split; [tauto|]. intros Hs. split; [|done].
    by rewrite (Hns _ (shape_elem _ _ Hs) : sr_namespace s = ns), (Hns _ (shape_elem _ _ Hr) : sr_namespace r = ns). }
  unfold availableIn. by setoid_rewrite Hin.
Qed.

Lemma progress l :
  wellPlaced (shape l) → orderly (shape l) → unavailable l ≠ [] → ∃ l', advance l l'.
Proof.
  intros HW HO Hne. destruct (unavailable l) as [|r u] eqn:E; [done|].
  assert (r ∈ l ∧ stackResourceAvailable r = false) as [Hr Hu].
  { assert (r ∈ unavailable l) as H by (rewrite E; left). apply list_elem_of_filter in H. tauto. }
  clear E Hne u. destruct (HO _ _ _ (shape_elem _ _ Hr)) as (_ & _ & HA). cbn in HA.
  remember (sr_name r) as n eqn:En. revert r Hr Hu En. induction HA as [n _ IH]. intros r Hr Hu ->.
  destruct (HO _ _ _ (shape_elem _ _ Hr)) as (HD & Hex & HA).
  destruct (decide (Forall (λ d, List.existsb (λ s, bool_decide (sr_name s = d) && stackResourceAvailable s) l = true)
    (depends_on (sr_spec r)))) as [HF|HF].
  - destruct (proj1 (list_elem_of_lookup l r) Hr) as [i Hi]. exists (<[i := served 0%Z r]> l). apply advance_one; [done..|].
    apply gate_open; [done..|]. split; [done|]. intros d Hd. split.
    + intros ->. pose proof (needs_dep _ _ _ Hr Hd) as Hself. clear -HA Hself. induction HA as [n _ IH]. by eapply (IH n).
    + rewrite Forall_forall in HF. apply HF, existsb_exists in Hd as (s & Hs%list_elem_of_In & Ha).
      apply andb_true_iff in Ha as [Ha%bool_decide_eq_true Hav]. by exists s.
  - apply not_Forall_Exists, Exists_exists in HF as (d & Hd & Hn); [|intros ?; apply _].
    specialize (Hex d Hd). rewrite shape_names in Hex. apply list_elem_of_fmap in Hex as (s & -> & Hs).
    apply (IH (sr_name s) (needs_dep _ _ _ Hr Hd) s Hs); [|done].
    destruct (stackResourceAvailable s) eqn:Ea; [|done]. destruct Hn. apply existsb_exists. exists s.
    split; [by apply list_elem_of_In|]. by rewrite bool_decide_true, Ea.
Qed.

(** * Every schedule *)

Lemma steps_shape n l l' : nsteps advance n l l' → shape l' = shape l.
Proof. induction 1 as [|n l l1 l' H _ IH]; [done|]. by rewrite IH, (advance_shape _ _ H). Qed.
Lemma steps_unavailable n l l' : nsteps advance n l l' → length (unavailable l) = n + length (unavailable l').
Proof. induction 1 as [|n l l1 l' H _ IH]; [done|]. rewrite (advance_unavailable _ _ H), IH. lia. Qed.
Lemma unavailable_nil l : unavailable l = [] ↔ allAvailable l.
Proof.
  unfold unavailable, allAvailable. rewrite filter_nil_iff. split; intros H r Hr; specialize (H r Hr);
    by destruct (stackResourceAvailable r).
Qed.

Lemma settles n l : length (unavailable l) = n → wellPlaced (shape l) → orderly (shape l) →
  ∃ l', rtc advance l l' ∧ allAvailable l'.
Proof.
  revert l. induction n as [|n IH]; intros l Hn HW HO.
  - exists l. split; [done|]. by apply unavailable_nil, length_zero_iff_nil.
  - destruct (progress l HW HO) as [l1 H1]; [by intros E; rewrite E in Hn|].
    pose proof (advance_shape _ _ H1) as HS. rewrite (advance_unavailable _ _ H1) in Hn. injection Hn as Hn.
    destruct (IH l1 Hn) as (l' & Hl' & HA); [by rewrite HS..|]. exists l'. split; [|done]. by eapply rtc_l.
Qed.

(** What becomes available had its dependencies in order. *)
Definition earned (S : list (string * string * list string)) (l : list StackResource) : Prop :=
  ∀ r, r ∈ l → stackResourceAvailable r = true →
    NoDup (depends_on (sr_spec r)) ∧ (∀ d, d ∈ depends_on (sr_spec r) → d ∈ names S) ∧ Acc (needs S) (sr_name r).
Lemma rollout_elem_of_insert (l : list StackResource) (i : nat) (r r' : StackResource) : r' ∈ <[i := r]> l → r' = r ∨ r' ∈ l.
Proof.
  intros (j & Hj)%list_elem_of_lookup. destruct (decide (i = j)) as [->|Hne].
  - left. apply list_lookup_insert_Some in Hj as [(_ & -> & _)|[? _]]; [done|done].
  - right. rewrite list_lookup_insert_ne in Hj by done. by eapply list_elem_of_lookup_2.
Qed.
Lemma advance_earned l l' : wellPlaced (shape l) → advance l l' → earned (shape l) l → earned (shape l) l'.
Proof.
  intros HW [i r t Hi Hu Hg] HE r' Hr' Ha. apply rollout_elem_of_insert in Hr' as [->|Hr']; [|by apply HE].
  assert (r ∈ l) as Hr by by eapply list_elem_of_lookup_2.
  destruct (served_frame t r) as [Hm Hs]. unfold sr_name. rewrite Hm, Hs. fold (sr_name r).
  apply (gate_open l r HW Hr) in Hg as [HD Hd]. split_and!; [done|..].
  - intros d (_ & s & Hs' & <- & _)%Hd. rewrite shape_names. by apply list_elem_of_fmap_2.
  - constructor. intros d (ns' & deps & Hin & Hd').
    assert (deps = depends_on (sr_spec r)) as ->.
    { assert ((sr_name r, ns', deps) = shapeOf r) as [= _ ->]; [|done].
      apply (NoDup_name_inj (λ e : string * string * list string, e.1.1) (shape l)); [|done|by apply shape_elem|done].
      destruct HW as [HN _]. unfold names in HN. by rewrite <- list_fmap_compose in HN. }
    destruct (Hd d Hd') as (_ & s & Hs' & <- & Hav). by apply HE.
Qed.
Lemma steps_earned n l l' : wellPlaced (shape l) → nsteps advance n l l' → earned (shape l) l → earned (shape l) l'.
Proof.
  intros HW Hs. revert HW. induction Hs as [|n l l1 l' H _ IH]; intros HW HE; [done|].
  pose proof (advance_shape _ _ H) as HS. rewrite <- HS. apply IH; rewrite HS; [done|]. by eapply advance_earned.
Qed.
End namespace.

(** C19. A stack of resources that wait for one another settles exactly when their
    dependencies can be ordered.  The resources of a namespace, none of them available
    yet, become available one at a time, each after its gate has opened, in whatever
    order.  If every one depends on distinct others that exist and never in a circle,
    then no schedule gets stuck: as long as one is not available some gate of an
    unavailable one is open, and after as many steps as there are resources, and not
    before, all are available.  And if some schedule ever makes all available, the
    dependencies were in order. *)
Theorem rollout_settles (ns : string) (l : list StackResource) :
  NoDup (sr_name <$> l) → (∀ r, r ∈ l → sr_namespace r = ns ∧ stackResourceAvailable r = false) →
  (orderly (shape l) ↔ ∃ l', rtc advance l l' ∧ allAvailable l') ∧
  ∀ n l', nsteps advance n l l' →
    n ≤ length l ∧ (n = length l ↔ allAvailable l') ∧
    (orderly (shape l) → n < length l → ∃ l'', advance l' l'').
Proof.
  intros HN Hl. assert (wellPlaced ns (shape l)) as HW.
  { split; [by rewrite shape_names|]. intros e (r & -> & Hr)%list_elem_of_fmap. by apply Hl. }
  assert (length (unavailable l) = length l) as Hall by (apply length_filter_all; intros r Hr; by apply Hl).
  split; [split|].
  - by apply (settles ns (length (unavailable l))).
  - intros (l' & (n & Hn)%rtc_nsteps & HA) n' ns' deps Hin. change (n', ns', deps) with (id (n', ns', deps)) in Hin.
    rewrite <- (steps_shape _ _ _ Hn) in Hin. apply list_elem_of_fmap in Hin as (r & [= -> -> ->] & Hr).
    apply (steps_earned ns _ _ _ HW Hn); [|done|by apply HA].
    intros s Hs Ha. destruct (Hl s Hs) as [_ Hf]. by rewrite Hf in Ha.
  - intros n l' Hn. pose proof (steps_unavailable _ _ _ Hn) as Hc. rewrite Hall in Hc. split_and!; [lia| |].
    + rewrite <- unavailable_nil, <- length_zero_iff_nil. lia.
    + intros HO Hlt. apply (progress ns); [by rewrite (steps_shape _ _ _ Hn)..|]. intros E. rewrite E in Hc. cbn in Hc. lia.
Qed.
End rollout.

(** * Two resources, one waiting for the other *)

#[local] Instance any_digest : StatusDigest := {
  digest_stack_status _ := "";
  digest_resource_status s := observed_revision s;
}.
Definition two_resources : list StackResource := [waiting_resource; sample_resource "db"].
Lemma two_in_order : orderly (shape two_resources).
Proof.
  assert (shape two_resources = [("web", "default", ["db"]); ("db", "default", [])]) as -> by reflexivity.
  set (S := [("web", "default", ["db"]); ("db", "default", [])]).
  assert (∀ a b, needs S a b → a = "db" ∧ b = "web") as Hn.
  { intros a b (ns & deps & Hin & Ha). unfold S in Hin. rewrite !elem_of_cons in Hin.
    destruct Hin as [[= -> -> ->]|[[= -> -> ->]|Hin]]; [|by apply not_elem_of_nil in Ha|by apply not_elem_of_nil in Hin].
    split; [by apply list_elem_of_singleton|done]. }
  assert (Acc (needs S) "db") as Hdb by (constructor; intros a [_ [=]]%Hn).
  assert (∀ n, Acc (needs S) n) as HA by (intros n; constructor; intros a [-> _]%Hn; exact Hdb).
  intros n ns deps Hin. unfold S in Hin. rewrite !elem_of_cons in Hin.
  destruct Hin as [[= -> -> ->]|[[= -> -> ->]|Hin]]; [| |by apply not_elem_of_nil in Hin].
  - split_and!; [apply NoDup_singleton| |apply HA]. intros d ->%list_elem_of_singleton. right. left.
  - split_and!; [constructor| |apply HA]. intros d Hd. by apply not_elem_of_nil in Hd.
Qed.
Lemma rollout_settles_witness : ∃ l', rtc advance two_resources l' ∧ allAvailable l'.
Proof.
  apply (rollout_settles "default" two_resources).
  - apply (bool_decide_unpack _). vm_compute. exact I.
  - intros r Hr. unfold two_resources in Hr. rewrite !elem_of_cons in Hr.
    destruct Hr as [->|[->|Hr]]; [split; reflexivity..|]. by apply not_elem_of_nil in Hr.
  - apply two_in_order.
Defined.
