(* ===== verification/Registries.v ===== *)
(** The ClusterRegistry resource (api/registry/v1alpha1/registry_types.go) and the
    names of the objects it is made of. *)
From S2P Require Import Prelude Text Kube Api.

Record RegistryAuthSpec := mkRegistryAuthSpec {
  (** [htPasswordCredentials] is a pointer to a struct with one pointer field. *)
  ras_ht_password_credentials : option (option CredentialSecretKeyPair) }.
Definition HTPasswordFileName : string := "htpasswd".

Inductive RegistryPhase :=
  | RegistryPhaseUnset | RegistryPhasePending | RegistryPhaseRunning | RegistryPhaseFailed.
#[export] Instance registry_phase_eq_dec : EqDecision RegistryPhase.
Proof. solve_decision. Defined.

Record RegistryStatus := mkRegistryStatus {
  rgs_observed_generation : Z;
  rgs_conditions : list Condition;
  rgs_internal_url : string;
  rgs_service_ip : string;
  rgs_phase : RegistryPhase;
}.
#[export] Instance eta_registry_status : Eta RegistryStatus := λ s,
  mkRegistryStatus (rgs_observed_generation s) (rgs_conditions s) (rgs_internal_url s)
    (rgs_service_ip s) (rgs_phase s).

Record RegistryOwner := mkRegistryOwner { ro_type : string; ro_id : string }.
Record RegistryStorageSpec := mkRegistryStorageSpec {
  rst_size : string; rst_storage_class : option string }.
Record ClusterRegistrySpec := mkClusterRegistrySpec {
  crs_owner : RegistryOwner;
  crs_storage : RegistryStorageSpec;
  crs_auth : option RegistryAuthSpec;
  crs_port : Z;
}.
Record ClusterRegistry := mkClusterRegistry {
  creg_meta : ObjectMeta;
  creg_spec : ClusterRegistrySpec;
  creg_status : RegistryStatus;
}.
#[export] Instance eta_cluster_registry : Eta ClusterRegistry := λ r,
  mkClusterRegistry (creg_meta r) (creg_spec r) (creg_status r).
Definition creg_name (r : ClusterRegistry) : string := om_name (creg_meta r).
Definition RegistryReadyCondition : string := "Ready".

(** * Names *)

Definition truncateK8sName (name : string) : string :=
  if String.length name <=? 63 then name
  else trim_right (λ c, bool_decide (c = dash)) (take_string 63 name).
Definition RegistryConfigMapName (r : ClusterRegistry) : string := truncateK8sName (creg_name r +:+ "-config").
Definition RegistryStatefulSetName (r : ClusterRegistry) : string := creg_name r.
Definition RegistryHeadlessServiceName (r : ClusterRegistry) : string :=
  truncateK8sName (creg_name r +:+ "-headless").
Definition RegistryAuthSecretName (r : ClusterRegistry) : string := truncateK8sName (creg_name r +:+ "-auth").

Lemma length_truncateK8sName name : String.length (truncateK8sName name) ≤ 63.
Proof.
  unfold truncateK8sName. destruct (Nat.leb_spec (String.length name) 63); [done|].
  etrans; [apply length_trim_right|]. rewrite length_take. lia.
Qed.

Definition sample_registry (cs : list Condition) (url : string) : ClusterRegistry :=
  mkClusterRegistry (object_meta "reg" "default")
    (mkClusterRegistrySpec (mkRegistryOwner "Organization" "org") (mkRegistryStorageSpec "1Gi" None) None 5000)
    (mkRegistryStatus 0 cs url "" RegistryPhaseUnset).
