(* ===== verification/Zot.v ===== *)
(** The objects a cluster registry is made of (pkg/registry/types.go), and the zot
    implementation of their builder (pkg/registry/zotregistry). *)
From S2P Require Import Prelude Text Kube Apimachinery Api KubeWorkloads Registries.

Definition RegistryConfigReconcilerDaemonSetName : string := "registry-config-reconciler".
Definition RegistryConfigHashAnnotation : string := "RegistryConfigHash".
Inductive RuntimeType := RuntimeContainerd | RuntimeK3s.

(** [bcrypt]: a salted hash, so drawing one is an effect. *)
Class Bcrypt (W : Type) := {
  bcrypt_hash : string → SE W string;
  bcrypt_compare : string → string → bool;
}.
Class BcryptLaws (W : Type) {BC : Bcrypt W} : Prop :=
  bcrypt_compare_hash p w h w' : bcrypt_hash p w = (Ok h, w') → bcrypt_compare (W:=W) h p = true.

(** * The interface *)

(** [RegistryBuilder], as the controller uses it. *)
Class RegistryBuilder (W : Type) := {
  BuildConfigurationConfigMap : ClusterRegistry → result ConfigMap;
  BuildStatefulSet : ClusterRegistry → SE W StatefulSet;
  BuildService : ClusterRegistry → result (Service * string);
  BuildHeadlessService : ClusterRegistry → result Service;
  BuildRegistryConfigReconcilerDaemonset : string → string → string → RuntimeType → DaemonSet;
  BuildHTPasswordSecret : ClusterRegistry → string → string → SE W (Secret * string);
  ValidateConfiguration : ClusterRegistry → result unit;
}.

(** What the controller relies on: the builder's objects are named after the
    registry and live in one namespace, a DaemonSet carries its hash and image in
    one container, and only valid registries are built. *)
Class RegistryBuilderLaws (W : Type) {RB : RegistryBuilder W} (ns : string) : Prop := {
  build_sts_name r w s w' :
    BuildStatefulSet r w = (Ok s, w') →
    (om_namespace (sts_meta s), om_name (sts_meta s)) = (ns, RegistryStatefulSetName r);
  build_service_name r s url :
    BuildService r = Ok (s, url) → (om_namespace (svc_meta s), om_name (svc_meta s)) = (ns, creg_name r);
  build_daemonset_shape cm key hash rt :
    let d := BuildRegistryConfigReconcilerDaemonset cm key hash rt in
    (om_namespace (ds_meta d), om_name (ds_meta d)) = (ns, RegistryConfigReconcilerDaemonSetName) ∧
    (∃ c, ps_containers (pt_spec (dss_template (ds_spec d))) = [c]) ∧
    pt_annotations (dss_template (ds_spec d)) !! RegistryConfigHashAnnotation = Some hash;
  build_secret_entry r u p w s k w' :
    BuildHTPasswordSecret r u p w = (Ok (s, k), w') →
    (om_namespace (sec_meta s), om_name (sec_meta s)) = (ns, RegistryAuthSecretName r) ∧
    k = HTPasswordFileName;
  validated_port r : ValidateConfiguration r = Ok tt → (1 ≤ crs_port (creg_spec r) ≤ 65535)%Z;
}.

(** * The configuration file *)

Record KeepTagRule := mkKeepTagRule {
  ktr_most_recently_pushed_count : option Z; ktr_pulled_within : string }.
Record RetentionPolicy := mkRetentionPolicy {
  rp_repositories : list string;
  rp_delete_untagged : bool;
  rp_delete_referrers : bool;
  rp_keep_tags : list KeepTagRule;
}.
Record RetentionConfig := mkRetentionConfig { rcf_delay : string; rcf_policies : list RetentionPolicy }.
Record StorageConfig := mkStorageConfig {
  stc_root_directory : string;
  stc_gc : bool;
  stc_gc_delay : string;
  stc_gc_interval : string;
  stc_retention : RetentionConfig;
}.
(** [auth] is the path of the htpasswd file, when there is one. *)
Record HTTPConfig := mkHTTPConfig {
  hc_compat : list string; hc_address : string; hc_port : string; hc_auth : option string }.
Record ZotConfig := mkZotConfig { zc_http : HTTPConfig; zc_storage : StorageConfig; zc_log_level : string }.

(** [json.MarshalIndent] of a configuration, and [time.ParseDuration]. *)
Class ZotConfigText := zot_config_text : ZotConfig → string.
Class DurationParse := parse_duration : string → result Duration.

(** * Zot *)

Record LayerCachingOpts := mkLayerCachingOpts {
  lco_enabled : bool;
  lco_repo_glob_patterns : list string;
  lco_tags_to_keep : Z;
  lco_pulled_within : string;
}.
Record RegistryBuilderOpts := mkRegistryBuilderOpts {
  rbo_storage_directory : string;
  rbo_config_path : string;
  rbo_htpasswd_path : string;
  rbo_resources : option ResourceRequirements;
  rbo_namespace : string;
}.
Record zotRegistry := mkZotRegistry {
  z_gc_delay : string;
  z_gc_interval : string;
  z_enable_gc : bool;
  z_log_level : string;
  z_layer_caching_opts : LayerCachingOpts;
  z_registry_image : string;
  z_config_reconciler_image : string;
  z_opts : RegistryBuilderOpts;
}.

Record ZotRegistryOpts := mkZotRegistryOpts {
  zo_registry_image : string;
  zo_config_reconciler_image : string;
  zo_gc_delay : string;
  zo_gc_interval : string;
  zo_enable_gc : bool;
  zo_log_level : string;
  zo_layer_caching_opts : LayerCachingOpts;
}.
Definition NewZotRegistry (o : ZotRegistryOpts) : zotRegistry :=
  mkZotRegistry (zo_gc_delay o) (zo_gc_interval o) (zo_enable_gc o) (zo_log_level o)
    (zo_layer_caching_opts o) (zo_registry_image o) (zo_config_reconciler_image o)
    (mkRegistryBuilderOpts "" "" "" None "").

Definition HtpasswordKey : string := "htpasswd".
Definition ZotConfigKey : string := "config.json".
Definition storageVolumeName : string := "storage".
Definition defaultCacheTagsToKeep : Z := 10.
Definition defaultCachePulledWithin : string := "168h".

(** [Initialize]; the client is given with the world. *)
Definition Initialize (opts : RegistryBuilderOpts) (z : zotRegistry) : result zotRegistry :=
  if decide (rbo_storage_directory opts = "") then Err (Errorf "storage directory not provided")
  else if decide (rbo_config_path opts = "") then Err (Errorf "config path not provided")
  else if decide (rbo_namespace opts = "") then Err (Errorf "registry resources namespace not provided")
  else Ok (mkZotRegistry (z_gc_delay z) (z_gc_interval z) (z_enable_gc z) (z_log_level z)
             (z_layer_caching_opts z) (z_registry_image z) (z_config_reconciler_image z) opts).

Definition cachePolicy (o : LayerCachingOpts) : RetentionPolicy :=
  let tagsToKeep := if (lco_tags_to_keep o <=? 0)%Z then defaultCacheTagsToKeep else lco_tags_to_keep o in
  let pulledWithin := if decide (lco_pulled_within o = "") then defaultCachePulledWithin
                      else lco_pulled_within o in
  mkRetentionPolicy (lco_repo_glob_patterns o) true true [mkKeepTagRule (Some tagsToKeep) pulledWithin].
Definition catchAllPolicy : RetentionPolicy := mkRetentionPolicy ["**"] true true [].
Definition buildRetentionConfig (z : zotRegistry) : RetentionConfig :=
  mkRetentionConfig (z_gc_delay z)
    ((if lco_enabled (z_layer_caching_opts z) then [cachePolicy (z_layer_caching_opts z)] else []) ++
     [catchAllPolicy]).

Definition hasHtpasswd (r : ClusterRegistry) : bool :=
  match crs_auth (creg_spec r) with
  | Some a => if ras_ht_password_credentials a is Some _ then true else false
  | None => false
  end.

Definition zotConfig (z : zotRegistry) (r : ClusterRegistry) : ZotConfig :=
  mkZotConfig
    (mkHTTPConfig ["docker2s2"] "0.0.0.0" (pretty (crs_port (creg_spec r)))
       (if hasHtpasswd r then Some (rbo_htpasswd_path (z_opts z)) else None))
    (mkStorageConfig (rbo_storage_directory (z_opts z)) (z_enable_gc z) (z_gc_delay z) (z_gc_interval z)
       (buildRetentionConfig z))
    (z_log_level z).

(** The pieces of the StatefulSet. *)
Definition zotLabels (r : ClusterRegistry) : gmap string string := {[ "app" := creg_name r ]}.
Definition zotClaim (r : ClusterRegistry) (size : string) : PersistentVolumeClaim :=
  mkPersistentVolumeClaim (object_meta storageVolumeName "") ["ReadWriteOnce"] size
    (rst_storage_class (crs_storage (creg_spec r))).
Definition zotResources (z : zotRegistry) : ResourceRequirements :=
  default ({[ "cpu" := "100m"; "memory" := "256Mi" ]}, {[ "cpu" := "500m"; "memory" := "512Mi" ]})
    (rbo_resources (z_opts z)).
Definition zotContainer (z : zotRegistry) (r : ClusterRegistry) (mounts : list KVolumeMount) : Container :=
  let port := crs_port (creg_spec r) in
  mkContainer (creg_name r) (z_registry_image z) "" "" [] ["serve"; rbo_config_path (z_opts z)]
    [mkContainerPort "" port] []
    ([mkKVolumeMount "config" (rbo_config_path (z_opts z)) ZotConfigKey false;
      mkKVolumeMount storageVolumeName (rbo_storage_directory (z_opts z)) "" false] ++ mounts)
    (Some (mkKProbe (TCPSocketAction port) 5 10 0 0)) (Some (mkKProbe (TCPSocketAction port) 15 20 0 0)) None
    (zotResources z) None [].
Definition zotStatefulSet (z : zotRegistry) (r : ClusterRegistry) (size : string)
    (annotations : gmap string string) (mounts : list KVolumeMount) (volumes : list KVolume) : StatefulSet :=
  mkStatefulSet (object_meta (creg_name r) (rbo_namespace (z_opts z)))
    (mkStatefulSetSpec (Some 1%Z) (RegistryHeadlessServiceName r) "" "" 0 (zotLabels r)
       (mkPodTemplateSpec (zotLabels r) annotations
          (empty_pod_spec <| ps_containers := [zotContainer z r mounts] |>
             <| ps_volumes := mkKVolume "config" (ConfigMapVolume (mkConfigMapVolumeSource (RegistryConfigMapName r) []))
                              :: volumes |>))
       [zotClaim r size])
    (mkStatefulSetStatus 0 0 0 0 0 "" "").

Definition httpPort (r : ClusterRegistry) : ServicePort :=
  mkServicePort "http" 80 (FromInt32 (crs_port (creg_spec r))) 0.
Definition zotService (z : zotRegistry) (r : ClusterRegistry) (name clusterIP : string) : Service :=
  mkService (object_meta name (rbo_namespace (z_opts z)))
    (mkServiceSpec (zotLabels r) [httpPort r] clusterIP "").
Definition registryURL (z : zotRegistry) (r : ClusterRegistry) : string :=
  "http://" +:+ creg_name r +:+ "." +:+ rbo_namespace (z_opts z) +:+ ".svc.cluster.local".

(** The DaemonSet that tells each node's container runtime about the registries. *)
Definition reconcilerHostPath (rt : RuntimeType) : string * string :=
  match rt with
  | RuntimeContainerd => ("/etc/containerd", "Directory")
  | RuntimeK3s => ("/etc/rancher/k3s", "DirectoryOrCreate")
  end.
Definition reconcilerArgs (rt : RuntimeType) : list string :=
  match rt with
  | RuntimeContainerd =>
      ["--runtime=containerd"; "--config-dir=/etc/containerd"; "--config-file=config.toml";
       "--registry-config=/config/registries.json"]
  | RuntimeK3s =>
      ["--runtime=k3s"; "--config-dir=/etc/rancher/k3s"; "--registry-config=/config/registries.json";
       "--k3s-hosts-dir=/var/lib/rancher/k3s/agent/etc"]
  end.
Definition hostCertdPath : string := "/var/lib/rancher/k3s/agent/etc".
Definition reconcilerContainer (z : zotRegistry) (rt : RuntimeType) : Container :=
  mkContainer "containerd-registry-config-reconciler" (z_config_reconciler_image z) "" "" []
    (reconcilerArgs rt) [] []
    ([mkKVolumeMount "containerd-config" (reconcilerHostPath rt).1 "" false;
      mkKVolumeMount "registry-config" "/config" "" false] ++
     match rt with
     | RuntimeK3s => [mkKVolumeMount "k3s-agent-certs" hostCertdPath "" false]
     | RuntimeContainerd => []
     end)
    (Some (mkKProbe (HTTPGetAction "/healthz" 8080) 5 10 0 0)) None None
    ({[ "cpu" := "10m"; "memory" := "32Mi" ]}, {[ "cpu" := "50m"; "memory" := "64Mi" ]})
    (Some (mkSecurityContext (Some false) ["ALL"] ["DAC_OVERRIDE"; "KILL"] (Some true) None)) [].
Definition zotDaemonSet (z : zotRegistry) (cmName key hash : string) (rt : RuntimeType) : DaemonSet :=
  let host := reconcilerHostPath rt in
  let labels : gmap string string := {[ "daemonset-for" := "registry-config-reconciler" ]} in
  mkDaemonSet (object_meta RegistryConfigReconcilerDaemonSetName (rbo_namespace (z_opts z)))
    (mkDaemonSetSpec labels
       (mkPodTemplateSpec labels {[ RegistryConfigHashAnnotation := hash ]}
          (empty_pod_spec <| ps_host_pid := true |>
             <| ps_security_context := Some (mkPodSecurityContext None "" (Some 0%Z)) |>
             <| ps_containers := [reconcilerContainer z rt] |>
             <| ps_volumes :=
                  [mkKVolume "registry-config" (ConfigMapVolume
                     (mkConfigMapVolumeSource cmName [(key, "registries.json")]));
                   mkKVolume "containerd-config" (HostPathVolume host.1 host.2)] ++
                  match rt with
                  | RuntimeK3s => [mkKVolume "k3s-agent-certs" (HostPathVolume hostCertdPath host.2)]
                  | RuntimeContainerd => []
                  end |>)))
    (mkDaemonSetStatus 0 0 0).

Section zot.
Context {GT : GoText} {TD : TextDigest} {QP : QuantityParse} {ZT : ZotConfigText} {DP : DurationParse}.
Context {W : Type} {BC : Bcrypt W} {KC : Kind W ConfigMap} {KS : Kind W Secret} (z : zotRegistry).

Definition zotValidate (r : ClusterRegistry) : result unit :=
  let port := crs_port (creg_spec r) in
  let duration (name s : string) : result unit :=
    if decide (s = "") then Ok tt
    else match parse_duration s with
         | Err e => Err (Wrapf ("invalid " +:+ name +:+ " '" +:+ s +:+ "': ") e)
         | Ok _ => Ok tt
         end in
  if (port <? 1)%Z || (65535 <? port)%Z
  then Err (Errorf ("port " +:+ pretty port +:+ " is out of valid range (1-65535)"))
  else _ ← duration "gcDelay" (z_gc_delay z); duration "gcInterval" (z_gc_interval z).

Definition zotConfigMap (r : ClusterRegistry) : result ConfigMap :=
  Ok (mkConfigMap (object_meta (RegistryConfigMapName r) (rbo_namespace (z_opts z)))
        {[ ZotConfigKey := zot_config_text (zotConfig z r) ]}).

Definition zotBuildStatefulSet (r : ClusterRegistry) : SE W StatefulSet :=
  let ns := rbo_namespace (z_opts z) in
  size ← wrapping ("failed to parse storage size " +:+ quote (rst_size (crs_storage (creg_spec r))) +:+ ": ")
           (of_result (parse_quantity (rst_size (crs_storage (creg_spec r)))));
  cm ← wrapping ("failed to get registry config configmap " +:+ RegistryConfigMapName r +:+ ": ")
         (kget (O:=ConfigMap) ns (RegistryConfigMapName r));
  let config := mget (cm_data cm) ZotConfigKey in
  if decide (config = "")
  then fail (Errorf ("config map " +:+ RegistryConfigMapName r +:+ " is missing zot config " +:+ ZotConfigKey))
  else
    let annotations : gmap string string := {[ "ZotConfigHash" := sha256_text config ]} in
    if hasHtpasswd r then
      s ← wrapping ("failed to get registry auth secret " +:+ RegistryAuthSecretName r +:+ ": ")
            (kget (O:=Secret) ns (RegistryAuthSecretName r));
      mret (zotStatefulSet z r size
        (<[ "HtpasswdSecretVersion" := om_resource_version (sec_meta s) ]> annotations)
        [mkKVolumeMount "htpasswd" (rbo_htpasswd_path (z_opts z)) HtpasswordKey false]
        [mkKVolume "htpasswd" (SecretVolume (mkSecretVolumeSource (RegistryAuthSecretName r) []))])
    else mret (zotStatefulSet z r size annotations [] []).

Definition zotBuildSecret (r : ClusterRegistry) (username password : string) : SE W (Secret * string) :=
  match crs_auth (creg_spec r) with
  | None => fail (Panic "nil pointer dereference")
  | Some (mkRegistryAuthSpec None) => fail (Errorf "htpasswd credentials not provided")
  | Some _ =>
      hash ← wrapping "failed to generate bcrypt hash for htpasswd: " (bcrypt_hash password);
      mret (mkSecret (object_meta (RegistryAuthSecretName r) (rbo_namespace (z_opts z))) ""
              {[ HtpasswordKey := username +:+ ":" +:+ hash ]}, HtpasswordKey)
  end.

#[export] Instance zot_builder : RegistryBuilder W := {
  BuildConfigurationConfigMap := zotConfigMap;
  BuildStatefulSet := zotBuildStatefulSet;
  BuildService r := Ok (zotService z r (creg_name r) "", registryURL z r);
  BuildHeadlessService r := Ok (zotService z r (RegistryHeadlessServiceName r) "None");
  BuildRegistryConfigReconcilerDaemonset := zotDaemonSet z;
  BuildHTPasswordSecret := zotBuildSecret;
  ValidateConfiguration := zotValidate;
}.
End zot.

(** * Retention *)

Section retention.
(** zot's glob matching of a repository against a pattern. *)
Context (repo_matches : string → string → bool).
Hypothesis matches_all : ∀ repo, repo_matches "**" repo = true.

(** zot applies the first policy of which a pattern matches. *)
Definition policyFor (c : RetentionConfig) (repo : string) : option RetentionPolicy :=
  snd <$> list_find (λ p, existsb (λ g, repo_matches g repo) (rp_repositories p) = true) (rcf_policies c).

Definition isCacheRepo (z : zotRegistry) (repo : string) : bool :=
  lco_enabled (z_layer_caching_opts z) &&
  existsb (λ g, repo_matches g repo) (lco_repo_glob_patterns (z_layer_caching_opts z)).

(** What zot keeps, under its rule that the first matching policy decides.
    Every repository has a policy, and it reclaims what is no longer tagged.  In a
    repository of the layer cache the tags are bounded by one rule, of a positive
    count and a window that is never empty, whatever the options say; in any other
    repository no tag is ever pruned, so an image lives until its build removes
    it. *)
Theorem retention_spec (z : zotRegistry) (repo : string) :
  ∃ p, policyFor (buildRetentionConfig z) repo = Some p ∧
    rp_delete_untagged p = true ∧
    if isCacheRepo z repo
    then ∃ n window, rp_keep_tags p = [mkKeepTagRule (Some n) window] ∧ (0 < n)%Z ∧ window ≠ ""
    else rp_keep_tags p = [].
Proof.
  assert (list_find (λ p, existsb (λ g, repo_matches g repo) (rp_repositories p) = true) [catchAllPolicy] =
          Some (0, catchAllPolicy)) as Hall by (cbn; by rewrite matches_all).
  unfold policyFor, buildRetentionConfig, isCacheRepo. cbn [rcf_policies].
  destruct (lco_enabled (z_layer_caching_opts z)); cbn [app andb].
  - cbn [list_find]. change (rp_repositories (cachePolicy (z_layer_caching_opts z)))
      with (lco_repo_glob_patterns (z_layer_caching_opts z)).
    destruct (existsb _ (lco_repo_glob_patterns _)) eqn:E.
    + rewrite decide_True by done. eexists. split; [reflexivity|]. split; [done|].
      do 2 eexists. split; [reflexivity|]. split.
      * destruct (Z.leb_spec (lco_tags_to_keep (z_layer_caching_opts z)) 0); [done|lia].
      * by case_decide.
    + rewrite decide_False by done. cbn in Hall |- *. rewrite matches_all. cbn. by eexists.
  - rewrite Hall. by eexists.
Qed.
End retention.

Definition sample_zot : zotRegistry :=
  mkZotRegistry "1h" "6h" true "info" (mkLayerCachingOpts true ["**/cache"] 0 "") "zot" "reconciler"
    (mkRegistryBuilderOpts "/var/lib/registry" "/etc/registry/config.json" "/etc/auth/htpasswd" None
       "stackdome-registry").

Lemma retention_spec_witness :
  ∃ p, policyFor (λ g repo, bool_decide (g = "**" ∨ repo = "shop/web/cache"))
         (buildRetentionConfig sample_zot) "shop/web/cache" = Some p ∧
    rp_keep_tags p = [mkKeepTagRule (Some 10%Z) "168h"].
Proof.
  destruct (retention_spec (λ g repo, bool_decide (g = "**" ∨ repo = "shop/web/cache"))
    ltac:(intros repo; by apply bool_decide_eq_true_2; left) sample_zot "shop/web/cache") as (p & Hp & _).
  exists p. split; [exact Hp|]. vm_compute in Hp. by injection Hp as <-.
Defined.

(** * Zot keeps the builder's promises *)

Section laws.
Context {GT : GoText} {TD : TextDigest} {QP : QuantityParse} {ZT : ZotConfigText} {DP : DurationParse}.
Context {W : Type} {BC : Bcrypt W} {KC : Kind W ConfigMap} {KS : Kind W Secret} (z : zotRegistry).

#[export] Instance zot_builder_laws : RegistryBuilderLaws W (RB:=zot_builder z) (rbo_namespace (z_opts z)).
Proof.
  split.
  - intros r w s w' H. cbn in H. unfold zotBuildStatefulSet in H.
    apply se_bind_inv in H as (size & w1 & _ & H). apply se_bind_inv in H as (cm & w2 & _ & H).
    case_decide; [done|]. destruct (hasHtpasswd r); [|by injection H as <- _].
    apply se_bind_inv in H as (sec & w3 & _ & H). by injection H as <- _.
  - intros r s url [= <- <-]. done.
  - intros cm key hash rt. split; [done|]. split; [by eexists|apply lookup_singleton_eq].
  - intros r u p w s k w' H. cbn in H. unfold zotBuildSecret in H.
    destruct (crs_auth (creg_spec r)) as [[[ref|]]|]; try done.
    apply se_bind_inv in H as (h & w1 & _ & H). by injection H as <- <- _.
  - intros r H. cbn in H. unfold zotValidate in H.
    destruct (Z.ltb_spec (crs_port (creg_spec r)) 1); [done|].
    destruct (Z.ltb_spec 65535 (crs_port (creg_spec r))); [done|]. lia.
Qed.
End laws.
