(* ===== verification/RegistryRef.v ===== *)
(** Image references: the tag policy and the resolution of an image repository
    (pkg/registry/reference.go), docker credentials
    (docker_config_json_builder.go), and the list of registries the node
    configuration holds (internal/types/cluster_registry_type.go). *)
From S2P Require Import Prelude Text Kube Apimachinery Api Registries.
From Stdlib Require Import Ascii.

(** * Tags *)

Definition is_tag_char (c : ascii) : bool :=
  is_label_char c || is_upper c ||
  bool_decide (c = "_"%char) || bool_decide (c = "."%char) || bool_decide (c = dash).
Definition is_tag_separator (c : ascii) : bool :=
  bool_decide (c = dash) || bool_decide (c = "."%char) || bool_decide (c = "_"%char).
Definition maxTagLen : nat := 128.

Definition SanitizeTag `{GoText} (s : string) : string :=
  let s := to_lower s in
  let s := replace_runs is_tag_char false s in
  let s := trim is_tag_separator s in
  if maxTagLen <? String.length s then take_string maxTagLen s else s.

(** [policy] is a pointer to a struct that holds a pointer to the fixed tag. *)
Definition ResolveTag `{GoText} (policy : option (option string)) (sourceRevision : string) : string :=
  match policy with
  | Some (Some tag) => if decide (tag ≠ "") then tag else SanitizeTag sourceRevision
  | _ => SanitizeTag sourceRevision
  end.

(** * Repositories *)

Record ResolvedRepository := mkResolvedRepository {
  rr_host : string;
  rr_repository : string;
  rr_tag : string;
  rr_insecure : bool;
  rr_auth_url : string;
}.

Definition Reference (r : ResolvedRepository) : string :=
  rr_host r +:+ "/" +:+ rr_repository r +:+ ":" +:+ rr_tag r.

(** The host part that [url.Parse] finds, or its error. *)
Class UrlParse := url_host : string → result string.

Definition authURLForHost (host : string) : string :=
  if decide (host = "docker.io" ∨ host = "index.docker.io") then "https://index.docker.io/v1/"
  else host.

Section resolve.
Context {GT : GoText} {UP : UrlParse} {CA : ConditionsApi}.

Definition hostFromURL (raw : string) : result string :=
  url_host (if contains raw "://" then raw else "http://" +:+ raw).

(** What is made of a ClusterRegistry that could be read. *)
Definition registryHost (name : string) (reg : ClusterRegistry) : result string :=
  if negb (is_status_condition_true (rgs_conditions (creg_status reg)) RegistryReadyCondition)
  then Err (Wrapf ("cluster registry " +:+ quote name +:+ ": ") RegistryNotReady)
  else match hostFromURL (rgs_internal_url (creg_status reg)) with
  | Err e => Err (Wrapf ("invalid cluster registry internalUrl " +:+ quote (rgs_internal_url (creg_status reg)) +:+ ": ") e)
  | Ok host =>
      if decide (host = "")
      then Err (Errorf ("cluster registry " +:+ quote name +:+ " internalUrl " +:+
                        quote (rgs_internal_url (creg_status reg)) +:+ " has no host"))
      else Ok host
  end.

Context {W : Type} {KR : Kind W ClusterRegistry}.

Definition ResolveImageRepository (namespace : string) (spec : ImageRepositorySpec)
    (sourceRevision : string) : SE W ResolvedRepository :=
  let out host := mkResolvedRepository host (ir_repository spec)
                    (ResolveTag (ir_tag_policy_fixed spec) sourceRevision) in
  match ir_cluster_registry_ref spec, ir_external spec with
  | Some name, _ =>
      res ← attempt (kget namespace name);
      match res with
      | Err e =>
          fail (if is_not_found e then Errorf ("cluster registry " +:+ quote name +:+ " not found")
                else Wrapf ("failed to get cluster registry " +:+ quote name +:+ ": ") e)
      | Ok reg =>
          host ← of_result (registryHost name reg);
          mret (out host true host)
      end
  | None, Some ext =>
      mret (out (er_host ext) (default false (er_tls_insecure ext)) (authURLForHost (er_host ext)))
  | None, None => fail (Errorf "image repository spec has neither clusterRegistryRef nor external")
  end.
End resolve.

(** * Docker credentials *)

Record AuthCreds := mkAuthCreds { ac_username : string; ac_password : string; ac_auth_url : string }.

(** [base64.StdEncoding.EncodeToString], and the JSON text of a configuration. *)
Class CredentialCodec := {
  base64 : string → string;
  docker_config_text : gmap string string → string;
}.

Section docker_config.
Context {CC : CredentialCodec}.

(** The [auths] of the configuration: the encoded credentials by URL. *)
Definition NewDockerConfigJSON (creds : list AuthCreds) : gmap string string :=
  foldl (λ m c, <[ac_auth_url c := base64 (ac_username c +:+ ":" +:+ ac_password c)]> m) ∅ creds.
Definition AsJSON (auths : gmap string string) : string := docker_config_text auths.
End docker_config.

(** * The node's registries *)

Record Registry := mkRegistry { reg_service_ip : string; reg_endpoint : string }.
#[export] Instance registry_eq_dec : EqDecision Registry.
Proof. solve_decision. Defined.
Definition RegistryConfig : Type := list Registry.
Definition NewRegistryConfig : RegistryConfig := [].

Definition HasEndpoint (ep : string) (r : RegistryConfig) : bool :=
  existsb (λ g, bool_decide (reg_endpoint g = ep)) r.
Definition HasEndpointWithServiceIP (ep serviceIP : string) (r : RegistryConfig) : bool :=
  existsb (λ g, bool_decide (reg_endpoint g = ep) && bool_decide (reg_service_ip g = serviceIP)) r.
Definition ValidRegistries (r : RegistryConfig) : list Registry :=
  filter (λ g, ¬ (String.length (reg_service_ip g) = 0 ∨ String.length (reg_endpoint g) = 0)) r.

(** The mutating methods answer whether they changed anything, and the new state. *)
Definition RemoveRegistryEndpointEntry (ep : string) (r : RegistryConfig) : bool * RegistryConfig :=
  if negb (HasEndpoint ep r) then (false, r)
  else (true, filter (λ g, reg_endpoint g ≠ ep) r).
Definition AddRegistry (serviceIP endpoint : string) (r : RegistryConfig) : bool * RegistryConfig :=
  if HasEndpointWithServiceIP endpoint serviceIP r then (false, r)
  else (true, (RemoveRegistryEndpointEntry endpoint r).2 ++ [mkRegistry serviceIP endpoint]).

(** * Properties *)

(** An OCI tag: at most 128 characters of the tag alphabet, the first of which
    is a letter or a digit (the code is stricter than the specification, which
    also allows an underscore there). *)
Definition oci_tag (s : string) : Prop :=
  String.length s ≤ maxTagLen ∧ string_forall is_tag_char s = true ∧
  match s with String c _ => is_tag_separator c = false | EmptyString => False end.

Section tag_facts.
Context {GT : GoText}.

Lemma forall_replace_runs r s : string_forall is_tag_char (replace_runs is_tag_char r s) = true.
Proof.
  revert r. induction s as [|c s IH]; intros r; [done|]. simpl.
  destruct (is_tag_char c) eqn:E; simpl; [rewrite E; apply IH|]. destruct r; [apply IH|]. simpl.
  by rewrite IH.
Qed.
Lemma forall_trim_left p cut s : string_forall p s = true → string_forall p (trim_left cut s) = true.
Proof.
  induction s as [|c s IH]; [done|]. simpl. intros [Hc Hs]%andb_true_iff.
  destruct (cut c); [by apply IH|]. simpl. by rewrite Hc.
Qed.
Lemma forall_trim_right p cut s : string_forall p s = true → string_forall p (trim_right cut s) = true.
Proof.
  induction s as [|c s IH]; [done|]. simpl. intros [Hc Hs]%andb_true_iff.
  case_decide; [destruct (cut c); [done|]; simpl; by rewrite Hc|]. simpl. by rewrite Hc, IH.
Qed.
Lemma forall_take p n s : string_forall p s = true → string_forall p (take_string n s) = true.
Proof.
  revert n. induction s as [|c s IH]; intros [|n]; simpl; try done.
  intros [Hc Hs]%andb_true_iff. by rewrite Hc, IH.
Qed.

(** A trimmed text is empty or starts with a character that is kept. *)
Lemma head_trim cut s :
  match trim cut s with String c _ => cut c = false | EmptyString => string_forall cut s = true end.
Proof.
  unfold trim.
  assert (∀ u, match trim_right cut u with
               | String c _ => match u with String c' _ => c = c' | _ => False end
               | EmptyString => string_forall cut u = true end) as Hr.
  { induction u as [|c u IH]; [done|]. simpl. case_decide as E.
    - rewrite E in IH. destruct (cut c) eqn:Ec; [exact IH|done].
    - done. }
  induction s as [|c s IH]; [done|]. cbn [trim_left]. destruct (cut c) eqn:Ec.
  - destruct (trim_right cut (trim_left cut s)); [|done]. simpl. by rewrite Ec.
  - pose proof (Hr (String c s)) as H. destruct (trim_right cut (String c s)) as [|c' t]; [|by subst].
    simpl in H. by rewrite Ec in H.
Qed.

(** Every tag the policy derives from a source revision is a valid OCI tag,
    unless nothing of the revision is left: the tag is empty exactly when the
    lower-cased revision, its invalid characters replaced, is all separators. *)
Theorem derived_tags_valid rev :
  let clean := replace_runs is_tag_char false (to_lower rev) in
  (SanitizeTag rev = "" ∧ string_forall is_tag_separator clean = true) ∨
  (oci_tag (SanitizeTag rev) ∧ string_forall is_tag_separator clean = false).
Proof.
  intros clean. unfold SanitizeTag. fold clean. cbv zeta. set (t := trim is_tag_separator clean).
  pose proof (head_trim is_tag_separator clean) as Hh. fold t in Hh.
  assert (string_forall is_tag_char t = true) as Ht.
  { apply forall_trim_right, forall_trim_left, forall_replace_runs. }
  destruct t as [|c t0] eqn:Et; [left; by split|right].
  assert (string_forall is_tag_separator clean = false) as Hc.
  { apply not_true_iff_false. intros Hall.
    assert (string_forall is_tag_separator (String c t0) = true) as H
      by (rewrite <- Et; by apply forall_trim_right, forall_trim_left).
    simpl in H. by rewrite Hh in H. }
  split; [|done]. unfold oci_tag. destruct (Nat.ltb_spec maxTagLen (String.length (String c t0))) as [Hl|Hl].
  - split_and!; [|by apply forall_take|exact Hh]. rewrite length_take. unfold maxTagLen in *. lia.
  - by split_and!.
Qed.

(** The derived tag can be empty, which makes the reference end in a colon. *)
Example empty_tag : @SanitizeTag {| to_lower := id; quote := id |} "///" = "".
Proof. reflexivity. Qed.
End tag_facts.

Section resolve_facts.
Context {GT : GoText} {UP : UrlParse} {CA : ConditionsApi} {W : Type} {KR : Kind W ClusterRegistry}.

(** Resolving an image repository.  A reference to a cluster registry wins
    over an external one.  The error says "not ready", which callers wait out,
    exactly when the registry exists and its RegistryReady condition is not True;
    a resolved cluster registry is insecure, has a host, and is ready; an
    external one is used as given, with Docker Hub's own credentials URL. *)
Theorem resolve_repository_spec ns spec rev w :
  let run := ResolveImageRepository ns spec rev w in
  (∀ name got w1, ir_cluster_registry_ref spec = Some name → kget ns name w = (got, w1) →
     (∀ p, got ≠ Err (Panic p)) → (∀ e, got = Err e → is_registry_not_ready e = false) →
     (∀ u e, url_host u = Err e → is_registry_not_ready e = false) →
     run.2 = w1 ∧
     ((∃ e, run.1 = Err e ∧ is_registry_not_ready e = true) ↔
      ∃ reg, got = Ok reg ∧
        is_status_condition_true (rgs_conditions (creg_status reg)) RegistryReadyCondition = false) ∧
     (∀ r, run.1 = Ok r → rr_insecure r = true ∧ rr_host r ≠ "" ∧ rr_auth_url r = rr_host r ∧
        rr_tag r = ResolveTag (ir_tag_policy_fixed spec) rev ∧
        ∃ reg, got = Ok reg ∧ hostFromURL (rgs_internal_url (creg_status reg)) = Ok (rr_host r) ∧
          is_status_condition_true (rgs_conditions (creg_status reg)) RegistryReadyCondition = true)) ∧
  (∀ ext, ir_cluster_registry_ref spec = None → ir_external spec = Some ext →
     run = (Ok (mkResolvedRepository (er_host ext) (ir_repository spec)
       (ResolveTag (ir_tag_policy_fixed spec) rev) (default false (er_tls_insecure ext))
       (authURLForHost (er_host ext))), w)) ∧
  (ir_cluster_registry_ref spec = None → ir_external spec = None →
     ∃ m, run = (Err (Errorf m), w)).
Proof.
  intros run. subst run. unfold ResolveImageRepository.
  split_and!; [|by intros ext -> ->|intros -> ->; by eexists].
  intros name got w1 -> Eg Hp Hn Hu. cbv [mbind se_bind attempt of_result]. rewrite Eg.
  destruct got as [reg|e].
  - unfold registryHost. destruct (is_status_condition_true _ _) eqn:Er; cbn [negb].
    + destruct (hostFromURL _) as [host|e] eqn:Eh; [case_decide as Hne|].
      all: cbn; split; [done|]; split; [|naive_solver].
      all: split; [|intros (? & [= ->] & ?); congruence].
      all: intros (e' & [=] & He'); subst; cbn in He'; try done.
      unfold hostFromURL in Eh. by rewrite (Hu _ _ Eh) in He'.
    + cbn. split; [done|]. split; [|done]. split; eauto.
  - specialize (Hn _ eq_refl). destruct e as [| | | | | |pn]; cbn.
    7: by destruct (Hp pn).
    all: split; [done|]; split; [|done]; cbn in Hn; split; [|by intros (? & [=] & _)].
    all: intros (e' & [= <-] & He'); try done.
    cbn in He'. destruct (is_not_found _); cbn in He'; congruence.
Qed.
End resolve_facts.

(** The registry list maps each endpoint to one service address.  Adding
    keeps endpoints distinct, makes the endpoint resolve to the new address and
    leaves every other entry alone; it reports a change exactly when the pair was
    not there; removing drops exactly the entries of the endpoint. *)
Theorem registry_config_spec ip ep cfg :
  NoDup (reg_endpoint <$> cfg) →
  let '(changed, cfg') := AddRegistry ip ep cfg in
  let '(removed, cfg'') := RemoveRegistryEndpointEntry ep cfg in
  NoDup (reg_endpoint <$> cfg') ∧ NoDup (reg_endpoint <$> cfg'') ∧
  (∀ g, g ∈ cfg' ↔ g = mkRegistry ip ep ∨ (g ∈ cfg ∧ reg_endpoint g ≠ ep)) ∧
  (∀ g, g ∈ cfg'' ↔ g ∈ cfg ∧ reg_endpoint g ≠ ep) ∧
  (changed = false ↔ cfg' = cfg) ∧ (changed = false ↔ mkRegistry ip ep ∈ cfg) ∧
  (removed = false ↔ ep ∉ reg_endpoint <$> cfg).
Proof.
  intros HN.
  assert (∀ g, HasEndpointWithServiceIP ep ip cfg = true → g ∈ cfg → reg_endpoint g = ep → g = mkRegistry ip ep) as Huniq.
  { intros g (h & Hh%list_elem_of_In & Hb)%existsb_exists Hg E.
    rewrite andb_true_iff, !bool_decide_eq_true in Hb. destruct Hb as [Hep Hip].
    assert (g = h) as -> by (apply (NoDup_name_inj reg_endpoint cfg); congruence).
    destruct h; cbn in *; congruence. }
  assert (HasEndpointWithServiceIP ep ip cfg = true ↔ mkRegistry ip ep ∈ cfg) as Hhas.
  { split.
    - intros H. pose proof H as (h & Hh%list_elem_of_In & Hb)%existsb_exists.
      rewrite andb_true_iff, !bool_decide_eq_true in Hb. by rewrite <- (Huniq h H Hh (proj1 Hb)).
    - intros H%list_elem_of_In. apply existsb_exists. eexists. split; [exact H|]. cbn.
      by rewrite !bool_decide_true. }
  assert (HasEndpoint ep cfg = true ↔ ep ∈ reg_endpoint <$> cfg) as Hep.
  { unfold HasEndpoint. rewrite existsb_exists, list_elem_of_fmap. setoid_rewrite <- list_elem_of_In.
    setoid_rewrite bool_decide_eq_true. naive_solver. }
  set (rest := (RemoveRegistryEndpointEntry ep cfg).2).
  assert (∀ g, g ∈ rest ↔ g ∈ cfg ∧ reg_endpoint g ≠ ep) as Hrest.
  { intros g. unfold rest, RemoveRegistryEndpointEntry. destruct (HasEndpoint ep cfg) eqn:E; cbn [negb snd].
    - rewrite list_elem_of_filter. tauto.
    - split; [|tauto]. intros Hg. split; [done|]. intros Eg.
      assert (false = true) by (apply Hep; rewrite <- Eg; by apply list_elem_of_fmap_2). done. }
  assert (NoDup (reg_endpoint <$> rest)) as HNr.
  { unfold rest, RemoveRegistryEndpointEntry. destruct (negb _); [done|].
    eapply sublist_NoDup; [exact HN|]. apply fmap_sublist, sublist_filter. }
  assert (ep ∉ reg_endpoint <$> rest) as Hnin.
  { intros (g & -> & Hg)%list_elem_of_fmap. apply Hrest in Hg as [_ Hg]; by apply Hg. }
  unfold AddRegistry. fold rest.
  destruct (RemoveRegistryEndpointEntry ep cfg) as [removed cfg''] eqn:Erm. cbn [snd] in rest.
  assert (removed = false ↔ ep ∉ reg_endpoint <$> cfg) as Hrem.
  { unfold RemoveRegistryEndpointEntry in Erm. rewrite <- Hep.
    destruct (HasEndpoint ep cfg); cbn in Erm; injection Erm as <- _; by split. }
  destruct (HasEndpointWithServiceIP ep ip cfg) eqn:E.
  - pose proof (proj1 Hhas eq_refl) as Hin. split_and!; try done.
    intros g. split; [|by intros [->|[? _]]]. intros Hg.
    destruct (decide (reg_endpoint g = ep)) as [Eg|Eg]; [left; by apply Huniq|by right].
  - assert (mkRegistry ip ep ∉ cfg) as Hno by (intros H; by apply Hhas in H).
    split_and!; try done.
    + rewrite fmap_app. apply NoDup_app. split_and!; [done| |apply NoDup_singleton].
      intros x Hx ->%list_elem_of_singleton. done.
    + intros g. rewrite elem_of_app, list_elem_of_singleton, Hrest. tauto.
    + split; [done|]. intros Ecfg. destruct Hno. rewrite <- Ecfg. apply elem_of_app. right. left.
Qed.

(** * Witnesses *)

#[local] Instance sample_text : GoText := { to_lower := id; quote := id }.
#[local] Instance sample_url : UrlParse := λ u, Ok (trim_prefix u "http://").
#[local] Instance sample_registries : Kind (list ClusterRegistry) ClusterRegistry := {
  kget _ _ w := (match w with r :: _ => Ok r | [] => Err (NotFound "registry") end, w);
  klist _ _ w := (Ok w, w);
  kcreate r w := (Ok r, w);
  kupdate r w := (Ok r, w);
  kupdate_status r w := (Ok r, w);
  kdelete _ w := (Ok tt, w);
}.
Definition pending_registry : ClusterRegistry :=
  sample_registry [] "http://reg:5000".

Lemma resolve_repository_spec_witness :
  let spec := mkImageRepositorySpec (Some "reg") None "shop/web" None None in
  ∃ e, (ResolveImageRepository "default" spec "abc" [pending_registry]).1 = Err e ∧
       is_registry_not_ready e = true.
Proof.
  intros spec.
  destruct (proj1 (resolve_repository_spec "default" spec "abc" [pending_registry])
    "reg" (Ok pending_registry) [pending_registry]) as (_ & H & _).
  - reflexivity.
  - reflexivity.
  - discriminate.
  - discriminate.
  - discriminate.
  - apply H. exists pending_registry. split; reflexivity.
Defined.

Lemma registry_config_spec_witness :
  let '(changed, cfg) := AddRegistry "10.0.0.2" "reg:5000" [mkRegistry "10.0.0.1" "reg:5000"] in
  changed = true ∧ NoDup (reg_endpoint <$> cfg) ∧ mkRegistry "10.0.0.2" "reg:5000" ∈ cfg.
Proof.
  destruct (registry_config_spec "10.0.0.2" "reg:5000" [mkRegistry "10.0.0.1" "reg:5000"])
    as (HN & _ & Hin & _).
  - apply NoDup_singleton.
  - split; [reflexivity|]. split; [exact HN|]. apply Hin. left. reflexivity.
Defined.
