(* ===== verification/ImageBuildStep.v ===== *)
(** The image build step of a StackResource
    (internal/controller/stackresource/image_build_reconciler.go): one ImageBuild
    per set of build inputs, stale ones cancelled, old ones deleted. *)
From S2P Require Import Prelude Text Kube Apimachinery Api Verdicts Pass Builds Samples.

Definition partOfLabel : string := "stackdome.io/part-of".
Definition componentLabel : string := "stackdome.io/component".

(** [errgroup.Group]: run the tasks concurrently, wait for all, answer the first
    error.  Each task here makes one API call. *)
Class ErrGroup (W : Type) := group_run : list (SE W unit) → SE W unit.

(** A group does nothing but what its tasks do. *)
Class ErrGroupLaws (W : Type) {EG : ErrGroup W} : Prop :=
  group_invariant (I : W → Prop) tasks w :
    (∀ t w, t ∈ tasks → I w → I (t w).2) → I w → I (group_run tasks w).2.

(** [sort.Slice] with the newest build first; the order of builds created at the
    same instant is not fixed. *)
Class BuildSort := sort_builds : list ImageBuild → list ImageBuild.
Definition build_created (b : ImageBuild) : Time := om_creation_timestamp (ib_meta b).
Class BuildSortLaws {BS : BuildSort} : Prop := {
  sort_builds_perm l : sort_builds l ≡ₚ l;
  sort_builds_sorted l : StronglySorted (λ a b, (build_created b ≤ build_created a)%Z) (sort_builds l);
}.

(** * Predicates *)

Definition isImageBuildComplete (b : ImageBuild) : bool :=
  bool_decide (ibs_phase (ib_status b) = BuildPhaseSuccess).
(** [imageBuildFailed] (stackresource_controller.go). *)
Definition imageBuildFailed (b : ImageBuild) : bool :=
  bool_decide (ibs_phase (ib_status b) = BuildPhaseFailed).
Definition isImageBuildTerminal (b : ImageBuild) : bool :=
  existsb (λ c, (bool_decide (c_type c = BuildAvailable) || bool_decide (c_type c = BuildFailed) ||
                 bool_decide (c_type c = BuildCancelled)) &&
                bool_decide (c_status c = ConditionTrue)) (ibs_conditions (ib_status b)).
Definition isOwnedByStackResource (b : ImageBuild) (r : StackResource) : bool :=
  existsb (λ ref, bool_decide (ref_uid ref = om_uid (sr_meta r))) (om_owner_references (ib_meta b)).

Definition createImageBuildLabels (r : StackResource) : gmap string string :=
  <[partOfLabel := sr_name r]> (<[componentLabel := "image-build"]> (om_labels (sr_meta r))).
Definition createImageBuildAnnotations (r : StackResource) : gmap string string := sr_annotations r.

Section step.
Context {GT : GoText} {BD : BuildDigest} {OA : OwnerApi} {CA : ConditionsApi}.

(** Called only for a resource with the build spec [spec]. *)
Definition generateImageBuildName (r : StackResource) (spec : StackResourceBuildSpec) : string :=
  ImageBuildName (sr_name r) spec.

(** The selection of [cancelStaleImageBuilds]. *)
Definition stale (r : StackResource) (spec : StackResourceBuildSpec) (b : ImageBuild) : bool :=
  isOwnedByStackResource b r && negb (ib_cancelled (ib_spec b)) &&
  negb (isImageBuildTerminal b) && negb (bool_decide (ib_name b = generateImageBuildName r spec)).

Definition cancelled (b : ImageBuild) : ImageBuild :=
  b <| ib_spec ::= λ s, s <| ib_cancelled := true |> |>.

Context {BS : BuildSort}.

(** The builds [enforceImageBuildRetention] deletes. *)
Definition expired (historyLimit : Z) (r : StackResource) (spec : StackResourceBuildSpec)
    (builds : list ImageBuild) : list ImageBuild :=
  let builds := sort_builds builds in
  if bool_decide (0 < historyLimit)%Z && bool_decide (historyLimit < Z.of_nat (length builds))%Z
  then filter (λ b, isImageBuildTerminal b = true ∧ isOwnedByStackResource b r = true ∧
                    ib_name b ≠ generateImageBuildName r spec)
         (drop (Z.to_nat historyLimit) builds)
  else [].

Definition newImageBuild (r : StackResource) (spec : StackResourceBuildSpec) : ImageBuild :=
  mkImageBuild
    ((object_meta (generateImageBuildName r spec) (sr_namespace r))
       <| om_labels := createImageBuildLabels r |>
       <| om_annotations := createImageBuildAnnotations r |>)
    (mkImageBuildSpec (sr_name r) (bs_source_revision spec)
       (mkBuildContextSpec (bs_docker_file_path spec) (bs_build_context spec)
          (Some (bs_source_context spec)))
       (bs_repository spec) (bs_build_args spec) false)
    empty_build_status.

Context {W : Type} (historyLimit : Z).
Context {KB : Kind W ImageBuild} {EG : ErrGroup W} {CK : Clock W}.

Definition listImageBuilds (r : StackResource) : SE W (list ImageBuild) :=
  wrapping "failed to list ImageBuilds: "
    (klist (sr_namespace r) [{[ partOfLabel := sr_name r; componentLabel := "image-build" ]}]).

Definition cancelTask (b : ImageBuild) : SE W unit :=
  wrapping ("failed to cancel stale ImageBuild " +:+ ib_name b +:+ ": ")
    (_ ← kupdate (cancelled b); mret tt).
Definition cancelStaleImageBuilds (r : StackResource) (spec : StackResourceBuildSpec)
    (builds : list ImageBuild) : SE W unit :=
  group_run (cancelTask <$> filter (λ b, stale r spec b = true) builds).

Definition deleteTask (what : string) (b : ImageBuild) : SE W unit :=
  wrapping ("failed to delete " +:+ what +:+ " ImageBuild " +:+ ib_name b +:+ ": ")
    (ignore_not_found (kdelete b)).
Definition enforceImageBuildRetention (r : StackResource) (spec : StackResourceBuildSpec)
    (builds : list ImageBuild) : SE W unit :=
  group_run (deleteTask "old" <$> expired historyLimit r spec builds).

Definition createImageBuild (r : StackResource) (spec : StackResourceBuildSpec)
    : PM W SubReconcilerResult :=
  let b := newImageBuild r spec in
  m ← lift (wrapping "failed to set controller reference: "
        (of_result (set_owner_reference (sr_meta r) (ib_meta b))));
  _ ← lift (wrapping "failed to create ImageBuild: " (kcreate (b <| ib_meta := m |>)));
  _ ← reportNotReady "ImageBuildInProgress" "Image build created; waiting for completion";
  mret ResultStop.

Definition evaluateImageBuild (b : ImageBuild) : PM W SubReconcilerResult :=
  if imageBuildFailed b then
    _ ← setCondition StackResourceBuildReady false ReasonBuildFailed
          "application build failed terminally";
    _ ← reportFailed ReasonBuildFailed
          ("ImageBuild " +:+ ib_name b +:+ " reached terminal Failed phase");
    mret ResultStop
  else if isImageBuildComplete b then mret ResultNil
  else
    _ ← reportNotReady "ImageBuildInProgress" "Image build is still in progress";
    mret ResultStop.

Definition reconcile : PM W SubReconcilerResult :=
  r ← gets resource;
  match build_spec (sr_spec r) with
  | None => mret ResultNil
  | Some spec =>
      builds ← lift (listImageBuilds r);
      _ ← lift (cancelStaleImageBuilds r spec builds);
      _ ← lift (enforceImageBuildRetention r spec builds);
      res ← lift (attempt (kget (sr_namespace r) (generateImageBuildName r spec)));
      match res with
      | Err e =>
          if is_not_found e then createImageBuild r spec
          else fail (Wrapf "failed to get ImageBuild: " e)
      | Ok b =>
          if ib_cancelled (ib_spec b) then
            _ ← lift (deleteTask "cancelled" b);
            createImageBuild r spec
          else evaluateImageBuild b
      end
  end.
End step.

(** * Properties *)

Section step_outcome.
Context {GT : GoText} {BD : BuildDigest} {OA : OwnerApi} {CA : ConditionsApi} {BS : BuildSort}.
Context {W : Type} (historyLimit : Z) {KB : Kind W ImageBuild} {EG : ErrGroup W} {CK : Clock W}.

(** The step is never silent. *)
Lemma build_outcome p : post (reconcile historyLimit) (outcome []) p.
Proof.
  unfold reconcile, createImageBuild, evaluateImageBuild, reportNotReady, reportFailed. vcg.
  all: unfold outcome; cbn; first [set_solver|apply verdict_notReady|apply verdict_failed].
Qed.
End step_outcome.

Section step_properties.
Context {GT : GoText} {BD : BuildDigest} {OA : OwnerApi} {CA : ConditionsApi} {CL : ConditionsLaws}.
Context {BS : BuildSort} {BL : BuildSortLaws} {W : Type} (historyLimit : Z).
Context {KB : Kind W ImageBuild} {EG : ErrGroup W} {EL : ErrGroupLaws W} {CK : Clock W}.

(** What retention may delete, of a listing. *)
Definition beyond_limit (builds : list ImageBuild) (b : ImageBuild) : Prop :=
  (0 < historyLimit)%Z ∧
  ∃ newer older, builds ≡ₚ newer ++ older ∧ length newer = Z.to_nat historyLimit ∧ b ∈ older ∧
    ∀ c, c ∈ newer → (build_created b ≤ build_created c)%Z.

Lemma expired_spec r spec builds b :
  b ∈ expired historyLimit r spec builds →
  isImageBuildTerminal b = true ∧ isOwnedByStackResource b r = true ∧
  ib_name b ≠ generateImageBuildName r spec ∧ beyond_limit builds b.
Proof.
  unfold expired. case_bool_decide as Hh; [|by intros ?%not_elem_of_nil].
  cbn [andb]. case_bool_decide as Hl; [|by intros ?%not_elem_of_nil].
  intros [(Ht & Ho & Hn) Hb]%list_elem_of_filter. split_and!; [done..|].
  split; [done|].
  exists (take (Z.to_nat historyLimit) (sort_builds builds)), (drop (Z.to_nat historyLimit) (sort_builds builds)).
  split_and!; [by rewrite take_drop, sort_builds_perm|rewrite length_take_le; [done|lia]|done|].
  intros c Hc. pose proof (sort_builds_sorted builds) as HS.
  rewrite <- (take_drop (Z.to_nat historyLimit) (sort_builds builds)) in HS.
  apply StronglySorted_app in HS as (HS & _). by apply HS.
Qed.

Lemma expired_listed r spec builds b : b ∈ expired historyLimit r spec builds → b ∈ builds.
Proof.
  unfold expired. destruct (_ && _); [|by intros ?%not_elem_of_nil].
  intros [_ Hb]%list_elem_of_filter. rewrite <- (sort_builds_perm builds).
  rewrite <- (take_drop (Z.to_nat historyLimit) (sort_builds builds)). apply elem_of_app. by right.
Qed.

(** C14. What the build step writes, for a resource with a build spec.  Every world
    invariant [I] that reading the clock, getting and listing builds respect, and that
    survives cancelling a stale build, deleting an expired or a cancelled one and
    creating the build of the current inputs, survives a whole pass, errors included:
    the step makes no other writes.  Stale and expired are judged on the listing of
    this pass: the builds labelled as the resource's, asked for first, in the world
    the pass starts in.  A stale build is one of them that the resource owns, not
    finished, not cancelled, and not of the current inputs; an expired one is owned,
    finished, not of the current inputs, and outside the newest [historyLimit] of
    that listing (and [historyLimit] is positive).  The cancelled build that is
    deleted is the one answered under the current inputs' name in a world that [I]
    holds of.  So the step never cancels or deletes the build of the current inputs
    unless that was itself cancelled, and touches for staleness or age no build the
    resource does not own. *)
Theorem build_step_footprint (I : W → Prop) p spec :
  let r := resource p in
  let name := generateImageBuildName r spec in
  let labels : gmap string string := {[ partOfLabel := sr_name r; componentLabel := "image-build" ]} in
  build_spec (sr_spec r) = Some spec →
  Inv I now → (∀ ns n, Inv I (kget (O:=ImageBuild) ns n)) → (∀ ns sel, Inv I (klist (O:=ImageBuild) ns sel)) →
  (∀ builds w, klist (O:=ImageBuild) (sr_namespace r) [labels] (world p) = (Ok builds, w) →
     (∀ b, b ∈ builds → isOwnedByStackResource b r = true → isImageBuildTerminal b = false →
        ib_cancelled (ib_spec b) = false → ib_name b ≠ name → Inv I (kupdate (cancelled b))) ∧
     (∀ b, b ∈ builds → isOwnedByStackResource b r = true → isImageBuildTerminal b = true →
        ib_name b ≠ name → beyond_limit builds b → Inv I (kdelete b))) →
  (∀ b w w', I w → kget (sr_namespace r) name w = (Ok b, w') → ib_cancelled (ib_spec b) = true → Inv I (kdelete b)) →
  (∀ m, set_owner_reference (sr_meta r) (ib_meta (newImageBuild r spec)) = Ok m →
     Inv I (kcreate ((newImageBuild r spec) <| ib_meta := m |>))) →
  I (world p) → I (world (reconcile historyLimit p).2).
Proof.
  intros r name labels Hspec Hnow Hget Hlist Hold Hdel Hcreate Hp.
  assert (Inv (λ p, I (world p)) (createImageBuild r spec)) as Hnew.
  { unfold createImageBuild, reportNotReady. apply inv_bind; [auto with inv|]. intros m (p1 & p2 & Hm).
    apply inv_bind; [|intros _ _; apply inv_bind; [|intros _ _]]; eauto with inv.
    apply inv_lift, inv_wrapping, Hcreate. unfold lift, wrapping, of_result, attempt in Hm.
    cbv [mbind se_bind] in Hm. destruct (set_owner_reference _ _) as [m'|[]]; cbn in Hm; congruence. }
  unfold reconcile. se_step by reflexivity. fold r. rewrite Hspec.
  assert (Inv I (listImageBuilds r)) as Hl by (unfold listImageBuilds; auto with inv).
  specialize (Hl _ Hp). unfold mbind at 1, se_bind at 1, lift at 1.
  destruct (listImageBuilds r (world p)) as [[builds|e] w1] eqn:E; [|exact Hl]. cbn [snd] in Hl.
  apply wrapping_ok in E. destruct (Hold _ _ E) as [Hcancel Hexp]. clear Hold.
  match goal with |- I (world (?m ?q).2) => assert (Inv (λ p, I (world p)) m) as HI; [|by apply HI] end.
  apply (inv_bind (λ p, I (world p)) (lift (cancelStaleImageBuilds r spec builds))).
  { apply inv_lift. intros w Hw. apply (group_invariant I); [|done].
    intros t w' (b & -> & [Hb Hin]%list_elem_of_filter)%list_elem_of_fmap.
    unfold stale in Hb. rewrite !andb_true_iff, !negb_true_iff, bool_decide_eq_false in Hb.
    destruct Hb as [[[? ?] ?] ?]. apply inv_wrapping, inv_bind; auto with inv. }
  intros _ _. apply (inv_bind (λ p, I (world p)) (lift (enforceImageBuildRetention historyLimit r spec builds))).
  { apply inv_lift. intros w Hw. apply (group_invariant I); [|done].
    intros t w' (b & -> & Hb)%list_elem_of_fmap. pose proof (expired_listed _ _ _ _ Hb) as Hin.
    apply expired_spec in Hb as (? & ? & ? & ?). apply inv_wrapping, inv_ignore_not_found. eauto. }
  intros _ _ q Hq. unfold mbind at 1, se_bind at 1, lift at 1.
  assert (Inv I (attempt (kget (sr_namespace r) (generateImageBuildName r spec)))) as Hat by auto with inv.
  specialize (Hat _ Hq). destruct (attempt _ _) as [[[b|e]|e] w2] eqn:Eb; cbn [snd] in Hat; [|
    destruct (is_not_found e); [by apply Hnew|exact Hat]|exact Hat].
  apply attempt_inv in Eb. destruct (ib_cancelled (ib_spec b)) eqn:Hc.
  - match goal with |- I (world (?m ?q).2) => assert (Inv (λ p, I (world p)) m) as HI; [|by apply HI] end.
    apply inv_bind; [|done]. apply inv_lift, inv_wrapping, inv_ignore_not_found. exact (Hdel b _ _ Hq Eb Hc).
  - match goal with |- I (world (?m ?q).2) => assert (Inv (λ p, I (world p)) m) as HI; [|by apply HI] end.
    unfold evaluateImageBuild, reportFailed, reportNotReady.
    repeat case_match; repeat (apply inv_bind; [|intros _ _]); auto with inv.
Qed.

(** The step has found this build of the current inputs, which is not cancelled. *)
Definition found_build (r : StackResource) (spec : StackResourceBuildSpec) (b : ImageBuild) (w w' : W) : Prop :=
  build_spec (sr_spec r) = Some spec ∧ kget (sr_namespace r) (generateImageBuildName r spec) w = (Ok b, w') ∧
  ib_cancelled (ib_spec b) = false.

(** C15. The build step is never silent.  It goes on only for a resource without
    a build spec, or with a build of the current inputs that the API answered in the
    last call of the pass, is not cancelled and has succeeded; in every other case it
    halts with a verdict.  It reports a failure only when the build of the current
    inputs, as the API answered in the last call of the pass but for the clock, is
    not cancelled and is in phase Failed; BuildReady is then False for that reason.
    For a build that was answered last, is not cancelled and is in neither phase, as
    for one that was created, the verdict is that the resource is not ready. *)
Theorem build_step_outcome p :
  post (reconcile historyLimit) (λ res p',
    let r := resource p in
    (if halts res then res = ResultStop ∧ has_verdict p'
     else build_spec (sr_spec r) = None ∧ p' = p ∨
          ∃ spec b w, found_build r spec b w (world p') ∧ ibs_phase (ib_status b) = BuildPhaseSuccess) ∧
    (Failed (verdicts p') = Failed (verdicts p) ∧ (halts res = true → is_Some (NotReady (verdicts p'))) ∨
     (∃ m, view (sr_conditions (resource p')) (domain_name StackResourceBuildReady) =
          Some (ConditionFalse, sr_generation r, ReasonBuildFailed, m)) ∧
     ∃ spec b w w1, found_build r spec b w w1 ∧ world p' = (time_now w1).2 ∧
       ibs_phase (ib_status b) = BuildPhaseFailed)) p.
Proof.
  unfold reconcile. do 2 vcg_step.
  destruct (build_spec (sr_spec (resource p))) as [spec|] eqn:Hs.
  2: { apply post_ret. split; left; done. }
  assert (∀ reason msg v, Failed (ReportNotReady reason msg v) = Failed v ∧
    is_Some (NotReady (ReportNotReady reason msg v))) as HN.
  { intros reason msg v. unfold ReportNotReady. destruct (NotReady v) eqn:E; cbn; [by rewrite E; eauto|by eauto]. }
  do 3 (apply post_bind, post_lift_any; intros ? ?). apply post_bind, post_lift.
  intros [b|e] w3 Hb; apply attempt_inv in Hb; cbn [resource world] in Hb |- *.
  - destruct (ib_cancelled (ib_spec b)) eqn:Hc.
    { apply post_bind, post_lift_any. intros _ w4. unfold createImageBuild. vcg.
      split; [by split; [|apply verdict_notReady]|left]. split; [apply HN|intros _; apply HN]. }
    unfold evaluateImageBuild. destruct (imageBuildFailed b) eqn:Hf.
    { apply bool_decide_eq_true in Hf. apply post_bind. intros [] p4 Hcond.
      unfold setCondition, lift in Hcond. apply se_bind_inv in Hcond as (t & p5 & Ht & Hcond).
      unfold now in Ht. cbn [world resource verdicts] in Ht. destruct (time_now w3) as [t' w4] eqn:Et.
      injection Ht as <- <-. injection Hcond as <-. unfold reportFailed. vcg.
      split; [by split; [|apply verdict_failed]|right]. split.
      - eexists. cbn. unfold sr_conditions. cbn. by rewrite view_set_new, decide_True.
      - exists spec, b. do 2 eexists. split; [by split_and!|]. cbn. by rewrite Et. }
    unfold isImageBuildComplete. case_bool_decide as Hp.
    { apply post_ret. split; [right|left; by split]. cbn. do 3 eexists. by split_and!. }
    unfold reportNotReady. vcg. split; [by split; [|apply verdict_notReady]|left].
    split; [apply HN|intros _; apply HN].
  - destruct (is_not_found e); [|apply post_fail].
    unfold createImageBuild. vcg. split; [by split; [|apply verdict_notReady]|left].
    split; [apply HN|intros _; apply HN].
Qed.
End step_properties.

(** * Witnesses *)

Import Cluster.

(** A group that runs its tasks one after the other, whatever they answer. *)
#[local] Instance in_turn {W} : ErrGroup W := λ tasks w,
  foldl (λ rw m, let '(r, w) := rw in
                 let '(r', w) := m w in
                 (match r with Ok _ => r' | Err _ => r end, w)) (Ok tt, w) tasks.
#[local] Instance in_turn_laws {W} : ErrGroupLaws W.
Proof.
  intros I tasks w. unfold group_run, in_turn. generalize (Ok tt : result unit). revert w.
  induction tasks as [|m tasks IH]; intros w r Ht Hw; [done|]. cbn [foldl].
  pose proof (Ht m w ltac:(left) Hw) as Hm. destruct (m w) as [r' w'].
  destruct r; apply IH; try done; intros t' w'' Hin; apply Ht; by right.
Qed.
Definition newer (a b : ImageBuild) : Prop := (build_created b ≤ build_created a)%Z.
#[local] Instance newer_dec a b : Decision (newer a b) := decide (build_created b ≤ build_created a)%Z.
#[local] Instance newer_trans : Transitive newer.
Proof. intros a b c. unfold newer. lia. Qed.
#[local] Instance newer_total : Total newer.
Proof. intros a b. unfold newer. lia. Qed.
#[local] Instance newest_first : BuildSort := merge_sort newer.
#[local] Instance newest_first_laws : BuildSortLaws.
Proof.
  split; intros l.
  - apply merge_sort_Permutation.
  - apply (StronglySorted_merge_sort newer).
Qed.

Definition built_resource : StackResource :=
  (sample_resource "web") <| sr_spec ::= λ s, s <| build_spec := Some sample_build_spec |> |>.

(** A world that logs the names of the builds it updates or deletes. *)
#[local] Instance logged_builds : Kind (list string) ImageBuild := {
  kget _ _ l := (Ok sample_build, l);
  klist _ _ l := (Ok [sample_build], l);
  kcreate b l := (Ok b, l);
  kupdate b l := (Ok b, ib_name b :: l);
  kupdate_status b l := (Ok b, l);
  kdelete b l := (Ok tt, ib_name b :: l);
}.
#[local] Instance frozen_clock : Clock (list string) := λ l, (0%Z, l).

Lemma build_step_footprint_witness :
  ImageBuildName "web" sample_build_spec ∉
    world (reconcile 3 (mkPass ([] : list string) built_resource no_verdicts)).2.
Proof.
  apply (build_step_footprint (W:=list string) 3 (λ l, ImageBuildName "web" sample_build_spec ∉ l)
    (mkPass [] built_resource no_verdicts) sample_build_spec); [reflexivity|..].
  - intros l Hl. exact Hl.
  - intros ns n l Hl. exact Hl.
  - intros ns sel l Hl. exact Hl.
  - intros builds w _. split.
    + intros b _ _ _ _ Hn l Hl. apply not_elem_of_cons. split; [exact (not_eq_sym Hn)|exact Hl].
    + intros b _ _ _ Hn _ l Hl. apply not_elem_of_cons. split; [exact (not_eq_sym Hn)|exact Hl].
  - intros b w w' _ [= <- _] Hc. discriminate Hc.
  - intros m _ l Hl. exact Hl.
  - apply not_elem_of_nil.
Defined.

#[local] Instance running_build : Kind Z ImageBuild := only_objects [sample_build].

Lemma build_step_outcome_witness :
  ∃ res p', reconcile 3 (mkPass 5%Z built_resource no_verdicts) = (Ok res, p') ∧ has_verdict p'.
Proof.
  destruct (reconcile _ _) as [[res|e] p'] eqn:E; [|exfalso; vm_compute in E; discriminate].
  exists res, p'. split; [reflexivity|].
  destruct (build_step_outcome (W:=Z) 3 _ res p' E) as [H _].
  assert (halts res = true) as Hh by (vm_compute in E; injection E as <- _; reflexivity).
  rewrite Hh in H. apply H.
Defined.
