(* ===== verification/RegistryAuth.v ===== *)
(** The registry credentials step of a StackResource
    (internal/controller/stackresource/registry_auth_reconciler.go). *)
From S2P Require Import Prelude Text Kube Apimachinery Api Verdicts Pass KubeWorkloads Registries RegistryRef Samples.

Definition DockerConfigJsonKey : string := ".dockerconfigjson".
Definition SecretTypeDockerConfigJson : string := "kubernetes.io/dockerconfigjson".

Section step.
Context {GT : GoText} {UP : UrlParse} {CC : CredentialCodec} {OA : OwnerApi} {CA : ConditionsApi}.
Context {W : Type} {KSec : Kind W Secret} {KR : Kind W ClusterRegistry}.

(** A nil auth or secret reference is a nil dereference. *)
Definition reconcileDockerConfigAuth (auth : option DockerConfigAuth) : PM W SubReconcilerResult :=
  r ← gets resource;
  match auth ≫= dca_secret_ref with
  | None => fail (Panic "nil docker config secret reference")
  | Some ref =>
      res ← lift (attempt (kget (sr_namespace r) (sr_ref_name ref)));
      match res with
      | Err e =>
          if is_not_found e then
            _ ← reportNotReady "DockerConfigJsonSecretNotFound" "Docker credentials secret not found";
            mret ResultStop
          else fail (Wrapf "failed to get docker config json secret: " e)
      | Ok secret =>
          m ← lift (of_result (set_controller_reference (sr_meta r) (sec_meta secret)));
          let secret := secret <| sec_meta := m |> in
          ok ← lift (wrapping "failed to check owner reference: " (of_result
                 (has_owner_reference (om_owner_references (sec_meta secret)) (sr_meta r))));
          if negb (ok : bool) then _ ← lift (kupdate secret); mret ResultNil
          else mret ResultNil
      end
  end.

(** The docker configuration of one set of credentials. *)
Definition basicConfig (basic : BasicAuthCredentials) (src : Secret) (authURL : string) : string :=
  AsJSON (NewDockerConfigJSON
    [mkAuthCreds (mget (sec_data src) (bac_username_key basic))
       (mget (sec_data src) (bac_password_key basic)) authURL]).

Definition synthesizedSecret (r : StackResource) (raw : string) : Secret :=
  mkSecret (object_meta (SynthesizedDockerConfigSecretName (sr_name r)) (sr_namespace r))
    SecretTypeDockerConfigJson {[ DockerConfigJsonKey := raw ]}.

Definition synthesizeFromBasic (basic : BasicAuthCredentials) (authURL : string)
    : PM W SubReconcilerResult :=
  r ← gets resource;
  res ← lift (attempt (kget (sr_namespace r) (sr_ref_name (bac_secret_ref basic))));
  match res with
  | Err e =>
      if is_not_found e then
        _ ← reportNotReady "RegistryCredentialsMissing"
              "image repository credentials secret not found";
        mret ResultStop
      else fail e
  | Ok src =>
      let out := synthesizedSecret r (basicConfig basic src authURL) in
      m ← lift (of_result (set_controller_reference (sr_meta r) (sec_meta out)));
      let out := out <| sec_meta := m |> in
      res ← lift (attempt (kget (sr_namespace r) (SynthesizedDockerConfigSecretName (sr_name r))));
      match res with
      | Err e =>
          if is_not_found e then _ ← lift (kcreate out); mret ResultNil else fail e
      | Ok existing =>
          if decide (mget (sec_data existing) DockerConfigJsonKey =
                     mget (sec_data out) DockerConfigJsonKey)
          then mret ResultNil
          else _ ← lift (kupdate (existing <| sec_data := sec_data out |>)); mret ResultNil
      end
  end.

(** [ResolveImageRepository] reports its error through [%v], so it is only text. *)
Definition reconcileCredentials (b : StackResourceBuildSpec) (auth : RegistryCredentialsSpec)
    : PM W SubReconcilerResult :=
  r ← gets resource;
  match rc_docker_config auth, rc_basic auth with
  | Some d, _ => reconcileDockerConfigAuth (Some d)
  | None, Some basic =>
      res ← lift (attempt (ResolveImageRepository (sr_namespace r) (bs_repository b)
                             (GetSourceRevisionString (bs_source_revision b))));
      match res with
      | Err e =>
          _ ← reportNotReady "RepositoryResolveFailed"
                ("failed to resolve image repository: " +:+ error_text e);
          mret ResultStop
      | Ok resolved => synthesizeFromBasic basic (rr_auth_url resolved)
      end
  | None, None => mret ResultNil
  end.

Definition reconcile : PM W SubReconcilerResult :=
  r ← gets resource;
  match build_spec (sr_spec r), image_spec (sr_spec r) with
  | Some b, _ =>
      match ir_auth (bs_repository b) with
      | None => mret ResultNil
      | Some auth => reconcileCredentials b auth
      end
  | None, Some i =>
      match is_pull_auth i with
      | None => mret ResultNil
      | Some pull => reconcileDockerConfigAuth (ra_docker_config_auth pull)
      end
  | None, None => fail (Panic "nil image spec")
  end.
End step.

(** * Properties *)

Section step_outcome.
Context {GT : GoText} {UP : UrlParse} {CC : CredentialCodec} {OA : OwnerApi}.
Context {CA : ConditionsApi} {W : Type} {KSec : Kind W Secret} {KR : Kind W ClusterRegistry}.

(** The step is never silent. *)
Lemma registry_auth_outcome p : post reconcile (outcome []) p.
Proof.
  unfold reconcile, reconcileCredentials, reconcileDockerConfigAuth, synthesizeFromBasic, reportNotReady.
  vcg. all: unfold outcome; cbn; first [set_solver|apply verdict_notReady].
Qed.
End step_outcome.

Section step_properties.
Context {GT : GoText} {UP : UrlParse} {CC : CredentialCodec} {OA : OwnerApi} {OL : OwnerLaws}.
Context {CA : ConditionsApi} {W : Type} {KSec : Kind W Secret} {KR : Kind W ClusterRegistry}.

(** A docker-config Secret is never adopted.  The owner reference is set on
    the copy in memory and then looked for on that same copy, where it always is,
    so the branch that saves it cannot be taken: whenever the Secret exists and
    can be owned, the step goes on, and the world has seen one read and no
    write. *)
Theorem docker_config_never_saved auth ref w r v secret w1 m :
  dca_secret_ref auth = Some ref →
  kget (sr_namespace r) (sr_ref_name ref) w = (Ok secret, w1) →
  set_controller_reference (sr_meta r) (sec_meta secret) = Ok m →
  reconcileDockerConfigAuth (Some auth) (mkPass w r v) = (Ok ResultNil, mkPass w1 r v).
Proof.
  intros Hr Hg Hm. unfold reconcileDockerConfigAuth. se_step by reflexivity.
  cbn [mbind option_bind]. rewrite Hr.
  se_step by (unfold lift; cbn [world resource]; erewrite attempt_ok by exact Hg; reflexivity).
  se_step by (unfold lift, of_result; cbn [world resource]; rewrite Hm; reflexivity).
  cbn [sec_meta modify]. pose proof (has_owner_after_set_controller _ _ _ Hm) as Ho.
  se_step by (unfold lift; cbn [world resource]; unfold wrapping; se_step by (apply attempt_ok;
    unfold of_result; rewrite Ho; reflexivity); reflexivity). reflexivity.
Qed.

(** Basic credentials become a docker configuration.  Unless the source
    Secret is missing, which halts the chain with a verdict, the step goes on only
    if the cluster has a Secret of the resource whose docker configuration holds
    exactly these credentials under the registry's URL: it already had it, or the
    step has just created it, owned by the resource, or has just written it into
    the existing one. *)
Theorem synthesized_credentials_spec basic url p :
  post (synthesizeFromBasic basic url) (λ res p',
    let r := resource p in
    let name := SynthesizedDockerConfigSecretName (sr_name r) in
    resource p' = r ∧
    if halts res then has_verdict p'
    else verdicts p' = verdicts p ∧
      ∃ src w0 w1, kget (sr_namespace r) (sr_ref_name (bac_secret_ref basic)) w0 = (Ok src, w1) ∧
      let cred := mget (sec_data src) (bac_username_key basic) +:+ ":" +:+
                  mget (sec_data src) (bac_password_key basic) in
      let config := docker_config_text {[ url := base64 cred ]} in
      (∃ s w, kget (sr_namespace r) name w = (Ok s, world p') ∧
              mget (sec_data s) DockerConfigJsonKey = config) ∨
      (∃ s s' w, kcreate s w = (Ok s', world p') ∧ om_name (sec_meta s) = name ∧
                 is_controlled_by (sec_meta s) (sr_meta r) = true ∧
                 mget (sec_data s) DockerConfigJsonKey = config) ∨
      (∃ s s' w, kupdate s w = (Ok s', world p') ∧
                 mget (sec_data s) DockerConfigJsonKey = config)) p.
Proof.
  unfold synthesizeFromBasic. do 2 vcg_step. apply post_bind, post_lift.
  intros [src|e] w1 Hsrc; apply attempt_inv in Hsrc.
  2: { destruct (is_not_found e); [|apply post_fail]. unfold reportNotReady. vcg.
       split; [done|apply verdict_notReady]. }
  cbv zeta. apply post_bind, post_lift. intros m w2 Hm. cbn [resource world verdicts].
  unfold of_result in Hm. injection Hm as Hm <-.
  set (raw := basicConfig basic src url).
  assert (raw = docker_config_text {[ url := base64 (mget (sec_data src) (bac_username_key basic) +:+
    ":" +:+ mget (sec_data src) (bac_password_key basic)) ]}) as Hraw by reflexivity.
  assert (mget {[ DockerConfigJsonKey := raw ]} DockerConfigJsonKey = raw) as Hget.
  { unfold mget. by rewrite lookup_singleton_eq. }
  apply post_bind, post_lift. intros [s|e] w3 Hs; apply attempt_inv in Hs; cbn [resource world verdicts] in *.
  - cbn [sec_data synthesizedSecret modify]. case_decide as Hd.
    + apply post_ret. split; [done|]. split; [done|]. do 3 eexists. split; [exact Hsrc|].
      left. exists s, w1. split; [exact Hs|]. rewrite <- Hraw. by rewrite Hd.
    + apply post_bind, post_lift. intros s' w4 Hu. apply post_ret. split; [done|]. split; [done|].
      do 3 eexists. split; [exact Hsrc|]. right; right. do 3 eexists. split; [exact Hu|].
      by rewrite <- Hraw.
  - destruct (is_not_found e); [|apply post_fail].
    apply post_bind, post_lift. intros s' w4 Hc. apply post_ret. split; [done|]. split; [done|].
    do 3 eexists. split; [exact Hsrc|]. right; left. do 3 eexists. split; [exact Hc|].
    cbn [sec_meta sec_data modify synthesizedSecret].
    split_and!; [|by eapply controlled_after_set_controller|by rewrite <- Hraw].
    by destruct (set_controller_keeps _ _ _ Hm) as [refs ->].
Qed.
End step_properties.

(** * Witnesses *)

Import Cluster.
#[local] Instance plain_url : UrlParse := λ u, Ok u.
#[local] Instance plain_codec : CredentialCodec := {
  base64 := id;
  docker_config_text m := join ((λ hc, hc.1 +:+ "=" +:+ hc.2) <$> map_to_list m) ",";
}.
Definition sample_credentials : Secret :=
  mkSecret (object_meta "creds" "default") "Opaque" {[ "user" := "ann"; "pass" := "s3cret" ]}.
#[local] Instance one_secret : Kind Z Secret := only_objects [sample_credentials].

Lemma docker_config_never_saved_witness :
  reconcileDockerConfigAuth (Some (mkDockerConfigAuth "secret" (Some (mkSecretReference "creds" ""))))
    (mkPass 5%Z (sample_resource "web") no_verdicts) =
  (Ok ResultNil, mkPass 5%Z (sample_resource "web") no_verdicts).
Proof.
  eapply (docker_config_never_saved (W:=Z) (mkDockerConfigAuth "secret" (Some (mkSecretReference "creds" "")))
    (mkSecretReference "creds" "") 5%Z (sample_resource "web") no_verdicts sample_credentials 5%Z);
    reflexivity.
Defined.

Lemma synthesized_credentials_spec_witness :
  ∃ res p', synthesizeFromBasic (mkBasicAuthCredentials (mkSecretReference "creds" "") "user" "pass")
      "docker.io" (mkPass 5%Z (sample_resource "web") no_verdicts) = (Ok res, p') ∧
    resource p' = sample_resource "web".
Proof.
  destruct (synthesizeFromBasic _ _ _) as [[res|e] p'] eqn:E; [|exfalso; vm_compute in E; discriminate].
  exists res, p'. split; [reflexivity|]. exact (proj1 (synthesized_credentials_spec _ _ _ res p' E)).
Defined.
