(* ===== verification/NodeConfig.v ===== *)
(** The container runtime's configuration on a node
    (cmd/containerd-config-reconciler): which registries containerd may pull from
    without TLS, kept up to date with the list the agent mounts. *)
From S2P Require Import Prelude Text Paths Kube Apimachinery Api Registries RegistryRef.
From Stdlib Require Import Ascii.

(** * TOML

    A decoded document ([map[string]interface{}] and what it holds); [TScalar] is a
    value the code neither makes nor looks at, such as a date.  The codec is that of
    github.com/BurntSushi/toml. *)
#[warnings="-register-all"] Inductive Toml :=
  | TString (s : string)
  | TInteger (z : Z)
  | TBoolean (b : bool)
  | TScalar (text : string)
  | TArray (l : list Toml)
  | TTable (m : gmap string Toml).
Abbreviation Table := (gmap string Toml) (only parsing).

Class TomlCodec := {
  toml_decode : string → result (gmap string Toml);
  toml_encode : gmap string Toml → result string;
}.
Class TomlLaws {TC : TomlCodec} : Prop :=
  toml_decode_encode t s : toml_encode t = Ok s → toml_decode s = Ok t.

(** [json.Unmarshal] into a [RegistryConfig]; [url.Parse] and [URL.Hostname]. *)
Class RegistryConfigDecoder := registry_config_decode : string → result RegistryConfig.
Class UrlHostname := url_hostname : string → result string.

(** * The node

    Regular files by path, what [pidof containerd] prints or its error, and the
    processes sent a SIGHUP so far.  A call to the operating system can fail: the
    next one does if the first element of [nd_faults] says so, after having
    written so much of its data. *)
Record Fault := mkFault { ft_message : string; ft_written : nat }.
Record Node := mkNode {
  nd_files : gmap string string;
  nd_faults : list (option Fault);
  nd_pidof : result string;
  nd_hups : list string;
}.
#[export] Instance eta_node : Eta Node := λ n, mkNode (nd_files n) (nd_faults n) (nd_pidof n) (nd_hups n).

(** One call: [bad] is what a failing call leaves behind. *)
Definition os_call {A} (bad : nat → Node → Node) (good : SE Node A) : SE Node A := λ n,
  match nd_faults n with
  | Some f :: l => (Err (Errorf (ft_message f)), bad (ft_written f) (n <| nd_faults := l |>))
  | None :: l => good (n <| nd_faults := l |>)
  | [] => good n
  end.
Definition unharmed : nat → Node → Node := λ _ n, n.
Definition put_file (path data : string) (n : Node) : Node := n <| nd_files ::= <[path := data]> |>.

Inductive StatAnswer := Present | Absent | StatError.
(** [os.Stat], as far as [os.IsNotExist] tells its errors apart. *)
Definition os_stat (path : string) : SE Node StatAnswer := λ n,
  match nd_faults n with
  | Some _ :: l => (Ok StatError, n <| nd_faults := l |>)
  | l => (Ok (match nd_files n !! path with Some _ => Present | None => Absent end),
          n <| nd_faults := tail l |>)
  end.
Definition os_read_file (path : string) : SE Node string :=
  os_call unharmed (λ n, (match nd_files n !! path with
                          | Some data => Ok data
                          | None => Err (Errorf ("open " +:+ path +:+ ": no such file or directory"))
                          end, n)).
(** [os.Create] empties the file; [os.WriteFile] may stop half way. *)
Definition os_create (path : string) : SE Node unit :=
  os_call unharmed (modifies (put_file path "")).
Definition os_write (path data : string) : SE Node unit :=
  os_call (λ k, put_file path (String.substring 0 k data)) (modifies (put_file path data)).
Definition os_close : SE Node unit := os_call unharmed (mret tt).
Definition os_remove (path : string) : SE Node unit :=
  os_call unharmed (modifies (λ n, n <| nd_files ::= delete path |>)).
Definition os_rename (old new : string) : SE Node unit :=
  os_call unharmed (λ n,
    match nd_files n !! old with
    | Some data => (Ok tt, n <| nd_files ::= λ m, <[new := data]> (delete old m) |>)
    | None => (Err (Errorf ("rename " +:+ old +:+ ": no such file or directory")), n)
    end).
Definition os_chmod (path : string) : SE Node unit := os_call unharmed (mret tt).
(** Directories are not files. *)
Definition os_mkdir_all (path : string) : SE Node unit := os_call unharmed (mret tt).
Definition exec_pidof : SE Node string := os_call unharmed (λ n, (nd_pidof n, n)).
Definition exec_kill_hup (pid : string) : SE Node unit :=
  os_call unharmed (modifies (λ n, n <| nd_hups ::= λ l, l ++ [pid] |>)).

(** [strings.Fields]. *)
Fixpoint fields_from (fuel : nat) (word s : string) : list string :=
  let emit l := if decide (word = "") then l else word :: l in
  match fuel, s with
  | O, _ | _, EmptyString => emit []
  | S fuel, String c rest =>
      match list_find (λ r, String.prefix r s = true) space_runes with
      | Some (_, r) => emit (fields_from fuel "" (trim_prefix s r))
      | None => fields_from fuel (word +:+ String c "") rest
      end
  end.
Definition fields (s : string) : list string := fields_from (S (String.length s)) "" s.

Example fields_example : fields " 12  345 " = ["12"; "345"].
Proof. by vm_compute. Qed.

(** [_ = m]: the error is dropped, or only logged. *)
Definition ignoring {S A} (m : SE S A) : SE S unit := _ ← attempt m; mret tt.

(** * Files written as a whole *)

Definition writeConfigTOML `{TomlCodec} (path : string) (config : gmap string Toml) : SE Node unit :=
  let tmp := path +:+ ".tmp" in
  _ ← wrapping "failed to create temporary file: " (os_create tmp);
  written ← attempt (text ← of_result (toml_encode config); os_write tmp text);
  match written with
  | Err e => _ ← ignoring os_close; _ ← ignoring (os_remove tmp); fail (Wrapf "failed to encode TOML: " e)
  | Ok _ =>
      closed ← attempt os_close;
      match closed with
      | Err e => _ ← ignoring (os_remove tmp); fail (Wrapf "failed to close temporary file: " e)
      | Ok _ =>
          _ ← wrapping "failed to rename temporary file: " (os_rename tmp path);
          wrapping "failed to set permissions: " (os_chmod path)
      end
  end.

(** * The registries' host files *)

Definition hostsConfig (r : Registry) : gmap string Toml :=
  {[ "server" := TString (reg_endpoint r);
     "host" := TTable {[ "http://" +:+ reg_service_ip r := TTable
       {[ "capabilities" := TArray [TString "pull"; TString "resolve"];
          "skip_verify" := TBoolean true ]} ]} ]}.

Definition ensureHostsConfig `{TomlCodec} (path : string) (r : Registry) : SE Node unit :=
  desired ← wrapping "failed to encode hosts config: " (of_result (toml_encode (hostsConfig r)));
  existing ← attempt (os_read_file path);
  if decide (existing = Ok desired) then mret tt else writeConfigTOML path (hostsConfig r).

Definition hostsPath (dir hostname : string) : string := join_path (join_path dir hostname) "hosts.toml".
Fixpoint reconcileHostsConfig `{TomlCodec} `{UrlHostname} (dir : string) (l : list Registry) : SE Node unit :=
  match l with
  | [] => mret tt
  | r :: l =>
      hostname ← of_result (url_hostname (reg_endpoint r));
      _ ← wrapping "failed to create hosts config directory: " (os_mkdir_all (join_path dir hostname));
      _ ← ensureHostsConfig (hostsPath dir hostname) r;
      reconcileHostsConfig dir l
  end.

(** * The edit of containerd's configuration *)

Definition defaultConfigVersion : string := "2".

(** The table under a key, whether the parent was changed, and the parent.  In Go
    the table found is part of its parent; here it is put back by hand. *)
Definition ensureMapExists (parent : gmap string Toml) (key : string)
    : gmap string Toml * bool * gmap string Toml :=
  match parent !! key with
  | Some (TTable m) => (m, false, parent)
  | _ => (∅, true, <[key := TTable ∅]> parent)
  end.
(** The plugin that reads the registries. *)
Definition targetPlugin (version : string) : result string :=
  if decide (version = "2") then Ok "io.containerd.grpc.v1.cri"
  else if decide (version = "3") then Ok "io.containerd.cri.v1.images"
  else Err (Errorf ("unsupported containerd config version: " +:+ version)).

(** The version the code goes by, and the document with a version. *)
Definition configVersion (config : gmap string Toml) : string * bool * gmap string Toml :=
  match config !! "version" with
  | Some (TString v) => (v, false, config)
  | Some _ => (defaultConfigVersion, false, config)
  | None => (defaultConfigVersion, true, <["version" := TString defaultConfigVersion]> config)
  end.

(** The directory of the host files, whether the document was changed, and the document. *)
Definition editConfig (certsDir : string) (config : gmap string Toml)
    : result (string * bool * gmap string Toml) :=
  let '(version, updated, config) := configVersion config in
  let '(plugins, _, config) := ensureMapExists config "plugins" in
  plugin ← targetPlugin version;
  let '(images, _, plugins) := ensureMapExists plugins plugin in
  let '(registry, modified, images) := ensureMapExists images "registry" in
  let put registry :=
    <["plugins" := TTable (<[plugin := TTable (<["registry" := TTable registry]> images)]> plugins)]> config in
  match registry !! "config_path" with
  | None => Ok (certsDir, true, put (<["config_path" := TString certsDir]> registry))
  | Some (TString path) => Ok (path, updated || modified, put registry)
  | Some _ => Err (Errorf "invalid config_path type in containerd config")
  end.

Definition bootstrapConfig (certsDir : string) : gmap string Toml :=
  {[ "version" := TString defaultConfigVersion;
     "plugins" := TTable {[ "io.containerd.grpc.v1.cri" := TTable
       {[ "registry" := TTable {[ "config_path" := TString certsDir ]} ]} ]} ]}.

(** * The reconciler *)

(** The command line. *)
Record Flags := mkFlags {
  fl_config_dir : string; fl_config_file : string; fl_registry_path : string;
  fl_runtime : string; fl_k3s_hosts_dir : string }.
Definition ConfigPath (f : Flags) : string := join_path (fl_config_dir f) (fl_config_file f).
Definition certsDir (f : Flags) : string := join_path (fl_config_dir f) "certs.d".

(** The fields of the reconciler that change, over the node. *)
Record Agent := mkAgent {
  ag_node : Node;
  ag_pending_reload : bool;
  ag_is_last_success : bool;
  ag_last_error : string;
}.
#[export] Instance eta_agent : Eta Agent := λ a,
  mkAgent (ag_node a) (ag_pending_reload a) (ag_is_last_success a) (ag_last_error a).
Definition on_node {A} (m : SE Node A) : SE Agent A := zoom ag_node (λ n a, a <| ag_node := n |>) m.
Definition set_pending (b : bool) : SE Agent unit := modifies (λ a, a <| ag_pending_reload := b |>).

Section reconciler.
Context {TC : TomlCodec} {RD : RegistryConfigDecoder} {UH : UrlHostname} (flags : Flags).

Definition readRegistryConfig : SE Node RegistryConfig :=
  s ← os_stat (fl_registry_path flags);
  match s with
  | Absent => fail (Errorf ("registry config file does not exist: " +:+ fl_registry_path flags))
  | _ =>
      data ← wrapping "failed to read registry config: " (os_read_file (fl_registry_path flags));
      wrapping "failed to parse registry config: " (of_result (registry_config_decode data))
  end.

Definition createBootstrapConfig (l : list Registry) : SE Node bool :=
  _ ← reconcileHostsConfig (certsDir flags) l;
  _ ← writeConfigTOML (ConfigPath flags) (bootstrapConfig (certsDir flags));
  mret true.

(** A backup that cannot be written is only logged. *)
Definition updateContainerdConfig (l : list Registry) : SE Node bool :=
  s ← os_stat (ConfigPath flags);
  match s with
  | Absent => createBootstrapConfig l
  | _ =>
      data ← wrapping "error reading containerd config: " (os_read_file (ConfigPath flags));
      config ← wrapping "error parsing containerd config: " (of_result (toml_decode data));
      '(dir, updated, config) ← of_result (editConfig (certsDir flags) config);
      _ ← reconcileHostsConfig dir l;
      if (updated : bool) then
        _ ← ignoring (os_write (ConfigPath flags +:+ ".bak") data);
        _ ← wrapping "error writing updated config: " (writeConfigTOML (ConfigPath flags) config);
        mret true
      else mret false
  end.

(** Every process is signalled; the last error is the answer (its message also has
    the output of [kill]). *)
Fixpoint signalAll (last : result unit) (pids : list string) : SE Node unit :=
  match pids with
  | [] => of_result last
  | pid :: pids =>
      r ← attempt (exec_kill_hup pid);
      signalAll (match r with
                 | Ok _ => last
                 | Err e => Err (Wrapf ("failed to send SIGHUP to PID " +:+ pid +:+ ": ") e)
                 end) pids
  end.
Definition reloadContainerd : SE Node unit :=
  out ← wrapping "failed to find containerd process (is HostPID enabled?): " exec_pidof;
  signalAll (Ok tt) (fields (trim_space out)).

Definition reconcileK3sRegistries (l : list Registry) : SE Node unit :=
  reconcileHostsConfig (join_path (fl_k3s_hosts_dir flags) "containerd/certs.d") l.

Definition Reconcile : SE Agent unit :=
  conf ← on_node (wrapping "failed to read registry config: " readRegistryConfig);
  let registries := ValidRegistries conf in
  if decide (registries = []) then mret tt
  else if decide (fl_runtime flags = "k3s") then on_node (reconcileK3sRegistries registries)
  else
    changed ← on_node (wrapping "failed to update containerd config: " (updateContainerdConfig registries));
    _ ← (if (changed : bool) then set_pending true else mret tt);
    pending ← gets ag_pending_reload;
    if (pending : bool) then _ ← on_node reloadContainerd; set_pending false else mret tt.

Definition setHealth (ok : bool) (msg : string) (a : Agent) : Agent :=
  a <| ag_is_last_success := ok |> <| ag_last_error := msg |>.
(** One turn of the loop in [Start]: the initial pass, or a tick. *)
Definition turn (a : Agent) : Agent :=
  match Reconcile a with
  | (Ok _, a) => setHealth true "" a
  | (Err e, a) => setHealth false (error_text e) a
  end.
End reconciler.

(** The status code and the body. *)
Definition healthHandler (a : Agent) : Z * string :=
  if ag_is_last_success a then (200%Z, "containerd config applied and reloaded")
  else (503%Z, "containerd config not applied: " +:+ ag_last_error a).
