(* ===== verification/NodeConfigOutcome.v ===== *)
(** What the node configurator guarantees. *)
From S2P Require Import Prelude Text Paths Kube Apimachinery Api Registries RegistryRef NodeConfig.

(** * The edit

    The reference: values are reached by a path of keys. *)

Fixpoint lookup_path (p : list string) (t : Toml) : option Toml :=
  match p with
  | [] => Some t
  | k :: p => match t with TTable m => m !! k ≫= lookup_path p | _ => None end
  end.
Definition registryPath (plugin : string) : list string := ["plugins"; plugin; "registry"; "config_path"].

(** Below a key nothing is lost when the table is asked for. *)
Lemma ensure_spec parent key child modified parent' :
  ensureMapExists parent key = (child, modified, parent') →
  (∀ q, q ≠ [] → lookup_path q (TTable child) = parent !! key ≫= lookup_path q) ∧
  (∀ t, <[key := t]> parent' = <[key := t]> parent) ∧
  (modified = false → parent !! key = Some (TTable child) ∧ parent' = parent) ∧
  (modified = true → child = ∅ ∧ ∀ m, parent !! key ≠ Some (TTable m)).
Proof.
  unfold ensureMapExists. intros H.
  assert (∀ x : option Toml, (∀ m, x ≠ Some (TTable m)) → ∀ q, q ≠ [] → x ≫= lookup_path q = None) as Hnone.
  { intros [[]|] Hx [|k q] Hq; try done. by edestruct Hx. }
  destruct (parent !! key) as [t|] eqn:E; [destruct t|]; injection H as <- <- <-;
    (split; [|split; [|split]]); try done; try (intros; by rewrite insert_insert_eq); try (by intros []).
  all: intros [|k q] Hq; [done|]; cbn [lookup_path]; rewrite lookup_empty; by rewrite ?Hnone.
Qed.

Lemma lookup_path_ne key k q t (m : gmap string Toml) :
  k ≠ key → lookup_path (k :: q) (TTable (<[key := t]> m)) = lookup_path (k :: q) (TTable m).
Proof. intros Hk. cbn. by rewrite lookup_insert_ne. Qed.
Lemma lookup_path_eq key q t (m : gmap string Toml) :
  lookup_path (key :: q) (TTable (<[key := t]> m)) = lookup_path q t.
Proof. cbn. by rewrite lookup_insert_eq. Qed.

(** Replacing the table under a key by one that agrees with it off [path]. *)
Lemma replace_off path key child modified parent parent' new q :
  ensureMapExists parent key = (child, modified, parent') →
  (∀ q, ¬ q `prefix_of` path → lookup_path q (TTable new) = lookup_path q (TTable child)) →
  ¬ q `prefix_of` key :: path →
  lookup_path q (TTable (<[key := TTable new]> parent')) = lookup_path q (TTable parent).
Proof.
  intros (Hq & -> & _)%ensure_spec Hnew Hpre. destruct q as [|k q]; [by destruct Hpre; exists (key :: path)|].
  destruct (decide (k = key)) as [->|Hk]; [|by apply lookup_path_ne].
  rewrite lookup_path_eq. assert (¬ q `prefix_of` path) as Hq' by (contradict Hpre; by apply prefix_cons).
  rewrite Hnew by done. rewrite Hq; [done|]. intros ->. apply Hq'. by exists path.
Qed.

Lemma version_spec config v updated config1 :
  configVersion config = (v, updated, config1) →
  (∀ q, q ≠ ["version"] → lookup_path q (TTable config1) = lookup_path q (TTable config) ∨ q = []) ∧
  is_Some (config1 !! "version") ∧ configVersion config1 = (v, false, config1) ∧
  (if updated then config !! "version" = None else config1 = config).
Proof.
  unfold configVersion. intros H. destruct (config !! "version") as [t|] eqn:E.
  - assert (updated = false ∧ config1 = config) as [-> ->] by (by destruct t; injection H as <- <- <-).
    split; [by left|]. split; [by exists t|]. split; [|done]. rewrite E. destruct t; by injection H as <-.
  - injection H as <- <- <-. rewrite lookup_insert_eq. split_and!; [|by eexists|done|done].
    intros [|k q] Hq; [by right|left]. destruct (decide (k = "version")) as [->|Hk]; [|by apply lookup_path_ne].
    rewrite lookup_path_eq. cbn. rewrite E. by destruct q.
Qed.

Lemma ensure_inserted parent key m : ensureMapExists (<[key := TTable m]> parent) key = (m, false, <[key := TTable m]> parent).
Proof. unfold ensureMapExists. by rewrite lookup_insert_eq. Qed.

Lemma edit_twice certs version plugin dir (config registry images plugins : gmap string Toml) :
  configVersion config = (version, false, config) → targetPlugin version = Ok plugin →
  registry !! "config_path" = Some (TString dir) →
  let config' := <["plugins" := TTable (<[plugin := TTable (<["registry" := TTable registry]> images)]> plugins)]> config in
  editConfig certs config' = Ok (dir, false, config').
Proof.
  intros Hv Hp Hr config'. unfold editConfig.
  assert (configVersion config' = (version, false, config')) as ->.
  { revert Hv. unfold configVersion, config'. rewrite lookup_insert_ne by done.
    destruct (config !! "version") as [t|]; [|done]. destruct t; by intros [= <-]. }
  unfold config'. rewrite ensure_inserted. rewrite Hp. cbn [mbind result_bind].
  rewrite !ensure_inserted, Hr. by rewrite !insert_insert_eq.
Qed.

Lemma edit_facts (certs dir : string) (updated : bool) (config config' : gmap string Toml) :
  editConfig certs config = Ok (dir, updated, config') →
  ∃ plugin, targetPlugin (configVersion config).1.1 = Ok plugin ∧
    lookup_path (registryPath plugin) (TTable config') = Some (TString dir) ∧ is_Some (config' !! "version") ∧
    (∀ q, ¬ q `prefix_of` registryPath plugin → q ≠ ["version"] →
       lookup_path q (TTable config') = lookup_path q (TTable config)) ∧
    (updated = false ↔ config' = config) ∧
    ∀ certs', editConfig certs' config' = Ok (dir, false, config').
Proof.
  unfold editConfig. destruct (configVersion config) as [[v u] c1] eqn:Ev.
  destruct (version_spec _ _ _ _ Ev) as (Hoff & Hsome & Hagain & Hu).
  destruct (ensureMapExists c1 "plugins") as [[plugins m1] c2] eqn:E1.
  destruct (targetPlugin v) as [plugin|e] eqn:Et; cbn [mbind result_bind]; [|done].
  destruct (ensureMapExists plugins plugin) as [[images m2] plugins2] eqn:E2.
  destruct (ensureMapExists images "registry") as [[registry m3] images2] eqn:E3.
  destruct (ensure_spec _ _ _ _ _ E1) as (_ & I1 & F1 & T1), (ensure_spec _ _ _ _ _ E2) as (_ & I2 & F2 & T2),
    (ensure_spec _ _ _ _ _ E3) as (_ & I3 & F3 & T3).
  rewrite !I1, !I2, !I3. intros H. exists plugin. split; [done|].
  assert (∃ registry', registry' !! "config_path" = Some (TString dir) ∧
    config' = <["plugins" := TTable (<[plugin := TTable (<["registry" := TTable registry']> images)]> plugins)]> c1 ∧
    (∀ q, ¬ q `prefix_of` ["config_path"] → lookup_path q (TTable registry') = lookup_path q (TTable registry)) ∧
    (updated = false → u = false ∧ m3 = false ∧ registry' = registry) ∧
    (updated = true → u = true ∨ m3 = true ∨ registry !! "config_path" = None)) as (registry' & Hr & -> & Hroff & Hf & Ht).
  { destruct (registry !! "config_path") as [t|] eqn:Er; [destruct t; try done|]; injection H as <- <- <-; eexists.
    - split; [exact Er|]. split; [done|]. split; [done|]. destruct u, m3; cbn; auto.
    - split; [apply lookup_insert_eq|]. split; [done|]. split; [|split; [done|auto]].
      intros [|k q] Hq; [by destruct Hq; exists ["config_path"]|].
      destruct (decide (k = "config_path")) as [->|Hk]; [|by apply lookup_path_ne].
      rewrite lookup_path_eq. cbn. rewrite Er. destruct q; [by destruct Hq; exists []|done]. }
  split_and!.
  - unfold registryPath. rewrite !lookup_path_eq. cbn. by rewrite Hr.
  - by rewrite lookup_insert_ne.
  - intros q Hq Hqv. transitivity (lookup_path q (TTable c1)).
    + rewrite <- I1. apply (replace_off [plugin; "registry"; "config_path"] _ _ _ _ _ _ _ E1); [|done].
      intros q1 Hq1. rewrite <- I2. apply (replace_off ["registry"; "config_path"] _ _ _ _ _ _ _ E2); [|done].
      intros q2 Hq2. rewrite <- I3. by apply (replace_off ["config_path"] _ _ _ _ _ _ _ E3).
    + destruct (Hoff q Hqv) as [|Hnil]; [done|]. subst q. destruct Hq. by exists (registryPath plugin).
  - split.
    + intros (-> & -> & ->)%Hf. destruct (F3 eq_refl) as [L3 _]. rewrite (insert_id images) by done.
      destruct m2; [by destruct (T2 eq_refl) as [-> _]|]. destruct (F2 eq_refl) as [L2 _].
      rewrite (insert_id plugins) by done. destruct m1; [by destruct (T1 eq_refl) as [-> _]|].
      destruct (F1 eq_refl) as [L1 _]. by rewrite (insert_id c1).
    + intros Heq. destruct updated; [|done]. exfalso.
      assert (u = false) as ->.
      { destruct u; [|done]. destruct Hsome as [t Hs]. rewrite <- Heq, lookup_insert_ne in Hu by done. congruence. }
      subst c1. assert (lookup_path (registryPath plugin) (TTable config) = Some (TString dir)) as L.
      { rewrite <- Heq. unfold registryPath. rewrite !lookup_path_eq. cbn. by rewrite Hr. }
      unfold registryPath in L. cbn in L. destruct (config !! "plugins") as [[?|?|?|?|?|pl]|] eqn:L1; cbn in L; try done.
      unfold ensureMapExists in E1. rewrite L1 in E1. injection E1 as <- <- <-.
      destruct (pl !! plugin) as [[?|?|?|?|?|im]|] eqn:L2; cbn in L; try done.
      unfold ensureMapExists in E2. rewrite L2 in E2. injection E2 as <- <- <-.
      destruct (im !! "registry") as [[?|?|?|?|?|rg]|] eqn:L3; cbn in L; try done.
      unfold ensureMapExists in E3. rewrite L3 in E3. injection E3 as <- <- <-.
      destruct (rg !! "config_path") eqn:L4; [|done]. destruct (Ht eq_refl) as [?|[?|?]]; congruence.
  - intros certs'. by eapply edit_twice.
Qed.

Lemma bootstrap_again certs certs' :
  editConfig certs' (bootstrapConfig certs) = Ok (certs, false, bootstrapConfig certs).
Proof.
  assert (bootstrapConfig certs = <["plugins" := TTable (<["io.containerd.grpc.v1.cri" :=
    TTable (<["registry" := TTable {[ "config_path" := TString certs ]}]> ∅)]> ∅)]>
      {[ "version" := TString "2" ]}) as -> by reflexivity.
  by apply (edit_twice certs' "2").
Qed.

(** C8. What is done to containerd's configuration.  In the new document the
    directory of the host files stands under the plugin its version asks for, and
    there is a version; everything not on the way to that entry is as it was,
    nothing lost and nothing added.  The document counts as unchanged exactly when
    it is, and editing it again changes nothing, whatever directory is asked for. *)
Theorem config_edit_spec (certs dir : string) (updated : bool) (config config' : gmap string Toml) :
  editConfig certs config = Ok (dir, updated, config') →
  ∃ plugin, targetPlugin (configVersion config).1.1 = Ok plugin ∧
    lookup_path (registryPath plugin) (TTable config') = Some (TString dir) ∧ is_Some (config' !! "version") ∧
    (∀ q, ¬ q `prefix_of` registryPath plugin → q ≠ ["version"] →
       lookup_path q (TTable config') = lookup_path q (TTable config)) ∧
    (updated = false ↔ config' = config) ∧
    ∀ certs', editConfig certs' config' = Ok (dir, false, config').
Proof. apply edit_facts. Qed.

(** * What a call to the system leaves alone *)

Section frames.
Context (P : string → Prop) (n0 : Node).

(** Only files of [P] have changed, and nothing was signalled. *)
Definition kept (n : Node) : Prop :=
  (∀ p, ¬ P p → nd_files n !! p = nd_files n0 !! p) ∧ nd_pidof n = nd_pidof n0 ∧ nd_hups n = nd_hups n0.

Lemma kept_os_call {A} bad (good : SE Node A) :
  (∀ k n, kept n → kept (bad k n)) → Inv kept good → Inv kept (os_call bad good).
Proof.
  intros Hbad Hgood n Hn. unfold os_call. destruct (nd_faults n) as [|[f|] l]; [by apply Hgood|by apply Hbad|].
  by apply Hgood.
Qed.
Lemma kept_put path data n : P path → kept n → kept (put_file path data n).
Proof. intros HP [Hf Hr]. split; [|done]. intros p Hp. cbn. rewrite lookup_insert_ne by congruence. by apply Hf. Qed.
Lemma kept_stat path : Inv kept (os_stat path).
Proof. intros n Hn. unfold os_stat. by destruct (nd_faults n) as [|[]]. Qed.
Lemma kept_read path : Inv kept (os_read_file path).
Proof. apply kept_os_call; [done|]. by intros n. Qed.
Lemma kept_create path : P path → Inv kept (os_create path).
Proof. intros HP. apply kept_os_call; [done|]. intros n. by apply kept_put. Qed.
Lemma kept_write path data : P path → Inv kept (os_write path data).
Proof. intros HP. apply kept_os_call; intros; [by apply kept_put|]. intros n. by apply kept_put. Qed.
Lemma kept_close : Inv kept os_close.
Proof. apply kept_os_call; [done|]. by intros n. Qed.
Lemma kept_remove path : P path → Inv kept (os_remove path).
Proof.
  intros HP. apply kept_os_call; [done|]. intros n [Hf Hr]. split; [|done]. intros p Hp. cbn.
  rewrite lookup_delete_ne by congruence. by apply Hf.
Qed.
Lemma kept_rename old new : P old → P new → Inv kept (os_rename old new).
Proof.
  intros Ho Hn. apply kept_os_call; [done|]. intros n [Hf Hr]. destruct (nd_files n !! old); [|done].
  split; [|done]. intros p Hp. cbn. rewrite lookup_insert_ne, lookup_delete_ne by congruence. by apply Hf.
Qed.
Lemma kept_chmod path : Inv kept (os_chmod path).
Proof. apply kept_os_call; [done|]. by intros n. Qed.
Lemma kept_mkdir path : Inv kept (os_mkdir_all path).
Proof. apply kept_os_call; [done|]. by intros n. Qed.
Lemma kept_ignoring {A} (m : SE Node A) : Inv kept m → Inv kept (ignoring m).
Proof. intros Hm. unfold ignoring. apply inv_bind; [by apply inv_attempt|]. intros. apply inv_ret. Qed.
End frames.
#[export] Hint Resolve kept_stat kept_read kept_create kept_write kept_close kept_remove kept_rename kept_chmod
  kept_mkdir kept_ignoring : inv.

(** Decompose a program for an invariant. *)
Ltac node_inv :=
  repeat first
  [ solve [eauto with inv]
  | apply inv_bind; [|intros ? _]
  | apply inv_attempt | apply inv_wrapping | apply kept_ignoring
  | match goal with |- Inv _ (match ?x with _ => _ end) => destruct x eqn:? end ].

Section files.
Context {TC : TomlCodec} {UH : UrlHostname}.

Lemma kept_writeConfig P n0 path t : P path → P (path +:+ ".tmp") → Inv (kept P n0) (writeConfigTOML path t).
Proof. intros H1 H2. unfold writeConfigTOML. cbv zeta. node_inv. Qed.
Lemma kept_ensureHosts P n0 path r : P path → P (path +:+ ".tmp") → Inv (kept P n0) (ensureHostsConfig path r).
Proof. intros H1 H2. unfold ensureHostsConfig. node_inv. Qed.

(** The host files under a directory. *)
Definition hostFile (p : string) : Prop := ∃ dir h, p = hostsPath dir h ∨ p = hostsPath dir h +:+ ".tmp".
Lemma kept_hosts P n0 dir l : (∀ p, hostFile p → P p) → Inv (kept P n0) (reconcileHostsConfig dir l).
Proof.
  intros HP. induction l as [|r l IH]; cbn [reconcileHostsConfig]; [apply inv_ret|].
  apply inv_bind; [node_inv|]. intros h _. apply inv_bind; [node_inv|]. intros [] _.
  apply inv_bind; [|intros; apply IH]. apply kept_ensureHosts; apply HP; exists dir; eexists; [by left|by right].
Qed.

(** ** Whole files *)

(** The error of a file that has been replaced, but not given its mode. *)
Fixpoint replaced (e : error) : Prop :=
  match e with Wrapf pre e => pre = "failed to set permissions: " ∨ replaced e | _ => False end.

Lemma tmp_ne path : path +:+ ".tmp" ≠ path.
Proof. intros H%(f_equal String.length). rewrite length_string_app in H. cbn in H. lia. Qed.

Lemma post_os_call {A} bad (good : SE Node A) Q n :
  (∀ n', nd_files n' = nd_files n → nd_pidof n' = nd_pidof n → nd_hups n' = nd_hups n → post good Q n') →
  post (os_call bad good) Q n.
Proof.
  intros HQ a n'. unfold os_call. destruct (nd_faults n) as [|[f|] l]; [by apply HQ|done|by apply HQ].
Qed.

(** A step that keeps a file is looked past. *)
Lemma after_kept {A B} path n0 (R : A → Node → Prop) (m : SE Node A) (k : A → SE Node B) Q n :
  Inv (kept (λ p, p ≠ path) n0) m → post m R n → kept (λ p, p ≠ path) n0 n →
  (∀ e n', nd_files n' !! path = nd_files n0 !! path → Q (Err e) n') →
  (∀ a n', kept (λ p, p ≠ path) n0 n' → R a n' → after (k a) Q n') →
  after (m ≫= k) Q n.
Proof.
  intros Hm HR Hn He Hk. apply after_bind. eapply after_mono; [by apply (after_inv _ m R n Hm HR)|].
  intros [a|e] n' [Hn' Ha]; [by apply Hk|]. apply He. apply Hn'. by intros [].
Qed.

(** The file holds the text of the document. *)
Definition holdsToml (path : string) (t : gmap string Toml) (n : Node) : Prop :=
  ∃ s, toml_encode t = Ok s ∧ nd_files n !! path = Some s.

(** What a file holds after a whole write: the new text, or, when the answer is an
    error, what it held, unless it was only the mode that could not be set. *)
Definition written (path : string) (t : gmap string Toml) (n : Node) (r : result unit) (n' : Node) : Prop :=
  match r with
  | Ok _ => holdsToml path t n'
  | Err e => nd_files n' !! path = nd_files n !! path ∨ replaced e ∧ holdsToml path t n'
  end.
Lemma write_outcome path t n : after (writeConfigTOML path t) (written path t n) n.
Proof.
  unfold writeConfigTOML. cbv zeta. set (tmp := path +:+ ".tmp"). assert (tmp ≠ path) as Htmp by apply tmp_ne.
  assert (∀ (rest : SE Node unit) n1 pre e, Inv (kept (λ p, p ≠ path) n) rest → kept (λ p, p ≠ path) n n1 →
    after (_ ← rest; fail (A:=unit) (Wrapf pre e)) (written path t n) n1) as Hfail.
  { intros rest n1 pre e Hrest K. apply (after_kept path n (λ _ _, True)); try done; [by left|].
    intros _ n2 K2 _. left. apply K2. by intros []. }
  apply (after_kept path n (λ _ _, True)); [node_inv|done|by split|by left|]. intros [] n1 K1 _.
  apply (after_kept path n (λ r n', match r with
    | Ok _ => ∃ s, toml_encode t = Ok s ∧ nd_files n' !! tmp = Some s | Err _ => True end)); [node_inv| |done|by left|].
  { intros [[]|e] n2 H%attempt_inv; [|done]. apply se_bind_inv in H as (text & n3 & [= He <-] & H).
    exists text. split; [done|].
    assert (post (os_write tmp text) (λ _ n', nd_files n' !! tmp = Some text) n1) as HP
      by (apply post_os_call; intros; apply post_modifies, lookup_insert_eq). by apply (HP _ _ H). }
  intros [[]|e] n2 K2 HR.
  2:{ apply (after_kept path n (λ _ _, True)); [node_inv|done|done|by left|]. intros [] n3 K3 _.
      apply Hfail; [|done]. node_inv. }
  destruct HR as (s & He & Hs).
  apply (after_kept path n (λ _ n', nd_files n' !! tmp = Some s)); [node_inv| |done|by left|].
  { intros r n3 H%attempt_inv. rewrite <- Hs. pose proof (kept_close (λ _, False) n2 n2) as [K _]; [done|].
    rewrite H in K. apply K. by intros []. }
  intros [[]|e] n3 K3 Hs3; [|apply Hfail; [node_inv|done]].
  assert (∀ n4, nd_files n4 !! path = Some s → after (wrapping "failed to set permissions: " (os_chmod path))
    (written path t n) n4) as Hchmod.
  { intros n4 Hn4. apply after_wrapping. pose proof (kept_chmod (λ _, False) n4 path n4) as [K _]; [done|].
    unfold after. destruct (os_chmod path n4) as [[[]|e] n5] eqn:E; cbn [fst snd] in *.
    - exists s. split; [done|]. rewrite K; [done|]. by intros [].
    - revert E. unfold os_chmod, os_call. destruct (nd_faults n4) as [|[f|] l]; try done. intros [= <- <-].
      right. split; [by left|by exists s]. }
  apply after_bind, after_wrapping. unfold after at 1, os_rename, os_call.
  destruct (nd_faults n3) as [|[f|] l] eqn:Ef; cbn; [rewrite Hs3| |rewrite Hs3].
  2:{ assert (nd_files n3 !! path = nd_files n !! path) as Hold by (apply K3; by intros []).
      by left. }
  all: apply Hchmod, lookup_insert_eq.
Qed.
End files.

(** * The reload *)

(** The data of the files a pass depends on. *)
Lemma read_outcome path n :
  post (os_read_file path) (λ data n', nd_files n' = nd_files n ∧ nd_files n !! path = Some data) n.
Proof.
  apply post_os_call. intros n' E _ _ data n2. rewrite E. destruct (nd_files n !! path); [|done]. by intros [= -> <-].
Qed.
Lemma files_kept n n' : kept (λ _, False) n n' → nd_files n' = nd_files n.
Proof. intros [H _]. apply map_eq. intros p. apply H. by intros []. Qed.
Lemma stat_files path n : post (os_stat path) (λ _ n', nd_files n' = nd_files n) n.
Proof. intros s n' H. apply files_kept. pose proof (kept_stat (λ _, False) n path n) as K. rewrite H in K. by apply K. Qed.

Lemma proper_hosts : proper "hosts.toml".
Proof. by split_and!. Qed.
Lemma host_file_suffix p :
  hostFile p → is_Some (cut_suffix p "hosts.toml") ∨ is_Some (cut_suffix p "hosts.toml.tmp").
Proof.
  intros (dir & h & H). unfold hostsPath in H. destruct (join_path_last (join_path dir h) _ proper_hosts) as [q Hq].
  rewrite Hq in H. destruct H as [->| ->]; [left; exists q; apply cut_suffix_app|right; exists q].
  rewrite string_app_assoc. apply (cut_suffix_app q "hosts.toml.tmp").
Qed.

Section reconcile.
Context {TC : TomlCodec} {RD : RegistryConfigDecoder} {UH : UrlHostname} (flags : Flags).

(** Neither the configuration nor its temporary file nor the list of registries is
    a host file. *)
Definition separateConfig : Prop :=
  cut_suffix (ConfigPath flags) "hosts.toml" = None ∧ cut_suffix (ConfigPath flags) "hosts.toml.tmp" = None.
Lemma config_not_host : separateConfig → ¬ hostFile (ConfigPath flags).
Proof. intros [H1 H2] [[? H]|[? H]]%host_file_suffix; congruence. Qed.

Lemma after_on_node {A} (m : SE Node A) Q a :
  after m (λ r n, Q r (a <| ag_node := n |>)) (ag_node a) → after (on_node m) Q a.
Proof. unfold after, on_node, zoom. by destruct (m (ag_node a)). Qed.

Lemma kept_read_config P n0 : Inv (kept P n0) (readRegistryConfig flags).
Proof. unfold readRegistryConfig. node_inv. Qed.

(** While the configuration changes, nothing is signalled. *)
Lemma signals_update n0 l : Inv (kept (λ _, True) n0) (updateContainerdConfig flags l).
Proof.
  assert (∀ dir, Inv (kept (λ _, True) n0) (reconcileHostsConfig dir l)) as HH by (intros; by apply kept_hosts).
  assert (∀ p t, Inv (kept (λ _, True) n0) (writeConfigTOML p t)) as HW by (intros; by apply kept_writeConfig).
  assert (Inv (kept (λ _, True) n0) (createBootstrapConfig flags l)) as HB.
  { unfold createBootstrapConfig. apply inv_bind; [apply HH|]. intros _ _. apply inv_bind; [apply HW|].
    intros. apply inv_ret. }
  unfold updateContainerdConfig. apply inv_bind; [node_inv|]. intros [] _; [|done|].
  all: apply inv_bind; [node_inv|]; intros data _; apply inv_bind; [node_inv|]; intros config _;
    apply inv_bind; [node_inv|]; intros [[dir updated] config'] _; apply inv_bind; [apply HH|]; intros _ _;
    destruct updated; [|apply inv_ret]; apply inv_bind; [node_inv|]; intros _ _; apply inv_bind;
    [apply inv_wrapping, HW|]; intros; apply inv_ret.
Qed.

(** The document a pass makes of what the node [n] has: from nothing, or by the
    edit of the document that is there. *)
Definition madeFrom (n : Node) (dir : string) (t : gmap string Toml) : Prop :=
  (nd_files n !! ConfigPath flags = None ∧ dir = certsDir flags ∧ t = bootstrapConfig (certsDir flags)) ∨
  ∃ data config, nd_files n !! ConfigPath flags = Some data ∧ toml_decode data = Ok config ∧
    editConfig (certsDir flags) config = Ok (dir, true, t).
Definition newConfig (n n' : Node) : Prop := ∃ dir t, madeFrom n dir t ∧ holdsToml (ConfigPath flags) t n'.

Definition updateEnds (n : Node) (r : result bool) (n' : Node) : Prop :=
  match r with
  | Ok updated => updated = false → nd_files n' !! ConfigPath flags = nd_files n !! ConfigPath flags
  | Err e => nd_files n' !! ConfigPath flags = nd_files n !! ConfigPath flags ∨ replaced e ∧ newConfig n n'
  end.

Lemma update_outcome l n : separateConfig → after (updateContainerdConfig flags l) (updateEnds n) n.
Proof.
  intros Hsep%config_not_host. set (cp := ConfigPath flags) in *.
  assert (∀ dir, Inv (kept (λ p, p ≠ cp) n) (reconcileHostsConfig dir l)) as HH
    by (intros; apply kept_hosts; by intros p Hp ->).
  assert (cp +:+ ".bak" ≠ cp) as Hbak
    by (intros H%(f_equal String.length); rewrite length_string_app in H; cbn in H; lia).
  assert (∀ n', kept (λ p, p ≠ cp) n n' → nd_files n' !! cp = nd_files n !! cp) as Hsame
    by (intros n' K; apply K; by intros []).
  assert (∀ dir t n', kept (λ p, p ≠ cp) n n' → madeFrom n dir t → after (writeConfigTOML cp t) (λ r n', match r with
    | Ok _ => True
    | Err e => nd_files n' !! cp = nd_files n !! cp ∨ replaced e ∧ newConfig n n' end) n') as HW.
  { intros dir t n' K Ht. eapply after_mono; [apply write_outcome|]. intros [|e] n2; [done|]. unfold written.
    rewrite (Hsame n' K). intros [|[He Hh]]; [by left|right]. split; [done|]. by exists dir, t. }
  unfold updateContainerdConfig.
  apply (after_kept cp n (λ s n', s = Absent → nd_files n !! cp = None)); [node_inv| |by split|by left|].
  { intros s n' H ->. unfold os_stat in H. fold cp in H. destruct (nd_faults n) as [|[]]; try done;
      by destruct (nd_files n !! cp). }
  intros s n1 K1 Habsent.
  assert (s = Absent → after (createBootstrapConfig flags l) (updateEnds n) n1) as HB.
  { intros ->. apply (after_kept cp n (λ _ _, True)); [apply HH|done|done|by left|]. intros _ n2 K2 _.
    apply after_bind. eapply after_mono; [apply (HW (certsDir flags)); [done|left; auto]|]. by intros [] n3. }
  destruct s; [|by apply HB|].
  all: apply (after_kept cp n (λ data _, nd_files n !! cp = Some data)); [node_inv| |done|by left|];
    [apply post_wrapping; intros data n2 H; destruct (read_outcome _ _ _ _ H) as [_ Hd]; by rewrite <- (Hsame n1 K1)|];
    intros data n2 K2 Hdata;
    apply (after_kept cp n (λ config _, toml_decode data = Ok config)); [node_inv| |done|by left|];
    [by apply post_wrapping, post_of_result|]; intros config n3 K3 Hconfig;
    apply (after_kept cp n (λ o _, editConfig (certsDir flags) config = Ok o)); [node_inv| |done|by left|];
    [by apply post_of_result|]; intros [[dir updated] config'] n4 K4 Hedit;
    apply (after_kept cp n (λ _ _, True)); [apply HH|done|done|by left|]; intros _ n5 K5 _;
    destruct updated; [|by intros _; apply Hsame];
    apply (after_kept cp n (λ _ _, True)); [node_inv|done|done|by left|]; intros _ n6 K6 _;
    apply after_bind, after_wrapping; eapply after_mono;
    [apply (HW dir); [done|right; by exists data, config]|]; intros [|[]] n7; cbn; naive_solver.
Qed.

Lemma post_signalAll last pids n :
  post (signalAll last pids) (λ _ n', last = Ok tt ∧ nd_hups n' = nd_hups n ++ pids) n.
Proof.
  revert last n. induction pids as [|pid pids IH]; intros last n; cbn [signalAll].
  { apply post_of_result. intros [] ->. split; [done|]. by rewrite app_nil_r. }
  apply post_bind. intros r n1 H%attempt_inv. eapply post_mono; [apply IH|]. cbv beta.
  intros _ n2 [Hl Hh]. destruct r as [[]|]; [|done]. split; [done|]. rewrite Hh.
  assert (post (exec_kill_hup pid) (λ _ n', nd_hups n' = nd_hups n ++ [pid]) n) as HP.
  { apply post_os_call. intros n' _ _ E. apply post_modifies. cbn. by rewrite E. }
  rewrite (HP _ _ H). by rewrite <- app_assoc.
Qed.
Lemma post_reload n :
  post reloadContainerd (λ _ n', ∃ out, nd_pidof n = Ok out ∧ nd_hups n' = nd_hups n ++ fields (trim_space out)) n.
Proof.
  unfold reloadContainerd. apply post_bind. intros out n1 H.
  assert (exec_pidof n = (Ok out, n1)) as H'.
  { apply se_bind_inv in H as (r & n2 & Hr%attempt_inv & H). destruct r; [|done]. by injection H as -> ->. }
  assert (post exec_pidof (λ out n', nd_pidof n = Ok out ∧ nd_hups n' = nd_hups n) n) as HP.
  { apply post_os_call. intros n' _ E1 E2 o n3 [= Ho ->]. by rewrite <- E1. }
  destruct (HP _ _ H') as [Ho Hh]. eapply post_mono; [apply post_signalAll|]. cbv beta.
  intros _ n2 [_ E]. exists out. split; [done|]. by rewrite E, Hh.
Qed.

Lemma post_read_config n :
  post (wrapping "failed to read registry config: " (readRegistryConfig flags))
    (λ conf _, ∃ text, registry_config_decode text = Ok conf) n.
Proof.
  apply post_wrapping, post_bind. intros s n2 _. destruct s; [|apply post_fail|]; apply post_bind; intros data n3 _;
    apply post_wrapping, post_of_result; intros conf H; by exists data.
Qed.

Definition reloadOwed (a a' : Agent) : Prop :=
  ag_pending_reload a = true ∨
  nd_files (ag_node a') !! ConfigPath flags ≠ nd_files (ag_node a) !! ConfigPath flags.
(** The configuration holds a document that editing leaves as it is. *)
Definition configSettled (dir : string) (n : Node) : Prop :=
  ∃ data config, nd_files n !! ConfigPath flags = Some data ∧ toml_decode data = Ok config ∧
    ∀ certs, editConfig certs config = Ok (dir, false, config).

(** It has been done, or is still pending, or the file was replaced but not its mode. *)
Definition reloadSettled (a : Agent) (r : result unit) (a' : Agent) : Prop :=
  (r = Ok tt ∧ ag_pending_reload a' = false ∧ ∃ out, nd_pidof (ag_node a) = Ok out ∧
     nd_hups (ag_node a') = nd_hups (ag_node a) ++ fields (trim_space out)) ∨
  (ag_pending_reload a' = true ∧
   (r = Ok tt → ∃ text conf, registry_config_decode text = Ok conf ∧ ValidRegistries conf = [])) ∨
  (ag_pending_reload a' = false ∧ (∃ e, r = Err e ∧ replaced e) ∧
   ∃ dir t, madeFrom (ag_node a) dir t ∧ holdsToml (ConfigPath flags) t (ag_node a') ∧
     configSettled dir (ag_node a')).

Context {TL : TomlLaws}.

Lemma made_settled n n' dir t : madeFrom n dir t → holdsToml (ConfigPath flags) t n' → configSettled dir n'.
Proof.
  intros Hm (s & Hs & Hf). exists s, t. split; [done|]. split; [by apply toml_decode_encode|].
  destruct Hm as [(_ & -> & ->)|(data & config & _ & _ & He)]; [intros certs; apply bootstrap_again|].
  by destruct (edit_facts _ _ _ _ _ He) as (_ & _ & _ & _ & _ & _ & H).
Qed.

Lemma failed_settled a n e :
  nd_files n !! ConfigPath flags = nd_files (ag_node a) !! ConfigPath flags ∨
    replaced e ∧ newConfig (ag_node a) n →
  reloadOwed a (a <| ag_node := n |>) → reloadSettled a (Err e) (a <| ag_node := n |>).
Proof.
  unfold reloadOwed, reloadSettled. cbn. destruct (ag_pending_reload a) eqn:Ep; [intros _ _; right; left; by split|].
  intros [Heq|[He (dir & t & Hm & Hh)]] [Hp|Hd]; try done. right. right. split; [done|]. split; [by exists e|].
  exists dir, t. split; [done|]. split; [done|]. by eapply made_settled.
Qed.

Lemma reload_pass a n (b : bool) :
  nd_pidof n = nd_pidof (ag_node a) → nd_hups n = nd_hups (ag_node a) →
  (b = false → nd_files n !! ConfigPath flags = nd_files (ag_node a) !! ConfigPath flags) →
  after (_ ← (if b then set_pending true else mret tt); pending ← gets ag_pending_reload;
         if (pending : bool) then _ ← on_node reloadContainerd; set_pending false else mret tt)
    (λ r a', reloadOwed a a' → reloadSettled a r a') (a <| ag_node := n |>).
Proof.
  intros HP HH Hb.
  assert (∀ a2, ag_pending_reload a2 = true → ag_node a2 = n →
    after (_ ← on_node reloadContainerd; set_pending false) (λ r a', reloadOwed a a' → reloadSettled a r a') a2) as Hre.
  { intros a2 E1 E2. apply after_bind, after_on_node. rewrite E2. unfold after at 1.
    pose proof (post_reload n) as HR. destruct (reloadContainerd n) as [[[]|e] n3] eqn:ER; cbn [fst snd]; intros _.
    - left. destruct (HR _ _ ER) as (out & Ho & Hh). split; [done|]. split; [done|]. exists out.
      rewrite <- HP, <- HH. by split.
    - right. left. by split. }
  apply after_bind. destruct b; [by apply Hre|]. cbv [after gets mbind se_bind mret se_ret]. cbn.
  destruct (ag_pending_reload a) eqn:Ep; [by apply Hre|]. intros [Hp|[]]; [by rewrite Ep in Hp|by apply Hb].
Qed.

(** C7. A reload that is owed is not forgotten.  For a runtime other than k3s, whose
    configuration is not named like a host file, and a codec that reads back what
    it wrote: if a reload was pending, or containerd's configuration changed in this
    pass, then every containerd process was signalled in the pass, which succeeded;
    or the reload is still pending afterwards, and if the pass calls itself a
    success then only because there is no valid registry.  The one exception: the
    new configuration, made from nothing or by the edit of the old one, was put in
    place and only its mode could not be set.  Then the pass fails without a
    pending reload, and the configuration that the next one finds is one that it
    leaves as it is, so that nothing in the file will make it reload. *)
Theorem reload_never_lost (a a' : Agent) (r : result unit) :
  separateConfig → fl_runtime flags ≠ "k3s" → Reconcile flags a = (r, a') →
  reloadOwed a a' → reloadSettled a r a'.
Proof.
  intros Hsep Hrt HR. enough (after (Reconcile flags) (λ r a', reloadOwed a a' → reloadSettled a r a') a) as H
    by (unfold after in H; by rewrite HR in H).
  clear HR r a'. unfold Reconcile. apply after_bind, after_on_node. eapply after_mono.
  { apply (after_inv (kept (λ _, False) (ag_node a)) _ (λ conf _, ∃ text, registry_config_decode text = Ok conf));
      [apply inv_wrapping, kept_read_config|apply post_read_config|done]. }
  intros r n1 ([K1 [KP KH]] & Hr).
  assert (nd_files n1 !! ConfigPath flags = nd_files (ag_node a) !! ConfigPath flags) as Hcp by (apply K1; by intros []).
  destruct r as [conf|e]; [|apply failed_settled; by left]. destruct Hr as [text Ht].
  destruct (decide (ValidRegistries conf = [])) as [Hnil|_].
  { intros [Hp|[]]; [right; left; split; [done|]; intros _; by exists text, conf|done]. }
  rewrite decide_False by done. apply after_bind, after_on_node, after_wrapping.
  pose proof (update_outcome (ValidRegistries conf) n1 Hsep) as HU.
  assert (∀ n', newConfig n1 n' → newConfig (ag_node a) n') as Hnew
    by (intros n' (dir & t & Hm & Hh); exists dir, t; unfold madeFrom in *; by rewrite <- Hcp).
  destruct (signals_update n1 (ValidRegistries conf) n1) as [_ [UP UH']]; [done|].
  change (ag_node (a <| ag_node := n1 |>)) with n1. unfold after at 1. unfold after, updateEnds in HU.
  destruct (updateContainerdConfig flags (ValidRegistries conf) n1) as [[b|e] n2]; cbn [fst snd] in *;
    change (a <| ag_node := n1 |> <| ag_node := n2 |>) with (a <| ag_node := n2 |>).
  2:{ assert (replaced e → replaced (Wrapf "failed to update containerd config: " e)) as Hw by (intros; by right).
      destruct e; apply failed_settled; rewrite <- Hcp; destruct HU as [HU|[HU HN]]; auto. }
  apply (reload_pass a n2 b); [by rewrite <- KP|by rewrite <- KH|]. intros Hb. rewrite <- Hcp. by apply HU.
Qed.

(** * Settling *)

Definition holdsRegistry (dir : string) (n : Node) (r : Registry) : Prop :=
  ∃ h s, url_hostname (reg_endpoint r) = Ok h ∧ toml_encode (hostsConfig r) = Ok s ∧
    nd_files n !! hostsPath dir h = Some s.
(** Their hosts are names, and no two registries share one. *)
Definition distinctHosts (l : list Registry) : Prop :=
  (∀ r h, r ∈ l → url_hostname (reg_endpoint r) = Ok h → proper h) ∧
  (∀ r1 r2 h, r1 ∈ l → r2 ∈ l → url_hostname (reg_endpoint r1) = Ok h → url_hostname (reg_endpoint r2) = Ok h → r1 = r2).

Lemma hosts_path_inj dir h1 h2 : proper h1 → proper h2 → hostsPath dir h1 = hostsPath dir h2 → h1 = h2.
Proof.
  intros H1 H2. unfold hostsPath. destruct (join_path_twice dir _ proper_hosts) as [p Hp].
  rewrite !Hp by done. rewrite <- !string_app_assoc. intros H. apply string_app_inj in H as [H _]; [|done].
  apply string_app_inj in H as [H _]; [|done]. by apply (inj (String.append p)) in H.
Qed.
Lemma ends_differ dir h q : hostsPath dir h ≠ q +:+ ".tmp" ∧ hostsPath dir h ≠ q +:+ ".bak".
Proof.
  unfold hostsPath. destruct (join_path_last (join_path dir h) _ proper_hosts) as [x ->].
  split; intros H; change (x +:+ "hosts.toml") with (x +:+ "hosts." +:+ "toml") in H;
    rewrite <- string_app_assoc in H; by apply string_app_inj in H as [_ H].
Qed.

Lemma post_ensureHosts path r n :
  post (ensureHostsConfig path r)
    (λ _ n', ∃ s, toml_encode (hostsConfig r) = Ok s ∧ nd_files n' !! path = Some s) n.
Proof.
  unfold ensureHostsConfig. apply post_bind, post_wrapping, post_of_result. intros s Hs. apply post_bind.
  intros existing n1 H%attempt_inv. case_decide as He.
  - subst existing. apply post_ret. destruct (read_outcome _ _ _ _ H) as [E Hf]. exists s. by rewrite E.
  - eapply post_mono; [apply after_post, write_outcome|]. cbv beta. naive_solver.
Qed.

Lemma post_hosts dir L l D n :
  distinctHosts L → l ⊆ L → D ⊆ L → Forall (holdsRegistry dir n) D →
  post (reconcileHostsConfig dir l) (λ _ n', Forall (holdsRegistry dir n') (D ++ l)) n.
Proof.
  intros [Hprop Hdist] Hl HD. revert D n Hl HD. induction l as [|r l IH]; intros D n Hl HD Hn; cbn [reconcileHostsConfig].
  { apply post_ret. by rewrite app_nil_r. }
  assert (r ∈ L) as Hr by (apply Hl; by left).
  apply post_bind, post_of_result. intros h Hh. apply post_bind. intros [] n1 Hmk. apply post_bind. intros [] n2 He.
  assert (Forall (holdsRegistry dir n1) D) as Hn1.
  { pose proof (inv_wrapping _ "failed to create hosts config directory: " _
      (kept_mkdir (λ _, False) n (join_path dir h)) n) as K. rewrite Hmk in K.
    pose proof (files_kept n n1 (K ltac:(done))) as E. unfold holdsRegistry. by rewrite E. }
  destruct (post_ensureHosts _ _ _ _ _ He) as (s & Hs & Hf).
  eapply post_mono; [apply (IH (D ++ [r]))|].
  - set_solver.
  - intros x [?|Hx%list_elem_of_singleton]%elem_of_app; [auto|by subst x].
  - apply Forall_app. split; [|apply Forall_singleton; by exists h, s].
    rewrite Forall_forall in Hn1 |- *. intros r' Hr'. destruct (Hn1 r' Hr') as (h' & s' & Hh' & Hs' & Hf').
    destruct (decide (hostsPath dir h' = hostsPath dir h)) as [Heq|Hne].
    + apply hosts_path_inj in Heq as ->; [|by eapply Hprop; [apply HD|]|by eapply Hprop].
      assert (r' = r) as -> by (apply (Hdist r' r h); auto). by exists h, s.
    + exists h', s'. split; [done|]. split; [done|].
      pose proof (kept_ensureHosts (λ p, p = hostsPath dir h ∨ p = hostsPath dir h +:+ ".tmp") n1 (hostsPath dir h) r
        ltac:(by left) ltac:(by right) n1) as K. rewrite He in K. destruct (K ltac:(done)) as [Kf _].
      cbn in Kf. rewrite Kf; [done|]. intros [?|Ht]; [done|]. by apply (proj1 (ends_differ _ _ _)) in Ht.
  - cbv beta. intros _ n3. by rewrite <- app_assoc.
Qed.

(** When every registry is there and nothing fails, nothing is done. *)
Lemma hosts_again dir l n :
  nd_faults n = [] → Forall (holdsRegistry dir n) l → reconcileHostsConfig dir l n = (Ok tt, n).
Proof.
  intros Hn. induction l as [|r l IH]; [done|]. intros [(h & s & Hh & Hs & Hf) Hl]%Forall_cons.
  cbn [reconcileHostsConfig]. erewrite se_bind_ok by (unfold of_result; by rewrite Hh). cbv beta.
  assert (∀ A (m : SE Node A), os_call unharmed m n = m n) as Hcall by (intros; unfold os_call; by rewrite Hn).
  erewrite se_bind_ok by (unfold wrapping, attempt, os_mkdir_all; cbv [mbind se_bind]; by rewrite Hcall). cbv beta.
  erewrite se_bind_ok; [by apply IH|]. unfold ensureHostsConfig, wrapping, attempt, of_result, os_read_file.
  cbv [mbind se_bind mret se_ret]. rewrite Hs. cbv beta iota zeta. rewrite Hcall, Hf. cbv beta iota zeta. by rewrite decide_True.
Qed.

(** ** The configuration itself *)

Definition configFile (p : string) : Prop :=
  p = ConfigPath flags ∨ p = ConfigPath flags +:+ ".tmp" ∨ p = ConfigPath flags +:+ ".bak".

Section settle.
Context (Hsep : separateConfig).

Lemma hosts_not_config dir h : ¬ configFile (hostsPath dir h).
Proof.
  destruct (ends_differ dir h (ConfigPath flags)). intros [E|[E|E]]; [|done..].
  apply (config_not_host Hsep). exists dir, h. by left.
Qed.
Lemma holds_kept dir l n n' : kept configFile n n' → Forall (holdsRegistry dir n) l → Forall (holdsRegistry dir n') l.
Proof.
  intros [K _] Hn. eapply Forall_impl; [exact Hn|]. intros r (h & s & Hh & Hs & Hf). exists h, s.
  rewrite K by apply hosts_not_config. done.
Qed.

Lemma config_written dir l t n n' :
  writeConfigTOML (ConfigPath flags) t n = (Ok tt, n') → (∀ certs, editConfig certs t = Ok (dir, false, t)) →
  Forall (holdsRegistry dir n) l → configSettled dir n' ∧ Forall (holdsRegistry dir n') l.
Proof.
  intros H He Hl. destruct (after_post _ _ _ (write_outcome (ConfigPath flags) t n) _ _ H) as (s & Hs & Hf). split.
  - exists s, t. split; [done|]. split; [by apply toml_decode_encode|done].
  - eapply holds_kept, Hl. pose proof (kept_writeConfig configFile n (ConfigPath flags) t
      ltac:(by left) ltac:(by right; left) n ltac:(done)) as K. by rewrite H in K.
Qed.

Lemma post_update l n :
  distinctHosts l →
  post (updateContainerdConfig flags l) (λ _ n', ∃ dir, configSettled dir n' ∧ Forall (holdsRegistry dir n') l) n.
Proof.
  intros Hl. unfold updateContainerdConfig. apply post_bind. intros s n1 _.
  assert (∀ dir n, post (reconcileHostsConfig dir l) (λ _ n', Forall (holdsRegistry dir n') l) n) as HH
    by (intros dir n'; apply (post_hosts dir l l []); [done|done|set_solver|done]).
  destruct s; [|apply post_bind; eapply post_mono; [apply HH|]; intros [] n2 Hn2; apply post_bind; intros [] n3 Hw;
    apply post_ret; exists (certsDir flags); eapply config_written; [exact Hw|apply bootstrap_again|done]|].
  all: apply post_bind; intros data n2 Hd; apply post_bind, post_wrapping, post_of_result; intros config Hc;
    apply post_bind, post_of_result; intros [[dir updated] config'] He; apply post_bind; intros [] n3 Hh;
    pose proof (HH dir n2 _ _ Hh) as Hn3;
    destruct (edit_facts _ _ _ _ _ He) as (_ & _ & _ & _ & _ & Hu & Hagain);
    destruct updated; [apply post_bind; intros [] n4 Hb; apply post_bind, post_wrapping; intros [] n5 Hw;
      apply post_ret; exists dir; eapply config_written; [exact Hw|exact Hagain|]; eapply holds_kept, Hn3;
      pose proof (kept_ignoring configFile n3 _ (kept_write configFile n3 (ConfigPath flags +:+ ".bak") data
        ltac:(by right; right)) n3 ltac:(done)) as K; by rewrite Hb in K|].
  all: apply post_ret; exists dir; split; [|done]; exists data, config; split; [|split; [done|]].
  1,3: destruct (post_wrapping "error reading containerd config: " _ _ _ (read_outcome _ _) _ _ Hd) as [E Hf];
    pose proof (kept_hosts hostFile n2 dir l ltac:(done) n2 ltac:(done)) as K; rewrite Hh in K;
    destruct K as [K _]; cbn [snd] in K; rewrite K by (by apply config_not_host); by rewrite E.
  all: rewrite (proj1 Hu eq_refl) in Hagain; exact Hagain.
Qed.

(** Nothing is done again. *)
Lemma update_again dir l n :
  nd_faults n = [] → configSettled dir n → Forall (holdsRegistry dir n) l →
  updateContainerdConfig flags l n = (Ok false, n).
Proof.
  intros Hn (data & config & Hf & Hd & He) Hl. unfold updateContainerdConfig.
  assert (os_stat (ConfigPath flags) n = (Ok Present, n)) as Hstat.
  { unfold os_stat. rewrite Hn, Hf. cbn. by destruct n; cbn in *; subst. }
  erewrite se_bind_ok by exact Hstat. cbv beta iota.
  erewrite se_bind_ok by (unfold wrapping, attempt, os_read_file, os_call; cbv [mbind se_bind mret se_ret];
    by rewrite Hn, Hf). cbv beta.
  erewrite se_bind_ok by (unfold wrapping, attempt, of_result; cbv [mbind se_bind mret se_ret]; by rewrite Hd).
  cbv beta. erewrite se_bind_ok by (unfold of_result; by rewrite He). cbv beta iota.
  erewrite se_bind_ok by (by apply hosts_again). done.
Qed.

Lemma files_reload n : post reloadContainerd (λ _ n', nd_files n' = nd_files n) n.
Proof.
  assert (∀ A (m : SE Node A), Inv (λ n', nd_files n' = nd_files n) m → Inv (λ n', nd_files n' = nd_files n)
    (os_call unharmed m)) as Hcall.
  { intros A m Hm n1 H1. unfold os_call. destruct (nd_faults n1) as [|[f|] x]; [by apply Hm|done|by apply Hm]. }
  assert (∀ last pids, Inv (λ n', nd_files n' = nd_files n) (signalAll last pids)) as Hsig.
  { intros last pids. revert last. induction pids as [|pid pids IH]; intros last; cbn [signalAll]; [apply inv_of_result|].
    apply inv_bind; [apply inv_attempt, Hcall; by intros n1|]. intros r _. apply IH. }
  assert (Inv (λ n', nd_files n' = nd_files n) reloadContainerd) as HI.
  { unfold reloadContainerd. apply inv_bind; [apply inv_wrapping, Hcall; by intros n1|]. intros out _. apply Hsig. }
  intros [] n' H. specialize (HI n eq_refl). by rewrite H in HI.
Qed.

Context (text : string) (conf : RegistryConfig).
Hypothesis Hlist : cut_suffix (fl_registry_path flags) "hosts.toml" = None ∧
  cut_suffix (fl_registry_path flags) "hosts.toml.tmp" = None ∧ ¬ configFile (fl_registry_path flags).
Hypothesis Hdecode : registry_config_decode text = Ok conf.
Hypothesis Hdistinct : distinctHosts (ValidRegistries conf).

Definition k3sDir : string := join_path (fl_k3s_hosts_dir flags) "containerd/certs.d".
(** Every registry is where the runtime looks for it. *)
Definition nodeSettled (n : Node) : Prop :=
  ∃ dir, (if decide (fl_runtime flags = "k3s") then dir = k3sDir else configSettled dir n) ∧
    Forall (holdsRegistry dir n) (ValidRegistries conf).
Definition listed (n : Node) : Prop := nd_files n !! fl_registry_path flags = Some text.

Lemma listed_kept n n' : kept (λ p, hostFile p ∨ configFile p) n n' → listed n → listed n'.
Proof.
  destruct Hlist as (H1 & H2 & H3). intros [K _] Hn. unfold listed. rewrite K; [done|].
  intros [[[? H]|[? H]]%host_file_suffix|]; congruence.
Qed.
Lemma post_read_listed n : listed n →
  post (readRegistryConfig flags) (λ c n', c = conf ∧ nd_files n' = nd_files n) n.
Proof.
  intros Hn. unfold readRegistryConfig. apply post_bind. intros s n1 Hs. pose proof (stat_files _ _ _ _ Hs) as E1.
  destruct s; [|apply post_fail|]; apply post_bind, post_wrapping; intros data n2 Hd;
    destruct (read_outcome _ _ _ _ Hd) as [E2 Hf]; apply post_wrapping, post_of_result; intros c Hc;
    (split; [|congruence]); unfold listed in Hn; congruence.
Qed.

Lemma kept_reconcile_update n : Inv (kept (λ p, hostFile p ∨ configFile p) n) (updateContainerdConfig flags (ValidRegistries conf)).
Proof.
  set (P := λ p, hostFile p ∨ configFile p).
  assert (∀ dir, Inv (kept P n) (reconcileHostsConfig dir (ValidRegistries conf))) as HH by (intros; apply kept_hosts; by left).
  assert (∀ t, Inv (kept P n) (writeConfigTOML (ConfigPath flags) t)) as HW
    by (intros; apply kept_writeConfig; right; [by left|by right; left]).
  assert (P (ConfigPath flags +:+ ".bak")) as HB by (right; by right; right).
  unfold updateContainerdConfig. apply inv_bind; [node_inv|]. intros [] _.
  2:{ unfold createBootstrapConfig. apply inv_bind; [apply HH|]. intros _ _. apply inv_bind; [apply HW|].
      intros. apply inv_ret. }
  all: apply inv_bind; [node_inv|]; intros data _; apply inv_bind; [node_inv|]; intros config _;
    apply inv_bind; [node_inv|]; intros [[dir updated] config'] _; apply inv_bind; [apply HH|]; intros _ _;
    destruct updated; [|apply inv_ret]; apply inv_bind; [node_inv|]; intros _ _; apply inv_bind;
    [apply inv_wrapping, HW|]; intros; apply inv_ret.
Qed.

Lemma nodeSettled_files n n' : nd_files n' = nd_files n → nodeSettled n → nodeSettled n'.
Proof. unfold nodeSettled, configSettled, holdsRegistry. by intros ->. Qed.

Lemma post_on_node {A} (m : SE Node A) Q a :
  post m (λ x n, Q x (a <| ag_node := n |>)) (ag_node a) → post (on_node m) Q a.
Proof.
  intros H x a' E. unfold on_node, zoom in E. destruct (m (ag_node a)) as [r n] eqn:En. injection E as -> <-.
  by apply H.
Qed.

Lemma reconcile_leaves a : listed (ag_node a) →
  post (Reconcile flags) (λ _ a', listed (ag_node a') ∧ (ValidRegistries conf = [] ∨
    (nodeSettled (ag_node a') ∧ (fl_runtime flags ≠ "k3s" → ag_pending_reload a' = false)))) a.
Proof.
  intros Hn. unfold Reconcile. apply post_bind, post_on_node, post_wrapping.
  eapply post_mono; [by apply post_read_listed|]. cbv beta. intros c n1 [-> E1].
  assert (listed n1) as Hn1 by (unfold listed; by rewrite E1).
  case_decide as Hnil; [apply post_ret; split; [exact Hn1|by left]|]. case_decide as Hk.
  - apply post_on_node. change (ag_node (a <| ag_node := n1 |>)) with n1. intros [] n2 H. split.
    + eapply listed_kept, Hn1. pose proof (kept_hosts (λ p, hostFile p ∨ configFile p) n1 k3sDir (ValidRegistries conf)
        ltac:(by left) n1 ltac:(done)) as K. change (reconcileHostsConfig k3sDir (ValidRegistries conf) n1 = (Ok tt, n2)) in H. by rewrite H in K.
    + right. split; [|done]. exists k3sDir. rewrite decide_True by done. split; [done|].
      by apply (post_hosts k3sDir (ValidRegistries conf) _ [] n1 Hdistinct ltac:(done) ltac:(set_solver) ltac:(done) tt).
  - apply post_bind, post_on_node, post_wrapping. change (ag_node (a <| ag_node := n1 |>)) with n1.
    intros b n2 H. assert (listed n2 ∧ nodeSettled n2) as [Hn2 Hs].
    { split.
      - eapply listed_kept, Hn1. pose proof (kept_reconcile_update n1 n1 ltac:(done)) as K. by rewrite H in K.
      - destruct (post_update _ _ Hdistinct _ _ H) as (dir & Hc & Hh). exists dir. by rewrite decide_False. }
    apply post_bind. intros [] a2 H2. apply post_bind, post_gets.
    assert (ag_node a2 = n2) as E2 by (destruct b; by injection H2 as <-).
    destruct (ag_pending_reload a2) eqn:Ep; [|apply post_ret; rewrite E2; split; [done|right; by split]].
    apply post_bind, post_on_node. eapply post_mono; [apply files_reload|]. cbv beta. rewrite E2. intros [] n3 E3.
    apply post_modifies. split; [unfold listed; cbn; by rewrite E3|right; split; [by eapply nodeSettled_files|done]].
Qed.

(** C9. The configurator settles.  Where the list of registries decodes to [conf],
    the hosts of its valid registries are proper names and no two of them share
    one: once a pass has succeeded, whatever failed in it on the way, every valid
    registry is served, that is, its host file stands in the directory the runtime
    reads, with exactly the text made for it.  And if nothing fails in the next
    pass, and nobody else has touched the files, that pass changes no file and
    signals nobody.  The other hypotheses keep the files apart: neither containerd's
    configuration nor the list is named like a host file, the list is not the
    configuration, its temporary file or its backup; and the TOML codec reads back
    what it wrote.  (Of two registries on one host only the last would be served.) *)
Theorem node_config_settles (a a1 : Agent) :
  nd_files (ag_node a) !! fl_registry_path flags = Some text →
  Reconcile flags a = (Ok tt, a1) →
  (ValidRegistries conf ≠ [] → nodeSettled (ag_node a1)) ∧
  (nd_faults (ag_node a1) = [] → Reconcile flags a1 = (Ok tt, a1)).
Proof.
  intros Hn H. destruct (reconcile_leaves a Hn _ _ H) as [Hn1 Hs]. split; [by destruct Hs as [|[Hs _]]|].
  intros Hf. assert (readRegistryConfig flags (ag_node a1) = (Ok conf, ag_node a1)) as Hr.
  { unfold readRegistryConfig, os_stat, listed in *. cbv [mbind se_bind]. rewrite Hf, Hn1. cbv [tail].
    replace ((ag_node a1) <| nd_faults := [] |>) with (ag_node a1) by (destruct a1 as [[] ? ? ?]; cbn in *; by subst).
    unfold wrapping, attempt, os_read_file, os_call. cbv [mbind se_bind mret se_ret]. rewrite Hf, Hn1.
    unfold of_result. by rewrite Hdecode. }
  assert (∀ A (m : SE Node A) x, m (ag_node a1) = (Ok x, ag_node a1) → on_node m a1 = (Ok x, a1)) as Hon.
  { intros A m x Hm. unfold on_node, zoom. rewrite Hm. by destruct a1. }
  assert (∀ pre A (m : SE Node A) x n, m n = (Ok x, n) → wrapping pre m n = (Ok x, n)) as Hwrap.
  { intros pre A m x n Hm. unfold wrapping. by erewrite se_bind_ok by (by apply attempt_ok). }
  unfold Reconcile. erewrite se_bind_ok by (by apply Hon, Hwrap). cbv beta. case_decide as Hnil; [done|].
  destruct Hs as [|[(dir & Hd & Hh) Hp]]; [done|]. case_decide as Hk.
  - subst dir. apply Hon. by apply hosts_again.
  - erewrite se_bind_ok by (apply Hon, Hwrap; by eapply update_again). cbv beta.
    cbv [mbind se_bind mret se_ret gets]. by rewrite (Hp Hk).
Qed.
End settle.
End reconcile.

(** * A concrete node

    Its codec knows two documents, the host file of the one registry and the
    configuration made from nothing. *)

Fixpoint toml_eqb (fuel : nat) (a b : Toml) : bool :=
  match fuel, a, b with
  | S n, TString x, TString y => bool_decide (x = y)
  | S n, TBoolean x, TBoolean y => bool_decide (x = y)
  | S n, TArray x, TArray y => bool_decide (length x = length y) && forallb (λ p, toml_eqb n p.1 p.2) (zip x y)
  | S n, TTable x, TTable y =>
      bool_decide ((map_to_list x).*1 = (map_to_list y).*1) &&
      forallb (λ p, toml_eqb n p.1 p.2) (zip (map_to_list x).*2 (map_to_list y).*2)
  | _, _, _ => false
  end.

Lemma eqb_zip n (l k : list Toml) :
  (∀ a b, toml_eqb n a b = true → a = b) → length l = length k →
  forallb (λ p, toml_eqb n p.1 p.2) (zip l k) = true → l = k.
Proof.
  intros IH. revert k. induction l as [|a l IHl]; intros [|b k]; try done. intros [= Hl].
  cbn. intros [Hab Hr]%andb_true_iff. f_equal; auto.
Qed.
Lemma toml_eqb_sound n a b : toml_eqb n a b = true → a = b.
Proof.
  revert a b. induction n as [|n IH]; intros [] []; cbn; try done.
  - by intros ->%bool_decide_eq_true.
  - by intros ->%bool_decide_eq_true.
  - intros [Hl%bool_decide_eq_true Hz]%andb_true_iff. f_equal. by eapply eqb_zip.
  - intros [Hk%bool_decide_eq_true Hz]%andb_true_iff. f_equal. apply map_to_list_inj.
    apply eqb_zip in Hz; [|done|apply (f_equal length) in Hk; by rewrite !length_fmap in *].
    by rewrite <- (zip_fst_snd (map_to_list m)), <- (zip_fst_snd (map_to_list m0)), Hk, Hz.
Qed.

Definition sample_flags (runtime : string) : Flags :=
  mkFlags "/etc/containerd" "config.toml" "/config/registries" runtime "/var/lib/k3s".
Definition sample_node_registry : Registry := mkRegistry "10.43.1.5" "http://zot.svc".
Definition documents : list (string * gmap string Toml) :=
  [("host", hostsConfig sample_node_registry); ("config", bootstrapConfig "/etc/containerd/certs.d")].
#[local] Instance two_documents : TomlCodec := {
  toml_decode s := match List.find (λ d, bool_decide (d.1 = s)) documents with
                   | Some d => Ok d.2 | None => Err (Errorf "toml") end;
  toml_encode t := match List.find (λ d, toml_eqb 10 (TTable d.2) (TTable t)) documents with
                   | Some d => Ok d.1 | None => Err (Errorf "toml") end;
}.
#[local] Instance two_documents_laws : TomlLaws.
Proof.
  intros t s. cbn [toml_encode two_documents documents List.find fst snd].
  destruct (toml_eqb 10 (TTable (hostsConfig sample_node_registry)) (TTable t)) eqn:E1.
  { apply toml_eqb_sound in E1. injection E1 as <-. by intros [= <-]. }
  destruct (toml_eqb 10 (TTable (bootstrapConfig "/etc/containerd/certs.d")) (TTable t)) eqn:E2; [|done].
  apply toml_eqb_sound in E2. injection E2 as <-. by intros [= <-].
Qed.
#[local] Instance one_list : RegistryConfigDecoder := λ _, Ok [sample_node_registry].
#[local] Instance after_scheme : UrlHostname := λ u, Ok (trim_prefix u "http://").

(** A new node, on which the reload fails once. *)
Definition new_agent (faults : list (option Fault)) (pending : bool) : Agent :=
  mkAgent (mkNode {[ "/config/registries" := "{}" ]} faults (Ok "12 345") []) pending false "".

Lemma config_edit_spec_witness :
  editConfig "/other" (bootstrapConfig "/certs") = Ok ("/certs", false, bootstrapConfig "/certs") ∧
  ∃ plugin, targetPlugin (configVersion (bootstrapConfig "/certs")).1.1 = Ok plugin ∧
    lookup_path (registryPath plugin) (TTable (bootstrapConfig "/certs")) = Some (TString "/certs").
Proof.
  split; [apply bootstrap_again|].
  destruct (config_edit_spec _ _ _ _ _ (bootstrap_again "/certs" "/other")) as (plugin & Hp & Hl & _).
  by exists plugin.
Defined.

Lemma reload_never_lost_witness :
  ∃ r a', Reconcile (sample_flags "containerd") (new_agent [] true) = (r, a') ∧
    reloadSettled (sample_flags "containerd") (new_agent [] true) r a'.
Proof.
  destruct (Reconcile (sample_flags "containerd") (new_agent [] true)) as [r a'] eqn:E. exists r, a'.
  split; [reflexivity|]. apply (reload_never_lost (sample_flags "containerd")).
  - split; by vm_compute.
  - discriminate.
  - exact E.
  - left. reflexivity.
Defined.

Lemma node_config_settles_witness :
  ∃ a1, Reconcile (sample_flags "containerd") (new_agent [None; None; None; None; Some (mkFault "busy" 0)] false) = (Ok tt, a1) ∧
    nodeSettled (sample_flags "containerd") [sample_node_registry] (ag_node a1) ∧
    Reconcile (sample_flags "containerd") a1 = (Ok tt, a1).
Proof.
  destruct (Reconcile (sample_flags "containerd") (new_agent [None; None; None; None; Some (mkFault "busy" 0)] false)) as [[[]|e] a1] eqn:E; [|exfalso; vm_compute in E; discriminate].
  exists a1. split; [reflexivity|].
  destruct (node_config_settles (sample_flags "containerd")) with (text := "{}") (conf := [sample_node_registry])
    (a := new_agent [None; None; None; None; Some (mkFault "busy" 0)] false) (a1 := a1) as [Hs Hn]; [..|split].
  - split; by vm_compute.
  - split; [by vm_compute|]. split; [by vm_compute|]. intros [H|[H|H]]; vm_compute in H; discriminate H.
  - reflexivity.
  - split.
    + intros r h ->%list_elem_of_singleton Hh. vm_compute in Hh. injection Hh as <-. by split_and!.
    + by intros r1 r2 h ->%list_elem_of_singleton ->%list_elem_of_singleton.
  - reflexivity.
  - exact E.
  - apply Hs. discriminate.
  - apply Hn. vm_compute in E. injection E as <-. reflexivity.
Defined.
