(* ===== verification/ImageBuildController.v ===== *)
(** The ImageBuild controller (internal/controller/imagebuild and
    pkg/registry/delete.go): one build Job per ImageBuild, its outcome recorded in
    the status, its image removed with it.  Every pass works on a copy of the
    ImageBuild that the API answered; what it assigns is persisted only where the
    code writes it back. *)
From S2P Require Import Prelude Text Kube Apimachinery Api Builds Storage KubeWorkloads Crash Registries.
From S2P Require Import RegistryRef ImageBuildStep RegistryAuth Kaniko Objects.

Definition ImageBuildCleanupFinalizer : string := "builds.stackdome.io/registry-image-cleanup".
Definition registryNotReadyRequeueDelay : Duration := (10 * second)%Z.
Definition AnnotationResourceName : string := "builds.stackdome.io/resource-name".
Definition AnnotationSourceRevision : string := "builds.stackdome.io/source-revision".
Definition AnnotationDockerfilePath : string := "builds.stackdome.io/dockerfile-path".
Definition buildContainerName : string := "kaniko".

(** go-containerregistry: [name.NewTag], [remote.Delete] with optional basic
    credentials, and the HTTP status of a [transport.Error] in an error chain. *)
Class RemoteRegistry (W Tag : Type) := {
  new_tag : bool → string → result Tag;
  remote_delete : Tag → option (string * string) → SE W unit;
  transport_status : error → option Z;
}.

(** [fnv] over [spew] of a status whose hash is cleared. *)
Class BuildStatusDigest := digest_build_status : ImageBuildStatus → string.

(** * Reading a build *)

Section reading.
Context {CA : ConditionsApi}.

Definition condition_is (cs : list Condition) (t : string) (st : ConditionStatus) : bool :=
  match find_status_condition cs t with
  | Some c => bool_decide (c_status c = st)
  | None => false
  end.

Definition imageBuildInTerminalState (b : ImageBuild) : bool :=
  condition_is (ibs_conditions (ib_status b)) BuildAvailable ConditionTrue ||
  condition_is (ibs_conditions (ib_status b)) BuildFailed ConditionTrue ||
  condition_is (ibs_conditions (ib_status b)) BuildCancelled ConditionTrue.

Definition findJobCondition (job : Job) (t : string) : option JobCondition :=
  snd <$> list_find (λ c, jc_type c = t) (jst_conditions (job_status job)).
Definition jobConditionTrue (job : Job) (t : string) : bool :=
  match findJobCondition job t with
  | Some c => bool_decide (jc_status c = ConditionTrue)
  | None => false
  end.

(** The first condition of the type [t] says so. *)
Definition jobSays (job : Job) (t : string) : Prop :=
  ∃ c, firstOf (λ c, jc_type c = t) (jst_conditions (job_status job)) c ∧ jc_status c = ConditionTrue.

Lemma job_says job t : jobConditionTrue job t = true ↔ jobSays job t.
Proof.
  unfold jobConditionTrue, findJobCondition, jobSays, firstOf.
  destruct (list_find _ _) as [[i c]|] eqn:E; cbn.
  - apply list_find_Some in E as (Hi & Hc & Hb). rewrite bool_decide_eq_true. split.
    + intros Hs. exists c. split; [|done]. by exists i.
    + intros (c' & Hc' & Hs). assert (firstOf (λ c, jc_type c = t) (jst_conditions (job_status job)) c) as H by by exists i.
      by rewrite (firstOf_unique _ _ _ _ H Hc').
  - apply list_find_None in E. split; [done|]. intros (c & (i & Hi & Hc & _) & _).
    rewrite Forall_lookup in E. by destruct (E _ _ Hi).
Qed.

Definition volumeAvailable (v : Volume) : bool :=
  match find_status_condition (vst_conditions (vol_status v)) (volume_condition_name VolumeConditionAvailable) with
  | Some c => negb (bool_decide (c_status c = ConditionFalse))
  | None => false
  end.

Definition volumeSynced (v : Volume) (t : VolumeCondition) : bool :=
  match find_status_condition (vst_conditions (vol_status v)) (volume_condition_name t) with
  | Some c => negb (bool_decide (c_status c = ConditionFalse)) &&
              (c_observed_generation c =? om_generation (vol_meta v))%Z
  | None => false
  end.

Definition volumeReadyForBuild (v : Volume) (b : ImageBuild) : bool :=
  let wanted := GetSourceRevisionString (ib_source_revision (ib_spec b)) in
  match vsp_source (vol_spec v) with
  | None => false
  | Some src =>
      match vs_remote_dir src, vs_git_repo src with
      | Some d, _ =>
          volumeSynced v VolumeConditionSyncedFromRemote &&
          bool_decide (rds_current_directory_hash d = wanted)
      | None, Some g =>
          volumeSynced v VolumeConditionSyncedFromGitSource &&
          bool_decide (GetGitRevisionString (vgs_revision g) = wanted)
      | None, None => false
      end
  end.
End reading.

Definition validateGitRevision `{GoText} (rev : option GitRepoRevision) : result unit :=
  match rev with
  | None => Err (Errorf "git source revision is required")
  | Some rev =>
      let commit := trim_space (to_lower (gr_commit rev)) in
      if decide (commit = "" ∨ commit = "head")
      then Err (Errorf ("git source revision must include a concrete commit SHA, got " +:+ quote (gr_commit rev)))
      else if decide (gr_branch rev = "" ∧ gr_tag rev = "")
      then Err (Errorf "git source revision must include a branch or tag as a fetchable ref")
      else Ok tt
  end.

Definition setBuildJobAnnotations (resourceName sourceRevision dockerfilePath : string) (j : Job) : Job :=
  j <| job_meta ::= λ m, m <| om_annotations ::= λ a,
    <[ AnnotationDockerfilePath := dockerfilePath ]>
      (<[ AnnotationSourceRevision := sourceRevision ]>
         (<[ AnnotationResourceName := resourceName ]> a)) |> |>.

(** * Writing the status *)

Section status.
Context {CA : ConditionsApi} {SD : BuildStatusDigest}.

Definition withStatusHash (s : ImageBuildStatus) : ImageBuildStatus :=
  s <| ibs_status_hash := digest_build_status (s <| ibs_status_hash := "" |>) |>.
Definition revisionOf (b : ImageBuild) : string := GetSourceRevisionString (ib_source_revision (ib_spec b)).

Definition reportedStatus (t : Time) (condition : string) (value : ConditionStatus) (reason : string)
    (b : ImageBuild) : ImageBuild :=
  let gen := om_generation (ib_meta b) in
  b <| ib_status ::= λ s, withStatusHash (s <| ibs_observed_generation := gen |>
         <| ibs_build_source_revision := revisionOf b |>
         <| ibs_conditions ::= λ cs, set_status_condition t cs (new_condition condition value gen reason reason) |>) |>.

Definition completedStatus (t : Time) (b : ImageBuild) : ImageBuild :=
  let gen := om_generation (ib_meta b) in
  b <| ib_status ::= λ s, withStatusHash (s <| ibs_phase := BuildPhaseSuccess |>
         <| ibs_last_build_failure_detail := None |>
         <| ibs_build_source_revision := revisionOf b |>
         <| ibs_conditions ::= λ cs, set_status_condition t cs
              (new_condition BuildAvailable ConditionTrue gen "BuildComplete" "Image build complete") |>) |>.

Context {W : Type} {CK : Clock W}.

Definition reportImageBuildStatus (condition : string) (value : ConditionStatus) (reason : string)
    : OM W ImageBuild unit :=
  t ← call now;
  assign (reportedStatus t condition value reason).
Definition reportImageBuildComplete : OM W ImageBuild unit :=
  t ← call now;
  assign (completedStatus t).
Definition setPhase (p : BuildPhase) : OM W ImageBuild unit :=
  assign (λ b, b <| ib_status ::= λ s, s <| ibs_phase := p |> |>).
End status.

(** * Operations *)

Section controller.
Context {GT : GoText} {UP : UrlParse} {BD : BuildDigest} {SD : BuildStatusDigest} {JD : JobDecoder}.
Context {CA : ConditionsApi} {OA : OwnerApi} {FA : FinalizerApi} {PS : PodSort}.
Context {W Tag : Type} {CK : Clock W} {EG : ErrGroup W} {RR : RemoteRegistry W Tag}.
Context {KB : Kind W ImageBuild} {KJ : Kind W Job} {KS : Kind W Secret} {KV : Kind W Volume}.
Context {KR : Kind W ClusterRegistry} {UPd : UncachedList W Pod}.

(** ** Build failures *)

Definition getBuildFailureDetail (b : ImageBuild) (job : Job) : SE W (option LastFailureDetail) :=
  pods ← ulist (om_namespace (ib_meta b)) [{[ "job-name" := om_name (job_meta job) ]}];
  mret match sort_newest_first pods with
       | [] => None
       | pod :: _ =>
           match list_find (λ cs, cstat_name cs = buildContainerName) (pod_container_statuses pod) with
           | None => None
           | Some (_, cs) => if IsCrashState cs then Some (BuildLastFailureDetail cs) else None
           end
       end.

(** ** The Job *)

Definition handleBuildJobCreation (desired : Job) : OM W ImageBuild unit :=
  _ ← call (kcreate desired);
  t ← call now;
  assign (λ b, b <| ib_status ::= λ s, s <| ibs_build_source_revision := revisionOf b |>
    <| ibs_conditions ::= λ cs, set_status_condition t cs
         (new_condition BuildJobCreated ConditionTrue 0 "BuildJobCreated" "BuildJobCreated") |> |>).

Definition setFailureDetail (d : option LastFailureDetail) : OM W ImageBuild unit :=
  assign (λ b, b <| ib_status ::= λ s, s <| ibs_last_build_failure_detail := d |> |>).
Definition releaseOf (b : ImageBuild) : string := mget (om_annotations (ib_meta b)) ReleaseIDAnnotation.

(** A Job that finished, failed, or still runs. *)
Definition jobComplete (params : BuildParams) : OM W ImageBuild CtrlResult :=
  _ ← assign (λ b, b <| ib_status ::= λ s, s <| ibs_image_url := ImageUrl params |> |>);
  _ ← reportImageBuildComplete;
  mret no_requeue.
Definition jobFailed (job : Job) : OM W ImageBuild CtrlResult :=
  b ← look id;
  d ← call (attempt (getBuildFailureDetail b job));
  _ ← match d with
      | Ok (Some d) => setFailureDetail (Some (d <| lfd_release_id := releaseOf b |>))
      | _ => mret tt
      end;
  _ ← reportImageBuildStatus BuildFailed ConditionTrue "BuildJobFailed";
  _ ← setPhase BuildPhaseFailed;
  mret no_requeue.
Definition jobRunning (job : Job) : OM W ImageBuild CtrlResult :=
  b ← look id;
  _ ← (if ibs_last_build_failure_detail (ib_status b) is Some _ then mret tt
       else
         d ← call (attempt (getBuildFailureDetail b job));
         match d with Ok d => setFailureDetail d | Err _ => mret tt end);
  _ ← reportImageBuildStatus BuildAvailable ConditionFalse "BuildJobNotYetComplete";
  mret no_requeue.

Definition reconcileBuildJob (desired : Job) (params : BuildParams) : OM W ImageBuild CtrlResult :=
  got ← call (attempt (kget (om_namespace (job_meta desired)) (om_name (job_meta desired))));
  match got with
  | Err e => if is_not_found e then _ ← handleBuildJobCreation desired; mret no_requeue else fail e
  | Ok job =>
      if jobConditionTrue job JobComplete then jobComplete params
      else if jobConditionTrue job JobFailed then jobFailed job
      else jobRunning job
  end.

(** ** What a Job is made from *)

Definition resolveDestination (b : ImageBuild) : SE W ResolvedRepository :=
  ResolveImageRepository (om_namespace (ib_meta b)) (ib_repository (ib_spec b)) (revisionOf b).

Definition getDockerConfigSecret (a : DockerConfigAuth) : SE W Secret :=
  match dca_secret_ref a with
  | None => fail (Panic "nil pointer dereference")
  | Some ref =>
      res ← attempt (kget (sr_ref_namespace ref) (sr_ref_name ref));
      match res with
      | Ok s => mret s
      | Err e => fail (if is_not_found e then Errorf "docker config secret not found" else e)
      end
  end.

Definition getRegistryAuthSecrets (b : ImageBuild) : SE W (option Secret * string) :=
  match ir_auth (ib_repository (ib_spec b)) with
  | None => mret (None, "")
  | Some auth =>
      match rc_docker_config auth, rc_basic auth with
      | Some d, _ => s ← getDockerConfigSecret d; mret (Some s, dca_secret_key d)
      | None, Some _ =>
          let name := SynthesizedDockerConfigSecretName (ib_resource_name (ib_spec b)) in
          res ← attempt (kget (om_namespace (ib_meta b)) name);
          match res with
          | Ok s => mret (Some s, DockerConfigJsonKey)
          | Err e => fail (if is_not_found e
                           then Errorf ("synthesized docker config secret " +:+ quote name +:+ " not found")
                           else e)
          end
      | None, None => mret (None, "")
      end
  end.

Definition resolveBuildArg (ns : string) (a : BuildArg) : OM W ImageBuild ResolvedBuildArg :=
  match ba_value_from a with
  | None => mret (mkResolvedBuildArg (ba_name a) (ba_value a))
  | Some ref =>
      res ← call (attempt (kget ns (sks_name ref)));
      match res with
      | Err e =>
          if is_not_found e then
            _ ← reportImageBuildStatus BuildFailed ConditionTrue "BuildArgSecretNotFound";
            fail (Errorf ("secret " +:+ quote (sks_name ref) +:+ " not found for build arg " +:+ quote (ba_name a)))
          else fail (Wrapf ("failed to get secret for build arg " +:+ quote (ba_name a) +:+ ": ") e)
      | Ok secret =>
          match sec_data secret !! sks_key ref with
          | None =>
              _ ← reportImageBuildStatus BuildFailed ConditionTrue "BuildArgSecretKeyNotFound";
              fail (Errorf ("key " +:+ quote (sks_key ref) +:+ " not found in secret " +:+ quote (sks_name ref) +:+
                            " for build arg " +:+ quote (ba_name a)))
          | Some v => mret (mkResolvedBuildArg (ba_name a) v)
          end
      end
  end.
Fixpoint resolveArgs (ns : string) (l : list BuildArg) : OM W ImageBuild (list ResolvedBuildArg) :=
  match l with
  | [] => mret []
  | a :: l => v ← resolveBuildArg ns a; vs ← resolveArgs ns l; mret (v :: vs)
  end.
Definition resolveBuildArgs : OM W ImageBuild (list ResolvedBuildArg) :=
  b ← look id;
  resolveArgs (om_namespace (ib_meta b)) (ib_build_args (ib_spec b)).

(** The parameters, from the builder. *)
Definition buildParams (b : ImageBuild) (resolved : ResolvedRepository) (source : Source)
    (auth : option Secret * string) (args : list ResolvedBuildArg) : BuildParams :=
  WithBuildArgs args (WithDockerAuth auth.1 auth.2 (WithSource source
    (WithContextPath (bc_context_path (ib_build_context (ib_spec b)))
    (WithDockerfilePath (bc_dockerfile_path (ib_build_context (ib_spec b)))
    (WithInsecureRegistry (rr_insecure resolved) (WithDestination (Reference resolved)
    (WithNamespace (om_namespace (ib_meta b)) (WithJobName (BuildJobName b) NewBuildParams)))))))).

Definition desiredJob (b : ImageBuild) (params : BuildParams) : result Job :=
  job ← GenerateImageBuildJob params;
  let job := setBuildJobAnnotations (ib_resource_name (ib_spec b)) (revisionOf b)
               (bc_dockerfile_path (ib_build_context (ib_spec b))) job in
  m ← set_controller_reference (ib_meta b) (job_meta job);
  Ok (job <| job_meta := m |>).

(** The common tail of the two kinds of source. *)
Definition buildFromSource (source : Source) : OM W ImageBuild CtrlResult :=
  b ← look id;
  auth ← call (getRegistryAuthSecrets b);
  args ← resolveBuildArgs;
  resolved ← call (attempt (resolveDestination b));
  match resolved with
  | Err e =>
      if is_registry_not_ready e then
        _ ← reportImageBuildStatus BuildAvailable ConditionFalse "RegistryNotReady";
        mret (mkCtrlResult false registryNotReadyRequeueDelay)
      else
        _ ← reportImageBuildStatus BuildAvailable ConditionFalse "RepositoryResolveFailed";
        fail e
  | Ok resolved =>
      let params := buildParams b resolved source auth args in
      desired ← of_result (desiredJob b params);
      reconcileBuildJob desired params
  end.

Definition reconcileImageBuildWithVolumeSource (volume : string) : OM W ImageBuild CtrlResult :=
  b ← look id;
  v ← call (kget (om_namespace (ib_meta b)) volume);
  if negb (volumeAvailable v) then
    _ ← reportImageBuildStatus BuildAvailable ConditionFalse "VolumeNotReady";
    mret (mkCtrlResult true 0)
  else if negb (volumeReadyForBuild v b) then
    _ ← reportImageBuildStatus BuildAvailable ConditionFalse "VolumeNotReadyForBuild";
    mret (mkCtrlResult true 0)
  else
    buildFromSource (mkSource
      (Some (mkVolumeBuildSource (vst_pvc_name (vol_status v)) (vst_git_repo_synced_path (vol_status v)))) None).

Definition reconcileImageBuildWithGitSource (repo : GitRepoSource) : OM W ImageBuild CtrlResult :=
  b ← look id;
  let revision := sr_git_repo (ib_source_revision (ib_spec b)) in
  match validateGitRevision revision, revision with
  | Ok _, Some rev => buildFromSource (mkSource None (Some (mkGitRepoBuildSource repo rev)))
  | _, _ =>
      _ ← reportImageBuildStatus BuildFailed ConditionTrue "SourceRevisionInvalid";
      _ ← setPhase BuildPhaseFailed;
      mret no_requeue
  end.

(** ** Cancellation *)

(** The propagation policy is an option of the call that the client carries out. *)
Definition deleteBuildJob (job : Job) : SE W unit :=
  wrapping ("failed to delete build job " +:+ om_name (job_meta job) +:+ ": ")
    (ignore_not_found (kdelete job)).
Definition controlledJobs (b : ImageBuild) (jobs : list Job) : list Job :=
  filter (λ j, is_controlled_by (job_meta j) (ib_meta b) = true) jobs.

Definition reconcileCancellation : OM W ImageBuild CtrlResult :=
  b ← look id;
  jobs ← call (wrapping "failed to list Jobs for cancellation: " (klist (om_namespace (ib_meta b)) []));
  _ ← setPhase BuildPhaseCancelled;
  _ ← reportImageBuildStatus BuildCancelled ConditionTrue "BuildCancelled";
  _ ← call (group_run (deleteBuildJob <$> controlledJobs b jobs));
  mret no_requeue.

Definition reconcile : OM W ImageBuild CtrlResult :=
  b ← look id;
  if imageBuildInTerminalState b then mret no_requeue
  else if ib_cancelled (ib_spec b) then reconcileCancellation
  else
    match bc_context_source (ib_build_context (ib_spec b)) with
    | None => fail (Panic "nil pointer dereference")
    | Some src =>
        match bcs_git src, bcs_volume src with
        | Some repo, _ => reconcileImageBuildWithGitSource repo
        | None, Some volume => reconcileImageBuildWithVolumeSource volume
        | None, None => fail (Errorf "no context source specified for image build")
        end
    end.

(** ** Removal *)

Definition isNotFoundErr (e : error) : bool :=
  match transport_status (W:=W) (Tag:=Tag) e with Some st => (st =? 404)%Z | None => false end.

Definition DeleteImage (imageRef : string) (insecure : bool) (username password : string) : SE W unit :=
  tag ← wrapping ("parse reference " +:+ quote imageRef +:+ ": ")
          (of_result (new_tag (W:=W) (Tag:=Tag) insecure imageRef));
  res ← attempt (remote_delete tag (if decide (username ≠ "") then Some (username, password) else None));
  match res with
  | Ok _ => mret tt
  | Err e => if isNotFoundErr e then mret tt
             else fail (Wrapf ("delete tag " +:+ imageRef +:+ ": ") e)
  end.

Definition registryCredentials (reg : ClusterRegistry) : SE W (string * string) :=
  match crs_auth (creg_spec reg) with
  | Some (mkRegistryAuthSpec (Some (Some ref))) =>
      res ← attempt (kget (sr_ref_namespace (cs_secret_ref ref)) (sr_ref_name (cs_secret_ref ref)));
      match res with
      | Err e => if is_not_found e then mret ("", "") else fail e
      | Ok sec => mret (mget (sec_data sec) (cs_username_key ref), mget (sec_data sec) (cs_password_key ref))
      end
  | _ => mret ("", "")
  end.

Definition cleanupImage (b : ImageBuild) : SE W unit :=
  match ir_cluster_registry_ref (ib_repository (ib_spec b)) with
  | None => mret tt
  | Some name =>
      if decide (ibs_image_url (ib_status b) = "") then mret tt
      else
        res ← attempt (kget "" name);
        match res with
        | Err e => if is_not_found e then mret tt else fail e
        | Ok reg =>
            creds ← registryCredentials reg;
            DeleteImage (ibs_image_url (ib_status b)) true creds.1 creds.2
        end
  end.

Definition finalize (b : ImageBuild) : SE W CtrlResult :=
  if negb (contains_finalizer ImageBuildCleanupFinalizer (ib_meta b)) then mret no_requeue
  else
    _ ← cleanupImage b;
    _ ← kupdate (b <| ib_meta ::= remove_finalizer ImageBuildCleanupFinalizer |>);
    mret no_requeue.

Definition Reconcile (ns name : string) : SE W CtrlResult :=
  got ← attempt (kget ns name);
  match got with
  | Err e => if is_not_found e then mret no_requeue else fail e
  | Ok b =>
      if deleted (ib_meta b) then finalize b
      else
        match add_finalizer ImageBuildCleanupFinalizer (ib_meta b) with
        | (true, m) => _ ← kupdate (b <| ib_meta := m |>); mret no_requeue
        | (false, m) =>
            out ← with_object (b <| ib_meta := m |>) reconcile;
            _ ← kupdate_status out.2;
            mret out.1
        end
  end.
End controller.
