(* ===== verification/ImageBuildLifecycle.v ===== *)
(** What the ImageBuild controller guarantees: the life cycle of a build, what a
    pass may touch, what becomes of the build Job, and the removal of images. *)
From S2P Require Import Prelude Text Kube Apimachinery Api Builds Storage KubeWorkloads Crash Registries.
From S2P Require Import RegistryRef ImageBuildStep Kaniko Objects ImageBuildController Samples.

(** * Conditions *)

Section conditions.
Context {CA : ConditionsApi} {CL : ConditionsLaws}.

Lemma condition_is_view cs t st :
  condition_is cs t st = match view cs t with
                         | Some v => bool_decide (v.1.1.1 = st)
                         | None => false
                         end.
Proof. unfold condition_is, view. by destruct (find_status_condition cs t). Qed.

Lemma condition_is_set now cs t st gen r m t' st' :
  condition_is (set_status_condition now cs (new_condition t st gen r m)) t' st' =
  if decide (t' = t) then bool_decide (st = st') else condition_is cs t' st'.
Proof. rewrite !condition_is_view, view_set_new. by case_decide. Qed.
End conditions.

(** * The life cycle *)

Section lifecycle.
Context {GT : GoText} {UP : UrlParse} {BD : BuildDigest} {SD : BuildStatusDigest} {JD : JobDecoder}.
Context {CA : ConditionsApi} {CL : ConditionsLaws} {OA : OwnerApi} {PS : PodSort}.
Context {W : Type} {CK : Clock W} {EG : ErrGroup W}.
Context {KJ : Kind W Job} {KS : Kind W Secret} {KV : Kind W Volume}.
Context {KR : Kind W ClusterRegistry} {UPd : UncachedList W Pod}.

(** Which of the three terminal conditions are True. *)
Definition terminals (s : ImageBuildStatus) : bool * bool * bool :=
  let on t := condition_is (ibs_conditions s) t ConditionTrue in
  (on BuildAvailable, on BuildFailed, on BuildCancelled).

(** The phase says which terminal condition is True, and a failure has one of the
    two reasons that end a build. *)
Definition consistent (s : ImageBuildStatus) : Prop :=
  terminals s = match ibs_phase s with
                | BuildPhaseSuccess => (true, false, false)
                | BuildPhaseFailed => (false, true, false)
                | BuildPhaseCancelled => (false, false, true)
                | BuildPhaseUnset | BuildPhasePending => (false, false, false)
                end ∧
  ∀ v, view (ibs_conditions s) BuildFailed = Some v →
       v.1.2 = "SourceRevisionInvalid" ∨ v.1.2 = "BuildJobFailed".

(** A build nothing has been decided about. *)
Definition open (s : ImageBuildStatus) : Prop :=
  (ibs_phase s = BuildPhaseUnset ∨ ibs_phase s = BuildPhasePending) ∧ consistent s.

Lemma terminal_state_phase b :
  consistent (ib_status b) →
  imageBuildInTerminalState b = false ↔ open (ib_status b).
Proof.
  intros HC. unfold imageBuildInTerminalState, open. destruct HC as [HT HV]. pose proof HT as HT'.
  unfold terminals in HT.
  destruct (ibs_phase (ib_status b)) eqn:E; injection HT as -> -> ->; cbn; split; try done;
    try (by intros [[?|?] _]); intros _; (split; [by auto|]); split; by rewrite ?E.
Qed.

(** Recording a condition together with a phase. *)
Lemma consistent_recorded t (s s' : ImageBuildStatus) ty st gen r m :
  open s → ibs_conditions s' = set_status_condition t (ibs_conditions s) (new_condition ty st gen r m) →
  (ty, st, ibs_phase s') ∈ [(BuildAvailable, ConditionTrue, BuildPhaseSuccess);
     (BuildFailed, ConditionTrue, BuildPhaseFailed);
     (BuildCancelled, ConditionTrue, BuildPhaseCancelled);
     (BuildAvailable, ConditionFalse, ibs_phase s); (BuildJobCreated, ConditionTrue, ibs_phase s)] →
  (ty = BuildFailed → r = "SourceRevisionInvalid" ∨ r = "BuildJobFailed") →
  consistent s'.
Proof.
  intros [Hp [HT HV]] Hc Hin Hr. unfold consistent, terminals in *. rewrite Hc. split.
  - rewrite !condition_is_set. set_unfold in Hin.
    destruct Hp as [Hp|Hp]; rewrite Hp in *; injection HT as -> -> ->;
      destruct Hin as [[=]|[[=]|[[=]|[[=]|[[=]|[]]]]]]; subst;
      (rewrite Hp + idtac); match goal with H : ibs_phase s' = _ |- _ => rewrite H end; done.
  - intros v. rewrite view_set_new. case_decide as E; [|apply HV]. intros [= <-]. cbn. by apply Hr.
Qed.

(** The copy an answer of the pass leaves. *)
Definition leaves (Q : ImageBuildStatus → Prop) {A} (_ : A) (p : On W ImageBuild) : Prop :=
  Q (ib_status (object p)).

Lemma post_timed {S' : Type} (k : Time → SE (On W S') unit) Q (p : On W S') :
  (∀ t w, post (k t) Q (mkOn w (object p))) → post (t ← call now; k t) Q p.
Proof. intros H. apply post_bind, post_call. intros t w _. apply H. Qed.

Lemma post_report c v r (Q : unit → On W ImageBuild → Prop) p :
  (∀ t w, Q tt (mkOn w (reportedStatus t c v r (object p)))) →
  post (reportImageBuildStatus c v r) Q p.
Proof. intros HQ. apply post_timed. intros t w. apply post_assign, HQ. Qed.

(** Resolving build arguments changes nothing when it succeeds. *)
Lemma resolveArgs_keeps ns l (p : On W ImageBuild) :
  post (resolveArgs ns l) (λ _ p', object p' = object p) p.
Proof.
  revert p. induction l as [|a l IH]; intros p; cbn [resolveArgs]; [by apply post_ret|].
  apply post_bind. apply (post_mono _ (λ _ p', object p' = object p)).
  - unfold resolveBuildArg. repeat (on_step || (apply post_report; intros ? ?)); done.
  - intros v p' Hp. apply post_bind. eapply post_mono; [apply IH|]. intros vs p'' Hp'.
    apply post_ret. by rewrite Hp', Hp.
Qed.

Lemma job_consistent desired params (p : On W ImageBuild) :
  open (ib_status (object p)) →
  post (reconcileBuildJob desired params) (leaves consistent) p.
Proof.
  intros HO. unfold reconcileBuildJob. apply post_bind, post_call. intros got w _.
  destruct got as [job|e].
  - destruct (jobConditionTrue job JobComplete); [|destruct (jobConditionTrue job JobFailed)].
    + unfold jobComplete, reportImageBuildComplete. repeat on_step.
      eapply consistent_recorded; [apply HO|reflexivity|set_solver|done].
    + unfold jobFailed, setFailureDetail, setPhase.
      repeat (on_step || (apply post_report; intros ? ?));
        (eapply consistent_recorded; [apply HO|reflexivity|cbn; set_solver|by auto]).
    + unfold jobRunning, setFailureDetail.
      repeat (on_step || (apply post_report; intros ? ?));
        (eapply consistent_recorded; [apply HO|reflexivity|cbn; set_solver|done]).
  - destruct (is_not_found e); [|apply post_fail]. unfold handleBuildJobCreation. repeat on_step.
    eapply consistent_recorded; [apply HO|reflexivity|cbn; set_solver|done].
Qed.

Lemma source_consistent source (p : On W ImageBuild) :
  open (ib_status (object p)) → post (buildFromSource source) (leaves consistent) p.
Proof.
  intros HO. unfold buildFromSource, resolveBuildArgs.
  apply post_bind, post_look, post_bind, post_call. intros auth w _.
  apply post_bind, post_bind, post_look. eapply post_mono; [apply resolveArgs_keeps|].
  intros args p' Hp. cbn in Hp.
  apply post_bind, post_call. intros resolved w' _. destruct resolved as [resolved|e].
  - apply post_bind, post_of_result. intros desired _. apply job_consistent. cbn. by rewrite Hp.
  - destruct (is_registry_not_ready e); apply post_bind, post_report; intros t w''; [|apply post_fail].
    apply post_ret. cbn. rewrite Hp.
    eapply consistent_recorded; [apply HO|reflexivity|cbn; set_solver|done].
Qed.

Lemma reconcile_consistent (p : On W ImageBuild) :
  consistent (ib_status (object p)) →
  post reconcile (leaves consistent) p.
Proof.
  intros HC. unfold reconcile. apply post_bind, post_look. cbn.
  destruct (imageBuildInTerminalState (object p)) eqn:ET; [by apply post_ret|].
  apply terminal_state_phase in ET as HO; [|done].
  destruct (ib_cancelled _).
  { unfold reconcileCancellation, setPhase.
    repeat (on_step || (apply post_report; intros ? ?)).
    eapply consistent_recorded; [apply HO|reflexivity|cbn; set_solver|done]. }
  destruct (bc_context_source _) as [[vol git]|]; [|apply post_fail]. cbn.
  destruct git as [repo|]; [|destruct vol as [vol|]; [|apply post_fail]].
  - unfold reconcileImageBuildWithGitSource, setPhase. apply post_bind, post_look. cbv zeta.
    repeat case_match; (try by apply source_consistent);
      repeat (on_step || (apply post_report; intros ? ?));
      (eapply consistent_recorded; [apply HO|reflexivity|cbn; set_solver|by auto]).
  - unfold reconcileImageBuildWithVolumeSource. apply post_bind, post_look, post_bind, post_call.
    intros v w _. repeat case_match; (try by apply source_consistent);
      apply post_bind, post_report; intros t w'; apply post_ret;
      (eapply consistent_recorded; [apply HO|reflexivity|cbn; set_solver|done]).
Qed.

(** One step in the life of a stored build.  Users and controllers may change the
    metadata and the spec at any time, but not the status, which is a subresource;
    a pass over the stored build persists the status it leaves when it ends
    without an error.  A pass that read an older copy persists nothing, because
    its write is refused. *)
Inductive lifecycle : ImageBuild → ImageBuild → Prop :=
  | lifecycle_edit b m sp : lifecycle b (mkImageBuild m sp (ib_status b))
  | lifecycle_pass b w res p :
      reconcile (mkOn w b) = (Ok res, p) →
      lifecycle b (b <| ib_status := ib_status (object p) |>).

Lemma lifecycle_consistent b b' :
  lifecycle b b' → consistent (ib_status b) → consistent (ib_status b').
Proof.
  intros [? ? ?|o w res p Hr] HC; [done|]. cbn.
  by apply (reconcile_consistent (mkOn w o) HC res p).
Qed.

Lemma terminal_status (b b' : ImageBuild) :
  ib_status b' = ib_status b → imageBuildInTerminalState b' = imageBuildInTerminalState b.
Proof. unfold imageBuildInTerminalState. by intros ->. Qed.

Lemma lifecycle_terminal b b' :
  imageBuildInTerminalState b = true → lifecycle b b' → ib_status b' = ib_status b.
Proof.
  intros HT Hl. revert HT. destruct Hl as [? ? ?|o w res p Hr]; [done|]. intros HT. cbn.
  unfold reconcile, look in Hr. revert Hr. cbv [mbind se_bind gets]. cbn. rewrite HT. by intros [= <- <-].
Qed.

(** C4. The life of a build, under any edits of its spec and any number of
    passes, in any outside world: its phase always says which terminal condition
    is True, so a build never counts as both available and failed; and once a
    build has ended its status never changes again.  A build fails for one of two
    reasons only: the reasons the code gives when a build argument cannot be
    resolved are never persisted. *)
Theorem build_lifecycle (b0 b : ImageBuild) :
  ibs_conditions (ib_status b0) = [] →
  ibs_phase (ib_status b0) = BuildPhaseUnset ∨ ibs_phase (ib_status b0) = BuildPhasePending →
  rtc lifecycle b0 b →
  consistent (ib_status b) ∧
  (imageBuildInTerminalState b = true → ∀ b', rtc lifecycle b b' → ib_status b' = ib_status b).
Proof.
  intros Hc Hp Hs. split.
  - assert (consistent (ib_status b0)) as H0.
    { assert (∀ t, view [] t = None) as Hn by (intros t; unfold view; by rewrite find_status_condition_nil).
      unfold consistent, terminals. rewrite Hc, !condition_is_view, !Hn.
      split; [|by intros v]. by destruct Hp as [-> | ->]. }
    clear Hc Hp. induction Hs as [|? ? ? Hs _ IH]; [done|]. by eapply IH, lifecycle_consistent.
  - intros HT b' Hs'. clear Hs. induction Hs' as [|? y ? Hs _ IH]; [done|].
    apply lifecycle_terminal in Hs; [|done]. rewrite <- Hs. apply IH. by rewrite (terminal_status _ _ Hs).
Qed.
End lifecycle.

(** * What a pass touches *)

Section footprint.
Context {GT : GoText} {UP : UrlParse} {BD : BuildDigest} {SD : BuildStatusDigest} {JD : JobDecoder}.
Context {CA : ConditionsApi} {OA : OwnerApi} {OL : OwnerLaws} {PS : PodSort}.
Context {W : Type} {CK : Clock W} {EG : ErrGroup W} {EL : ErrGroupLaws W}.
Context {KJ : Kind W Job} {KS : Kind W Secret} {KV : Kind W Volume}.
Context {KR : Kind W ClusterRegistry} {UPd : UncachedList W Pod}.

(** Reading does not disturb [I]. *)
Record ReadsKeep (I : W → Prop) : Prop := {
  keep_now : Inv I now;
  keep_jobs ns sel : Inv I (klist (O:=Job) ns sel);
  keep_job ns n : Inv I (kget (O:=Job) ns n);
  keep_secret ns n : Inv I (kget (O:=Secret) ns n);
  keep_volume ns n : Inv I (kget (O:=Volume) ns n);
  keep_registry ns n : Inv I (kget (O:=ClusterRegistry) ns n);
  keep_pods ns sel : Inv I (ulist (O:=Pod) ns sel);
}.

(** A build that is neither over nor cancelled, and whose source, when it is a git
    repository, is pinned to a commit. *)
Definition may_build (b : ImageBuild) : Prop :=
  imageBuildInTerminalState b = false ∧ ib_cancelled (ib_spec b) = false ∧
  ∀ src repo, bc_context_source (ib_build_context (ib_spec b)) = Some src → bcs_git src = Some repo →
    validateGitRevision (sr_git_repo (ib_source_revision (ib_spec b))) = Ok tt.

Section invariant.
Context (I : W → Prop) (b : ImageBuild).
Hypothesis reads : ReadsKeep I.

(** The invariant of a pass: [I] outside, and the build is still the one read. *)
Definition passing (p : On W ImageBuild) : Prop :=
  I (outside p) ∧ ib_meta (object p) = ib_meta b ∧ ib_spec (object p) = ib_spec b.

Lemma passing_call {A} (m : SE W A) : Inv I m → Inv passing (call m).
Proof.
  intros Hm p (H1 & H2 & H3). specialize (Hm _ H1). unfold call, passing in *.
  by destruct (m (outside p)).
Qed.
Lemma passing_assign f :
  (∀ o, ib_meta (f o) = ib_meta o ∧ ib_spec (f o) = ib_spec o) → Inv passing (assign f).
Proof. intros Hf p (H1 & H2 & H3). destruct (Hf (object p)) as [E1 E2]. cbn. split_and!; cbn; congruence. Qed.
Lemma passing_look {B A} (f : ImageBuild → B) (k : B → OM W ImageBuild A) :
  (∀ o, ib_meta o = ib_meta b → ib_spec o = ib_spec b → Inv passing (k (f o))) →
  Inv passing (o ← look f; k o).
Proof. intros Hk p Hp. cbv [mbind se_bind look gets]. by apply Hk; try apply Hp. Qed.

Lemma passing_report c v r : Inv passing (reportImageBuildStatus c v r).
Proof.
  apply inv_bind; [apply passing_call, reads|]. intros t _. by apply passing_assign.
Qed.

Lemma inv_auth o : Inv I (getRegistryAuthSecrets o).
Proof.
  unfold getRegistryAuthSecrets, getDockerConfigSecret. pose proof (keep_secret I reads). solve_inv.
Qed.
Lemma inv_destination o : Inv I (resolveDestination o).
Proof.
  unfold resolveDestination, ResolveImageRepository. pose proof (keep_registry I reads). solve_inv.
Qed.
Lemma inv_failure_detail o job : Inv I (getBuildFailureDetail o job).
Proof. unfold getBuildFailureDetail. pose proof (keep_pods I reads). solve_inv. Qed.

Lemma passing_args ns l : Inv passing (resolveArgs ns l).
Proof.
  pose proof (keep_secret I reads) as HS. induction l as [|a l IH]; cbn; [apply inv_ret|].
  apply inv_bind; [|intros v _; apply inv_bind; [done|intros; apply inv_ret]].
  unfold resolveBuildArg. destruct (ba_value_from a) as [ref|]; [|apply inv_ret].
  apply inv_bind; [apply passing_call, inv_attempt, HS|]. intros res _. pose proof passing_report.
  solve_inv.
Qed.

Lemma passing_job desired params :
  Inv I (kcreate desired) → Inv passing (reconcileBuildJob desired params).
Proof.
  intros HC. pose proof passing_report as HR. pose proof (keep_job I reads) as HJ.
  unfold reconcileBuildJob. apply inv_bind; [apply passing_call, inv_attempt, HJ|]. intros got _.
  assert (∀ f, (∀ o, ib_meta (f o) = ib_meta o ∧ ib_spec (f o) = ib_spec o) → Inv passing (assign f)) as HA
    by apply passing_assign.
  assert (∀ o job, Inv passing (call (attempt (getBuildFailureDetail o job)))) as HD
    by (intros; apply passing_call, inv_attempt, inv_failure_detail).
  assert (∀ d, Inv passing (setFailureDetail d)) as HF by (intros; by apply passing_assign).
  destruct got as [job|e].
  - destruct (jobConditionTrue job JobComplete); [|destruct (jobConditionTrue job JobFailed)].
    + unfold jobComplete, reportImageBuildComplete. apply inv_bind; [by apply HA|]. intros _ _.
      apply inv_bind; [|intros; apply inv_ret]. apply inv_bind; [apply passing_call, reads|].
      intros t _. by apply HA.
    + unfold jobFailed, setPhase. apply passing_look. intros o _ _. cbn.
      apply inv_bind; [apply HD|]. intros d _. apply inv_bind; [solve_inv|]. intros _ _.
      apply inv_bind; [apply HR|]. intros _ _. apply inv_bind; [by apply HA|]. intros; apply inv_ret.
    + unfold jobRunning. apply passing_look. intros o _ _. cbn.
      apply inv_bind; [solve_inv|]. intros _ _. apply inv_bind; [apply HR|]. intros; apply inv_ret.
  - destruct (is_not_found e); [|apply inv_fail]. apply inv_bind; [|intros; apply inv_ret].
    unfold handleBuildJobCreation. apply inv_bind; [by apply passing_call|]. intros _ _.
    apply inv_bind; [apply passing_call, reads|]. intros t _. by apply HA.
Qed.

(** The Job a build asks for is its own. *)
Lemma desired_controlled o params job :
  desiredJob o params = Ok job → is_controlled_by (job_meta job) (ib_meta o) = true.
Proof.
  unfold desiredJob. destruct (GenerateImageBuildJob params) as [j|e]; [|done]. cbn.
  destruct (set_controller_reference _ _) as [m|e] eqn:E; [|done]. cbn. intros [= <-]. cbn.
  by eapply controlled_after_set_controller.
Qed.

Lemma passing_source source :
  (∀ job, is_controlled_by (job_meta job) (ib_meta b) = true → Inv I (kcreate job)) →
  Inv passing (buildFromSource source).
Proof.
  intros HC. pose proof passing_report as HR. unfold buildFromSource, resolveBuildArgs.
  apply passing_look. intros o Hm _. cbn.
  apply inv_bind; [apply passing_call, inv_auth|]. intros auth _.
  apply inv_bind; [apply passing_look; intros; apply passing_args|]. intros args _.
  apply inv_bind; [apply passing_call, inv_attempt, inv_destination|]. intros resolved _.
  destruct resolved as [resolved|e]; [|solve_inv].
  apply inv_bind; [apply inv_of_result|]. intros desired (p & p' & [= Hd _]).
  apply passing_job, HC. rewrite <- Hm. by eapply desired_controlled.
Qed.

Lemma passing_failed :
  Inv passing (_ ← reportImageBuildStatus BuildFailed ConditionTrue "SourceRevisionInvalid";
               _ ← setPhase BuildPhaseFailed; mret no_requeue).
Proof.
  apply inv_bind; [apply passing_report|]. intros _ _.
  apply inv_bind; [by apply passing_assign|]. intros; apply inv_ret.
Qed.

Lemma passing_cancellation :
  (∀ job, is_controlled_by (job_meta job) (ib_meta b) = true → Inv I (kdelete job)) →
  Inv passing reconcileCancellation.
Proof.
  intros HD. unfold reconcileCancellation. apply passing_look. intros o Hm _. cbn.
  apply inv_bind; [apply passing_call, inv_wrapping, reads|]. intros jobs _.
  apply inv_bind; [by apply passing_assign|]. intros _ _. apply inv_bind; [apply passing_report|]. intros _ _.
  apply inv_bind; [|intros; apply inv_ret]. apply passing_call. intros w Hw.
  apply (group_invariant I); [|done]. intros t w' (job & -> & Hj)%list_elem_of_fmap Hw'.
  unfold controlledJobs in Hj. apply list_elem_of_filter in Hj as [Hj _].
  apply (inv_wrapping I), Hw'. apply inv_ignore_not_found, HD. by rewrite <- Hm.
Qed.
End invariant.

(** C5. All a pass can do to the cluster, whatever its outcome: create a Job the
    build controls, and only for a build that is not over, not cancelled and, from
    git, pinned to a commit; or delete Jobs the build controls, and only for a
    cancelled one.  Any property of the cluster that these and the reads leave
    alone, a pass leaves alone. *)
Theorem build_controller_footprint (I : W → Prop) (b : ImageBuild) (w : W) :
  ReadsKeep I →
  (may_build b → ∀ job, is_controlled_by (job_meta job) (ib_meta b) = true → Inv I (kcreate job)) →
  (ib_cancelled (ib_spec b) = true →
     ∀ job, is_controlled_by (job_meta job) (ib_meta b) = true → Inv I (kdelete job)) →
  I w → I (outside (reconcile (mkOn w b)).2).
Proof.
  intros reads HC HD Hw. pose proof (passing_report I b reads) as HR.
  assert (may_build b → ∀ source, Inv (passing I b) (buildFromSource source)) as HB
    by (intros Hm source; by apply passing_source, HC).
  enough (∀ m : OM W ImageBuild CtrlResult, Inv (passing I b) m → I (outside (m (mkOn w b)).2)) as Hrun.
  { unfold reconcile, look. cbv [mbind se_bind gets]. cbn.
    destruct (imageBuildInTerminalState b) eqn:ET; [done|].
    destruct (ib_cancelled (ib_spec b)) eqn:EC; [apply Hrun, passing_cancellation; by auto|].
    destruct (bc_context_source _) as [src|] eqn:ES; [|done].
    destruct (bcs_git src) as [repo|] eqn:Egit; [|destruct (bcs_volume src) as [vol|]; [|done]]; apply Hrun.
    - unfold reconcileImageBuildWithGitSource. apply passing_look. intros o _ Hs. cbn. rewrite Hs.
      destruct (validateGitRevision _) as [[]|e] eqn:EV; [|by apply passing_failed].
      assert (may_build b) as Hm by (split_and!; [done..|]; by intros).
      destruct (sr_git_repo _) as [rev|]; [by apply HB|by apply passing_failed].
    - unfold reconcileImageBuildWithVolumeSource. apply passing_look. intros o _ _. cbn.
      apply inv_bind; [apply passing_call, reads|]. intros v _.
      assert (may_build b) as Hm by (split_and!; [done..|]; intros ? ?; rewrite ES; intros [= <-]; by rewrite Egit).
      specialize (HB Hm). solve_inv. }
  intros m Hm. by apply (Hm (mkOn w b)).
Qed.
End footprint.
