(* ===== verification/ImageBuildOutcome.v ===== *)
(** What a pass of the ImageBuild controller answers: the outcome of the build
    Job, the build arguments, and the removal of the pushed image; with the
    concrete builds that witness the theorems on the controller. *)
From S2P Require Import Prelude Text Kube Apimachinery Api Builds Storage KubeWorkloads Crash Registries.
From S2P Require Import RegistryRef ImageBuildStep Kaniko Objects ImageBuildController ImageBuildLifecycle.
From S2P Require Import Samples.

(** * The outcome of the Job *)

Section outcome.
Context {BD : BuildDigest} {SD : BuildStatusDigest} {CA : ConditionsApi} {CL : ConditionsLaws}.
Context {PS : PodSort} {PL : PodSortLaws} {W : Type} {CK : Clock W} {KJ : Kind W Job} {UPd : UncachedList W Pod}.

(** The crash of the build container in a newest pod of the list, if it crashed. *)
Definition newestPod (pods : list Pod) (pod : Pod) : Prop :=
  pod ∈ pods ∧ ∀ q, q ∈ pods → (created q ≤ created pod)%Z.
Definition buildContainer (pod : Pod) (cs : ContainerStatus) : Prop :=
  firstOf (λ cs, cstat_name cs = buildContainerName) (pod_container_statuses pod) cs.
Definition crashOf (pods : list Pod) (d : option LastFailureDetail) : Prop :=
  match d with
  | Some d => ∃ pod cs, newestPod pods pod ∧ buildContainer pod cs ∧ IsCrashState cs = true ∧ d = BuildLastFailureDetail cs
  | None => pods = [] ∨ ∃ pod, newestPod pods pod ∧ ∀ cs, buildContainer pod cs → IsCrashState cs = false
  end.
(** The pods of the Job are listed, and their crash is [d]; an error reads as none. *)
Definition crashSought (b : ImageBuild) (job : Job) (d : option LastFailureDetail) (w w' : W) : Prop :=
  ∃ listing, ulist (O:=Pod) (om_namespace (ib_meta b)) [{[ "job-name" := om_name (job_meta job) ]}] w = (listing, w') ∧
    match listing with Ok pods => crashOf pods d | Err _ => d = None end.
Definition ticked (w w' : W) : Prop := w' = (time_now w).2.

Lemma newest_first pods pod l : sort_newest_first pods = pod :: l → newestPod pods pod.
Proof.
  intros E. pose proof (sort_newest_perm pods) as HP. pose proof (sort_newest_sorted pods) as HS.
  rewrite E in HP, HS. split; [rewrite <- HP; by left|]. intros q. rewrite <- HP, elem_of_cons.
  intros [->|Hq]; [lia|]. apply StronglySorted_inv in HS as [_ HS]. rewrite Forall_forall in HS. by apply HS.
Qed.
Lemma crash_sought b job w d w' :
  attempt (getBuildFailureDetail b job) w = (Ok d, w') →
  crashSought b job (match d with Ok d => d | Err _ => None end) w w'.
Proof.
  intros H%attempt_inv. unfold getBuildFailureDetail in H. unfold crashSought. cbv [mbind se_bind] in H.
  destruct (ulist _ _ w) as [[pods|e] w1]; [|injection H as <- <-; by eexists].
  injection H as <- <-. exists (Ok pods). split; [done|].
  destruct (sort_newest_first pods) as [|pod l] eqn:E.
  { left. pose proof (sort_newest_perm pods) as HP. rewrite E in HP. by apply Permutation_nil_l in HP. }
  pose proof (newest_first _ _ _ E) as Hn. destruct (list_find _ _) as [[i cs]|] eqn:Ef.
  - apply list_find_Some in Ef as (Hi & Hcs & Hb).
    assert (buildContainer pod cs) as Hbc by by exists i.
    destruct (IsCrashState cs) eqn:Hc; [by exists pod, cs|]. right. exists pod. split; [done|].
    intros cs' H'. by rewrite <- (firstOf_unique _ _ _ _ Hbc H').
  - right. exists pod. split; [done|]. intros cs (i & Hi & Hcs & _). apply list_find_None in Ef.
    rewrite Forall_lookup in Ef. by destruct (Ef _ _ Hi).
Qed.

Definition cview (b : ImageBuild) := view (ibs_conditions (ib_status b)).

(** What the build is left with when it said nothing of its Job but one condition. *)
Definition oneCondition (t : string) (st : ConditionStatus) (gen : Z) (reason msg : string) (b b' : ImageBuild) : Prop :=
  cview b' t = Some (st, gen, reason, msg) ∧ ∀ t', t' ≠ t → cview b' t' = cview b t'.

(** The outcome of a pass that found no Job, or the Job [job]: the status the build is
    left with against the one it had, and the calls that lead from the world of the
    read to that of the end. *)
Definition jobMade (desired : Job) (b b' : ImageBuild) (w w' : W) : Prop :=
  ibs_phase (ib_status b') = ibs_phase (ib_status b) ∧ ibs_image_url (ib_status b') = ibs_image_url (ib_status b) ∧
  ibs_last_build_failure_detail (ib_status b') = ibs_last_build_failure_detail (ib_status b) ∧
  oneCondition BuildJobCreated ConditionTrue 0 "BuildJobCreated" "BuildJobCreated" b b' ∧
  chain [λ w w1, ∃ j, kcreate desired w = (Ok j, w1); ticked] w w'.
Definition buildSucceeds (params : BuildParams) (b b' : ImageBuild) (w w' : W) : Prop :=
  ibs_phase (ib_status b') = BuildPhaseSuccess ∧ ibs_image_url (ib_status b') = Destination params ∧
  ibs_last_build_failure_detail (ib_status b') = None ∧
  oneCondition BuildAvailable ConditionTrue (om_generation (ib_meta b)) "BuildComplete" "Image build complete" b b' ∧
  ticked w w'.
Definition buildFails (job : Job) (b b' : ImageBuild) (w w' : W) : Prop :=
  ibs_phase (ib_status b') = BuildPhaseFailed ∧ ibs_image_url (ib_status b') = ibs_image_url (ib_status b) ∧
  oneCondition BuildFailed ConditionTrue (om_generation (ib_meta b)) "BuildJobFailed" "BuildJobFailed" b b' ∧
  ∃ d, chain [crashSought b job d; ticked] w w' ∧
    ibs_last_build_failure_detail (ib_status b') =
      match d with
      | Some d => Some (d <| lfd_release_id := mget (om_annotations (ib_meta b)) ReleaseIDAnnotation |>)
      | None => ibs_last_build_failure_detail (ib_status b)
      end.
Definition buildWaits (job : Job) (b b' : ImageBuild) (w w' : W) : Prop :=
  ibs_phase (ib_status b') = ibs_phase (ib_status b) ∧ ibs_image_url (ib_status b') = ibs_image_url (ib_status b) ∧
  oneCondition BuildAvailable ConditionFalse (om_generation (ib_meta b)) "BuildJobNotYetComplete" "BuildJobNotYetComplete" b b' ∧
  match ibs_last_build_failure_detail (ib_status b) with
  | Some d => ibs_last_build_failure_detail (ib_status b') = Some d ∧ ticked w w'
  | None => chain [crashSought b job (ibs_last_build_failure_detail (ib_status b')); ticked] w w'
  end.

Lemma cview_recorded (b b' : ImageBuild) t now st gen r m :
  ibs_conditions (ib_status b') =
    set_status_condition now (ibs_conditions (ib_status b)) (new_condition t st gen r m) →
  cview b' t = Some (st, gen, r, m) ∧ ∀ t', t' ≠ t → cview b' t' = cview b t'.
Proof.
  intros E. unfold cview. rewrite E. split; [by rewrite view_set_new, decide_True|].
  intros t' Ht. by rewrite view_set_new, decide_False.
Qed.

Lemma post_clock {A} (k : Time → OM W ImageBuild A) (Q : A → On W ImageBuild → Prop) p :
  (∀ t w, ticked (outside p) w → post (k t) Q (mkOn w (object p))) → post (t ← call now; k t) Q p.
Proof.
  intros HQ. apply post_bind, post_call. intros t w Ht. apply HQ. unfold now in Ht. unfold ticked.
  by destruct (time_now (outside p)); injection Ht.
Qed.

Lemma absent_outcome desired (p : On W ImageBuild) :
  post (handleBuildJobCreation desired) (λ _ p', ib_meta (object p') = ib_meta (object p) ∧
    ib_spec (object p') = ib_spec (object p) ∧ jobMade desired (object p) (object p') (outside p) (outside p')) p.
Proof.
  unfold handleBuildJobCreation. apply post_bind, post_call. intros j w1 Hj. apply post_clock. intros t w2 Ht.
  apply post_assign. cbn. split_and!; [done..|]. split_and!; [done..|by eapply cview_recorded|].
  exists w1. split; [by exists j|]. by exists w2.
Qed.
Lemma complete_outcome params (p : On W ImageBuild) :
  post (jobComplete params) (λ res p', res = no_requeue ∧ ib_meta (object p') = ib_meta (object p) ∧
    ib_spec (object p') = ib_spec (object p) ∧ buildSucceeds params (object p) (object p') (outside p) (outside p')) p.
Proof.
  unfold jobComplete, reportImageBuildComplete. apply post_bind, post_assign, post_bind, post_clock.
  intros t w Ht. apply post_assign, post_ret. split_and!; [done..|]. split_and!; [done..|by eapply cview_recorded|done].
Qed.
Lemma failed_outcome job (p : On W ImageBuild) :
  post (jobFailed job) (λ res p', res = no_requeue ∧ ib_meta (object p') = ib_meta (object p) ∧
    ib_spec (object p') = ib_spec (object p) ∧ buildFails job (object p) (object p') (outside p) (outside p')) p.
Proof.
  unfold jobFailed. apply post_bind, post_look, post_bind, post_call. cbn [id]. intros d w1 Hd%crash_sought.
  apply post_bind.
  apply (post_mono _ (λ _ p', outside p' = w1 ∧ ∃ detail, object p' =
    (object p) <| ib_status ::= λ s, s <| ibs_last_build_failure_detail := detail |> |> ∧
    detail = match (match d with Ok d => d | Err _ => None end) with
             | Some d => Some (d <| lfd_release_id := mget (om_annotations (ib_meta (object p))) ReleaseIDAnnotation |>)
             | None => ibs_last_build_failure_detail (ib_status (object p))
             end)).
  { destruct d as [[d|]|e]; [apply post_assign|apply post_ret..]; (split; [done|]); eexists; (split; [|done]); [done|..];
      cbn; by destruct (object p) as [m sp []]. }
  intros [] [w o] [Hw (detail & Ho & Hdet)]. cbn [outside object] in *. subst w o.
  unfold reportImageBuildStatus, setPhase. apply post_bind, post_clock. intros t w2 Ht.
  apply post_assign, post_bind, post_assign, post_ret. split_and!; [done..|]. split_and!; [done|done|by eapply cview_recorded|].
  eexists. split; [|exact Hdet]. exists w1. split; [exact Hd|]. by exists w2.
Qed.
Lemma running_outcome job (p : On W ImageBuild) :
  post (jobRunning job) (λ res p', res = no_requeue ∧ ib_meta (object p') = ib_meta (object p) ∧
    ib_spec (object p') = ib_spec (object p) ∧ buildWaits job (object p) (object p') (outside p) (outside p')) p.
Proof.
  unfold jobRunning, reportImageBuildStatus. apply post_bind, post_look, post_bind. cbn [id].
  destruct (ibs_last_build_failure_detail (ib_status (object p))) as [d0|] eqn:E0.
  - apply post_ret, post_bind, post_clock. intros t w Ht. apply post_assign, post_ret.
    split; [done|]. split; [done|]. split; [done|]. unfold buildWaits. rewrite E0.
    split_and!; [done|done|by eapply cview_recorded|exact E0|done].
  - apply post_bind, post_call. intros d w1 Hd%crash_sought.
    apply (post_mono _ (λ _ p', p' = mkOn w1 ((object p) <| ib_status ::= λ s, s
      <| ibs_last_build_failure_detail := match d with Ok d => d | Err _ => None end |> |>))).
    { destruct d as [d|e]; [by apply post_assign|]. apply post_ret.
      destruct p as [w [m sp []]]. cbn in *. by subst. }
    intros [] ? ->. apply post_bind, post_clock. intros t w2 Ht. apply post_assign, post_ret.
    split; [done|]. split; [done|]. split; [done|]. unfold buildWaits. rewrite E0.
    split_and!; [done|done|by eapply cview_recorded|]. exists w1. split; [exact Hd|]. by exists w2.
Qed.

(** C16. What a pass makes of the build Job.  The Job is read first, in the world [w1]
    that read leaves.  There is none: the wanted one is created, then the clock is
    read, and nothing else is called; the build stays undecided, with BuildJobCreated
    and the detail of an earlier failure as it was.  (A read that fails otherwise
    fails the pass.)  The Job says Complete: the build succeeds, its image is the one
    the Job pushed, and the trace of earlier failures is dropped.  It says Failed, and
    not Complete: the build fails, the Job's pods are listed, and if in the newest of
    them the build container crashed, that crash is recorded under the build's
    release; else what was recorded stays.  It says neither: the build is not yet
    available, and a crash once recorded stays; when none is recorded the pods are
    listed and what is found is recorded.  (The first condition of a type counts; a
    listing that fails reads as no crash.)  In every case the conditions of the other
    types are left alone, the spec and metadata too, and the pass asks for no retry. *)
Theorem build_job_outcome (desired : Job) (params : BuildParams) (p p' : On W ImageBuild) (res : CtrlResult)
    (found : result Job) (w1 : W) :
  kget (om_namespace (job_meta desired)) (om_name (job_meta desired)) (outside p) = (found, w1) →
  reconcileBuildJob desired params p = (Ok res, p') →
  let b := object p in
  let b' := object p' in
  res = no_requeue ∧ ib_meta b' = ib_meta b ∧ ib_spec b' = ib_spec b ∧
  match found with
  | Err e => is_not_found e = true ∧ jobMade desired b b' w1 (outside p')
  | Ok job =>
      (jobSays job JobComplete → buildSucceeds params b b' w1 (outside p')) ∧
      (¬ jobSays job JobComplete → jobSays job JobFailed → buildFails job b b' w1 (outside p')) ∧
      (¬ jobSays job JobComplete → ¬ jobSays job JobFailed → buildWaits job b b' w1 (outside p'))
  end.
Proof.
  intros Hread. cbv zeta. unfold reconcileBuildJob. intros (got & p1 & Hg & H)%se_bind_inv.
  unfold call in Hg. destruct (attempt _ _) as [r w] eqn:Ha. injection Hg as -> <-. apply attempt_inv in Ha.
  rewrite Hread in Ha. injection Ha as -> ->. destruct got as [job|e].
  - setoid_rewrite <- job_says. destruct (jobConditionTrue job JobComplete); [|destruct (jobConditionTrue job JobFailed)].
    + apply complete_outcome in H as (-> & Hm & Hs & H). by split_and!.
    + apply failed_outcome in H as (-> & Hm & Hs & H). by split_and!.
    + apply running_outcome in H as (-> & Hm & Hs & H). by split_and!.
  - destruct (is_not_found e) eqn:En; [|done]. apply se_bind_inv in H as ([] & p2 & H & [= <- <-]).
    apply absent_outcome in H as (Hm & Hs & H). by split_and!.
Qed.
End outcome.

(** * Build arguments *)

Section arguments.
Context {GT : GoText} {SD : BuildStatusDigest} {CA : ConditionsApi} {W : Type} {CK : Clock W}.
Context {KS : Kind W Secret}.

(** What a build argument stands for when the Secrets are these. *)
Definition argValue (secrets : string → result Secret) (a : BuildArg) : option ResolvedBuildArg :=
  mkResolvedBuildArg (ba_name a) <$>
    match ba_value_from a with
    | None => Some (ba_value a)
    | Some ref => match secrets (sks_name ref) with
                  | Ok s => sec_data s !! sks_key ref
                  | Err _ => None
                  end
    end.

Section answers.
Context (secrets : string → result Secret) (ns : string).
(** The Secrets of the namespace do not change while they are read. *)
Hypothesis Hread : ∀ n w, (kget (O:=Secret) ns n w).1 = secrets n.

Lemma resolveBuildArg_ok a (p : On W ImageBuild) :
  match argValue secrets a with
  | Some v => ∃ w, resolveBuildArg ns a p = (Ok v, mkOn w (object p))
  | None => ∃ e p', resolveBuildArg ns a p = (Err e, p')
  end.
Proof.
  unfold argValue, resolveBuildArg. destruct (ba_value_from a) as [ref|]; cbn; [|destruct p as [w b]; by exists w].
  specialize (Hread (sks_name ref) (outside p)).
  cbv [call attempt mbind se_bind reportImageBuildStatus assign modifies fail mret se_ret now].
  destruct (kget ns (sks_name ref) (outside p)) as [r w]. cbn in Hread. subst r.
  destruct (secrets (sks_name ref)) as [s|e]; cbn.
  - destruct (sec_data s !! sks_key ref); cbn; [by eexists|]. destruct (time_now w). by do 2 eexists.
  - destruct e; cbn; repeat case_match; simplify_eq; by do 2 eexists.
Qed.

(** Build arguments, against their reference: the values of the arguments
    and of the Secret keys they name, in the order of the spec.  When every one
    can be found the pass goes on with exactly these and the build untouched;
    when one cannot, the pass ends in an error, whatever else is there. *)
Theorem build_args_resolved (l : list BuildArg) (p : On W ImageBuild) :
  match mapM (argValue secrets) l with
  | Some vs => ∃ w, resolveArgs ns l p = (Ok vs, mkOn w (object p))
  | None => ∃ e p', resolveArgs ns l p = (Err e, p')
  end.
Proof.
  revert p. induction l as [|a l IH]; intros p; cbn; [destruct p as [w b]; by exists w|].
  pose proof (resolveBuildArg_ok a p) as Ha. destruct (argValue secrets a) as [v|]; cbn.
  - destruct Ha as [w Ha]. specialize (IH (mkOn w (object p))). cbn in IH.
    destruct (mapM (argValue secrets) l) as [vs|]; cbn.
    + destruct IH as [w' IH]. exists w'. rewrite (se_bind_ok _ _ _ _ _ Ha). by rewrite (se_bind_ok _ _ _ _ _ IH).
    + destruct IH as (e & p' & IH). exists e, p'. rewrite (se_bind_ok _ _ _ _ _ Ha). by apply se_bind_err.
  - destruct Ha as (e & p' & Ha). exists e, p'. by apply se_bind_err.
Qed.
End answers.
End arguments.

(** * Removal of the image *)

Section removal.
Context {GT : GoText} {FA : FinalizerApi} {W Tag : Type} {RR : RemoteRegistry W Tag}.
Context {KB : Kind W ImageBuild} {KS : Kind W Secret} {KR : Kind W ClusterRegistry}.

(** The image of a build is gone, or was never there, or its registry is gone. *)
Definition imageCleaned (b : ImageBuild) (w w1 : W) : Prop :=
  match ir_cluster_registry_ref (ib_repository (ib_spec b)) with
  | None => w1 = w
  | Some name =>
      if decide (ibs_image_url (ib_status b) = "") then w1 = w
      else
        (∃ e, kget (O:=ClusterRegistry) "" name w = (Err e, w1) ∧ is_not_found e = true) ∨
        ∃ reg w2 creds w3 tag e,
          kget (O:=ClusterRegistry) "" name w = (Ok reg, w2) ∧
          registryCredentials reg w2 = (Ok creds, w3) ∧
          new_tag (W:=W) (Tag:=Tag) true (ibs_image_url (ib_status b)) = Ok tag ∧
          remote_delete tag (if decide (creds.1 = "") then None else Some creds) w3 = (e, w1) ∧
          (e = Ok tt ∨ ∃ err, e = Err err ∧ transport_status (W:=W) (Tag:=Tag) err = Some 404%Z)
  end.

Lemma DeleteImage_ok url u pw w w1 :
  DeleteImage (W:=W) (Tag:=Tag) url true u pw w = (Ok tt, w1) →
  ∃ tag e, new_tag (W:=W) (Tag:=Tag) true url = Ok tag ∧
    remote_delete tag (if decide (u = "") then None else Some (u, pw)) w = (e, w1) ∧
    (e = Ok tt ∨ ∃ err, e = Err err ∧ transport_status (W:=W) (Tag:=Tag) err = Some 404%Z).
Proof.
  unfold DeleteImage. intros (tag & w0 & Ht & H)%se_bind_inv.
  unfold wrapping in Ht. apply se_bind_inv in Ht as (r & w0' & Hr%attempt_inv & Ht).
  injection Hr as Hr <-. destruct r as [tag'|err]; [|done]. injection Ht as <- <-.
  apply se_bind_inv in H as (e & w2 & He%attempt_inv & H). exists tag', e. split; [done|].
  assert ((if decide (u ≠ "") then Some (u, pw) else None) = if decide (u = "") then None else Some (u, pw)) as E
    by (destruct (decide (u = "")), (decide (u ≠ "")); done || by exfalso; auto).
  rewrite E in He. destruct e as [[]|err]; [injection H as <-; by auto|].
  destruct (isNotFoundErr err) eqn:En; [|done]. injection H as <-. split; [done|]. right.
  exists err. split; [done|]. unfold isNotFoundErr in En.
  destruct (transport_status err); [|done]. by apply Z.eqb_eq in En as ->.
Qed.

Lemma cleanupImage_ok b w w1 :
  cleanupImage (Tag:=Tag) b w = (Ok tt, w1) → imageCleaned b w w1.
Proof.
  unfold cleanupImage, imageCleaned. destruct (ir_cluster_registry_ref _) as [name|]; [|by intros [= <-]].
  case_decide; [by intros [= <-]|]. intros (got & w2 & Hg%attempt_inv & H')%se_bind_inv.
  destruct got as [reg|e].
  - apply se_bind_inv in H' as (creds & w3 & Hc & Hd). right.
    apply DeleteImage_ok in Hd as (tag & e & Ht & Hd & He). destruct creds as [u pw].
    exists reg, w2, (u, pw), w3, tag, e. done.
  - destruct (is_not_found e) eqn:En; [|done]. injection H' as <-. left. by exists e.
Qed.

(** C6. The finalizer of a build is dropped only after its image: from then on
    the write that removes it is the only thing left to do, and the image has been
    deleted from the build's own cluster registry, by the exact reference the
    build recorded and with the registry's own credentials, or there was nothing
    to delete.  An image in an external registry is never touched: the world the
    finalizer is removed in is the one the pass began with.  A clean-up that fails
    leaves the finalizer and ends in its error; a build without the finalizer is
    left alone. *)
Theorem image_removed_before_finalizer {FL : FinalizerLaws} (b : ImageBuild) (w : W) :
  match finalize (Tag:=Tag) b w with
  | (Ok res, w') =>
      res = no_requeue ∧
      if decide (ImageBuildCleanupFinalizer ∈ om_finalizers (ib_meta b))
      then ∃ w1 b', imageCleaned b w w1 ∧
             kupdate (b <| ib_meta ::= λ m, m <| om_finalizers ::= filter (.≠ ImageBuildCleanupFinalizer) |> |>) w1
               = (Ok b', w')
      else w' = w
  | (Err e, w') =>
      cleanupImage (Tag:=Tag) b w = (Err e, w') ∨
      ∃ w1, imageCleaned b w w1 ∧
        kupdate (b <| ib_meta ::= λ m, m <| om_finalizers ::= filter (.≠ ImageBuildCleanupFinalizer) |> |>) w1
          = (Err e, w')
  end.
Proof.
  unfold finalize. destruct (contains_finalizer ImageBuildCleanupFinalizer (ib_meta b)) eqn:Hc.
  - apply contains_finalizer_in in Hc. cbn. rewrite remove_finalizer_spec. cbv [mbind se_bind].
    destruct (cleanupImage b w) as [[[]|e] w1] eqn:Hi; [|by left].
    apply cleanupImage_ok in Hi.
    match goal with |- context[kupdate ?o w1] => destruct (kupdate o w1) as [[b'|e] w'] eqn:Hu end; cbn.
    + split; [done|]. rewrite decide_True by done. by exists w1, b'.
    + right. by exists w1.
  - cbn. split; [done|]. rewrite decide_False; [done|]. intros Hin%contains_finalizer_in. by rewrite Hc in Hin.
Qed.
End removal.

(** * Concrete builds *)

Import Cluster.
#[local] Existing Instance in_turn.
#[local] Existing Instance in_turn_laws.
#[local] Existing Instance sample_decoder.
#[local] Instance plain_url : UrlParse := λ u, Ok u.
#[local] Instance plain_digest : BuildStatusDigest := λ s, ibs_image_url s.

(** A build of a pinned commit, pushed to an external registry. *)
Definition pinned_build : ImageBuild :=
  sample_build <| ib_spec ::= λ s,
    mkImageBuildSpec (ib_resource_name s) (mkSourceRevisionSpec None (Some (mkGitRepoRevision "main" "" "c0ffee")))
      (mkBuildContextSpec "Dockerfile" "/" (Some (mkBuildContextSource None (Some (mkGitRepoSource "https://git" None)))))
      (mkImageRepositorySpec None (Some (mkExternalRegistrySpec "quay.io" None)) "shop/web" None None)
      [mkBuildArg "GO" "1.24" None] false |>.
Definition finished_job (t : string) : Job :=
  mkJob (object_meta "build" "default") (mkJobSpec None None None None empty_pod_template)
    (mkJobStatus [mkJobCondition t ConditionTrue ""] 1 None).

Section completed.
#[local] Instance completed_job : Kind Z Job := only_objects [finished_job JobComplete].

Lemma build_lifecycle_witness :
  ∃ p, reconcile (mkOn 5%Z pinned_build) = (Ok no_requeue, p) ∧
    let built := pinned_build <| ib_status := ib_status (object p) |> in
    consistent (ib_status built) ∧ imageBuildInTerminalState built = true ∧
    ∀ b', lifecycle (W:=Z) built b' → ib_status b' = ib_status built.
Proof.
  destruct (reconcile (mkOn 5%Z pinned_build)) as [r p] eqn:E.
  assert (r = Ok no_requeue) as -> by (vm_compute in E; injection E as <- _; reflexivity).
  exists p. split; [reflexivity|]. cbv zeta.
  assert (imageBuildInTerminalState (pinned_build <| ib_status := ib_status (object p) |>) = true) as HT
    by (vm_compute in E; injection E as <-; vm_compute; reflexivity).
  destruct (build_lifecycle (W:=Z) pinned_build (pinned_build <| ib_status := ib_status (object p) |>)) as [HC HS];
    [reflexivity|by left|exact (rtc_once _ _ (lifecycle_pass _ _ _ _ E))|].
  split; [exact HC|]. split; [exact HT|]. intros b' Hb. by apply HS, rtc_once.
Defined.

#[local] Existing Instance sample_pod_sort.
#[local] Existing Instance sample_pod_sort_laws.
Lemma build_job_outcome_witness :
  ∃ p, reconcileBuildJob (finished_job JobComplete) (NewBuildParams <| Destination := "quay.io/shop/web:c0ffee" |>)
         (mkOn 5%Z pinned_build) = (Ok no_requeue, p) ∧
    ibs_image_url (ib_status (object p)) = "quay.io/shop/web:c0ffee".
Proof.
  destruct (reconcileBuildJob _ _ _) as [[res|e] p] eqn:E; [|exfalso; vm_compute in E; discriminate].
  apply (build_job_outcome (W:=Z) _ _ _ _ _ (Ok (finished_job JobComplete)) 5%Z) in E as (-> & _ & _ & H & _);
    [|reflexivity].
  exists p. split; [done|]. apply H. apply job_says. reflexivity.
Defined.
End completed.

(** A world that lists the names of the Jobs created in it. *)
#[local] Instance job_log : Kind (list string) Job := {
  kget _ _ l := (Err (NotFound "job"), l);
  klist _ _ l := (Ok [], l);
  kcreate j l := (Ok j, om_name (job_meta j) :: l);
  kupdate j l := (Ok j, l);
  kupdate_status j l := (Ok j, l);
  kdelete _ l := (Ok tt, l);
}.
Definition nothing {O} : Kind (list string) O := {|
  kget _ _ l := (Err (NotFound "object"), l);
  klist _ _ l := (Ok [], l);
  kcreate o l := (Ok o, l);
  kupdate o l := (Ok o, l);
  kupdate_status o l := (Ok o, l);
  kdelete _ l := (Ok tt, l);
|}.
#[local] Instance no_secrets : Kind (list string) Secret := nothing.
#[local] Instance no_volumes : Kind (list string) Volume := nothing.
#[local] Instance no_registries : Kind (list string) ClusterRegistry := nothing.
#[local] Instance no_pods : UncachedList (list string) Pod := λ _ _ l, (Ok [], l).
#[local] Instance stopped_clock : Clock (list string) := λ l, (0%Z, l).

(** A build whose revision is a moving head creates no Job. *)
Lemma build_controller_footprint_witness :
  outside (reconcile (mkOn ([] : list string) (pinned_build <| ib_spec ::= λ s, s <| ib_source_revision :=
    mkSourceRevisionSpec None (Some (mkGitRepoRevision "main" "" "head")) |> |>))).2 = [].
Proof.
  apply (build_controller_footprint (W:=list string) (λ l, l = [])); [|..].
  - split; intros; intros l Hl; exact Hl.
  - intros (_ & _ & H). exfalso. specialize (H _ _ eq_refl eq_refl). vm_compute in H. discriminate.
  - intros H. discriminate H.
  - reflexivity.
Defined.

Lemma build_args_resolved_witness :
  resolveArgs "default" (ib_build_args (ib_spec pinned_build)) (mkOn ([] : list string) pinned_build)
  = (Ok [mkResolvedBuildArg "GO" "1.24"], mkOn [] pinned_build).
Proof.
  assert (∀ n (w : list string), (kget (O:=Secret) "default" n w).1 = Err (NotFound "object")) as Hr by reflexivity.
  destruct (build_args_resolved (W:=list string) (λ _, Err (NotFound "object")) "default" Hr
    (ib_build_args (ib_spec pinned_build)) (mkOn [] pinned_build)) as [w H].
  rewrite H. vm_compute in H. by injection H as <-.
Defined.

(** A registry that holds one image. *)
#[local] Instance one_image : RemoteRegistry (list string) string := {
  new_tag _ ref := Ok ref;
  remote_delete ref _ l := (Ok tt, ref :: l);
  transport_status _ := None;
}.
#[local] Instance stored_builds : Kind (list string) ImageBuild := nothing.
#[local] Instance one_registry : Kind (list string) ClusterRegistry := {|
  kget _ _ l := (Ok (sample_registry [] "reg:5000"), l);
  klist _ _ l := (Ok [], l);
  kcreate o l := (Ok o, l);
  kupdate o l := (Ok o, l);
  kupdate_status o l := (Ok o, l);
  kdelete _ l := (Ok tt, l);
|}.
Definition pushed_build : ImageBuild :=
  pinned_build <| ib_meta ::= λ m, m <| om_finalizers := [ImageBuildCleanupFinalizer] |> |>
    <| ib_spec ::= λ s, s <| ib_repository := mkImageRepositorySpec (Some "reg") None "shop/web" None None |> |>
    <| ib_status ::= λ s, s <| ibs_image_url := "reg:5000/shop/web:c0ffee" |> |>.

Lemma image_removed_before_finalizer_witness :
  finalize (Tag:=string) pushed_build ([] : list string) = (Ok no_requeue, ["reg:5000/shop/web:c0ffee"]) ∧
  ∃ w1, imageCleaned (Tag:=string) pushed_build [] w1.
Proof.
  pose proof (image_removed_before_finalizer (Tag:=string) pushed_build ([] : list string)) as H.
  destruct (finalize pushed_build []) as [[res|e] w'] eqn:E; [|exfalso; vm_compute in E; discriminate].
  destruct H as [-> H]. split; [vm_compute in E; injection E as <-; reflexivity|].
  rewrite decide_True in H by (apply list_elem_of_singleton; reflexivity).
  destruct H as (w1 & b' & Hc & _). by exists w1.
Defined.
