(* ===== verification/VolumeJobs.v ===== *)
(** The Jobs that fill a volume: a git clone (pkg/gitsync/gitsync_job.go) and the
    copy of build artifacts out of an image
    (pkg/volumesync/build_artifiact_sync.go). *)
From S2P Require Import Prelude Text Paths Kube Api Builds Storage KubeWorkloads Kaniko.

(** * Git *)

Definition GitSyncImage : string := "registry.k8s.io/git-sync/git-sync:v4.7.0".

Record GitSyncParams := mkGitSyncParams {
  gsp_job_name : string;
  gsp_namespace : string;
  gsp_pvc_name : string;
  gsp_repo_url : string;
  gsp_commit : string;
  gsp_has_auth : bool;
  gsp_username_password_auth : bool;
  gsp_personal_access_token_auth : bool;
  gsp_secret_name : string;
  gsp_username_key : string;
  gsp_password_key : string;
  gsp_dest_dir : string;
}.
#[export] Instance eta_git_sync_params : Eta GitSyncParams := λ p,
  mkGitSyncParams (gsp_job_name p) (gsp_namespace p) (gsp_pvc_name p) (gsp_repo_url p) (gsp_commit p)
    (gsp_has_auth p) (gsp_username_password_auth p) (gsp_personal_access_token_auth p)
    (gsp_secret_name p) (gsp_username_key p) (gsp_password_key p) (gsp_dest_dir p).

Definition secretEnvLines (name secret key : string) : list string :=
  ["        - name: " +:+ name; "          valueFrom:"; "            secretKeyRef:";
   "              name: " +:+ secret; "              key: " +:+ key].

(** [gitSyncJobTemplate], executed. *)
Definition gitSyncJobTemplate (g : GitSyncParams) : list string :=
  ["apiVersion: batch/v1"; "kind: Job"; "metadata:"; "  name: " +:+ gsp_job_name g;
   "  namespace: " +:+ gsp_namespace g; "spec:"; "  template:"; "    spec:"; "      containers:";
   "      - name: git-sync"; "        image: gitsync-image"; "        args:";
   argLine ("--repo=" +:+ gsp_repo_url g); argLine "--root=/data"; argLine ("--link=" +:+ gsp_dest_dir g);
   argLine "--one-time"; argLine ("--ref=" +:+ gsp_commit g);
   "        volumeMounts:"; "        - name: target-volume"; "          mountPath: /data"] ++
  (if gsp_has_auth g
   then ["        env:"] ++
     (if gsp_username_password_auth g
      then secretEnvLines "GITSYNC_USERNAME" (gsp_secret_name g) (gsp_username_key g) ++
           secretEnvLines "GITSYNC_PASSWORD" (gsp_secret_name g) (gsp_password_key g)
      else []) ++
     (if gsp_personal_access_token_auth g
      then ["        - name: GITSYNC_USERNAME"; "          value: " +:+ dq +:+ "git" +:+ dq] ++
           secretEnvLines "GITSYNC_PASSWORD" (gsp_secret_name g) (gsp_password_key g)
      else [])
   else []) ++
  ["      restartPolicy: OnFailure"; "      volumes:"; "      - name: target-volume";
   "        persistentVolumeClaim:"; "          claimName: " +:+ gsp_pvc_name g].
Definition generateGitSyncJobYAML (g : GitSyncParams) : string :=
  newline +:+ join (gitSyncJobTemplate g) newline +:+ newline.

Definition gitSyncContainer (c : Container) : Container :=
  c <| ct_resources := ({[ "cpu" := "100m"; "memory" := "128Mi" ]}, {[ "memory" := "256Mi" ]}) |>
    <| ct_image := GitSyncImage |>.

Definition GenerateGitSyncJob `{JobDecoder} (jobName : string) (params : GitSyncParams) : result Job :=
  job ← wrap_decode (decode_job (generateGitSyncJobYAML (params <| gsp_job_name := jobName |>)));
  job ← firstContainer gitSyncContainer job;
  Ok (job <| job_spec ::= λ s, s <| js_ttl_seconds_after_finished := Some (60 * 30)%Z |> |>).

Definition withVolumeGitAuth (auth : option VolumeGitAuth) (p : GitSyncParams) : GitSyncParams :=
  match auth with
  | None => p
  | Some a =>
      let p := p <| gsp_has_auth := true |> in
      let fill (c : CredentialSecretKeyPair) (p : GitSyncParams) :=
        p <| gsp_secret_name := sr_ref_name (cs_secret_ref c) |>
          <| gsp_username_key := cs_username_key c |> <| gsp_password_key := cs_password_key c |> in
      match vga_username_password a, vga_personal_access_token a with
      | Some c, _ => fill c (p <| gsp_username_password_auth := true |>)
      | None, Some c => fill c (p <| gsp_personal_access_token_auth := true |>)
      | None, None => p
      end
  end.

Definition BuildGitSyncParams (v : Volume) (destinationDir : string) : result GitSyncParams :=
  match vsp_source (vol_spec v) ≫= vs_git_repo with
  | None => Err (Errorf "volume does not have a git repo source")
  | Some g =>
      if decide (gr_commit (vgs_revision g) = "")
      then Err (Errorf "git repository source must specify a commit")
      else Ok (withVolumeGitAuth (vgs_auth g)
        (mkGitSyncParams "" (om_namespace (vol_meta v)) (vst_pvc_name (vol_status v)) (vgs_repo_url g)
           (gr_commit (vgs_revision g)) false false false "" "" "" destinationDir))
  end.

(** * Build artifacts *)

Definition ToolsMountPath : string := "/tools".
Definition RsyncBinary : string := "rsync".
Definition StackdomeToolsImage : string := "quay.io/stackdome/tools:v0.0.1".

Definition mountPathInContainer (volumeName : string) : string := "/" +:+ volumeName.
Definition generateRsyncCommand (src dst : string) : string :=
  let src := if cut_suffix src "/" is Some _ then src else src +:+ "/" in
  ToolsMountPath +:+ "/" +:+ RsyncBinary +:+
  " -az --mkpath --delete --progress --whole-file " +:+ src +:+ " " +:+ dst.
Definition generateCopyCommands (v : Volume) (copySrcs : list BuildArtifactSource) : list string :=
  (λ s, generateRsyncCommand (bas_source_path s)
          (join_rooted (mountPathInContainer (vol_name v)) (bas_destination_path s))) <$> copySrcs.

Definition plain_container (name image : string) (command args : list string) (mounts : list KVolumeMount)
    : Container :=
  mkContainer name image "" "" command args [] [] mounts None None None (∅, ∅) None [].
Definition toolsMount : KVolumeMount := mkKVolumeMount "tools-dir" ToolsMountPath "" false.

Definition syncJobName (v : Volume) (b : ImageBuild) : string :=
  vol_name v +:+ "-volume-sync-" +:+ ShortBuildSrcRevisionFromStatus b.

Definition CreateBuildArtifactsVolumeSyncJob (v : Volume) (copySrcs : list BuildArtifactSource)
    (b : ImageBuild) : Job :=
  let pod := mkPodSpec
    [plain_container "volume-initialization" (ibs_image_url (ib_status b)) ["/tools/busybox"; "sh"; "-c"]
       ["PATH=$PATH:/tools " +:+ join (generateCopyCommands v copySrcs) " && "]
       [mkKVolumeMount (vol_name v) (mountPathInContainer (vol_name v)) "" false; toolsMount]]
    [plain_container "sync-tools-setup" StackdomeToolsImage ["/bin/sh"; "-c"]
       ["cp /usr/bin/rsync " +:+ ToolsMountPath +:+ "/ && cp /bin/busybox " +:+ ToolsMountPath +:+ "/"]
       [toolsMount]]
    [mkKVolume (vol_name v) (ClaimVolume (vst_pvc_name (vol_status v))); mkKVolume "tools-dir" EmptyDirVolume]
    "OnFailure" None None [] false in
  mkJob (object_meta (syncJobName v b) (om_namespace (ib_meta b)))
    (mkJobSpec None None None None (mkPodTemplateSpec ∅ ∅ pod)) (mkJobStatus [] 0 None).

(** * Facts *)

Lemma has_suffix_app a b : is_Some (cut_suffix (a +:+ b) b).
Proof. rewrite cut_suffix_app. by eexists. Qed.

(** The name of the copy Job does not say which resource was built: two resources
    built from revisions that begin alike share one Job per volume. *)
Lemma sync_job_shared v b1 b2 srcs1 srcs2 :
  ShortBuildSrcRevisionFromStatus b1 = ShortBuildSrcRevisionFromStatus b2 →
  om_namespace (ib_meta b1) = om_namespace (ib_meta b2) →
  job_meta (CreateBuildArtifactsVolumeSyncJob v srcs1 b1) =
  job_meta (CreateBuildArtifactsVolumeSyncJob v srcs2 b2).
Proof. intros H1 H2. unfold CreateBuildArtifactsVolumeSyncJob, syncJobName. cbn. by rewrite H1, H2. Qed.

(** Destinations cannot leave the mounted volume: every copy ends below it. *)
Lemma copies_stay_inside (v : Volume) (s : BuildArtifactSource) :
  Forall proper (clean_elements (mountPathInContainer (vol_name v) +:+ "/" +:+ bas_destination_path s)).
Proof. apply clean_elements_proper. Qed.
