(* ===== verification/VolumeController.v ===== *)
(** The Volume controller (internal/controller/volume): a claim per Volume, and
    its contents from a client's directory, from git, or from build artifacts. *)
From S2P Require Import Prelude Text Kube Apimachinery Api Builds Storage KubeWorkloads.
From S2P Require Import Kaniko Objects ImageBuildController VolumeJobs.

Definition DestDirWithinVolume : string := "repo".
Definition ResourceNameLabel : string := "volumesync.stackdome.io/resourceName".

(** [fnv] over [spew] of a status whose hash is cleared. *)
Class VolumeStatusDigest := digest_volume_status : VolumeStatus → string.

(** * The claim *)

Section controller.
Context {GT : GoText} {BD : BuildDigest} {JD : JobDecoder} {QP : QuantityParse} {TD : TextDigest}.
Context {SD : VolumeStatusDigest} {SO : StringMapOrder} {CA : ConditionsApi} {OA : OwnerApi}.
Context {W : Type} {CK : Clock W} {KV : Kind W Volume} {KC : Kind W PersistentVolumeClaim}.
Context {KJ : Kind W Job} {KR : Kind W StackResource} {KB : Kind W ImageBuild}.

Definition setVolumeCondition (t : Time) (c : VolumeCondition) (st : ConditionStatus) (reason msg : string)
    (v : Volume) : Volume :=
  v <| vol_status ::= λ s, s <| vst_conditions ::= λ cs, set_status_condition t cs
    (new_condition (volume_condition_name c) st (om_generation (vol_meta v)) reason msg) |> |>.

Definition provisionedStatus (t : Time) (v : Volume) : Volume :=
  setVolumeCondition t VolumeConditionAvailable ConditionTrue "VolumeProvisioned" "Volume is provisioned."
    (v <| vol_status ::= λ s, s <| vst_observed_generation := om_generation (vol_meta v) |>
         <| vst_phase := VolumePhaseReady |> <| vst_pvc_name := vol_name v |> |>).
Definition reportVolumeProvisioned : OM W Volume unit :=
  t ← call now;
  assign (provisionedStatus t).

(** The code has this report ready but never makes it; [msg] is the formatted
    message. *)
Definition reportVolumeNotReady (reason msg : string) : OM W Volume unit :=
  t ← call now;
  assign (λ v, setVolumeCondition t VolumeConditionAvailable ConditionFalse reason msg
    (v <| vol_status ::= λ s, s <| vst_observed_generation := om_generation (vol_meta v) |>
         <| vst_phase := VolumePhasePending |> |>)).

Definition newClaim (v : Volume) (size : string) : PersistentVolumeClaim :=
  mkPersistentVolumeClaim
    ((object_meta (vol_name v) (om_namespace (vol_meta v))) <| om_labels := om_labels (vol_meta v) |>)
    [vsp_access_mode (vol_spec v)] size
    (if decide (vsp_storage_class (vol_spec v) = "") then None else Some (vsp_storage_class (vol_spec v))).

Definition reconcilePVC : OM W Volume unit :=
  v ← look id;
  size ← wrapping "failed to parse resource size in the resource: "
           (of_result (parse_quantity (vsp_size (vol_spec v))));
  let desired := newClaim v size in
  m ← wrapping "failed to set owner refs: " (of_result (set_controller_reference (vol_meta v) (pvc_meta desired)));
  let desired := desired <| pvc_meta := m |> in
  got ← call (attempt (kget (O:=PersistentVolumeClaim) (om_namespace (vol_meta v)) (vol_name v)));
  match got with
  | Err e => if is_not_found e then _ ← call (kcreate desired); mret tt else fail e
  | Ok _ => reportVolumeProvisioned
  end.

(** * A client's directory *)

Definition reconcileLocalVolumeSource (src : VolumeSource) : OM W Volume subReconcilerResult :=
  match vs_remote_dir src with
  | None => mret resultNil
  | Some d =>
      if decide (rds_current_directory_hash d = "") then mret resultNil
      else
        t ← call now;
        _ ← assign (λ v, (setVolumeCondition t VolumeConditionSyncedFromRemote ConditionTrue "RemoteDataSynced"
              ("Directory with hash '" +:+ rds_current_directory_hash d +:+ "' synced") v)
              <| vol_status ::= λ s, s <| vst_last_remote_sync_hash := rds_current_directory_hash d |> |>);
        mret resultNil
  end.

(** * Build artifacts *)

Definition findJobCompleteCondition (job : Job) : option JobCondition := findJobCondition job JobComplete.
Definition jobCompleted (job : Job) : bool :=
  match findJobCompleteCondition job with
  | Some c => bool_decide (jc_status c = ConditionTrue)
  | None => false
  end.
Definition buildAvailable (b : ImageBuild) : bool :=
  condition_is (ibs_conditions (ib_status b)) BuildAvailable ConditionTrue.
Definition buildHasFailed (b : ImageBuild) : bool :=
  condition_is (ibs_conditions (ib_status b)) BuildFailed ConditionTrue.

Definition buildArtifactSrcsGroupedByResource (arts : list BuildArtifactSource)
    : gmap string (list BuildArtifactSource) :=
  foldl (λ m a, <[ bas_build_source a := default [] (m !! bas_build_source a) ++ [a] ]> m) ∅ arts.

(** The ImageBuild of one artifact's resource; a resource without a build spec is a
    nil dereference in [ImageBuildName]. *)
Definition getImageBuildFor (v : Volume) (ref : string) : SE W ImageBuild :=
  let ns := om_namespace (vol_meta v) in
  res ← attempt (kget (O:=StackResource) ns ref);
  match res with
  | Err e => fail (if is_not_found e then e
      else Wrapf ("failed to get the resource '" +:+ ref +:+ "' in volume '" +:+ vol_name v +:+ "': ") e)
  | Ok r =>
      match build_spec (sr_spec r) with
      | None => fail (Panic "nil pointer dereference")
      | Some spec =>
          let name := ImageBuildName (sr_name r) spec in
          got ← attempt (kget (O:=ImageBuild) ns name);
          match got with
          | Err e => fail (if is_not_found e then e
              else Wrapf ("failed to get the application build '" +:+ name +:+ "' for volume sync'" +:+
                          vol_name v +:+ "': ") e)
          | Ok b => mret b
          end
      end
  end.
Fixpoint getImageBuilds (v : Volume) (arts : list BuildArtifactSource) (acc : gmap string ImageBuild)
    : SE W (gmap string ImageBuild) :=
  match arts with
  | [] => mret acc
  | a :: arts =>
      b ← getImageBuildFor v (bas_build_source a);
      getImageBuilds v arts (<[ bas_build_source a := b ]> acc)
  end.
Definition getImageBuildsForResources (v : Volume) (arts : list BuildArtifactSource)
    : SE W (gmap string ImageBuild) := getImageBuilds v arts ∅.

Definition recordSync (resourceName buildID : string) (st : BuildArtifactSyncStatus) : OM W Volume unit :=
  assign (λ v, v <| vol_status ::= SetBuildArtifactSyncStatus resourceName buildID st |>).

(** What is recorded when no complete copy was found. *)
Definition recordUnsynced (resourceName : string) (b : ImageBuild) : OM W Volume unit :=
  recordSync resourceName (ShortBuildSrcRevisionFromSpec b)
    (if buildHasFailed b then BuildArtifactSyncStatusFailed else BuildArtifactSyncStatusPending).

Definition desiredSyncJob (v : Volume) (resourceName : string) (b : ImageBuild)
    (arts : list BuildArtifactSource) : result Job :=
  let job := (CreateBuildArtifactsVolumeSyncJob v arts b)
               <| job_meta ::= λ m, m <| om_labels := {[ ResourceNameLabel := resourceName ]} |> |> in
  m ← set_controller_reference (vol_meta v) (job_meta job);
  Ok (job <| job_meta := m |>).

Definition reconcileBuildArtifactsSrcsForResource (resourceName : string) (b : ImageBuild)
    (arts : list BuildArtifactSource) : OM W Volume unit :=
  v ← look id;
  if buildAvailable b then
    desired ← of_result (desiredSyncJob v resourceName b arts);
    got ← call (attempt (kget (O:=Job) (om_namespace (job_meta desired)) (om_name (job_meta desired))));
    match got with
    | Err e =>
        if is_not_found e then _ ← call (kcreate desired); mret tt
        else fail (Wrapf "failed to get existing build artifacts sync job: " e)
    | Ok job =>
        if jobCompleted job
        then recordSync resourceName (ShortBuildSrcRevisionFromStatus b) BuildArtifactSyncStatusCompleted
        else recordUnsynced resourceName b
    end
  else recordUnsynced resourceName b.

Fixpoint reconcileGroups (builds : gmap string ImageBuild) (groups : list (string * list BuildArtifactSource))
    : OM W Volume unit :=
  match groups with
  | [] => mret tt
  | (ref, arts) :: groups =>
      match builds !! ref with
      | None => fail (Errorf ("application build not found for resource '" +:+ ref +:+ "'"))
      | Some b =>
          _ ← reconcileBuildArtifactsSrcsForResource ref b arts;
          reconcileGroups builds groups
      end
  end.

Definition reconcileBuildArtifactsSources (src : VolumeSource) : OM W Volume subReconcilerResult :=
  match vs_build_artifacts src with
  | None => mret resultNil
  | Some arts =>
      v ← look id;
      builds ← call (attempt (getImageBuildsForResources v arts));
      match builds with
      | Err e => if is_not_found e then mret resultStop else fail e
      | Ok builds =>
          _ ← reconcileGroups builds (string_map_order (buildArtifactSrcsGroupedByResource arts));
          mret resultNil
      end
  end.

(** * Git *)

Definition gitSyncJobName (volumeName revision : string) : string :=
  let name := "volume-" +:+ volumeName +:+ "-git-sync-" +:+ take_string 8 (sha256_text revision) in
  if 63 <? String.length name then take_string 63 name else name.

(** An error whose text alone is kept ([%v]). *)
Definition retold {A} (p : string) (r : result A) : result A :=
  match r with
  | Err (Panic m) => Err (Panic m)
  | Err e => Err (Errorf (p +:+ error_text e))
  | Ok a => Ok a
  end.

Definition gitSynced (t : Time) (complete : bool) (revision : string) (v : Volume) : Volume :=
  if complete
  then (setVolumeCondition t VolumeConditionSyncedFromGitSource ConditionTrue "GitSyncComplete"
         "Volume has been successfully synced from git source" v)
       <| vol_status ::= λ s, s <| vst_git_repo_synced_path := DestDirWithinVolume |>
                                <| vst_last_synced_git_reference := revision |> |>
  else setVolumeCondition t VolumeConditionSyncedFromGitSource ConditionFalse "GitSyncNotCompleteComplete"
         "Volume sync from git source not complete" v.

Definition reconcileGitSource (src : VolumeSource) : OM W Volume subReconcilerResult :=
  match vs_git_repo src with
  | None => mret resultNil
  | Some g =>
      v ← look id;
      if decide (vst_pvc_name (vol_status v) = "") then mret resultRequeue
      else
        let revision := GetGitRevisionString (vgs_revision g) in
        params ← of_result (retold "failed to build git sync job params: " (BuildGitSyncParams v DestDirWithinVolume));
        desired ← of_result (retold "failed to build git sync job: "
                    (GenerateGitSyncJob (gitSyncJobName (vol_name v) revision) params));
        m ← of_result (set_controller_reference (vol_meta v) (job_meta desired));
        let desired := desired <| job_meta := m |> in
        got ← call (attempt (kget (O:=Job) (om_namespace (job_meta desired)) (om_name (job_meta desired))));
        match got with
        | Err e =>
            if is_not_found e then _ ← call (kcreate desired); mret resultNil
            else fail (Wrapf "failed to get existing git sync job: " e)
        | Ok job =>
            t ← call now;
            _ ← assign (gitSynced t (jobCompleted job) revision);
            v ← look id;
            v' ← call (kupdate_status v);
            _ ← assign (λ _, v');
            mret resultNil
        end
  end.

(** * The pass *)

Fixpoint runSources (steps : list (OM W Volume subReconcilerResult)) : OM W Volume subReconcilerResult :=
  match steps with
  | [] => mret resultNil
  | step :: steps =>
      res ← step;
      if decide (res = resultNil) then runSources steps else mret res
  end.
Definition reconcileVolumeSource : OM W Volume subReconcilerResult :=
  v ← look id;
  match vsp_source (vol_spec v) with
  | None => mret resultNil
  | Some src => runSources [reconcileLocalVolumeSource src; reconcileBuildArtifactsSources src;
                            reconcileGitSource src]
  end.

Definition reconcile : OM W Volume CtrlResult :=
  _ ← reconcilePVC;
  _ ← reconcileVolumeSource;
  mret no_requeue.

Definition hashedVolume (v : Volume) : Volume :=
  v <| vol_status ::= λ s, s <| vst_status_hash := digest_volume_status (s <| vst_status_hash := "" |>) |> |>.

Definition Reconcile (ns name : string) : SE W CtrlResult :=
  got ← attempt (kget (O:=Volume) ns name);
  match got with
  | Err e => if is_not_found e then mret no_requeue else fail e
  | Ok v =>
      out ← with_object v reconcile;
      _ ← kupdate_status (hashedVolume out.2);
      mret out.1
  end.
End controller.

(** The watch on StackResources: the volumes one mounts. *)
Definition mountedVolumes (r : StackResource) : list NamespacedName :=
  (λ v, (sr_namespace r, v)) <$> VolumeMountSources r.
