(* ===== verification/VolumeOutcome.v ===== *)
(** What the Volume controller guarantees, and what its records mean to the
    dependency checker that reads them (Dependencies.v). *)
From S2P Require Import Prelude Text Kube Apimachinery Api Builds Storage KubeWorkloads.
From S2P Require Import Kaniko Objects ImageBuildController VolumeJobs VolumeController Dependencies Samples.

(** * Truncation *)

Lemma truncate_idempotent s n : truncateString (truncateString s n) n = truncateString s n.
Proof.
  revert n. induction s as [|c s IH]; intros n; [done|]. cbn. destruct (is_continuation c) eqn:Ec.
  - cbn. by rewrite Ec, IH.
  - destruct n as [|n]; [done|]. cbn. by rewrite Ec, IH.
Qed.

(** * Grouping *)

Definition wants (ref : string) (a : BuildArtifactSource) : Prop := bas_build_source a = ref.
#[export] Instance wants_dec ref a : Decision (wants ref a) := decide (bas_build_source a = ref).

Lemma grouped_from (m : gmap string (list BuildArtifactSource)) arts (ref : string) :
  foldl (λ m a, <[ bas_build_source a := default [] (m !! bas_build_source a) ++ [a] ]> m) m arts !! ref =
  match m !! ref, filter (wants ref) arts with
  | None, [] => None
  | o, l => Some (default [] o ++ l)
  end.
Proof.
  revert m. induction arts as [|a arts IH]; intros m; cbn [foldl].
  - destruct (m !! ref); cbn; by rewrite ?app_nil_r.
  - rewrite IH, filter_cons. destruct (decide (wants ref a)) as [E|E]; unfold wants in E.
    + rewrite E, lookup_insert_eq. cbn. rewrite <- app_assoc. destruct (m !! ref); done.
    + by rewrite lookup_insert_ne.
Qed.

(** The artifacts of one resource, in the order of the spec. *)
Lemma grouped_lookup arts ref :
  buildArtifactSrcsGroupedByResource arts !! ref =
  match filter (wants ref) arts with [] => None | l => Some l end.
Proof. unfold buildArtifactSrcsGroupedByResource. rewrite grouped_from, lookup_empty. done. Qed.

(** However Go walks the map of artifacts, every resource that has artifacts
    in the volume is handled exactly once, with all of them in the order of the
    spec, and no other resource is. *)
Theorem artifact_groups_spec {SO : StringMapOrder} {SL : StringMapOrderLaws} (arts : list BuildArtifactSource) :
  let groups := string_map_order (buildArtifactSrcsGroupedByResource arts) in
  NoDup groups.*1 ∧
  ∀ ref l, (ref, l) ∈ groups ↔ l = filter (wants ref) arts ∧ l ≠ [].
Proof.
  cbv zeta. split.
  - rewrite string_map_order_perm. apply NoDup_fst_map_to_list.
  - intros ref l. rewrite string_map_order_perm, elem_of_map_to_list, grouped_lookup.
    destruct (filter (wants ref) arts); naive_solver.
Qed.

(** * The claim *)

Section volume.
Context {GT : GoText} {BD : BuildDigest} {JD : JobDecoder} {QP : QuantityParse} {TD : TextDigest}.
Context {SO : StringMapOrder} {CA : ConditionsApi} {CL : ConditionsLaws} {OA : OwnerApi} {OL : OwnerLaws}.
Context {W : Type} {CK : Clock W} {KV : Kind W Volume} {KC : Kind W PersistentVolumeClaim}.
Context {KJ : Kind W Job} {KR : Kind W StackResource} {KB : Kind W ImageBuild}.

(** The claim of a volume.  When none is found, one of the wanted size, mode
    and class is created under the volume's control, and the volume is reported
    on only by a later pass; when one is found, the volume is Ready and Available
    for this generation, under the claim's name, and nothing but those facts
    changes. *)
Theorem volume_claim_spec (p p' : On W Volume) :
  reconcilePVC p = (Ok tt, p') →
  let v := object p in
  let conds p := view (vst_conditions (vol_status (object p))) in
  let key := (om_namespace (vol_meta v), vol_name v) in
  ∃ size claim, parse_quantity (vsp_size (vol_spec v)) = Ok size ∧
    is_controlled_by (pvc_meta claim) (vol_meta v) = true ∧
    (om_namespace (pvc_meta claim), om_name (pvc_meta claim)) = key ∧
    pvc_storage_request claim = size ∧ pvc_access_modes claim = [vsp_access_mode (vol_spec v)] ∧
    match kget (O:=PersistentVolumeClaim) key.1 key.2 (outside p) with
    | (Err e, w) => is_not_found e = true ∧ object p' = v ∧ (kcreate claim w).2 = outside p'
    | (Ok _, w) =>
        vol_meta (object p') = vol_meta v ∧ vol_spec (object p') = vol_spec v ∧
        vst_observed_generation (vol_status (object p')) = om_generation (vol_meta v) ∧
        vst_phase (vol_status (object p')) = VolumePhaseReady ∧
        vst_pvc_name (vol_status (object p')) = vol_name v ∧
        conds p' (volume_condition_name VolumeConditionAvailable) =
          Some (ConditionTrue, om_generation (vol_meta v), "VolumeProvisioned", "Volume is provisioned.") ∧
        ∀ t, t ≠ volume_condition_name VolumeConditionAvailable → conds p' t = conds p t
    end.
Proof.
  cbv zeta. unfold reconcilePVC. intros (v & p1 & [= <- <-] & H)%se_bind_inv.
  apply se_bind_inv in H as (size & p2 & Hs & H). apply se_bind_inv in Hs as (r & p2' & Hr%attempt_inv & Hs).
  injection Hr as Hr <-. destruct r as [size'|e]; [|done]. injection Hs as <- <-.
  apply se_bind_inv in H as (m & p3 & Hm & H). apply se_bind_inv in Hm as (r & p3' & Hr'%attempt_inv & Hm).
  injection Hr' as Hr' <-. destruct r as [m'|e]; [|done]. injection Hm as <- <-.
  apply se_bind_inv in H as (got & p4 & Hg & H). cbn [id] in *.
  exists size', ((newClaim (object p) size') <| pvc_meta := m' |>).
  pose proof (controlled_after_set_controller _ _ _ Hr') as Hctl.
  destruct (set_controller_keeps _ _ _ Hr') as [refs ->].
  split_and!; [done|exact Hctl|done..|]. cbn [fst snd].
  unfold call in Hg. destruct (attempt (kget _ _) (outside p)) as [r w] eqn:Ea. injection Hg as -> <-.
  apply attempt_inv in Ea. rewrite Ea. destruct got as [c|e].
  - unfold reportVolumeProvisioned in H. apply se_bind_inv in H as (t & p5 & Ht & H).
    unfold call in Ht. destruct (now w) as [r' w'] eqn:En. cbn in Ht. rewrite En in Ht. injection Ht as -> <-.
    injection H as <-. cbn. split_and!; [done..| |].
    + by rewrite view_set_new, decide_True.
    + intros ty Hty. by rewrite view_set_new, decide_False.
  - destruct (is_not_found e); [|done]. apply se_bind_inv in H as (c & p5 & Hc & H). injection H as <-.
    unfold call in Hc. cbn [outside object] in Hc. destruct (kcreate _ w) as [r' w'] eqn:Ec.
    injection Hc as -> <-. done.
Qed.

(** * Git *)

Lemma retold_ok {A} pre (r : result A) a : retold pre r = Ok a → r = Ok a.
Proof. by destruct r as [|[]]. Qed.

(** What the checker makes of the condition a pass records. *)
Lemma git_gate t c (v v' : Volume) src g r :
  vol_status v' = vol_status (gitSynced t c (GetGitRevisionString (vgs_revision g)) v) →
  vsp_source (vol_spec v') = Some src → om_generation (vol_meta v') = om_generation (vol_meta v) →
  vs_remote_dir src = None → vs_git_repo src = Some g →
  vst_observed_generation (vol_status v) = om_generation (vol_meta v) →
  (isVolumeReady v' r).1 = c.
Proof.
  intros Es Hsrc Eg Hrd Hgit Hgen. unfold isVolumeReady. rewrite Hsrc, Hrd, Hgit.
  unfold gitRepoSyncedToVolume, syncedCondition. rewrite Es, Eg.
  assert (∀ st rs m, match find_status_condition (set_status_condition t (vst_conditions (vol_status v))
      (new_condition (volume_condition_name VolumeConditionSyncedFromGitSource) st (om_generation (vol_meta v)) rs m))
      (volume_condition_name VolumeConditionSyncedFromGitSource) with
    | Some c => c_status c = st | None => False end) as HV.
  { intros st rs m. pose proof (view_set_new t (vst_conditions (vol_status v))
      (volume_condition_name VolumeConditionSyncedFromGitSource) st (om_generation (vol_meta v)) rs m
      (volume_condition_name VolumeConditionSyncedFromGitSource)) as HV.
    rewrite (decide_True (P:=volume_condition_name _ = volume_condition_name _)) in HV by done. unfold view in HV.
    destruct (find_status_condition _ _) as [c'|]; [|done]. unfold cond_view in HV. cbn in HV. congruence. }
  destruct c; cbn; match goal with |- context[new_condition _ ?st _ ?rs ?m] => specialize (HV st rs m) end;
    cbn in HV; destruct (find_status_condition _ _) as [c'|]; try done; rewrite HV; [|done].
  rewrite Hgen, Z.eqb_refl, !bool_decide_true by done. done.
Qed.

(** [lines] are those of the Job that clones into the volume [v]: its name is
    made of the volume's and of the digest of the revision, cut to what a name may
    have, and it clones that revision of the repository into the claim. *)
Definition clones (v : Volume) (g : VolumeGitRepoSource) (lines : list string) : Prop :=
  let revision := gr_commit (vgs_revision g) in
  revision ≠ "" ∧
  ("  name: " +:+ take_string 63 ("volume-" +:+ vol_name v +:+ "-git-sync-" +:+
     take_string 8 (sha256_text revision))) ∈ lines ∧
  ("  namespace: " +:+ om_namespace (vol_meta v)) ∈ lines ∧
  argLine ("--repo=" +:+ vgs_repo_url g) ∈ lines ∧ argLine ("--ref=" +:+ revision) ∈ lines ∧
  argLine "--one-time" ∈ lines ∧
  ("          claimName: " +:+ vst_pvc_name (vol_status v)) ∈ lines.

(** The clone Job of the volume [v]: what the decoder makes of such lines, under
    the volume's control. *)
Definition cloneJob (v : Volume) (g : VolumeGitRepoSource) (job : Job) : Prop :=
  is_controlled_by (job_meta job) (vol_meta v) = true ∧
  ∃ lines decoded, clones v g lines ∧ decode_job (newline +:+ join lines newline +:+ newline) = Ok decoded ∧
    om_name (job_meta job) = om_name (job_meta decoded) ∧
    om_namespace (job_meta job) = om_namespace (job_meta decoded).

Lemma take_string_all n s : String.length s ≤ n → take_string n s = s.
Proof. revert s. induction n as [|n IH]; intros [|c s] H; cbn in *; [done|lia|done|]. f_equal. apply IH. lia. Qed.

Lemma gitSyncJobName_cut v rev :
  gitSyncJobName v rev =
  take_string 63 ("volume-" +:+ v +:+ "-git-sync-" +:+ take_string 8 (sha256_text rev)).
Proof.
  unfold gitSyncJobName. destruct (63 <? _) eqn:E; [done|]. apply Nat.ltb_ge in E.
  symmetry. by apply take_string_all.
Qed.

Lemma withVolumeGitAuth_keeps auth params :
  let params' := withVolumeGitAuth auth params in
  gsp_namespace params' = gsp_namespace params ∧ gsp_pvc_name params' = gsp_pvc_name params ∧
  gsp_repo_url params' = gsp_repo_url params ∧ gsp_commit params' = gsp_commit params.
Proof. destruct auth as [[up pat]|]; [|done]. by destruct up, pat. Qed.

Lemma clone_lines v g params :
  BuildGitSyncParams v DestDirWithinVolume = Ok params → (vsp_source (vol_spec v) ≫= vs_git_repo) = Some g →
  clones v g (gitSyncJobTemplate
    (params <| gsp_job_name := gitSyncJobName (vol_name v) (GetGitRevisionString (vgs_revision g)) |>)).
Proof.
  unfold BuildGitSyncParams. intros H Hg. rewrite Hg in H. case_decide as Hrev; [done|]. injection H as <-.
  rewrite gitSyncJobName_cut.
  set (params := mkGitSyncParams _ _ _ _ _ _ _ _ _ _ _ _).
  destruct (withVolumeGitAuth_keeps (vgs_auth g) params) as (E1 & E2 & E3 & E4). cbn in E1, E2, E3, E4.
  unfold clones, gitSyncJobTemplate. cbn. rewrite E1, E2, E3, E4.
  split_and!; [done|..];
    repeat first [apply list_elem_of_here|apply list_elem_of_further|apply elem_of_app; right].
Qed.

Lemma clone_job v g params job m :
  BuildGitSyncParams v DestDirWithinVolume = Ok params → (vsp_source (vol_spec v) ≫= vs_git_repo) = Some g →
  GenerateGitSyncJob (gitSyncJobName (vol_name v) (GetGitRevisionString (vgs_revision g))) params = Ok job →
  set_controller_reference (vol_meta v) (job_meta job) = Ok m →
  cloneJob v g (job <| job_meta := m |>).
Proof.
  intros Hp Hg Hj Hm. split; [by apply (controlled_after_set_controller _ _ _ Hm)|].
  unfold GenerateGitSyncJob in Hj. destruct (decode_job _) as [decoded|e] eqn:Hd; [|done]. cbn in Hj.
  unfold firstContainer in Hj. destruct (ps_containers _); [done|]. cbn in Hj. injection Hj as <-.
  exists (gitSyncJobTemplate (params <| gsp_job_name := gitSyncJobName (vol_name v)
            (GetGitRevisionString (vgs_revision g)) |>)), decoded.
  split; [by apply clone_lines|]. split; [exact Hd|].
  destruct (set_controller_keeps _ _ _ Hm) as [refs ->]. done.
Qed.

(** C20. A git volume and the gate of its readers.  Before the claim is known
    nothing is done.  Otherwise the pass looks for the volume's clone Job: the one
    decoded from the template whose name is made of the volume and of the digest
    of the revision the spec asks for, and that clones this revision.  Where it finds it, the dependency checker lets every resource that mounts the volume
    through exactly when that Job says that it is complete, and then the revision is
    recorded as the last one synced; where it finds none, it is created and the
    volume is left as it is.  The hypotheses: the volume has a git source
    and no remote directory, its observed generation is the current one, and
    [echo], writing a status answers the object with that status. *)
Theorem git_volume_served (src : VolumeSource) (g : VolumeGitRepoSource) (p p' : On W Volume)
    (res : subReconcilerResult)
    (echo : ∀ v w v' w', kupdate_status (O:=Volume) v w = (Ok v', w') →
      vol_status v' = vol_status v ∧ vol_spec v' = vol_spec v ∧
      om_generation (vol_meta v') = om_generation (vol_meta v)) :
  vsp_source (vol_spec (object p)) = Some src → vs_remote_dir src = None → vs_git_repo src = Some g →
  vst_observed_generation (vol_status (object p)) = om_generation (vol_meta (object p)) →
  reconcileGitSource src p = (Ok res, p') →
  if decide (vst_pvc_name (vol_status (object p)) = "") then res = resultRequeue ∧ p' = p
  else res = resultNil ∧ ∃ job, cloneJob (object p) g job ∧
    match kget (O:=Job) (om_namespace (job_meta job)) (om_name (job_meta job)) (outside p) with
    | (Err e, w) => is_not_found e = true ∧ object p' = object p ∧
        ∃ made, kcreate job w = (Ok made, outside p')
    | (Ok found, w) =>
        (∃ t w1 v, now w = (Ok t, w1) ∧ kupdate_status v w1 = (Ok (object p'), outside p')) ∧
        (∀ r, (isVolumeReady (object p') r).1 = true ↔ jobSays found JobComplete) ∧
        (jobSays found JobComplete →
         vst_last_synced_git_reference (vol_status (object p')) = gr_commit (vgs_revision g))
    end.
Proof.
  intros Hsrc Hrd Hgit Hgen. unfold reconcileGitSource. rewrite Hgit.
  intros (v & p1 & [= <- <-] & H)%se_bind_inv. cbn [id] in *.
  destruct (decide (vst_pvc_name (vol_status (object p)) = "")) as [Hpvc|Hpvc]; [by injection H as <- <-|].
  apply se_bind_inv in H as (params & p2 & Hp & H). injection Hp as Hp <-.
  apply se_bind_inv in H as (job & p2 & Hj & H). injection Hj as Hj <-.
  apply se_bind_inv in H as (m & p2 & Hm & H). injection Hm as Hm <-.
  apply se_bind_inv in H as (got & p3 & Hg & H).
  unfold call in Hg. destruct (attempt (kget _ _) (outside p)) as [r w] eqn:Ea. injection Hg as -> <-.
  apply attempt_inv in Ea.
  assert (cloneJob (object p) g (job <| job_meta := m |>)) as Hclone.
  { apply retold_ok in Hp, Hj. eapply clone_job; [exact Hp|by rewrite Hsrc|exact Hj|exact Hm]. }
  destruct got as [found|e].
  - apply se_bind_inv in H as (t & p4 & Ht & H). unfold call in Ht. destruct (now _) as [r' w'] eqn:En.
    injection Ht as -> <-. apply se_bind_inv in H as (u & p5 & Ha & H). injection Ha as <- <-.
    apply se_bind_inv in H as (v & p6 & [= <- <-] & H). apply se_bind_inv in H as (v' & p7 & Hu & H).
    unfold call in Hu. cbn [outside object id] in Hu. destruct (kupdate_status _ w') as [r' w''] eqn:Eu.
    injection Hu as -> <-. apply se_bind_inv in H as (u & p8 & Ha & H). injection Ha as <- <-.
    injection H as <- <-. split; [done|]. eexists. split; [exact Hclone|]. rewrite Ea. cbn [object outside] in *.
    split; [by eexists t, w', _|]. apply echo in Eu as (Es & Esp & Eg). cbn in Esp, Eg.
    change (jobCompleted found) with (jobConditionTrue found JobComplete) in *.
    split; [intros r|]; rewrite <- job_says.
    + erewrite git_gate; [done|exact Es|rewrite Esp|rewrite Eg|exact Hrd|exact Hgit|exact Hgen];
        by destruct (jobConditionTrue found JobComplete).
    + intros Hc. by rewrite Es, Hc.
  - destruct (is_not_found e) eqn:En; [|done]. apply se_bind_inv in H as (c & p4 & Hc & H).
    injection H as <- <-. unfold call in Hc. cbn [outside object] in Hc.
    destruct (kcreate _ w) as [r' w'] eqn:Ec. injection Hc as -> <-.
    split; [done|]. eexists. split; [exact Hclone|]. rewrite Ea. split_and!; [done..|]. by exists c.
Qed.

(** * Build artifacts *)

(** Every recorded build is identified by at most seven characters. *)
Definition short_ids (v : Volume) : Prop :=
  ∀ ref i, vst_build_artifact_syncs (vol_status v) !! ref = Some i →
           truncateString (bai_build_id i) 7 = bai_build_id i.

Lemma short_same v v' :
  vst_build_artifact_syncs (vol_status v') = vst_build_artifact_syncs (vol_status v) →
  short_ids v → short_ids v'.
Proof. unfold short_ids. by intros ->. Qed.

Abbreviation keeps_short := (Inv (λ p : On W Volume, short_ids (object p))) (only parsing).

Lemma short_record ref rev st : keeps_short (recordSync ref (truncateString rev 7) st).
Proof.
  apply inv_object_assign. intros v Hv ref' i. cbn. destruct (decide (ref = ref')) as [<-|Hne].
  - rewrite lookup_insert_eq. intros [= <-]. apply truncate_idempotent.
  - rewrite lookup_insert_ne by done. apply Hv.
Qed.

Lemma short_resource ref b arts : keeps_short (reconcileBuildArtifactsSrcsForResource ref b arts).
Proof.
  unfold reconcileBuildArtifactsSrcsForResource, recordUnsynced.
  assert (∀ rev st, keeps_short (recordSync ref (truncateString rev 7) st)) as HR by (intros; apply short_record).
  unfold ShortBuildSrcRevisionFromSpec, ShortBuildSrcRevisionFromStatus. solve_inv.
Qed.

Lemma short_groups builds groups : keeps_short (reconcileGroups builds groups).
Proof.
  induction groups as [|[ref arts] groups IH]; cbn; [apply inv_ret|].
  destruct (builds !! ref); [|apply inv_fail]. apply inv_bind; [apply short_resource|by intros].
Qed.

Lemma short_git src
    (echo : ∀ v w v' w', kupdate_status (O:=Volume) v w = (Ok v', w') → vol_status v' = vol_status v) :
  keeps_short (reconcileGitSource src).
Proof.
  unfold reconcileGitSource. destruct (vs_git_repo src) as [g|]; [|apply inv_ret].
  apply inv_bind; [apply inv_look|]. intros v _. case_decide; [apply inv_ret|].
  do 3 (apply inv_bind; [apply inv_of_result|intros ? _]).
  apply inv_bind; [apply inv_object_call|]. intros got _. destruct got as [found|e]; [|solve_inv].
  apply inv_bind; [apply inv_object_call|]. intros t _. apply inv_bind.
  { apply inv_object_assign. intros o. apply short_same. by destruct (jobCompleted found). }
  intros _ _ p Hp. cbv [mbind se_bind look gets call]. cbn.
  destruct (kupdate_status (object p) (outside p)) as [[v'|e] w'] eqn:E; cbn; [|done].
  apply (short_same (object p)); [|done]. by rewrite (echo _ _ _ _ E).
Qed.

Lemma short_pass
    (echo : ∀ v w v' w', kupdate_status (O:=Volume) v w = (Ok v', w') → vol_status v' = vol_status v) :
  keeps_short reconcile.
Proof.
  assert (∀ f, (∀ v, vst_build_artifact_syncs (vol_status (f v)) = vst_build_artifact_syncs (vol_status v)) →
    keeps_short (assign f)) as HA by (intros f Hf; apply inv_object_assign; intros v; by apply short_same).
  unfold reconcile. apply inv_bind; [|intros _ _; apply inv_bind; [|intros; apply inv_ret]].
  - unfold reconcilePVC, reportVolumeProvisioned. solve_inv.
  - unfold reconcileVolumeSource. apply inv_bind; [apply inv_look|]. intros v _.
    destruct (vsp_source _) as [src|]; [|apply inv_ret]. cbn [runSources].
    apply inv_bind; [|intros r _; case_decide; [|apply inv_ret]].
    + unfold reconcileLocalVolumeSource. solve_inv.
    + apply inv_bind; [|intros r' _; case_decide; [|apply inv_ret]].
      * unfold reconcileBuildArtifactsSources. pose proof short_groups. solve_inv.
      * apply inv_bind; [by apply short_git|intros r'' _; case_decide; apply inv_ret].
Qed.

(** C10. The two ends of a build-artifact volume do not meet.  The controller
    identifies what it copied by the first seven characters of the build's
    revision, in every pass, from a fresh volume on; the dependency checker
    compares with the whole revision of the current build.  So the gate of an
    artifact volume never opens for a resource whose revision is longer, such as
    one built from a full commit hash, however complete the copy is. *)
Theorem artifact_volume_never_ready (p p' : On W Volume) (res : CtrlResult) (src : VolumeSource)
    (r : StackResource) (b : BuildStatus)
    (echo : ∀ v w v' w', kupdate_status (O:=Volume) v w = (Ok v', w') → vol_status v' = vol_status v) :
  short_ids (object p) → reconcile p = (Ok res, p') →
  vsp_source (vol_spec (object p')) = Some src →
  vs_remote_dir src = None → vs_git_repo src = None → is_Some (vs_build_artifacts src) →
  current_build (sr_status r) = Some b →
  truncateString (bst_source_revision b) 7 ≠ bst_source_revision b →
  short_ids (object p') ∧ (isVolumeReady (object p') r).1 = false.
Proof.
  intros Hp Hr Hsrc Hrd Hgit [arts Ha] Hb Hlong.
  pose proof (short_pass echo p Hp) as Hs. rewrite Hr in Hs. split; [exact Hs|].
  unfold isVolumeReady. rewrite Hsrc, Hrd, Hgit, Ha, Hb. destruct (negb (bst_available b)); [done|].
  destruct (_ !! sr_name r) as [i|] eqn:Ei; [|done]. cbn in Hs.
  specialize (Hs _ _ Ei). unfold buildSyncCompletedAndUptoDate.
  assert (bai_build_id i ≠ bst_source_revision b) as Hne by (intros E; rewrite E in Hs; done).
  rewrite (bool_decide_false (bai_build_id i = _)) by done. by rewrite andb_false_r.
Qed.
End volume.

(** * Concrete volumes *)

Import Cluster.
#[local] Existing Instance sample_decoder.
#[local] Instance any_size : QuantityParse := λ s, Ok s.
#[local] Instance one_digest : TextDigest := λ _, "0123456789abcdef".
#[local] Instance by_key : StringMapOrder := λ A m, map_to_list m.
#[local] Instance by_key_laws : StringMapOrderLaws.
Proof. by intros A m. Qed.

Definition copied (ref : string) : BuildArtifactSource := mkBuildArtifactSource ref "/dist" "web".

Lemma artifact_groups_spec_witness :
  NoDup (string_map_order (buildArtifactSrcsGroupedByResource [copied "web"; copied "api"; copied "web"])).*1.
Proof. apply (artifact_groups_spec [copied "web"; copied "api"; copied "web"]). Defined.

Definition git_source : VolumeGitRepoSource :=
  mkVolumeGitRepoSource "https://git" (mkGitRepoRevision "main" "" "c0ffee") "repo" None.
Definition git_only : VolumeSource := mkVolumeSource None None (Some git_source).
Definition cloning_job (t : string) : Job :=
  mkJob (object_meta "clone" "default") (mkJobSpec None None None None empty_pod_template)
    (mkJobStatus [mkJobCondition t ConditionTrue ""] 1 None).

Lemma volume_claim_spec_witness :
  ∃ p', reconcilePVC (W:=Z) (mkOn 5%Z (sample_volume "data" None)) = (Ok tt, p') ∧
        object p' = sample_volume "data" None.
Proof.
  destruct (reconcilePVC (W:=Z) _) as [[[]|e] p'] eqn:E; [|exfalso; vm_compute in E; discriminate].
  exists p'. split; [reflexivity|].
  destruct (volume_claim_spec (W:=Z) _ _ E) as (size & claim & _ & _ & _ & _ & _ & H).
  cbn in H. apply H.
Defined.

Section cloned.
#[local] Instance cloned : Kind Z Job := only_objects [cloning_job JobComplete].

Lemma git_volume_served_witness :
  ∃ p', reconcileGitSource (W:=Z) git_only (mkOn 5%Z (sample_volume "data" (Some git_only))) = (Ok resultNil, p') ∧
    (isVolumeReady (object p') (sample_resource "web")).1 = true.
Proof.
  destruct (reconcileGitSource (W:=Z) _ _) as [[res|e] p'] eqn:E; [|exfalso; vm_compute in E; discriminate].
  exists p'.
  assert (∀ v w v' w', kupdate_status (O:=Volume) v w = (Ok v', w' : Z) →
      vol_status v' = vol_status v ∧ vol_spec v' = vol_spec v ∧
      om_generation (vol_meta v') = om_generation (vol_meta v)) as echo by (intros v w v' w' [= <- _]; done).
  pose proof (git_volume_served (W:=Z) git_only git_source
    (mkOn 5%Z (sample_volume "data" (Some git_only))) p' res echo eq_refl eq_refl eq_refl eq_refl E) as H.
  rewrite decide_False in H by done. destruct H as (-> & job & _ & H). split; [reflexivity|].
  cbn in H. destruct H as (_ & H & _). apply H, job_says. reflexivity.
Defined.
End cloned.

Definition artifacts_only : VolumeSource := mkVolumeSource None (Some []) None.
Definition long_build : BuildStatus := mkBuildStatus "web" "c0ffee00c0ffee00" true "" "" "Success".
Definition long_resource : StackResource :=
  (sample_resource "web") <| sr_status ::= λ s, s <| current_build := Some long_build |> |>.

Lemma artifact_volume_never_ready_witness :
  ∃ p', reconcile (W:=Z) (mkOn 5%Z (sample_volume "data" (Some artifacts_only))) = (Ok no_requeue, p') ∧
    (isVolumeReady (object p') long_resource).1 = false.
Proof.
  destruct (reconcile (W:=Z) _) as [[res|e] p'] eqn:E; [|exfalso; vm_compute in E; discriminate].
  assert (res = no_requeue) as -> by (vm_compute in E; by injection E as <- _).
  exists p'. split; [reflexivity|].
  refine (proj2 (artifact_volume_never_ready (W:=Z) _ _ _ artifacts_only long_resource long_build _ _ E _ _ _ _ _ _)).
  - intros v w v' w' [= <- _]. reflexivity.
  - intros ref i Hi. cbn in Hi. by rewrite lookup_empty in Hi.
  - vm_compute in E. by injection E as <-.
  - reflexivity.
  - reflexivity.
  - by exists [].
  - reflexivity.
  - by vm_compute.
Defined.
