(* ===== verification/RegistryController.v ===== *)
(** The ClusterRegistry controller
    (internal/controller/registry/registry_controller.go), against the interface
    of the registry builder (Zot.v). *)
From S2P Require Import Prelude Text Kube Apimachinery Api KubeWorkloads Registries RegistryRef Zot Objects.
From Stdlib Require Import Ascii.

Definition registryNamespace : string := "stackdome-registry".
Definition cacheFinalizer : string := "registry.stackdome.io/cache".
Definition nodeRegistryAccessConfigMapName : string := "stackdome-insecure-registries".
Definition registryDeletionRequeueAfter : Duration := second.
Definition registriesKey : string := "registries.json".

(** What [NewRegistryReconciler] initializes the builder with. *)
Definition registryBuilderOpts : RegistryBuilderOpts :=
  mkRegistryBuilderOpts "/var/lib/registry" "/etc/registry/config.json" "/etc/auth/htpasswd" None
    registryNamespace.

(** [client.Patch] with [client.Apply]: what it answers is not used. *)
Class Apply (W O : Type) := kapply : O → SE W unit.

(** JSON of the list of registries. *)
Class RegistriesText := {
  registries_text : RegistryConfig → string;
  parse_registries : string → result RegistryConfig;
}.
Class RegistriesTextLaws {RT : RegistriesText} : Prop :=
  parse_registries_text c : parse_registries (registries_text c) = Ok c.

(** [strings.SplitN(s, ":", 2)], when it has two parts. *)
Fixpoint split_colon (s : string) : option (string * string) :=
  match s with
  | EmptyString => None
  | String c s =>
      if decide (c = ":"%char) then Some ("", s)
      else (λ p, (String c p.1, p.2)) <$> split_colon s
  end.

Section controller.
Context {TD : TextDigest} {CA : ConditionsApi} {OA : OwnerApi} {FA : FinalizerApi} {RT : RegistriesText}.
Context {W : Type} {CK : Clock W} {BC : Bcrypt W} {RB : RegistryBuilder W}.
Context {KR : Kind W ClusterRegistry} {KN : Kind W KNamespace} {KNo : Kind W Node}.
Context {KS : Kind W Secret} {KC : Kind W ConfigMap} {KSt : Kind W StatefulSet} {KSv : Kind W Service}.
Context {KD : Kind W DaemonSet} {KP : Kind W PersistentVolumeClaim}.
Context {AC : Apply W ConfigMap} {ASt : Apply W StatefulSet} {ASv : Apply W Service}.

(** * Status *)

Definition readyStatus (t : Time) (st : ConditionStatus) (reason msg : string) (phase : RegistryPhase)
    (r : ClusterRegistry) : ClusterRegistry :=
  let gen := om_generation (creg_meta r) in
  r <| creg_status ::= λ s, s
    <| rgs_conditions ::= λ cs, set_status_condition t cs
         (new_condition RegistryReadyCondition st gen reason msg) |>
    <| rgs_phase := phase |> <| rgs_observed_generation := gen |> |>.
Definition reportReady (st : ConditionStatus) (reason msg : string) (phase : RegistryPhase)
    : OM W ClusterRegistry unit :=
  t ← call now;
  assign (readyStatus t st reason msg phase).
Definition setInternalURL (url : string) : OM W ClusterRegistry unit :=
  assign (λ r, r <| creg_status ::= λ s, s <| rgs_internal_url := url |> |>).

(** A report that also withdraws the address. *)
Definition reportPending (reason msg : string) : OM W ClusterRegistry subReconcilerResult :=
  _ ← reportReady ConditionFalse reason msg RegistryPhasePending;
  _ ← setInternalURL "";
  mret resultStop.

(** * Steps *)

Definition reconcileValidation : OM W ClusterRegistry subReconcilerResult :=
  r ← look id;
  match ValidateConfiguration r with
  | Err e =>
      _ ← reportReady ConditionFalse "InvalidConfiguration" (error_text e) RegistryPhaseFailed;
      mret resultStop
  | Ok _ => mret resultNil
  end.

Definition reconcileRegistryNamespace : OM W ClusterRegistry subReconcilerResult :=
  let desired := mkKNamespace (object_meta registryNamespace "") in
  createOr (ns_meta desired) desired (λ _, mret resultNil).

Definition htpasswdCredentialsMatch (storedEntry username password : string) : bool :=
  match split_colon storedEntry with
  | None => false
  | Some (u, hash) => bool_decide (u = username) && bcrypt_compare (W:=W) hash password
  end.

Definition reconcileHtPasswordAuthSecret (ref : option CredentialSecretKeyPair)
    : OM W ClusterRegistry subReconcilerResult :=
  match ref with
  | None => fail (Panic "nil pointer dereference")
  | Some ref =>
      r ← look id;
      got ← call (attempt (kget (O:=Secret) (sr_ref_namespace (cs_secret_ref ref)) (sr_ref_name (cs_secret_ref ref))));
      match got with
      | Err e =>
          if is_not_found e
          then reportPending "HtPasswordAuthSecretNotFound" "HtPasswordAuthSecret not found"
          else fail e
      | Ok src =>
          let password := mget (sec_data src) (cs_password_key ref) in
          let username := mget (sec_data src) (cs_username_key ref) in
          if decide (password = "") then reportPending "HtPasswordAuthSecretError" "Missing password in secret"
          else if decide (username = "") then reportPending "HtPasswordAuthSecretError" "Missing username in secret"
          else
            '(desired, key) ← call (BuildHTPasswordSecret r username password);
            m ← of_result (set_owner_reference (creg_meta r) (sec_meta desired));
            let desired := desired <| sec_meta := m |> in
            createOr m desired (λ existing,
              if negb (htpasswdCredentialsMatch (mget (sec_data existing) key) username password)
              then _ ← call (kupdate (existing <| sec_data := sec_data desired |>)); mret resultNil
              else mret resultNil)
      end
  end.
Definition reconcileRegistryAuth : OM W ClusterRegistry subReconcilerResult :=
  r ← look id;
  match crs_auth (creg_spec r) with
  | Some (mkRegistryAuthSpec (Some ref)) => reconcileHtPasswordAuthSecret ref
  | _ => mret resultNil
  end.

Definition reconcileRegistryConfig : OM W ClusterRegistry subReconcilerResult :=
  r ← look id;
  cm ← of_result (BuildConfigurationConfigMap (W:=W) r);
  m ← of_result (set_owner_reference (creg_meta r) (cm_meta cm));
  let desired := cm <| cm_meta := m |> in
  createOr m desired (λ _, _ ← call (kapply desired); mret resultNil).

Definition reconcileRegistryHeadlessService : OM W ClusterRegistry subReconcilerResult :=
  r ← look id;
  svc ← of_result (BuildHeadlessService (W:=W) r);
  m ← of_result (set_controller_reference (creg_meta r) (svc_meta svc));
  let desired := svc <| svc_meta := m |> in
  createOr m desired (λ _, _ ← call (kapply desired); mret resultNil).

Definition statefulSetReady (s : StatefulSet) : bool :=
  (1 <=? sst_ready_replicas (sts_status s))%Z && (1 <=? sst_updated_replicas (sts_status s))%Z &&
  bool_decide (sst_current_revision (sts_status s) = sst_update_revision (sts_status s)).
Definition reconcileRegistryStatefulSet : OM W ClusterRegistry subReconcilerResult :=
  r ← look id;
  sts ← call (BuildStatefulSet r);
  m ← of_result (set_controller_reference (creg_meta r) (sts_meta sts));
  let desired := sts <| sts_meta := m |> in
  createOr m desired (λ existing,
    _ ← call (kapply desired);
    if statefulSetReady existing then mret resultNil
    else reportPending "RegistryStatefulSetNotReady" "Registry StatefulSet is not Available").

Definition reconcileRegistryService : OM W ClusterRegistry subReconcilerResult :=
  r ← look id;
  '(svc, url) ← of_result (BuildService (W:=W) r);
  m ← of_result (set_controller_reference (creg_meta r) (svc_meta svc));
  let desired := svc <| svc_meta := m |> in
  createOr m desired (λ existing,
    _ ← call (kapply desired);
    _ ← assign (λ r, r <| creg_status ::= λ s, s <| rgs_internal_url := url |>
                         <| rgs_service_ip := svs_cluster_ip (svc_spec existing) |> |>);
    mret resultNil).

(** ** The registries the nodes know *)

Definition sharedMeta : ObjectMeta := object_meta nodeRegistryAccessConfigMapName registryNamespace.
Definition withRegistries (c : RegistryConfig) (cm : ConfigMap) : ConfigMap :=
  cm <| cm_data ::= <[ registriesKey := registries_text c ]> |>.

Definition createRegistryConfigCM (r : ClusterRegistry) : SE W unit :=
  let c := (AddRegistry (rgs_service_ip (creg_status r)) (rgs_internal_url (creg_status r)) NewRegistryConfig).2 in
  _ ← kcreate (mkConfigMap sharedMeta {[ registriesKey := registries_text c ]}); mret tt.

Definition getShared : SE W ConfigMap := kget (O:=ConfigMap) registryNamespace nodeRegistryAccessConfigMapName.

Definition reconcileNodeRegistryAccessConfigMap : OM W ClusterRegistry subReconcilerResult :=
  r ← look id;
  let s := creg_status r in
  if decide (rgs_internal_url s = "" ∨ rgs_service_ip s = "") then mret resultNil
  else
    got ← call (attempt getShared);
    match got with
    | Err e =>
        if is_not_found e then _ ← call (createRegistryConfigCM r); mret resultNil
        else fail (Wrapf "failed to get ConfigMap: " e)
    | Ok cm =>
        c ← of_result (parse_registries (mget (cm_data cm) registriesKey));
        match AddRegistry (rgs_service_ip s) (rgs_internal_url s) c with
        | (true, c) => _ ← call (kupdate (withRegistries c cm)); mret resultNil
        | (false, _) => mret resultNil
        end
    end.

Definition detectContainerRuntime : SE W RuntimeType :=
  nodes ← wrapping "failed to list nodes for runtime detection: " (klist (O:=Node) "" []);
  mret match nodes with
       | [] => RuntimeContainerd
       | n :: _ => if contains (node_kubelet_version n) "+k3s" then RuntimeK3s else RuntimeContainerd
       end.

(** [Containers[0].Image]: an index out of range panics. *)
Definition firstImage (d : DaemonSet) : result string :=
  match ps_containers (pt_spec (dss_template (ds_spec d))) with
  | [] => Err (Panic "index out of range")
  | c :: _ => Ok (ct_image c)
  end.
Definition withImageAndHash (image hash : string) (d : DaemonSet) : DaemonSet :=
  d <| ds_spec ::= λ s, s <| dss_template ::= λ t, t
    <| pt_annotations ::= <[ RegistryConfigHashAnnotation := hash ]> |>
    <| pt_spec ::= λ p, p <| ps_containers ::= λ l,
         match l with c :: cs => c <| ct_image := image |> :: cs | [] => [] end |> |> |> |>.
Definition daemonSetAvailable (d : DaemonSet) : bool :=
  let s := ds_status d in
  (dss_desired_number_scheduled s =? dss_number_available s)%Z &&
  (dss_desired_number_scheduled s =? dss_number_ready s)%Z.

Definition judgeDaemonSet (d : DaemonSet) : OM W ClusterRegistry subReconcilerResult :=
  if daemonSetAvailable d then
    _ ← reportReady ConditionTrue "RegistryStatefulSetAndServiceAvailable"
          "Registry StatefulSet and Service are Available" RegistryPhaseRunning;
    mret (resultRequeueAfter (5 * minute)%Z)
  else
    _ ← reportReady ConditionFalse "RegistryConfigReconcilerDaemonsetNotAvailable"
          "RegistryConfigReconcilerDaemonset is not Available" RegistryPhaseFailed;
    mret resultRequeue.

Definition reconcileSharedRegistryConfigDaemonSet : OM W ClusterRegistry subReconcilerResult :=
  runtime ← call detectContainerRuntime;
  cm ← call (wrapping "failed to get shared registry ConfigMap: " getShared);
  let hash := sha256_text (mget (cm_data cm) registriesKey) in
  let desired := BuildRegistryConfigReconcilerDaemonset (W:=W) nodeRegistryAccessConfigMapName registriesKey
                   hash runtime in
  createOr (ds_meta desired) desired (λ existing,
    existingImage ← of_result (firstImage existing);
    desiredImage ← of_result (firstImage desired);
    let existingHash := mget (pt_annotations (dss_template (ds_spec existing))) RegistryConfigHashAnnotation in
    if decide (existingImage ≠ desiredImage ∨ existingHash ≠ hash) then
      _ ← call (kupdate (withImageAndHash desiredImage hash existing));
      mret resultRequeue
    else judgeDaemonSet existing).

(** * The pass *)

Definition subReconcilers : list (OM W ClusterRegistry subReconcilerResult) :=
  [reconcileValidation; reconcileRegistryNamespace; reconcileRegistryAuth; reconcileRegistryConfig;
   reconcileRegistryHeadlessService; reconcileRegistryStatefulSet; reconcileRegistryService;
   reconcileNodeRegistryAccessConfigMap; reconcileSharedRegistryConfigDaemonSet].
Definition reconcile : OM W ClusterRegistry CtrlResult := runSteps subReconcilers.

(** * Deletion *)

Definition registryPersistentVolumeClaimName (statefulSetName : string) : string :=
  "storage-" +:+ statefulSetName +:+ "-0".

(** Is the object still there?  It is told to go when it has not been yet. *)
Definition deleteRegistryResource {O} `{Kind W O} (meta : O → ObjectMeta) (type ns name : string) : SE W bool :=
  let about := type +:+ " " +:+ ns +:+ "/" +:+ name +:+ ": " in
  got ← attempt (kget (O:=O) ns name);
  match got with
  | Err e => if is_not_found e then mret false else fail (Wrapf ("failed to get registry resource " +:+ about) e)
  | Ok o =>
      if deleted (meta o) then mret true
      else
        res ← attempt (kdelete o);
        match res with
        | Ok _ => mret true
        | Err e => if is_not_found e then mret false
                   else fail (Wrapf ("failed to delete registry resource " +:+ about) e)
        end
  end.

Definition noDaemonSet : DaemonSet :=
  mkDaemonSet (object_meta RegistryConfigReconcilerDaemonSetName registryNamespace)
    (mkDaemonSetSpec ∅ empty_pod_template) (mkDaemonSetStatus 0 0 0).

Definition cleanupSharedRegistryConfig (r : ClusterRegistry) : SE W unit :=
  let url := rgs_internal_url (creg_status r) in
  if decide (url = "") then mret tt
  else
    got ← attempt getShared;
    match got with
    | Err e => if is_not_found e then mret tt else fail (Wrapf "failed to get shared registry ConfigMap: " e)
    | Ok cm =>
        c ← wrapping "failed to unmarshal registry config: "
              (of_result (parse_registries (mget (cm_data cm) registriesKey)));
        let c := (RemoveRegistryEndpointEntry url c).2 in
        if decide (ValidRegistries c = []) then
          _ ← wrapping "failed to delete shared registry ConfigMap: " (ignore_not_found (kdelete cm));
          wrapping "failed to delete registry config reconciler DaemonSet: " (ignore_not_found (kdelete noDaemonSet))
        else _ ← kupdate (withRegistries c cm); mret tt
    end.

Definition reconcileDelete : OM W ClusterRegistry CtrlResult :=
  _ ← reportReady ConditionFalse "RegistryDeletion" "Registry is being deleted" RegistryPhasePending;
  r ← look id;
  _ ← call (cleanupSharedRegistryConfig r);
  let name := RegistryStatefulSetName r in
  pending ← call (deleteRegistryResource sts_meta "*v1.StatefulSet" registryNamespace name);
  if (pending : bool) then mret (mkCtrlResult false registryDeletionRequeueAfter)
  else
    pending ← call (deleteRegistryResource pvc_meta "*v1.PersistentVolumeClaim" registryNamespace
                      (registryPersistentVolumeClaimName name));
    if (pending : bool) then mret (mkCtrlResult false registryDeletionRequeueAfter)
    else _ ← setInternalURL ""; mret no_requeue.

Definition Reconcile (name : string) : SE W CtrlResult :=
  got ← attempt (kget (O:=ClusterRegistry) "" name);
  match got with
  | Err e => if is_not_found e then mret no_requeue else fail e
  | Ok r =>
      if om_deletion_timestamp (creg_meta r) is Some _ then
        if contains_finalizer cacheFinalizer (creg_meta r) then
          out ← with_object r reconcileDelete;
          if requeue out.1 || (0 <? requeue_after out.1)%Z then mret out.1
          else
            _ ← kupdate (out.2 <| creg_meta ::= remove_finalizer cacheFinalizer |>);
            mret no_requeue
        else mret no_requeue
      else if negb (contains_finalizer cacheFinalizer (creg_meta r)) then
        _ ← kupdate (r <| creg_meta ::= λ m, (add_finalizer cacheFinalizer m).2 |>);
        mret no_requeue
      else
        out ← with_object r reconcile;
        _ ← kupdate_status out.2;
        mret out.1
  end.

(** The watch on DaemonSets: which registries to look at again. *)
Definition mapDaemonSetToRegistries (d : ObjectMeta) : SE W (list string) :=
  if decide (om_name d ≠ RegistryConfigReconcilerDaemonSetName ∨ om_namespace d ≠ registryNamespace)
  then mret []
  else
    got ← attempt (klist (O:=ClusterRegistry) "" []);
    mret match got with Err _ => [] | Ok l => creg_name <$> l end.
End controller.
