(* ===== verification/RegistryOutcome.v ===== *)
(** What the ClusterRegistry controller guarantees, for any builder that keeps its
    promises. *)
From S2P Require Import Prelude Text Kube Apimachinery Api KubeWorkloads Registries RegistryRef Zot Objects.
From S2P Require Import RegistryController Samples.
From Stdlib Require Import Ascii.

(** * Credentials *)

Lemma split_colon_app u h :
  contains u ":" = false → split_colon (u +:+ ":" +:+ h) = Some (u, h).
Proof.
  induction u as [|c u IH]; [done|]. cbn [contains]. intros [Hc Hu]%orb_false_iff.
  change (String c u +:+ ":" +:+ h) with (String c (u +:+ ":" +:+ h)). cbn [split_colon].
  rewrite decide_False; [by rewrite IH|]. intros ->. by destruct u.
Qed.

Lemma split_colon_first a b s : split_colon s = Some (a, b) → contains a ":" = false.
Proof.
  revert a b. induction s as [|c s IH]; intros a b; [done|]. cbn. case_decide as Hc; [by intros [= <- <-]|].
  destruct (split_colon s) as [[a' b']|] eqn:E; [|done]. cbn. intros [= <- <-].
  cbn [contains]. apply orb_false_iff. split; [|by eapply IH].
  unfold String.prefix. destruct (ascii_dec ":" c) as [<-|]; done.
Qed.

Lemma split_colon_inv s a b : split_colon s = Some (a, b) → s = a +:+ ":" +:+ b.
Proof.
  revert a b. induction s as [|c s IH]; intros a b; [done|]. cbn. case_decide as Hc; [by intros [= <- <-]; subst|].
  destruct (split_colon s) as [[a' b']|] eqn:E; [|done]. cbn. intros [= <- <-]. by rewrite (IH _ _ eq_refl).
Qed.

(** * One pass *)

Section pass.
Context {TD : TextDigest} {CA : ConditionsApi} {CL : ConditionsLaws} {OA : OwnerApi} {RT : RegistriesText}.
Context {W : Type} {CK : Clock W} {BC : Bcrypt W} {RB : RegistryBuilder W}.
Context {KN : Kind W KNamespace} {KNo : Kind W Node} {KS : Kind W Secret} {KC : Kind W ConfigMap}.
Context {KSt : Kind W StatefulSet} {KSv : Kind W Service} {KD : Kind W DaemonSet}.
Context {AC : Apply W ConfigMap} {ASt : Apply W StatefulSet} {ASv : Apply W Service}.

Definition readyView (r : ClusterRegistry) := view (rgs_conditions (creg_status r)) RegistryReadyCondition.
Definition sameObject (r r' : ClusterRegistry) : Prop :=
  creg_meta r' = creg_meta r ∧ creg_spec r' = creg_spec r.

(** The pass said something about readiness, for the current generation. *)
Definition reported (st : ConditionStatus) (reason : string) (r r' : ClusterRegistry) : Prop :=
  sameObject r r' ∧
  (∃ msg, readyView r' = Some (st, om_generation (creg_meta r), reason, msg)) ∧
  rgs_observed_generation (creg_status r') = om_generation (creg_meta r) ∧
  (rgs_phase (creg_status r') = RegistryPhaseRunning ↔ st = ConditionTrue).
(** It said nothing. *)
Definition unreported (r r' : ClusterRegistry) : Prop :=
  sameObject r r' ∧ readyView r' = readyView r ∧ rgs_phase (creg_status r') = rgs_phase (creg_status r) ∧
  rgs_observed_generation (creg_status r') = rgs_observed_generation (creg_status r).

(** ** What the stages of a pass find and do

    A stage is given by what it is to go past it ([goes]), to write an object and
    come back ([writes]), and to fail the registry for a reason ([stalls]), each
    as a relation between the world it begins in and the world it leaves. *)

Record Stage := mkStage {
  goes : W → W → Prop;
  writes : W → W → Prop;
  stalls : string → W → W → Prop;
}.
Definition never (w w' : W) : Prop := False.
Definition neverFails (reason : string) : W → W → Prop := never.
Definition idle (w w' : W) : Prop := w' = w.
Definition tick (w w' : W) : Prop := w' = (time_now w).2.

Definition validationStage (r : ClusterRegistry) : Stage :=
  mkStage (λ w w', ValidateConfiguration (W:=W) r = Ok tt ∧ idle w w') never
    (λ reason w w', reason = "InvalidConfiguration" ∧ (∃ e, ValidateConfiguration (W:=W) r = Err e) ∧ tick w w').

(** The object is there, and is left alone. *)
Definition namespaceStage : Stage :=
  let m := object_meta registryNamespace "" in
  mkStage (λ w w', ∃ o, kget (O:=KNamespace) (om_namespace m) (om_name m) w = (Ok o, w'))
    (madeAnew m (mkKNamespace m)) neverFails.

(** An htpasswd entry for this user and this password. *)
Definition entryFor (username password entry : string) : Prop :=
  contains username ":" = false ∧
  ∃ hash, entry = username +:+ ":" +:+ hash ∧ bcrypt_compare (W:=W) hash password = true.

Definition secretOf (ref : CredentialSecretKeyPair) (w : W) : result Secret * W :=
  kget (O:=Secret) (sr_ref_namespace (cs_secret_ref ref)) (sr_ref_name (cs_secret_ref ref)) w.
Definition userOf (ref : CredentialSecretKeyPair) (s : Secret) : string := mget (sec_data s) (cs_username_key ref).
Definition passwordOf (ref : CredentialSecretKeyPair) (s : Secret) : string := mget (sec_data s) (cs_password_key ref).

(** The credentials are read, complete, and made into a Secret that [k] is given
    with the key of the entry. *)
Definition credentialsBuilt (r : ClusterRegistry) (ref : CredentialSecretKeyPair)
    (k : string → string → Secret → string → W → W → Prop) (w w' : W) : Prop :=
  ∃ src w1 built key w2 m, secretOf ref w = (Ok src, w1) ∧
    userOf ref src ≠ "" ∧ passwordOf ref src ≠ "" ∧
    BuildHTPasswordSecret r (userOf ref src) (passwordOf ref src) w1 = (Ok (built, key), w2) ∧
    set_owner_reference (creg_meta r) (sec_meta built) = Ok m ∧
    k (userOf ref src) (passwordOf ref src) (built <| sec_meta := m |>) key w2 w'.

(** The stored Secret is left alone when its entry is right, and rewritten when
    it is not. *)
Definition entryKept (username password : string) (desired : Secret) (key : string) (w w' : W) : Prop :=
  ∃ existing w1, kget (O:=Secret) (om_namespace (sec_meta desired)) (om_name (sec_meta desired)) w = (Ok existing, w1) ∧
    (entryFor username password (mget (sec_data existing) key) ∧ w' = w1 ∨
     ¬ entryFor username password (mget (sec_data existing) key) ∧
     ∃ o, kupdate (existing <| sec_data := sec_data desired |>) w1 = (Ok o, w')).

Definition authStage (r : ClusterRegistry) : Stage :=
  match crs_auth (creg_spec r) with
  | Some (mkRegistryAuthSpec (Some (Some ref))) =>
      mkStage (credentialsBuilt r ref entryKept)
        (credentialsBuilt r ref (λ _ _ desired _, madeAnew (sec_meta desired) desired))
        (λ reason w w', ∃ got w1, secretOf ref w = (got, w1) ∧ tick w1 w' ∧
           match got with
           | Ok src => (userOf ref src = "" ∨ passwordOf ref src = "") ∧ reason = "HtPasswordAuthSecretError"
           | Err e => is_not_found e = true ∧ reason = "HtPasswordAuthSecretNotFound"
           end)
  | Some (mkRegistryAuthSpec (Some None)) => mkStage never never neverFails
  | _ => mkStage idle never neverFails
  end.

(** An object that is built, owned, found, and applied. *)
Definition appliedAgain {O} `{Kind W O, Apply W O} (m : ObjectMeta) (desired : O) (k : O → Prop) (w w' : W) : Prop :=
  ∃ existing w1, kget (O:=O) (om_namespace m) (om_name m) w = (Ok existing, w1) ∧
    kapply desired w1 = (Ok tt, w') ∧ k existing.

Definition configStage (r : ClusterRegistry) : Stage :=
  let owned (k : ObjectMeta → ConfigMap → Prop) := ∃ cm m, BuildConfigurationConfigMap (W:=W) r = Ok cm ∧
    set_owner_reference (creg_meta r) (cm_meta cm) = Ok m ∧ k m (cm <| cm_meta := m |>) in
  mkStage (λ w w', owned (λ m d, appliedAgain m d (λ _, True) w w')) (λ w w', owned (λ m d, madeAnew m d w w')) neverFails.
Definition headlessStage (r : ClusterRegistry) : Stage :=
  let owned (k : ObjectMeta → Service → Prop) := ∃ svc m, BuildHeadlessService (W:=W) r = Ok svc ∧
    set_controller_reference (creg_meta r) (svc_meta svc) = Ok m ∧ k m (svc <| svc_meta := m |>) in
  mkStage (λ w w', owned (λ m d, appliedAgain m d (λ _, True) w w')) (λ w w', owned (λ m d, madeAnew m d w w')) neverFails.

(** The StatefulSet runs its registry at one revision. *)
Definition setServes (s : StatefulSet) : Prop :=
  (1 <= sst_ready_replicas (sts_status s))%Z ∧ (1 <= sst_updated_replicas (sts_status s))%Z ∧
  sst_current_revision (sts_status s) = sst_update_revision (sts_status s).

Definition statefulSetStage (r : ClusterRegistry) : Stage :=
  let owned (k : ObjectMeta → StatefulSet → W → Prop) (w : W) := ∃ sts w1 m, BuildStatefulSet r w = (Ok sts, w1) ∧
    set_controller_reference (creg_meta r) (sts_meta sts) = Ok m ∧ k m (sts <| sts_meta := m |>) w1 in
  mkStage (λ w w', owned (λ m d w1, appliedAgain m d setServes w1 w') w)
    (λ w w', owned (λ m d w1, madeAnew m d w1 w') w)
    (λ reason w w', reason = "RegistryStatefulSetNotReady" ∧
       owned (λ m d w1, ∃ w2, appliedAgain m d (λ s, ¬ setServes s) w1 w2 ∧ tick w2 w') w).

(** The Service is there; its address is [url], as built, and its cluster IP [ip]. *)
Definition serviceStage (r : ClusterRegistry) (url ip : string) : Stage :=
  mkStage (λ w w', ∃ svc m, BuildService (W:=W) r = Ok (svc, url) ∧
             set_controller_reference (creg_meta r) (svc_meta svc) = Ok m ∧
             appliedAgain m (svc <| svc_meta := m |>) (λ s, svs_cluster_ip (svc_spec s) = ip) w w')
    (λ w w', ∃ svc any m, BuildService (W:=W) r = Ok (svc, any) ∧
       set_controller_reference (creg_meta r) (svc_meta svc) = Ok m ∧ madeAnew m (svc <| svc_meta := m |>) w w')
    neverFails.

(** The shared list of registries names this one. *)
Definition nodesStage (url ip : string) : Stage :=
  mkStage (λ w w', (url = "" ∨ ip = "") ∧ idle w w' ∨
    (url ≠ "" ∧ ip ≠ "") ∧ ∃ got w1, kget (O:=ConfigMap) registryNamespace nodeRegistryAccessConfigMapName w = (got, w1) ∧
      match got with
      | Err e => is_not_found e = true ∧ ∃ o,
          kcreate (mkConfigMap sharedMeta
            {[ registriesKey := registries_text (AddRegistry ip url NewRegistryConfig).2 ]}) w1 = (Ok o, w')
      | Ok cm => ∃ c, parse_registries (mget (cm_data cm) registriesKey) = Ok c ∧
          if (AddRegistry ip url c).1
          then ∃ o, kupdate (withRegistries (AddRegistry ip url c).2 cm) w1 = (Ok o, w')
          else w' = w1
      end) never neverFails.

(** The DaemonSet has the image and the hash of the shared list, and runs
    everywhere it should. *)
Definition daemonSetCurrent (desired existing : DaemonSet) (hash : string) : Prop :=
  ∃ image, firstImage desired = Ok image ∧ firstImage existing = Ok image ∧
    mget (pt_annotations (dss_template (ds_spec existing))) RegistryConfigHashAnnotation = hash.
Definition runsEverywhere (d : DaemonSet) : Prop :=
  dss_number_available (ds_status d) = dss_desired_number_scheduled (ds_status d) ∧
  dss_number_ready (ds_status d) = dss_desired_number_scheduled (ds_status d).

Definition daemonSetStage : Stage :=
  let wanted (k : DaemonSet → string → W → Prop) (w : W) := ∃ runtime w1 cm w2,
    detectContainerRuntime w = (Ok runtime, w1) ∧
    kget (O:=ConfigMap) registryNamespace nodeRegistryAccessConfigMapName w1 = (Ok cm, w2) ∧
    let hash := sha256_text (mget (cm_data cm) registriesKey) in
    k (BuildRegistryConfigReconcilerDaemonset (W:=W) nodeRegistryAccessConfigMapName registriesKey hash runtime) hash w2 in
  let seen (d : DaemonSet) (k : DaemonSet → W → Prop) (w : W) := ∃ existing w1,
    kget (O:=DaemonSet) (om_namespace (ds_meta d)) (om_name (ds_meta d)) w = (Ok existing, w1) ∧ k existing w1 in
  mkStage
    (λ w w', wanted (λ d hash, seen d (λ x w1, daemonSetCurrent d x hash ∧ runsEverywhere x ∧ tick w1 w')) w)
    (λ w w', wanted (λ d hash w1, madeAnew (ds_meta d) d w1 w' ∨
       seen d (λ x w2, ¬ daemonSetCurrent d x hash ∧
         ∃ image o, firstImage d = Ok image ∧ kupdate (withImageAndHash image hash x) w2 = (Ok o, w')) w1) w)
    (λ reason w w', reason = "RegistryConfigReconcilerDaemonsetNotAvailable" ∧
       wanted (λ d hash, seen d (λ x w1, daemonSetCurrent d x hash ∧ ¬ runsEverywhere x ∧ tick w1 w')) w).

(** The stages of a pass over [r], which finds the address [url] and the cluster IP [ip]. *)
Definition stages (r : ClusterRegistry) (url ip : string) : list Stage :=
  [validationStage r; namespaceStage; authStage r; configStage r; headlessStage r; statefulSetStage r;
   serviceStage r url ip; nodesStage url ip; daemonSetStage].

(** The first [n] stages were gone past, and the next is [s], which begins in [w1]. *)
Definition reaches (r : ClusterRegistry) (url ip : string) (n : nat) (s : Stage) (w w1 : W) : Prop :=
  stages r url ip !! n = Some s ∧ chain (goes <$> take n (stages r url ip)) w w1.

Definition passEnds (r : ClusterRegistry) (w : W) (res : CtrlResult) (p' : On W ClusterRegistry) : Prop :=
  let r' := object p' in
  (∃ url ip, res = mkCtrlResult false (5 * minute)%Z ∧
     reported ConditionTrue "RegistryStatefulSetAndServiceAvailable" r r' ∧
     chain (goes <$> stages r url ip) w (outside p') ∧
     rgs_internal_url (creg_status r') = url ∧ rgs_service_ip (creg_status r') = ip) ∨
  (∃ url ip n s w1 reason, reaches r url ip n s w w1 ∧ stalls s reason w1 (outside p') ∧
     reported ConditionFalse reason r r' ∧ res = (if decide (n = 8) then mkCtrlResult true 0 else no_requeue)) ∨
  (∃ url ip n s w1, reaches r url ip n s w w1 ∧ writes s w1 (outside p') ∧
     unreported r r' ∧ res = mkCtrlResult true 0).

(** ** The steps do what the stages say *)

Lemma clock_run (p : On W ClusterRegistry) : call now p = (Ok (time_now (outside p)).1, mkOn (time_now (outside p)).2 (object p)).
Proof. unfold call, now. by destruct (time_now (outside p)). Qed.

Lemma post_reportReady st reason msg phase (Q : unit → On W ClusterRegistry → Prop) p :
  (∀ t w, tick (outside p) w → Q tt (mkOn w (readyStatus t st reason msg phase (object p)))) →
  post (reportReady st reason msg phase) Q p.
Proof.
  intros HQ. apply post_bind. intros t p1 E. rewrite clock_run in E. injection E as <- <-.
  apply post_assign. by apply HQ.
Qed.

Lemma reported_ready t st reason msg phase url r :
  (phase = RegistryPhaseRunning ↔ st = ConditionTrue) →
  reported st reason r (readyStatus t st reason msg phase r) ∧
  reported st reason r ((readyStatus t st reason msg phase r)
                          <| creg_status ::= λ s, s <| rgs_internal_url := url |> |>).
Proof.
  intros Hp. split; (split_and!; [by split| |done|done]); exists msg;
    unfold readyView; cbn; by rewrite view_set_new, decide_True.
Qed.

Lemma post_reportPending reason msg (Q : subReconcilerResult → On W ClusterRegistry → Prop) p :
  (∀ p', tick (outside p) (outside p') → reported ConditionFalse reason (object p) (object p') → Q resultStop p') →
  post (reportPending reason msg) Q p.
Proof.
  intros HQ. unfold reportPending. apply post_bind, post_reportReady. intros t w Ht.
  apply post_bind, post_assign, post_ret, HQ; [done|]. by apply (reported_ready t _ _ _ RegistryPhasePending "").
Qed.

(** A step that keeps to its stage, and leaves the object alone unless it fails it. *)
Definition follows (s : Stage) (p : On W ClusterRegistry) (res : subReconcilerResult) (p' : On W ClusterRegistry) : Prop :=
  (res = resultNil ∧ object p' = object p ∧ goes s (outside p) (outside p')) ∨
  (res = resultRequeue ∧ object p' = object p ∧ writes s (outside p) (outside p')) ∨
  (res = resultStop ∧ ∃ reason, reported ConditionFalse reason (object p) (object p') ∧
     stalls s reason (outside p) (outside p')).

Lemma validation_follows p : post reconcileValidation (follows (validationStage (object p)) p) p.
Proof.
  unfold reconcileValidation. apply post_bind, post_look. cbn.
  destruct (ValidateConfiguration (object p)) as [[]|e] eqn:E; [by apply post_ret; left|].
  apply post_bind, post_reportReady. intros t w Ht. apply post_ret. right. right. split; [done|].
  exists "InvalidConfiguration". split; [by apply (reported_ready t _ _ _ RegistryPhaseFailed "")|]. split; [done|]. by split; [exists e|].
Qed.

Lemma namespace_follows p : post reconcileRegistryNamespace (follows namespaceStage p) p.
Proof.
  unfold reconcileRegistryNamespace. apply post_createOr_at; [by intros w Hw; right; left|].
  intros o w Ho. apply post_ret. left. split_and!; [done..|]. by exists o.
Qed.

Lemma credentials_match entry username password :
  htpasswdCredentialsMatch (W:=W) entry username password = true ↔ entryFor username password entry.
Proof.
  unfold htpasswdCredentialsMatch, entryFor. split.
  - destruct (split_colon entry) as [[u h]|] eqn:E; [|done].
    intros [Hu%bool_decide_eq_true Hh]%andb_true_iff. subst u. split; [by eapply split_colon_first|].
    exists h. split; [by apply split_colon_inv|done].
  - intros [Hc (h & -> & Hh)]. rewrite split_colon_app by done. by rewrite bool_decide_true.
Qed.

Lemma auth_follows p : post reconcileRegistryAuth (follows (authStage (object p)) p) p.
Proof.
  unfold reconcileRegistryAuth, authStage. apply post_bind, post_look. cbn [id].
  destruct (crs_auth (creg_spec (object p))) as [[[[ref|]|]]|];
    [|apply post_fail|by apply post_ret; left..].
  unfold reconcileHtPasswordAuthSecret. apply post_bind, post_look, post_bind, post_call. cbn [id].
  intros got w1 Hg%attempt_inv. destruct got as [src|e].
  2: { destruct (is_not_found e) eqn:He; [|apply post_fail]. apply post_reportPending. intros p' Ht Hr.
       right. right. split; [done|]. eexists. split; [exact Hr|]. by exists (Err e), w1. }
  cbv zeta. destruct (decide _) as [Hp|Hp]; [|destruct (decide _) as [Hu|Hu]].
  1,2: apply post_reportPending; intros p' Ht Hr; right; right; (split; [done|]); eexists;
       (split; [exact Hr|]); exists (Ok src), w1; unfold userOf, passwordOf; by split_and!; auto.
  apply post_bind, post_call. intros [built key] w2 Hb. apply post_bind, post_of_result. intros m Hm.
  apply post_createOr_at; cbn [object outside].
  - intros w' Hw. right. left. split_and!; [done..|]. by exists src, w1, built, key, w2, m.
  - intros existing w3 He.
    assert (∀ w', (entryFor (userOf ref src) (passwordOf ref src) (mget (sec_data existing) key) ∧ w' = w3 ∨
        ¬ entryFor (userOf ref src) (passwordOf ref src) (mget (sec_data existing) key) ∧
        ∃ o, kupdate (existing <| sec_data := sec_data built |>) w3 = (Ok o, w')) →
      credentialsBuilt (object p) ref entryKept (outside p) w') as Hk.
    { intros w' Hw. exists src, w1, built, key, w2, m. split_and!; [done..|]. by exists existing, w3. }
    destruct (htpasswdCredentialsMatch _ _ _) eqn:Ec; cbn [negb].
    + apply post_ret. left. split_and!; [done..|]. apply Hk. left. split; [|done]. by apply credentials_match.
    + apply post_bind, post_call. intros o w4 Hu'. apply post_ret. left. split_and!; [done..|]. apply Hk. right.
      split; [|by exists o]. intros H%credentials_match. unfold userOf, passwordOf in H. congruence.
Qed.

Lemma config_follows p : post reconcileRegistryConfig (follows (configStage (object p)) p) p.
Proof.
  unfold reconcileRegistryConfig. apply post_bind, post_look, post_bind, post_of_result. intros cm Hcm.
  apply post_bind, post_of_result. intros m Hm. apply post_createOr_at.
  - intros w Hw. right. left. split_and!; [done..|]. by exists cm, m.
  - intros o w1 Ho. apply post_bind, post_call. intros [] w2 Ha. apply post_ret. left. split_and!; [done..|].
    exists cm, m. split_and!; [done..|]. by exists o, w1.
Qed.
Lemma headless_follows p : post reconcileRegistryHeadlessService (follows (headlessStage (object p)) p) p.
Proof.
  unfold reconcileRegistryHeadlessService. apply post_bind, post_look, post_bind, post_of_result. intros svc Hs.
  apply post_bind, post_of_result. intros m Hm. apply post_createOr_at.
  - intros w Hw. right. left. split_and!; [done..|]. by exists svc, m.
  - intros o w1 Ho. apply post_bind, post_call. intros [] w2 Ha. apply post_ret. left. split_and!; [done..|].
    exists svc, m. split_and!; [done..|]. by exists o, w1.
Qed.

Lemma set_serves s : statefulSetReady s = true ↔ setServes s.
Proof.
  unfold statefulSetReady, setServes. rewrite !andb_true_iff, !Z.leb_le, bool_decide_eq_true. tauto.
Qed.
Lemma statefulset_follows p : post reconcileRegistryStatefulSet (follows (statefulSetStage (object p)) p) p.
Proof.
  unfold reconcileRegistryStatefulSet. apply post_bind, post_look, post_bind, post_call. intros sts w1 Hs.
  apply post_bind, post_of_result. intros m Hm. apply post_createOr_at.
  - intros w Hw. right. left. split_and!; [done..|]. by exists sts, w1, m.
  - intros o w2 Ho. apply post_bind, post_call. intros [] w3 Ha. destruct (statefulSetReady o) eqn:E.
    + apply post_ret. left. split_and!; [done..|]. exists sts, w1, m. split_and!; [done..|].
      exists o, w2. split_and!; [done..|]. by apply set_serves.
    + apply post_reportPending. intros p' Ht Hr. right. right. split; [done|]. eexists. split; [exact Hr|].
      split; [done|]. exists sts, w1, m. split_and!; [done..|]. exists w3. split; [|done].
      exists o, w2. split_and!; [done..|]. intros H%set_serves. congruence.
Qed.

Lemma nodes_follows p : post reconcileNodeRegistryAccessConfigMap (follows
  (nodesStage (rgs_internal_url (creg_status (object p))) (rgs_service_ip (creg_status (object p)))) p) p.
Proof.
  unfold reconcileNodeRegistryAccessConfigMap. apply post_bind, post_look. cbn [id]. cbv zeta.
  assert (∀ w (r : ClusterRegistry), resultNil = resultNil ∧ object (mkOn w r) = r) as Hsame by done.
  case_decide as Hd; [apply post_ret; left; split_and!; [done..|]; by left|].
  assert (rgs_internal_url (creg_status (object p)) ≠ "" ∧ rgs_service_ip (creg_status (object p)) ≠ "") as Hd' by tauto.
  apply post_bind, post_call. intros got w1 Hg%attempt_inv. destruct got as [cm|e].
  - apply post_bind, post_of_result. intros c Hc.
    destruct (AddRegistry _ _ c) as [[] c'] eqn:Ea.
    + apply post_bind, post_call. intros o w2 Ho. apply post_ret. left. split_and!; [done..|]. right. split; [done|].
      exists (Ok cm), w1. split; [done|]. exists c. split; [done|]. rewrite Ea. by exists o.
    + apply post_ret. left. split_and!; [done..|]. right. split; [done|].
      exists (Ok cm), w1. split; [done|]. exists c. split; [done|]. by rewrite Ea.
  - destruct (is_not_found e) eqn:He; [|apply post_fail]. apply post_bind, post_call. intros [] w2 Hc.
    unfold createRegistryConfigCM in Hc. apply se_bind_inv in Hc as (o & w3 & Hc & [= <-]).
    apply post_ret. left. split_and!; [done..|]. right. split; [done|]. exists (Err e), w1.
    split; [done|]. split; [done|]. by exists o.
Qed.

(** The Service's step alone changes the status without a report. *)
Lemma service_follows p : post reconcileRegistryService (λ res p',
  (res = resultRequeue ∧ object p' = object p ∧
     ∀ url ip, writes (serviceStage (object p) url ip) (outside p) (outside p')) ∨
  (res = resultNil ∧ unreported (object p) (object p') ∧
   goes (serviceStage (object p) (rgs_internal_url (creg_status (object p'))) (rgs_service_ip (creg_status (object p'))))
     (outside p) (outside p'))) p.
Proof.
  unfold reconcileRegistryService. apply post_bind, post_look, post_bind, post_of_result. cbn [id].
  intros [svc url] Hb. apply post_bind, post_of_result. intros m Hm. apply post_createOr_at.
  - intros w Hw. left. split_and!; [done..|]. intros url1 ip1. by exists svc, url, m.
  - intros o w1 Ho. apply post_bind, post_call. intros [] w2 Ha. apply post_bind, post_assign, post_ret.
    right. split_and!; [done..|]. exists svc, m. split_and!; [done..|]. by exists o, w1.
Qed.

Lemma runs_everywhere d : daemonSetAvailable d = true ↔ runsEverywhere d.
Proof.
  unfold daemonSetAvailable, runsEverywhere. rewrite andb_true_iff, !Z.eqb_eq. split; intros []; by split.
Qed.
Lemma daemonset_follows p : post reconcileSharedRegistryConfigDaemonSet (λ res p',
  (res = resultRequeue ∧ object p' = object p ∧ writes daemonSetStage (outside p) (outside p')) ∨
  (res = resultRequeue ∧ ∃ reason, reported ConditionFalse reason (object p) (object p') ∧
     stalls daemonSetStage reason (outside p) (outside p')) ∨
  (res = resultRequeueAfter (5 * minute)%Z ∧
     reported ConditionTrue "RegistryStatefulSetAndServiceAvailable" (object p) (object p') ∧
     (rgs_internal_url (creg_status (object p')) = rgs_internal_url (creg_status (object p)) ∧
      rgs_service_ip (creg_status (object p')) = rgs_service_ip (creg_status (object p))) ∧
     goes daemonSetStage (outside p) (outside p'))) p.
Proof.
  unfold reconcileSharedRegistryConfigDaemonSet. apply post_bind, post_call. intros rt w1 Hrt.
  apply post_bind, post_call. intros cm w2 Hcm. cbv zeta. apply wrapping_ok in Hcm.
  set (hash := sha256_text _). set (d := BuildRegistryConfigReconcilerDaemonset _ _ _ _).
  apply post_createOr_at.
  { intros w Hw. left. split_and!; [done..|]. exists rt, w1, cm, w2. split_and!; [done..|]. by left. }
  intros x w3 Hx. apply post_bind, post_of_result. intros i1 Hi1. apply post_bind, post_of_result. intros i2 Hi2.
  case_decide as Hd.
  { apply post_bind, post_call. intros o w4 Ho. apply post_ret. left. split_and!; [done..|].
    exists rt, w1, cm, w2. split_and!; [done..|]. right. exists x, w3. split; [done|]. split; [|by exists i2, o].
    intros (i & H1 & H2 & H3). change (firstImage d = Ok i) in H1. rewrite H1 in Hi2. rewrite H2 in Hi1.
    destruct Hd as [Hd|Hd]; [congruence|exact (Hd H3)]. }
  assert (daemonSetCurrent d x hash) as Hcur.
  { exists i2. split; [done|]. destruct (decide (i1 = i2)) as [<-|]; [|tauto]. split; [done|].
    destruct (decide (mget (pt_annotations (dss_template (ds_spec x))) RegistryConfigHashAnnotation = hash)); tauto. }
  unfold judgeDaemonSet. destruct (daemonSetAvailable x) eqn:E.
  - apply post_bind, post_reportReady. intros t w Ht. apply post_ret. right. right. split; [done|].
    split; [by apply (reported_ready _ _ _ _ RegistryPhaseRunning "")|]. split; [done|].
    exists rt, w1, cm, w2. split_and!; [done..|]. exists x, w3. split_and!; [done|done| |done]. by apply runs_everywhere.
  - apply post_bind, post_reportReady. intros t w Ht. apply post_ret. right. left. split; [done|]. eexists.
    split; [by apply (reported_ready _ _ _ _ RegistryPhaseFailed "")|]. split; [done|].
    exists rt, w1, cm, w2. split_and!; [done..|]. exists x, w3. split_and!; [done|done| |done].
    intros H%runs_everywhere. congruence.
Qed.

(** ** The chain *)

Lemma unreported_refl r : unreported r r.
Proof. by split_and!. Qed.

Lemma reported_after r r1 st reason r' : unreported r r1 → reported st reason r1 r' → reported st reason r r'.
Proof. intros ((Hm & Hs) & _) ((Hm' & Hs') & Hv & Ho & Hp). rewrite Hm in *. split_and!; [split; congruence|done..]. Qed.

(** A step of stage [n] that keeps to it, then the rest of the chain. *)
Lemma post_follows n s step steps r w0 (p : On W ClusterRegistry) :
  n < 8 → (∃ url ip, reaches r url ip n s w0 (outside p)) → unreported r (object p) →
  post step (follows s p) p →
  (∀ w, goes s (outside p) w → post (runSteps steps) (passEnds r w0) (mkOn w (object p))) →
  post (runSteps (step :: steps)) (passEnds r w0) p.
Proof.
  intros Hn (url & ip & Hr) Hu Hstep Hrest. cbn [runSteps]. apply post_bind. eapply post_mono; [apply Hstep|].
  intros res [w o]. unfold follows. cbn [object outside]. intros [(-> & -> & Hg)|[(-> & -> & Hw)|(-> & reason & Hrep & Hs)]].
  - by apply Hrest.
  - apply post_ret. right. right. by exists url, ip, n, s, (outside p).
  - apply post_ret. right. left. exists url, ip, n, s, (outside p), reason.
    split_and!; [done|done|by eapply reported_after|]. rewrite decide_False; [done|lia].
Qed.

Lemma reaches_next r url ip n s s' w w1 w2 :
  reaches r url ip n s w w1 → goes s w1 w2 → stages r url ip !! (S n) = Some s' →
  reaches r url ip (S n) s' w w2.
Proof. intros [Hn Hc] Hg Hn'. split; [done|]. by eapply chain_next. Qed.

(** The end of the chain, once the Service's step has found [url] and [ip]. *)
Lemma tail_ends r w0 (p : On W ClusterRegistry) :
  let url := rgs_internal_url (creg_status (object p)) in
  let ip := rgs_service_ip (creg_status (object p)) in
  unreported r (object p) → reaches r url ip 7 (nodesStage url ip) w0 (outside p) →
  post (runSteps [reconcileNodeRegistryAccessConfigMap; reconcileSharedRegistryConfigDaemonSet]) (passEnds r w0) p.
Proof.
  intros url ip Hu Hr. eapply (post_follows 7); [lia|by eauto|done|apply nodes_follows|].
  intros w Hg. apply (reaches_next _ _ _ _ _ daemonSetStage _ _ _ Hr) in Hg; [|done]. cbn [runSteps].
  apply post_bind. eapply post_mono; [apply daemonset_follows|]. intros res p'. cbv beta. cbn [object outside].
  intros [(-> & Ho & Hw)|[(-> & reason & Hrep & Hs)|(-> & Hrep & [Hurl Hip] & Hgo)]]; apply post_ret.
  - right. right. exists url, ip, 8, daemonSetStage, w. split_and!; [done|done|by rewrite Ho|done].
  - right. left. exists url, ip, 8, daemonSetStage, w, reason.
    split_and!; [done|done|by eapply reported_after|done].
  - left. exists url, ip. split_and!; [done|by eapply reported_after| |done|done].
    destruct Hg as [H8 Hc]. exact (chain_next goes (stages r url ip) 8 _ _ _ _ H8 Hc Hgo).
Qed.

(** C21. What a pass can say of a registry.  A pass goes through nine stages, each
    beginning in the world the one before it left: the configuration is valid; the
    namespace exists; the credentials, if the registry has any, are read, complete
    and in the htpasswd Secret; the configuration and the headless Service are
    applied; the StatefulSet is applied, and the one seen has a ready and an
    updated replica at one revision; the Service is applied, which gives the
    address and the cluster IP the status records; the shared list names the
    registry (unless it has no address or no IP); and the DaemonSet seen has the
    image and hash of that list and is available and ready on every node it is
    scheduled to.  Ready, for the current generation and in phase Running, only
    when the run went through all nine, and then the next look is in five minutes.
    Not Ready, and in another phase, where the run went through the stages before
    one that failed the registry, for the reason of that stage; the pass ends
    there (and is repeated at once only for the DaemonSet).  Or nothing, where the
    last thing the run did was to create an object it did not find, or to bring
    the DaemonSet up to date, and the pass comes back at once.  Metadata and spec
    are never touched. *)
Theorem registry_pass_spec (p p' : On W ClusterRegistry) (res : CtrlResult) :
  reconcile p = (Ok res, p') → passEnds (object p) (outside p) res p'.
Proof.
  enough (post reconcile (passEnds (object p) (outside p)) p) as H by apply H.
  pose proof (unreported_refl (object p)) as Hu. destruct p as [w0 r]. cbn [object outside] in *.
  unfold reconcile, subReconcilers.
  assert (∀ url ip, reaches r url ip 0 (validationStage r) w0 w0) as R0 by done.
  assert (∃ url ip, reaches r url ip 0 (validationStage r) w0 w0) as R by by exists "", "".
  eapply (post_follows 0); [lia|exact R|done|apply validation_follows|]. clear R. intros w1 G1.
  assert (∀ url ip, reaches r url ip 1 namespaceStage w0 w1) as R1 by (intros; by eapply reaches_next).
  eapply (post_follows 1); [lia|by exists "", ""|done|apply namespace_follows|]. intros w2 G2.
  assert (∀ url ip, reaches r url ip 2 (authStage r) w0 w2) as R2 by (intros; by eapply reaches_next).
  eapply (post_follows 2); [lia|by exists "", ""|done|apply auth_follows|]. intros w3 G3.
  assert (∀ url ip, reaches r url ip 3 (configStage r) w0 w3) as R3 by (intros; by eapply reaches_next).
  eapply (post_follows 3); [lia|by exists "", ""|done|apply config_follows|]. intros w4 G4.
  assert (∀ url ip, reaches r url ip 4 (headlessStage r) w0 w4) as R4 by (intros; by eapply reaches_next).
  eapply (post_follows 4); [lia|by exists "", ""|done|apply headless_follows|]. intros w5 G5.
  assert (∀ url ip, reaches r url ip 5 (statefulSetStage r) w0 w5) as R5 by (intros; by eapply reaches_next).
  eapply (post_follows 5); [lia|by exists "", ""|done|apply statefulset_follows|]. intros w6 G6.
  assert (∀ url ip, reaches r url ip 6 (serviceStage r url ip) w0 w6) as R6 by (intros; by eapply reaches_next).
  cbn [runSteps object]. apply post_bind. eapply post_mono; [apply service_follows|]. intros r1 p1. cbv beta.
  cbn [object outside]. intros [(-> & Ho & Hw)|(-> & Hu1 & Hg)].
  - apply post_ret. right. right. exists "", "", 6, (serviceStage r "" ""), w6.
    split_and!; [apply R6|apply Hw|by rewrite Ho|done].
  - apply tail_ends; [done|]. eapply reaches_next; [apply R6|exact Hg|done].
Qed.
End pass.

(** * Credentials, with zot's entries *)

Section credentials.
Context {GT : GoText} {TD : TextDigest} {QP : QuantityParse} {ZT : ZotConfigText} {DP : DurationParse}.
Context {CA : ConditionsApi} {OA : OwnerApi} {W : Type} {CK : Clock W} {BC : Bcrypt W} {BL : BcryptLaws W}.
Context {KC : Kind W ConfigMap} {KS : Kind W Secret} (z : zotRegistry).
#[local] Instance zot : RegistryBuilder W := zot_builder z.

Lemma zot_secret_entry r username password w s key w' :
  zotBuildSecret z r username password w = (Ok (s, key), w') →
  ∃ hash w0, bcrypt_hash password w0 = (Ok hash, w') ∧ mget (sec_data s) key = username +:+ ":" +:+ hash.
Proof.
  unfold zotBuildSecret. destruct (crs_auth (creg_spec r)) as [[[ref|]]|]; try done.
  intros (h & w1 & Hh%wrapping_ok & H)%se_bind_inv. injection H as <- <- <-. exists h, w. split; [done|].
  unfold mget. cbn [sec_data]. by rewrite lookup_singleton_eq.
Qed.

(** C38. The htpasswd entry the builder writes, the test that reads it back, and
    what a pass does with the Secret that holds it.  The entry of a user name
    without a colon, and of a password hashed in the run that wrote it, is
    recognised as that of a name and password exactly when the name is the same
    and bcrypt finds that the hash is of the password; of its own password it
    does.  The entry of a name with a colon is never recognised as that of this
    name, whatever the password.  A pass whose source Secret gives a name and a
    password (neither is empty) and that finds this entry stored leaves the Secret
    alone if the entry is recognised: so the credentials are not written again
    until they change.  It writes the Secret anew if the name or the password has
    changed; and in every pass if the name has a colon.  Either way the step ends
    with the chain going on, in the world its last call left: the read of the
    stored Secret, or the update. *)
Theorem htpasswd_roundtrip (r0 : ClusterRegistry) (username password : string) (w0 w0' : W) (s : Secret)
    (key : string) :
  zotBuildSecret z r0 username password w0 = (Ok (s, key), w0') →
  ∃ hash v, bcrypt_hash password v = (Ok hash, w0') ∧ bcrypt_compare (W:=W) hash password = true ∧
  (contains username ":" = false → ∀ u q, htpasswdCredentialsMatch (W:=W) (mget (sec_data s) key) u q = true ↔
     u = username ∧ bcrypt_compare (W:=W) hash q = true) ∧
  (contains username ":" = true → ∀ q, htpasswdCredentialsMatch (W:=W) (mget (sec_data s) key) username q = false) ∧
  (∀ ref r w src w1 built k w2 m existing w3,
     secretOf ref w = (Ok src, w1) → userOf ref src ≠ "" → passwordOf ref src ≠ "" →
     zotBuildSecret z r (userOf ref src) (passwordOf ref src) w1 = (Ok (built, k), w2) →
     set_owner_reference (creg_meta r) (sec_meta built) = Ok m →
     kget (O:=Secret) (om_namespace m) (om_name m) w2 = (Ok existing, w3) →
     mget (sec_data existing) k = mget (sec_data s) key →
     let step := reconcileHtPasswordAuthSecret (Some ref) (mkOn w r) in
     (userOf ref src = username → contains username ":" = false →
      bcrypt_compare (W:=W) hash (passwordOf ref src) = true → step = (Ok resultNil, mkOn w3 r)) ∧
     ((if contains username ":" then userOf ref src = username
       else userOf ref src ≠ username ∨ bcrypt_compare (W:=W) hash (passwordOf ref src) = false) →
      ∀ o w4, kupdate (existing <| sec_data := sec_data built |>) w3 = (Ok o, w4) →
        step = (Ok resultNil, mkOn w4 r))).
Proof.
  intros Hz. destruct (zot_secret_entry _ _ _ _ _ _ _ Hz) as (hash & v & Hh & He).
  exists hash, v. split; [done|]. split; [by eapply bcrypt_compare_hash|]. rewrite He. clear Hz He.
  assert (contains username ":" = false → ∀ u q,
    htpasswdCredentialsMatch (W:=W) (username +:+ ":" +:+ hash) u q = true ↔
    u = username ∧ bcrypt_compare (W:=W) hash q = true) as Hm.
  { intros Eu u q. rewrite credentials_match. unfold entryFor. split.
    - intros [Hc (h & E & Hq)]. pose proof (split_colon_app u h Hc) as Hs.
      rewrite <- E, split_colon_app in Hs by done. by simplify_eq.
    - intros (-> & Hq). split; [done|]. by exists hash. }
  assert (contains username ":" = true → ∀ q,
    htpasswdCredentialsMatch (W:=W) (username +:+ ":" +:+ hash) username q = false) as Hn.
  { intros Eu q. apply not_true_iff_false. rewrite credentials_match. intros [Hc _]. congruence. }
  split; [exact Hm|]. split; [exact Hn|].
  intros ref r w src w1 built k w2 m existing w3 Hsrc Hu Hp Hb Hown Hget Hent. cbv zeta.
  assert (reconcileHtPasswordAuthSecret (Some ref) (mkOn w r) =
    (if negb (htpasswdCredentialsMatch (W:=W) (username +:+ ":" +:+ hash) (userOf ref src) (passwordOf ref src))
     then _ ← call (kupdate (existing <| sec_data := sec_data built |>)); mret resultNil
     else mret resultNil) (mkOn w3 r)) as ->.
  { unfold reconcileHtPasswordAuthSecret, secretOf in *. se_step by reflexivity.
    se_step by (apply call_ok, attempt_ok, Hsrc). cbv zeta.
    rewrite decide_False by exact Hp. rewrite decide_False by exact Hu.
    se_step by (apply call_ok, Hb). cbn [object outside id]. se_step by (unfold of_result; rewrite Hown; reflexivity).
    unfold createOr. se_step by (apply call_ok, attempt_ok, Hget). by rewrite Hent. }
  split.
  - intros E Hc Hq. by rewrite (proj2 (Hm Hc _ _) (conj E Hq)).
  - intros Hne o w4 Ho.
    assert (htpasswdCredentialsMatch (W:=W) (username +:+ ":" +:+ hash) (userOf ref src) (passwordOf ref src) = false) as ->.
    { destruct (contains username ":") eqn:Ec; [by rewrite Hne, Hn|].
      apply not_true_iff_false. rewrite Hm by done. intros []. destruct Hne; congruence. }
    cbn [negb]. by se_step by (apply call_ok, Ho).
Qed.
End credentials.

(** * Deletion *)

Section deletion.
Context {TD : TextDigest} {CA : ConditionsApi} {OA : OwnerApi} {FA : FinalizerApi} {RT : RegistriesText}.
Context {W : Type} {CK : Clock W} {BC : Bcrypt W} {RB : RegistryBuilder W} {KR : Kind W ClusterRegistry}.
Context {KN : Kind W KNamespace} {KNo : Kind W Node} {KS : Kind W Secret} {KC : Kind W ConfigMap}.
Context {KSt : Kind W StatefulSet} {KSv : Kind W Service} {KD : Kind W DaemonSet}.
Context {KP : Kind W PersistentVolumeClaim} {AC : Apply W ConfigMap} {ASt : Apply W StatefulSet}.
Context {ASv : Apply W Service}.

(** The API server answers that there is no such object, to a read or to the
    deletion of what a read found. *)
Definition gone {O} `{Kind W O} (ns name : string) (w w' : W) : Prop :=
  ∃ e, is_not_found e = true ∧
    (kget (O:=O) ns name w = (Err e, w') ∨
     ∃ o w1, kget (O:=O) ns name w = (Ok o, w1) ∧ kdelete o w1 = (Err e, w')).

Lemma deleted_gone {O} {KO : Kind W O} (meta : O → ObjectMeta) type ns name w w' :
  deleteRegistryResource meta type ns name w = (Ok false, w') → gone (O:=O) ns name w w'.
Proof.
  unfold deleteRegistryResource. intros (got & w1 & Hg%attempt_inv & H)%se_bind_inv. destruct got as [o|e].
  - destruct (deleted (meta o)); [done|]. apply se_bind_inv in H as (res & w2 & Hd%attempt_inv & H).
    destruct res as [u|e]; [done|]. destruct (is_not_found e) eqn:En; [|done]. injection H as <-.
    exists e. split; [done|]. right. by exists o, w1.
  - destruct (is_not_found e) eqn:En; [|done]. injection H as <-. exists e. split; [done|]. by left.
Qed.

(** What stands between a deleted registry and the removal of its finalizer. *)
Definition tornDown (r : ClusterRegistry) (w w' : W) : Prop :=
  ∃ t w0 w1 w2, now w = (Ok t, w0) ∧
    cleanupSharedRegistryConfig
      (readyStatus t ConditionFalse "RegistryDeletion" "Registry is being deleted" RegistryPhasePending r) w0
      = (Ok tt, w1) ∧
    gone (O:=StatefulSet) registryNamespace (RegistryStatefulSetName r) w1 w2 ∧
    gone (O:=PersistentVolumeClaim) registryNamespace
      (registryPersistentVolumeClaimName (RegistryStatefulSetName r)) w2 w'.

Lemma delete_ends (r : ClusterRegistry) (w w' : W) res o :
  with_object r reconcileDelete w = (Ok (res, o), w') →
  (res = mkCtrlResult false registryDeletionRequeueAfter) ∨
  (res = no_requeue ∧ creg_meta o = creg_meta r ∧ tornDown r w w').
Proof.
  unfold with_object. destruct (reconcileDelete (mkOn w r)) as [[res'|e] p'] eqn:E; [|done].
  intros [= <- <- <-]. unfold reconcileDelete in E.
  apply se_bind_inv in E as ([] & p1 & Hr & E). unfold reportReady in Hr.
  apply se_bind_inv in Hr as (t & p0 & Ht & Ha). unfold call in Ht. cbn [outside object] in Ht.
  destruct (now w) as [rt w0] eqn:En. injection Ht as -> <-. injection Ha as <-.
  apply se_bind_inv in E as (r1 & p2 & [= <- <-] & E). cbn [id object outside] in E.
  apply se_bind_inv in E as ([] & p3 & Hc & E). unfold call in Hc. cbn [outside object] in Hc.
  destruct (cleanupSharedRegistryConfig _ w0) as [rc w1] eqn:Ec. injection Hc as -> <-.
  apply se_bind_inv in E as (gone1 & p4 & Hs & E). unfold call in Hs. cbn [outside object] in Hs.
  destruct (deleteRegistryResource sts_meta _ _ _ w1) as [rs w2] eqn:Es. injection Hs as -> <-.
  destruct gone1; [injection E as <- <-; by left|].
  apply se_bind_inv in E as (gone2 & p5 & Hp & E). unfold call in Hp. cbn [outside object] in Hp.
  destruct (deleteRegistryResource pvc_meta _ _ _ w2) as [rp w3] eqn:Ep. injection Hp as -> <-.
  destruct gone2; [injection E as <- <-; by left|].
  apply se_bind_inv in E as ([] & p6 & Hu & E). injection Hu as <-. injection E as <- <-.
  right. split; [done|]. split; [done|]. exists t, w0, w1, w2. split; [done|]. split; [done|].
  split; [exact (deleted_gone _ _ _ _ _ _ Es)|exact (deleted_gone _ _ _ _ _ _ Ep)].
Qed.

(** The order in which a registry goes.  Its finalizer is removed only after
    the nodes' shared configuration has been rid of it, then its StatefulSet was
    found gone, and then its storage: the claim is not looked at while the
    StatefulSet, whose pod writes to it, is still there.  Until all that is done
    each pass asks to come back in a second and keeps the finalizer. *)
Theorem registry_finalizer_last {FL : FinalizerLaws} (name : string) (w w0 w' : W) (r : ClusterRegistry)
    (res : CtrlResult) :
  kget (O:=ClusterRegistry) "" name w = (Ok r, w0) →
  is_Some (om_deletion_timestamp (creg_meta r)) → cacheFinalizer ∈ om_finalizers (creg_meta r) →
  Reconcile name w = (Ok res, w') →
  (res = mkCtrlResult false registryDeletionRequeueAfter ∧
   ∃ o, with_object r reconcileDelete w0 = (Ok (res, o), w')) ∨
  (res = no_requeue ∧ ∃ w1 o o',
     tornDown r w0 w1 ∧ om_finalizers (creg_meta o) = filter (.≠ cacheFinalizer) (om_finalizers (creg_meta r)) ∧
     kupdate (O:=ClusterRegistry) o w1 = (Ok o', w')).
Proof.
  intros Hg [t Ht] Hin. unfold Reconcile. intros (got & w1 & Hr%attempt_inv & H)%se_bind_inv.
  rewrite Hg in Hr. injection Hr as <- <-. rewrite Ht in H.
  assert (contains_finalizer cacheFinalizer (creg_meta r) = true) as Hc by by apply contains_finalizer_in.
  rewrite Hc in H. apply se_bind_inv in H as ([res1 o] & w2 & Hd & H). cbn [fst snd] in H.
  destruct (delete_ends _ _ _ _ _ Hd) as [->|(-> & Hm & Htd)].
  - injection H as <- <-. left. split; [done|]. by exists o.
  - cbn [requeue requeue_after no_requeue orb] in H. change ((0 <? 0)%Z) with false in H. cbv iota in H.
    apply se_bind_inv in H as (o' & w3 & Hu & H). injection H as <- <-.
    right. split; [done|]. do 3 eexists. split; [exact Htd|]. split; [|exact Hu].
    cbn. by rewrite remove_finalizer_spec, Hm.
Qed.
End deletion.

(** * A concrete registry *)

Import Cluster.
#[local] Instance plain_bcrypt {W} : Bcrypt W := {
  bcrypt_hash p w := (Ok ("hash of " +:+ p), w);
  bcrypt_compare h p := bool_decide (h = "hash of " +:+ p);
}.
#[local] Instance plain_bcrypt_laws : BcryptLaws Z.
Proof. intros p w h w' [= <- _]. by apply bool_decide_eq_true_2. Qed.
#[local] Instance one_digest : TextDigest := λ _, "0123456789abcdef".
#[local] Instance any_size : QuantityParse := λ s, Ok s.
#[local] Instance any_duration : DurationParse := λ _, Ok 0%Z.
#[local] Instance config_text : ZotConfigText := λ _, "{}".
#[local] Instance registry_list : RegistriesText := {
  registries_text _ := "[]";
  parse_registries _ := Ok [];
}.
#[local] Instance applies {O} : Apply Z O := λ _ t, (Ok tt, t).

Definition plain_registry : ClusterRegistry := sample_registry [] "".
Definition locked_registry : ClusterRegistry :=
  plain_registry <| creg_spec ::= λ s, mkClusterRegistrySpec (crs_owner s) (crs_storage s)
    (Some (mkRegistryAuthSpec (Some None))) (crs_port s) |>.

Lemma htpasswd_roundtrip_witness :
  ∃ s key, zotBuildSecret (W:=Z) sample_zot locked_registry "ann" "secret" 5%Z = (Ok (s, key), 5%Z) ∧
    htpasswdCredentialsMatch (W:=Z) (mget (sec_data s) key) "ann" "secret" = true ∧
    htpasswdCredentialsMatch (W:=Z) (mget (sec_data s) key) "ann" "other" = false.
Proof.
  destruct (zotBuildSecret (W:=Z) sample_zot locked_registry "ann" "secret" 5%Z) as [[[s key]|e] w] eqn:E;
    [|exfalso; vm_compute in E; discriminate].
  assert (w = 5%Z) as -> by (vm_compute in E; by injection E as _ _ <-).
  exists s, key. split; [reflexivity|].
  destruct (htpasswd_roundtrip (W:=Z) _ _ _ _ _ _ _ _ E) as (hash & v & Hh & Hc & Hm & _).
  split; [apply Hm; [reflexivity|split; [reflexivity|exact Hc]]|]. apply not_true_iff_false.
  rewrite Hm by reflexivity. injection Hh as <- _. intros [_ H]. vm_compute in H. discriminate.
Defined.

(** The objects of a registry that is up. *)
#[local] Instance a_namespace : Kind Z KNamespace := only_objects [mkKNamespace (object_meta registryNamespace "")].
#[local] Instance a_config_map : Kind Z ConfigMap :=
  only_objects [mkConfigMap sharedMeta {[ ZotConfigKey := "{}"; registriesKey := "[]" ]}].
#[local] Instance builder : RegistryBuilder Z := zot_builder sample_zot.
#[local] Instance a_stateful_set : Kind Z StatefulSet :=
  only_objects [(zotStatefulSet sample_zot plain_registry "1Gi" ∅ [] [])
                  <| sts_status := mkStatefulSetStatus 0 1 1 1 1 "a" "a" |>].
#[local] Instance a_service : Kind Z Service := only_objects [zotService sample_zot plain_registry "reg" "10.0.0.7"].
#[local] Instance a_daemon_set : Kind Z DaemonSet :=
  only_objects [(zotDaemonSet sample_zot nodeRegistryAccessConfigMapName registriesKey "0123456789abcdef"
                   RuntimeContainerd) <| ds_status := mkDaemonSetStatus 1 1 1 |>].

Lemma registry_pass_spec_witness :
  ∃ p', reconcile (mkOn 5%Z plain_registry) = (Ok (mkCtrlResult false (5 * minute)%Z), p') ∧
    reported ConditionTrue "RegistryStatefulSetAndServiceAvailable" plain_registry (object p') ∧
    ∃ url ip, chain (goes <$> stages plain_registry url ip) 5%Z (outside p').
Proof.
  destruct (reconcile (mkOn 5%Z plain_registry)) as [[res|e] p'] eqn:E; [|exfalso; vm_compute in E; discriminate].
  assert (res = mkCtrlResult false (5 * minute)%Z) as -> by (vm_compute in E; by injection E as <- _).
  exists p'. split; [reflexivity|].
  destruct (registry_pass_spec (W:=Z) _ _ _ E) as
    [(url & ip & _ & Hr & Hc & _)|[(url & ip & n & s & w1 & reason & _ & _ & _ & H)|(url & ip & n & s & w1 & _ & _ & _ & H)]].
  - split; [exact Hr|]. exists url, ip. exact Hc.
  - exfalso. destruct (decide (n = 8)); discriminate H.
  - exfalso. discriminate H.
Defined.

Definition dying_registry : ClusterRegistry :=
  plain_registry <| creg_meta ::= λ m, m <| om_finalizers := [cacheFinalizer] |>
                                         <| om_deletion_timestamp := Some 4%Z |> |>.
Section dying.
#[local] Instance a_registry : Kind Z ClusterRegistry := only_objects [dying_registry].
#[local] Instance no_sets : Kind Z StatefulSet := only_objects [].

Lemma registry_finalizer_last_witness :
  ∃ w', Reconcile "reg" 5%Z = (Ok no_requeue, w') ∧ ∃ w1, tornDown dying_registry 5%Z w1.
Proof.
  destruct (Reconcile "reg" 5%Z) as [[res|e] w'] eqn:E; [|exfalso; vm_compute in E; discriminate].
  assert (res = no_requeue) as -> by (vm_compute in E; by injection E as <- _).
  exists w'. split; [reflexivity|].
  destruct (registry_finalizer_last (W:=Z) "reg" 5%Z 5%Z w' dying_registry no_requeue) as [[H _]|(_ & w1 & o & o' & H & _)];
    [reflexivity|by eexists|by apply list_elem_of_singleton|exact E|exfalso; vm_compute in H; discriminate H|].
  by exists w1.
Defined.
End dying.
