(* ===== verification/Users.v ===== *)
(** Workspace users: the User resource (api/users/v1alpha1/workspaceuser_types.go),
    the names of what is made for one (internal/controller/workspaceuser/names.go)
    and the controller that makes it (workspaceuser_controller.go). *)
From S2P Require Import Prelude Text Kube Api KubeWorkloads Objects.
From Stdlib Require Import Ascii.

(** * The resource *)

Inductive UserPhase := UserPhaseUnset | UserPhasePhasePending | UserPhasePhaseReady.
Definition UserAvailable : string := "Available".
Definition StackdomeObjectGeneration : string := "managedobject.stackdome.io/generation".

Record UserSpec := mkUserSpec {
  us_namespaces : list string;
  us_username : string;
  us_access_rules : list PolicyRule;
  us_base_domain : string;
}.
Record UserStatus := mkUserStatus {
  ust_observed_server_generation : Z;
  ust_conditions : list Condition;
  ust_namespaces : list string;
  ust_service_account_name : string;
  ust_service_account_token : string;
  ust_phase : UserPhase;
  ust_status_hash : string;
}.
#[export] Instance eta_user_status : Eta UserStatus := λ s,
  mkUserStatus (ust_observed_server_generation s) (ust_conditions s) (ust_namespaces s)
    (ust_service_account_name s) (ust_service_account_token s) (ust_phase s) (ust_status_hash s).
Record User := mkUser { user_meta : ObjectMeta; user_spec : UserSpec; user_status : UserStatus }.
#[export] Instance eta_user : Eta User := λ u, mkUser (user_meta u) (user_spec u) (user_status u).
Definition user_name (u : User) : string := om_name (user_meta u).

(** [fnv] over [spew] of a status whose hash is cleared. *)
Class UserStatusDigest := digest_user_status : UserStatus → string.

(** * Names *)

Definition ServiceAccountName (u : User) : string := us_username (user_spec u) +:+ "-service-account".
Definition UserRoleName (u : User) : string := user_name u +:+ "-role".
Definition UserRoleBindingname (u : User) : string := UserRoleName u +:+ "-rolebinding".
Definition ServiceAccountSecretName (u : User) : string := ServiceAccountName u +:+ "-secret".
Definition BusyBoxPVCName : string := "busybox-pvc".
Definition UserConfigNamespace (u : User) : string := user_name u +:+ "-config".
Definition WorkspaceUserLabel : string := "workspaceuser.stackdome.io/workspace-user".

(** * Numbers

    The value of [strconv.ParseInt(s, 10, 64)] when its error is dropped: zero for
    a text that is no number, the nearest bound for one out of range. *)

Definition digit_value (c : ascii) : Z := Z.of_nat (nat_of_ascii c) - 48.
Fixpoint decimal_value (acc : Z) (s : string) : option Z :=
  match s with
  | EmptyString => Some acc
  | String c s => if is_digit c then decimal_value (10 * acc + digit_value c)%Z s else None
  end.
Definition parse_int64 (s : string) : Z :=
  let '(negative, digits) :=
    match s with
    | String "-" s => (true, s)
    | String "+" s => (false, s)
    | _ => (false, s)
    end in
  if decide (digits = "") then 0%Z
  else match decimal_value 0 digits with
       | None => 0%Z
       | Some n => if negative then Z.max min_duration (- n) else Z.min max_duration n
       end.

Definition HasSameController `{OwnerApi} (a b : ObjectMeta) : bool :=
  match get_controller_of a, get_controller_of b with
  | Some ra, Some rb => bool_decide (ref_uid ra = ref_uid rb)
  | _, _ => false
  end.

(** * The controller *)

Section controller.
Context {CA : ConditionsApi} {OA : OwnerApi} {SD : UserStatusDigest}.
Context {W : Type} {CK : Clock W} {KU : Kind W User} {KN : Kind W KNamespace} {KA : Kind W ServiceAccount}.
Context {KR : Kind W ClusterRole} {KB : Kind W RoleBinding} {KS : Kind W Secret}.
Context {KP : Kind W PersistentVolumeClaim} {KJ : Kind W Job}.

(** [SetControllerReference] on an object about to be made. *)
Definition controlled (u : User) (m : ObjectMeta) : result ObjectMeta :=
  set_controller_reference (user_meta u) m.
Definition with_owners (owners m : ObjectMeta) : ObjectMeta :=
  m <| om_owner_references := om_owner_references owners |>.

(** An object found under the wanted name is taken over when another controls it. *)
Definition adopt {O} `{Kind W O} (meta : O → ObjectMeta) (put : ObjectMeta → O → O) (desired : ObjectMeta)
    (existing : O) : OM W User subReconcilerResult :=
  if HasSameController (meta existing) desired then mret resultNil
  else
    _ ← call (kupdate (put (with_owners desired (meta existing)) existing));
    mret resultRequeue.

Definition put_namespace (m : ObjectMeta) (n : KNamespace) : KNamespace := n <| ns_meta := m |>.

Definition reconcileConfigNamespace : OM W User subReconcilerResult :=
  u ← look id;
  m ← of_result (controlled u (object_meta (UserConfigNamespace u) ""));
  createOr m (mkKNamespace m) (adopt ns_meta put_namespace m).

(** ** The workspaces *)

Definition userLabel (u : User) : gmap string string := {[ WorkspaceUserLabel := user_name u ]}.
Definition desiredNamespace (u : User) (ns : string) : result ObjectMeta :=
  controlled u ((object_meta ns "") <| om_labels := userLabel u |>).

(** Delete the listed objects whose name or namespace is not wanted. *)
Fixpoint deleteUnwanted {O} `{Kind W O} (key : O → string) (wanted : list string) (l : list O) : SE W unit :=
  match l with
  | [] => mret tt
  | o :: l =>
      _ ← (if decide (key o ∈ wanted) then mret tt else kdelete o);
      deleteUnwanted key wanted l
  end.

Definition reconcileNamespaces : OM W User subReconcilerResult :=
  u ← look id;
  let wanted := us_namespaces (user_spec u) in
  desired ← of_result (mapM (desiredNamespace u) wanted);
  res ← inTurn (λ m, createOr m (mkKNamespace m) (adopt ns_meta put_namespace m)) desired;
  if decide (res = resultNil) then
    l ← call (klist (O:=KNamespace) "" [userLabel u]);
    _ ← call (deleteUnwanted (λ n, om_name (ns_meta n)) wanted l);
    mret resultNil
  else mret res.

(** ** The account and its access *)

(** As [createOr], but the error of the read is told again as text. *)
Definition createOrTold {O} `{Kind W O} (what : string) (m : ObjectMeta) (desired : O)
    (found : O → OM W User subReconcilerResult) : OM W User subReconcilerResult :=
  got ← call (attempt (kget (O:=O) (om_namespace m) (om_name m)));
  match got with
  | Err e =>
      if is_not_found e then _ ← call (kcreate desired); mret resultRequeue
      else fail (Errorf ("failed to get " +:+ what +:+ ": " +:+ error_text e))
  | Ok existing => found existing
  end.

Definition reconcileSA : OM W User subReconcilerResult :=
  u ← look id;
  m ← of_result (controlled u (object_meta (ServiceAccountName u) (UserConfigNamespace u)));
  createOrTold "ServiceAccount" m (mkServiceAccount m) (adopt sa_meta (λ m a, a <| sa_meta := m |>) m).

Definition reconcileRole : OM W User subReconcilerResult :=
  u ← look id;
  let rules := us_access_rules (user_spec u) in
  m ← of_result (controlled u (object_meta (UserRoleName u) ""));
  createOr m (mkClusterRole m rules) (λ existing,
    if negb (HasSameController (cr_meta existing) m) || negb (bool_decide (rules = cr_rules existing)) then
      _ ← call (kupdate (existing <| cr_meta ::= with_owners m |> <| cr_rules := rules |>));
      mret resultRequeue
    else mret resultNil).

Definition desiredRoleBinding (u : User) (ns : string) : result RoleBinding :=
  m ← controlled u ((object_meta (UserRoleBindingname u) ns) <| om_labels := userLabel u |>);
  Ok (mkRoleBinding m [mkSubject "ServiceAccount" (ServiceAccountName u) (UserConfigNamespace u)]
        (mkRoleRef "ClusterRole" (UserRoleName u) "rbac.authorization.k8s.io")).
Definition ensureRoleBinding (b : RoleBinding) : OM W User subReconcilerResult :=
  createOrTold "RoleBinding" (rb_meta b) b (adopt rb_meta (λ m b, b <| rb_meta := m |>) (rb_meta b)).
Definition reconcileRoleBinding : OM W User subReconcilerResult :=
  u ← look id;
  let wanted := us_namespaces (user_spec u) in
  desired ← of_result (mapM (desiredRoleBinding u) wanted);
  res ← inTurn ensureRoleBinding desired;
  if decide (res = resultNil) then
    l ← call (klist (O:=RoleBinding) "" [userLabel u]);
    _ ← call (deleteUnwanted (λ b, om_namespace (rb_meta b)) wanted l);
    mret resultNil
  else mret res.

Definition desiredTokenSecret (u : User) : result Secret :=
  m ← controlled u ((object_meta (ServiceAccountSecretName u) (UserConfigNamespace u))
        <| om_annotations := {[ "kubernetes.io/service-account.name" := ServiceAccountName u ]} |>);
  Ok (mkSecret m "kubernetes.io/service-account-token" ∅).
Definition reconcileSASecret : OM W User subReconcilerResult :=
  u ← look id;
  desired ← of_result (desiredTokenSecret u);
  let m := sec_meta desired in
  createOr m desired (adopt sec_meta (λ m s, s <| sec_meta := m |>) m).

(** ** The status *)

Definition setAvailable (t : Time) (st : ConditionStatus) (reason msg : string) (u : User) : User :=
  u <| user_status ::= λ s, s <| ust_conditions ::= λ cs, set_status_condition t cs
    (new_condition UserAvailable st (om_generation (user_meta u)) reason msg) |> |>.
Definition observeServerGeneration (u : User) : User :=
  match om_labels (user_meta u) !! StackdomeObjectGeneration with
  | Some v => u <| user_status ::= λ s, s <| ust_observed_server_generation := parse_int64 v |> |>
  | None => u
  end.
Definition readyUser (t : Time) (token : string) (u : User) : User :=
  let u := u <| user_status ::= λ s, s
    <| ust_namespaces := us_namespaces (user_spec u) |> <| ust_phase := UserPhasePhaseReady |>
    <| ust_service_account_name := ServiceAccountName u |> <| ust_service_account_token := token |> |> in
  let u := setAvailable t ConditionTrue "WorkspaceUserReady" "WorkspaceUser ready" u in
  u <| user_status ::= λ s, s <| ust_status_hash := digest_user_status (s <| ust_status_hash := "" |>) |> |>.

Definition statusReconciler : OM W User subReconcilerResult :=
  _ ← assign observeServerGeneration;
  u ← look id;
  secret ← call (kget (O:=Secret) (UserConfigNamespace u) (ServiceAccountSecretName u));
  t ← call now;
  match sec_data secret !! "token" with
  | None =>
      _ ← assign (setAvailable t ConditionFalse "WorkspaceUserNotYetReady"
            "WorkspaceUser not yet ready. Missing service account token");
      mret resultRequeue
  | Some token => _ ← assign (readyUser t token); mret resultNil
  end.

(** ** The pass *)

Definition reconcileFns : list (OM W User subReconcilerResult) :=
  [reconcileConfigNamespace; reconcileNamespaces; reconcileSA; reconcileRole; reconcileRoleBinding;
   reconcileSASecret; statusReconciler].
Definition reconcile : OM W User CtrlResult := runSteps reconcileFns.

Definition Reconcile (ns name : string) : SE W CtrlResult :=
  got ← attempt (kget (O:=User) ns name);
  match got with
  | Err e => if is_not_found e then mret no_requeue else fail e
  | Ok u =>
      out ← with_object u reconcile;
      _ ← kupdate_status out.2;
      mret out.1
  end.

(** ** A step that is not in the chain *)

Definition findJobCompleteCondition (job : Job) : option JobCondition :=
  List.find (λ c, bool_decide (jc_type c = JobComplete)) (jst_conditions (job_status job)).
Definition busyBoxClaim (ns : string) : PersistentVolumeClaim :=
  mkPersistentVolumeClaim (object_meta BusyBoxPVCName ns) ["ReadWriteOnce"] "500Mi" None.
Definition busyBoxJob (ns : string) : Job :=
  mkJob (object_meta "copy-busybox-binary-to-volume" ns)
    (mkJobSpec None None None None (mkPodTemplateSpec ∅ ∅
       (empty_pod_spec
          <| ps_containers :=
               [mkContainer "rsync" "docker.io/ashishmax31327/stackdome-tools:1" "" "" ["sh"; "-c"]
                  ["cp /app/rsync /binaries/rsync && chmod +x /binaries/rsync && cp /bin/busybox /binaries/busybox && chmod +x /binaries/busybox"]
                  [] [] [mkKVolumeMount "binaries" "/binaries" "" false] None None None (∅, ∅) None []] |>
          <| ps_restart_policy := "OnFailure" |>
          <| ps_volumes := [mkKVolume "binaries" (ClaimVolume BusyBoxPVCName)] |>)))
    (mkJobStatus [] 0 None).
Definition reportNotCopied : OM W User unit :=
  t ← call now;
  assign (setAvailable t ConditionFalse "BusyBoxBinaryNotYetCopied"
    "WorkspaceConfiguration not yet ready. BusyBox binary not yet copied.").

Definition reconcileBusyBoxBinaryVolume : OM W User subReconcilerResult :=
  u ← look id;
  let ns := UserConfigNamespace u in
  pm ← of_result (controlled u (pvc_meta (busyBoxClaim ns)));
  claim ← call (attempt (kget (O:=PersistentVolumeClaim) ns BusyBoxPVCName));
  match claim with
  | Err e =>
      if is_not_found e
      then _ ← call (kcreate ((busyBoxClaim ns) <| pvc_meta := pm |>)); mret (resultRequeueAfter (5 * second)%Z)
      else fail e
  | Ok _ =>
      jm ← of_result (controlled u (job_meta (busyBoxJob ns)));
      got ← call (attempt (kget (O:=Job) ns "copy-busybox-binary-to-volume"));
      match got with
      | Err e =>
          if is_not_found e
          then _ ← reportNotCopied; _ ← call (kcreate ((busyBoxJob ns) <| job_meta := jm |>)); mret resultRequeue
          else fail e
      | Ok job =>
          match findJobCompleteCondition job with
          | Some c => if decide (jc_status c = ConditionTrue) then mret resultNil
                      else _ ← reportNotCopied; mret resultStop
          | None => _ ← reportNotCopied; mret resultStop
          end
      end
  end.
End controller.
