(* ===== verification/UserOutcome.v ===== *)
(** What the workspace-user controller guarantees. *)
From S2P Require Import Prelude Text Kube Apimachinery Api KubeWorkloads Objects Users Samples.
From Stdlib Require Import Ascii.

Section outcome.
Context {CA : ConditionsApi} {CL : ConditionsLaws} {OA : OwnerApi} {OL : OwnerLaws} {SD : UserStatusDigest}.
Context {W : Type} {CK : Clock W} {KN : Kind W KNamespace} {KA : Kind W ServiceAccount}.
Context {KR : Kind W ClusterRole} {KB : Kind W RoleBinding} {KS : Kind W Secret}.

(** * Ownership *)

Lemma same_controller_spec u existing m m' :
  controlled u m = Ok m' →
  HasSameController existing m' = is_controlled_by existing (user_meta u).
Proof.
  intros Hm. pose proof (controlled_after_set_controller _ _ _ Hm) as HC.
  rewrite controlled_by_controller in HC |- *. unfold HasSameController.
  destruct (get_controller_of existing) as [r|], (get_controller_of m') as [r'|]; try done.
  apply bool_decide_eq_true in HC. by rewrite HC.
Qed.

(** The API server shows an object of this name that the user controls, in answer
    to the one call that leads from [w] to [w']. *)
Definition seen {O} `{Kind W O} (meta : O → ObjectMeta) (u : User) (ns name : string) (P : O → Prop)
    (w w' : W) : Prop :=
  ∃ o, kget (O:=O) ns name w = (Ok o, w') ∧ is_controlled_by (meta o) (user_meta u) = true ∧ P o.
Definition any {O} (o : O) : Prop := True.

Lemma post_adopt {O} {KO : Kind W O} (meta : O → ObjectMeta) put u m m' existing
    (Q : subReconcilerResult → On W User → Prop) p :
  controlled u m = Ok m' →
  (is_controlled_by (meta existing) (user_meta u) = true → Q resultNil p) →
  (∀ w, Q resultRequeue (mkOn w (object p))) →
  post (adopt meta put m' existing) Q p.
Proof.
  intros Hm HY HN. unfold adopt. rewrite (same_controller_spec u _ m m') by done.
  destruct (is_controlled_by _ _); [by apply post_ret, HY|].
  apply post_bind, post_call. intros o w _. apply post_ret, HN.
Qed.

Lemma post_createOrTold {O} {KO : Kind W O} what m (desired : O) found
    (Q : subReconcilerResult → On W User → Prop) p :
  (∀ w, Q resultRequeue (mkOn w (object p))) →
  (∀ existing w', kget (om_namespace m) (om_name m) (outside p) = (Ok existing, w') →
     post (found existing) Q (mkOn w' (object p))) →
  post (createOrTold what m desired found) Q p.
Proof.
  intros HC HF. apply post_bind, post_call. intros got w Hg%attempt_inv. destruct got as [o|e]; [by eapply HF|].
  destruct (is_not_found e); [|apply post_fail]. apply post_bind, post_call. intros o w' _. apply post_ret, HC.
Qed.

(** A step that leaves the user as it is, and that lets the pass go on only when it
    has led from the one world to the other as [R] says. *)
Definition ensures (R : W → W → Prop) (p : On W User) (res : subReconcilerResult) (p' : On W User) : Prop :=
  object p' = object p ∧ ((res = resultNil ∧ R (outside p) (outside p')) ∨ res = resultRequeue).

Lemma ensures_requeue R p w : ensures R p resultRequeue (mkOn w (object p)).
Proof. split; [done|by right]. Qed.

(** A wanted object, where it is looked for. *)
Lemma post_found {O} {KO : Kind W O} (meta : O → ObjectMeta) put u m m' existing w' p :
  controlled u m = Ok m' → kget (O:=O) (om_namespace m') (om_name m') (outside p) = (Ok existing, w') →
  post (adopt meta put m' existing) (ensures (seen meta u (om_namespace m) (om_name m) any) p) (mkOn w' (object p)).
Proof.
  intros Hm Hg. apply (post_adopt _ _ u m); [done| |intros w; exact (ensures_requeue _ p w)].
  intros HC. split; [done|]. left. split; [done|]. exists existing.
  destruct (set_controller_keeps _ _ _ Hm) as [refs ->]. by split.
Qed.
Lemma ensured_object {O} {KO : Kind W O} (meta : O → ObjectMeta) put u m m' (desired : O) p :
  controlled u m = Ok m' →
  post (createOr m' desired (adopt meta put m')) (ensures (seen meta u (om_namespace m) (om_name m) any) p) p.
Proof.
  intros Hm. apply post_createOr_at; [intros; apply ensures_requeue|]. intros existing w' Hg. by apply post_found.
Qed.
Lemma ensured_object_told {O} {KO : Kind W O} what (meta : O → ObjectMeta) put u m m' (desired : O) p :
  controlled u m = Ok m' →
  post (createOrTold what m' desired (adopt meta put m'))
    (ensures (seen meta u (om_namespace m) (om_name m) any) p) p.
Proof.
  intros Hm. apply post_createOrTold; [intros; apply ensures_requeue|]. intros existing w' Hg. by apply post_found.
Qed.

(** Items ensured in turn, and then the clean-up of what is no longer wanted. *)
Lemma ensured_all {A B} (f : A → result B) (step : B → OM W User subReconcilerResult) (R : A → W → W → Prop) l k p :
  mapM f l = Ok k →
  (∀ a b p, f a = Ok b → post (step b) (ensures (R a) p) p) →
  post (inTurn step k) (ensures (chain (R <$> l)) p) p.
Proof.
  intros Hk Hs. revert k p Hk. induction l as [|a l IH]; intros k p.
  - intros [= <-]. apply post_ret. split; [done|]. by left.
  - cbn. destruct (f a) as [b|e] eqn:E; [|done]. cbn. destruct (mapM f l) as [k'|e]; [|done].
    cbn. intros [= <-]. cbn [inTurn]. apply post_bind. eapply post_mono; [by apply Hs|].
    intros res p' [Ho [[-> Ha]| ->]]; cbv beta.
    + rewrite decide_True by done. eapply post_mono; [by apply IH|].
      intros res' p2 [Ho' [[-> Hl]| ->]]; (split; [congruence|]); [left|by right]. split; [done|]. by eexists.
    + rewrite decide_False by done. apply post_ret. split; [done|]. by right.
Qed.
Lemma ensured_then {A B} (f : A → result B) (step : B → OM W User subReconcilerResult) (R : A → W → W → Prop)
    (R' : W → W → Prop) l k (rest : OM W User subReconcilerResult) p :
  mapM f l = Ok k →
  (∀ a b p, f a = Ok b → post (step b) (ensures (R a) p) p) →
  (∀ p, post rest (ensures R' p) p) →
  post (res ← inTurn step k; if decide (res = resultNil) then rest else mret res)
    (ensures (chain [chain (R <$> l); R']) p) p.
Proof.
  intros Hk Hs Hr. apply post_bind. eapply post_mono; [by apply (ensured_all f step R l)|].
  intros res p' [Ho [[-> Hl]| ->]]; cbv beta.
  - rewrite decide_True by done. eapply post_mono; [apply Hr|]. intros res p2 [Ho2 [[-> Hc]| ->]].
    + split; [congruence|]. left. split; [done|]. eexists. split; [exact Hl|]. by eexists.
    + split; [congruence|]. by right.
  - rewrite decide_False by done. apply post_ret. split; [done|]. by right.
Qed.

(** * The steps *)

(** What carries the user's label, of the keys the spec does not want, is deleted:
    every one of the list, in its order, and no other. *)
Definition swept {O} `{Kind W O} (key : O → string) (u : User) (w w' : W) : Prop :=
  ∃ l w1, klist (O:=O) "" [{[ WorkspaceUserLabel := user_name u ]}] w = (Ok l, w1) ∧
    chain ((λ o w w', kdelete o w = (Ok tt, w')) <$> filter (λ o, key o ∉ us_namespaces (user_spec u)) l) w1 w'.

Lemma deleteUnwanted_run {O} {KO : Kind W O} (key : O → string) wanted (l : list O) w w' :
  deleteUnwanted key wanted l w = (Ok tt, w') →
  chain ((λ o w w', kdelete o w = (Ok tt, w')) <$> filter (λ o, key o ∉ wanted) l) w w'.
Proof.
  revert w. induction l as [|o l IH]; intros w; cbn [deleteUnwanted]; [by intros [= <-]|].
  intros ([] & w1 & Hd & Hl)%se_bind_inv. apply IH in Hl. destruct (decide (key o ∈ wanted)).
  - injection Hd as <-. rewrite filter_cons_False; [done|]. intros Hn. by apply Hn.
  - rewrite filter_cons_True by done. by exists w1.
Qed.
Lemma sweep_step {O} {KO : Kind W O} (key : O → string) u (p : On W User) :
  post (l ← call (klist (O:=O) "" [userLabel u]);
        _ ← call (deleteUnwanted key (us_namespaces (user_spec u)) l); mret resultNil)
    (ensures (swept key u) p) p.
Proof.
  apply post_bind, post_call. intros l w1 Hl. apply post_bind, post_call. intros [] w2 Hd%deleteUnwanted_run.
  apply post_ret. split; [done|]. left. split; [done|]. by exists l, w1.
Qed.

Definition ownNamespaceSeen (u : User) : W → W → Prop := seen ns_meta u "" (UserConfigNamespace u) any.
Definition namespacesSeen (u : User) : W → W → Prop :=
  chain [chain ((λ ns, seen ns_meta u "" ns any) <$> us_namespaces (user_spec u));
         swept (λ n, om_name (ns_meta n)) u].
Definition accountSeen (u : User) : W → W → Prop :=
  seen sa_meta u (UserConfigNamespace u) (ServiceAccountName u) any.
Definition roleSeen (u : User) : W → W → Prop :=
  seen cr_meta u "" (UserRoleName u) (λ r, cr_rules r = us_access_rules (user_spec u)).
Definition bindingsSeen (u : User) : W → W → Prop :=
  chain [chain ((λ ns, seen rb_meta u ns (UserRoleBindingname u) any) <$> us_namespaces (user_spec u));
         swept (λ b, om_namespace (rb_meta b)) u].
Definition secretSeen (u : User) : W → W → Prop :=
  seen sec_meta u (UserConfigNamespace u) (ServiceAccountSecretName u) any.

Lemma own_namespace_step p : post reconcileConfigNamespace (ensures (ownNamespaceSeen (object p)) p) p.
Proof.
  unfold reconcileConfigNamespace. apply post_bind, post_look, post_bind, post_of_result. intros m Hm.
  exact (ensured_object _ _ _ _ _ _ _ Hm).
Qed.
Lemma namespaces_step p : post reconcileNamespaces (ensures (namespacesSeen (object p)) p) p.
Proof.
  unfold reconcileNamespaces. apply post_bind, post_look, post_bind, post_of_result. intros k Hk.
  apply (ensured_then (desiredNamespace (object p))); [done| |intros p'; apply sweep_step].
  intros ns m p' Hm. exact (ensured_object _ _ _ _ _ _ _ Hm).
Qed.
Lemma account_step p : post reconcileSA (ensures (accountSeen (object p)) p) p.
Proof.
  unfold reconcileSA. apply post_bind, post_look, post_bind, post_of_result. intros m Hm.
  exact (ensured_object_told _ _ _ _ _ _ _ _ Hm).
Qed.
Lemma role_step p : post reconcileRole (ensures (roleSeen (object p)) p) p.
Proof.
  unfold reconcileRole. apply post_bind, post_look, post_bind, post_of_result. intros m Hm.
  apply post_createOr_at; [intros; apply ensures_requeue|]. intros existing w' Hg.
  rewrite (same_controller_spec _ _ _ _ Hm). cbn [id].
  destruct (is_controlled_by _ _) eqn:HC; cbn [negb orb]; [|repeat on_step; exact (ensures_requeue _ p _)].
  destruct (bool_decide _) eqn:HR; cbn [negb]; [|repeat on_step; exact (ensures_requeue _ p _)].
  apply bool_decide_eq_true in HR. apply post_ret. split; [done|]. left. split; [done|].
  exists existing. destruct (set_controller_keeps _ _ _ Hm) as [refs ->]. by split_and!.
Qed.
Lemma bindings_step p : post reconcileRoleBinding (ensures (bindingsSeen (object p)) p) p.
Proof.
  unfold reconcileRoleBinding. apply post_bind, post_look, post_bind, post_of_result. intros k Hk.
  apply (ensured_then (desiredRoleBinding (object p))); [done| |intros p'; apply sweep_step].
  intros ns b p'. unfold desiredRoleBinding, ensureRoleBinding.
  destruct (controlled (object p) _) as [m|e] eqn:Hm; [|done]. intros [= <-].
  exact (ensured_object_told _ _ _ _ _ _ _ _ Hm).
Qed.
Lemma secret_step p : post reconcileSASecret (ensures (secretSeen (object p)) p) p.
Proof.
  unfold reconcileSASecret, desiredTokenSecret. apply post_bind, post_look, post_bind, post_of_result.
  intros s. destruct (controlled _ _) as [m|e] eqn:Hm; [|done]. intros [= <-].
  exact (ensured_object _ _ _ _ _ _ _ Hm).
Qed.

Definition availableView (u : User) := view (ust_conditions (user_status u)) UserAvailable.
Definition sameUser (u u' : User) : Prop := user_meta u' = user_meta u ∧ user_spec u' = user_spec u.

(** The Secret is read, and then the clock. *)
Definition tokenRead (u : User) (token : option string) (w w' : W) : Prop :=
  ∃ secret w1, kget (O:=Secret) (UserConfigNamespace u) (ServiceAccountSecretName u) w = (Ok secret, w1) ∧
    sec_data secret !! "token" = token ∧ w' = (time_now w1).2.

(** The status of a user who can work: it repeats the spec, carries [token], and its
    hash is that of all the rest of it. *)
Definition readyFor (u u' : User) (token : string) : Prop :=
  let s := user_status u' in
  ust_service_account_token s = token ∧
  ust_namespaces s = us_namespaces (user_spec u) ∧ ust_phase s = UserPhasePhaseReady ∧
  ust_service_account_name s = ServiceAccountName u ∧
  availableView u' = Some (ConditionTrue, om_generation (user_meta u), "WorkspaceUserReady", "WorkspaceUser ready") ∧
  ust_status_hash s = digest_user_status (s <| ust_status_hash := "" |>).
(** The status of one whose token is not there yet: of what it said before, only the
    condition changes. *)
Definition tokenMissing (u u' : User) : Prop :=
  let s := user_status u' in
  (∃ msg, availableView u' =
     Some (ConditionFalse, om_generation (user_meta u), "WorkspaceUserNotYetReady", msg)) ∧
  ust_phase s = ust_phase (user_status u) ∧
  ust_service_account_token s = ust_service_account_token (user_status u).

Lemma observe_keeps u :
  let u' := observeServerGeneration u in
  sameUser u u' ∧ ust_phase (user_status u') = ust_phase (user_status u) ∧
  ust_service_account_token (user_status u') = ust_service_account_token (user_status u).
Proof. unfold observeServerGeneration. by destruct (_ !! _). Qed.

Lemma same_user_names u u' :
  sameUser u u' → UserConfigNamespace u' = UserConfigNamespace u ∧ ServiceAccountName u' = ServiceAccountName u ∧
                  ServiceAccountSecretName u' = ServiceAccountSecretName u.
Proof.
  intros [Hm Hs]. unfold UserConfigNamespace, ServiceAccountSecretName, ServiceAccountName, user_name.
  by rewrite Hm, Hs.
Qed.

Lemma status_step p : post statusReconciler (λ res p', sameUser (object p) (object p') ∧
  ((res = resultNil ∧ ∃ token, tokenRead (object p) (Some token) (outside p) (outside p') ∧
      readyFor (object p) (object p') token) ∨
   (res = resultRequeue ∧ tokenRead (object p) None (outside p) (outside p') ∧
      tokenMissing (object p) (object p')))) p.
Proof.
  unfold statusReconciler. apply post_bind, post_assign, post_bind, post_look. cbn [object outside id].
  destruct (observe_keeps (object p)) as (Hu & Hph & Htok). set (u := observeServerGeneration (object p)) in *.
  destruct (same_user_names _ _ Hu) as (Hns & Hsa & Hsec).
  apply post_bind, post_call. intros secret w Hg. cbn [object outside] in *. rewrite Hns, Hsec in Hg.
  apply post_bind, post_call. intros t w' Ht. cbn [object outside] in *.
  assert (w' = (time_now w).2) as -> by (unfold now in Ht; destruct (time_now w); by injection Ht).
  destruct (sec_data secret !! "token") as [token|] eqn:Et.
  - apply post_bind, post_assign, post_ret. cbn [object]. split; [exact Hu|]. left. split; [done|].
    exists token. split; [by exists secret, w|]. split_and!; try done.
    + cbn. by rewrite (proj2 Hu).
    + unfold availableView. cbn. by rewrite view_set_new, decide_True, (proj1 Hu) by done.
  - apply post_bind, post_assign, post_ret. cbn [object]. split; [exact Hu|]. right. split; [done|].
    split; [by exists secret, w|]. split_and!; [|done|done]. eexists. unfold availableView. cbn.
    by rewrite view_set_new, decide_True, (proj1 Hu).
Qed.

(** * The pass *)

(** What is provided for a user, in the order a pass does it. *)
Definition provisioned (u : User) : list (W → W → Prop) :=
  [ownNamespaceSeen u; namespacesSeen u; accountSeen u; roleSeen u; bindingsSeen u; secretSeen u].

Lemma post_ensures_step (step : OM W User subReconcilerResult) steps (R : W → W → Prop)
    (Q : CtrlResult → On W User → Prop) p :
  post step (ensures R p) p → (∀ w, Q (mkCtrlResult true 0) (mkOn w (object p))) →
  (∀ w, R (outside p) w → post (runSteps steps) Q (mkOn w (object p))) → post (runSteps (step :: steps)) Q p.
Proof.
  intros Hs HR HN. apply post_runSteps_cons. eapply post_mono; [apply Hs|].
  intros res [w o] [Ho [[-> HP]| ->]]; cbn in Ho; subst o; [left|right; right; left]; by auto.
Qed.

(** C24. When a workspace user is reported ready.  A pass that ends without asking to
    come back has made, one after another and each from the world the one before it
    left, the steps that provide for the user: it read the namespace for their
    account; read every namespace of the spec, in the order of the spec, and
    deleted those of the user's label that the spec does not name; read the
    account; read the role, whose rules are exactly those of the spec; read a role
    binding in every namespace of the spec and deleted those of the user's label in
    others; and read the Secret.  All that it read is controlled by the user.  Last
    it reads the Secret again, and only then reports Ready, with the token of that
    read.  A pass that says that the token is missing has made the same steps, and
    found no token in the last read.  Any other pass leaves the user as it was.
    These two ask to come back at once. *)
Theorem workspace_user_ready (p p' : On W User) (res : CtrlResult) :
  reconcile p = (Ok res, p') →
  sameUser (object p) (object p') ∧
  ((res = no_requeue ∧ ∃ token,
      chain (provisioned (object p) ++ [tokenRead (object p) (Some token)]) (outside p) (outside p') ∧
      readyFor (object p) (object p') token) ∨
   (res = mkCtrlResult true 0 ∧
      chain (provisioned (object p) ++ [tokenRead (object p) None]) (outside p) (outside p') ∧
      tokenMissing (object p) (object p')) ∨
   (res = mkCtrlResult true 0 ∧ object p' = object p)).
Proof.
  set (Q := λ (res : CtrlResult) (p' : On W User), sameUser (object p) (object p') ∧
  ((res = no_requeue ∧ ∃ token,
      chain (provisioned (object p) ++ [tokenRead (object p) (Some token)]) (outside p) (outside p') ∧
      readyFor (object p) (object p') token) ∨
   (res = mkCtrlResult true 0 ∧
      chain (provisioned (object p) ++ [tokenRead (object p) None]) (outside p) (outside p') ∧
      tokenMissing (object p) (object p')) ∨
   (res = mkCtrlResult true 0 ∧ object p' = object p))).
  revert res p'. fold (post reconcile Q p).
  assert (∀ w, Q (mkCtrlResult true 0) (mkOn w (object p))) as HR
    by (intros w; split; [done|]; right; by auto).
  unfold reconcile, reconcileFns. destruct p as [w0 u].
  apply (post_ensures_step _ _ _ _ _ (own_namespace_step _)); [exact HR|]. intros w1 H1.
  apply (post_ensures_step _ _ _ _ _ (namespaces_step (mkOn w1 u))); [exact HR|]. intros w2 H2.
  apply (post_ensures_step _ _ _ _ _ (account_step (mkOn w2 u))); [exact HR|]. intros w3 H3.
  apply (post_ensures_step _ _ _ _ _ (role_step (mkOn w3 u))); [exact HR|]. intros w4 H4.
  apply (post_ensures_step _ _ _ _ _ (bindings_step (mkOn w4 u))); [exact HR|]. intros w5 H5.
  apply (post_ensures_step _ _ _ _ _ (secret_step (mkOn w5 u))); [exact HR|]. intros w6 H6.
  assert (chain (provisioned u) w0 w6) as HP.
  { exists w1. split; [exact H1|]. exists w2. split; [exact H2|]. exists w3. split; [exact H3|].
    exists w4. split; [exact H4|]. exists w5. split; [exact H5|]. by exists w6. }
  apply post_runSteps_cons. eapply post_mono; [apply status_step|]. cbn [object outside].
  intros r p7 [Hu [(-> & token & Ht & Hr)|(-> & Ht & Hr)]]; [left|right; right; left]; (split; [done|]).
  - apply post_ret. split; [done|]. left. split; [done|]. exists token. split; [|done]. by eapply chain_snoc.
  - split; [done|]. right. left. split; [done|]. split; [|done]. by eapply chain_snoc.
Qed.
End outcome.

(** * The footprint of a pass *)

Section footprint.
Context {CA : ConditionsApi} {OA : OwnerApi} {OL : OwnerLaws} {SD : UserStatusDigest}.
Context {W : Type} {CK : Clock W} {KN : Kind W KNamespace} {KA : Kind W ServiceAccount}.
Context {KR : Kind W ClusterRole} {KB : Kind W RoleBinding} {KS : Kind W Secret}.
Context (I : W → Prop) (u : User).

(** [I] survives reads, and writes of objects the user controls. *)
Record Kept {O} `{Kind W O} (meta : O → ObjectMeta) : Prop := {
  kept_get ns n : Inv I (kget (O:=O) ns n);
  kept_list ns sel : Inv I (klist (O:=O) ns sel);
  kept_create o : is_controlled_by (meta o) (user_meta u) = true → Inv I (kcreate o);
  kept_update o : is_controlled_by (meta o) (user_meta u) = true → Inv I (kupdate o);
}.
(** [o] is on a list the API server gave of the objects with the user's label, and
    its key is not one the spec wants. *)
Definition unwanted {O} `{Kind W O} (key : O → string) (o : O) : Prop :=
  (key o ∉ us_namespaces (user_spec u)) ∧
  ∃ w w' l, klist (O:=O) "" [userLabel u] w = (Ok l, w') ∧ o ∈ l.

Definition serving (p : On W User) : Prop := I (outside p) ∧ sameUser u (object p).

Lemma serving_call {A} (m : SE W A) : Inv I m → Inv serving (call m).
Proof.
  intros Hm p (H1 & H2). specialize (Hm _ H1). unfold call, serving in *. by destruct (m (outside p)).
Qed.
Lemma serving_assign f : (∀ o, sameUser o (f o)) → Inv serving (assign f).
Proof.
  intros Hf p (H1 & H2 & H3). destruct (Hf (object p)) as [Hm Hs]. split; [done|].
  split; cbn; congruence.
Qed.
Lemma serving_look {B A} (f : User → B) (k : B → OM W User A) :
  (∀ o, sameUser u o → Inv serving (k (f o))) → Inv serving (look f ≫= k).
Proof. intros Hk p Hp. cbn. apply Hk; [apply Hp|done]. Qed.

Lemma with_owners_controlled m m' m0 :
  controlled u m = Ok m' → is_controlled_by (with_owners m' m0) (user_meta u) = true.
Proof.
  intros Hm. rewrite <- (controlled_after_set_controller _ _ _ Hm).
  rewrite !controlled_by_controller. by rewrite (get_controller_of_refs (with_owners m' m0) m').
Qed.

Lemma serving_adopt {O} {KO : Kind W O} (meta : O → ObjectMeta) put m m' existing :
  Kept meta → (∀ m o, meta (put m o) = m) → controlled u m = Ok m' →
  Inv serving (adopt meta put m' existing).
Proof.
  intros HK Hput Hm. unfold adopt. destruct (HasSameController _ _); [apply inv_ret|].
  apply inv_bind; [|intros; apply inv_ret]. apply serving_call, (kept_update _ HK).
  rewrite Hput. by eapply with_owners_controlled.
Qed.
Lemma serving_createOr {O} {KO : Kind W O} (meta : O → ObjectMeta) (desired : O) m found :
  Kept meta → is_controlled_by (meta desired) (user_meta u) = true →
  (∀ existing, Inv serving (found existing)) → Inv serving (createOr m desired found).
Proof.
  intros HK HC HF. apply inv_bind; [apply serving_call, inv_attempt, (kept_get _ HK)|]. intros [o|e] _; [apply HF|].
  destruct (is_not_found e); [|apply inv_fail].
  apply inv_bind; [by apply serving_call, (kept_create _ HK)|]. intros; apply inv_ret.
Qed.
Lemma serving_createOrTold {O} {KO : Kind W O} (meta : O → ObjectMeta) what (desired : O) m found :
  Kept meta → is_controlled_by (meta desired) (user_meta u) = true →
  (∀ existing, Inv serving (found existing)) → Inv serving (createOrTold what m desired found).
Proof.
  intros HK HC HF. apply inv_bind; [apply serving_call, inv_attempt, (kept_get _ HK)|]. intros [o|e] _; [apply HF|].
  destruct (is_not_found e); [|apply inv_fail].
  apply inv_bind; [by apply serving_call, (kept_create _ HK)|]. intros; apply inv_ret.
Qed.
Lemma serving_inTurn {A B} (f : A → result B) (step : B → OM W User subReconcilerResult) l k :
  mapM f l = Ok k → (∀ a b, f a = Ok b → Inv serving (step b)) → Inv serving (inTurn step k).
Proof.
  intros Hk Hs. revert k Hk. induction l as [|a l IH]; intros k; [intros [= <-]; apply inv_ret|].
  cbn. destruct (f a) as [b|e] eqn:E; [|done]. cbn. destruct (mapM f l) as [k'|e]; [|done].
  cbn. intros [= <-]. cbn [inTurn]. apply inv_bind; [by eapply Hs|]. intros res _.
  case_decide; [by apply IH|apply inv_ret].
Qed.
Lemma serving_delete {O} {KO : Kind W O} (key : O → string) l w w' :
  klist (O:=O) "" [userLabel u] w = (Ok l, w') → (∀ o, unwanted key o → Inv I (kdelete o)) →
  Inv I (deleteUnwanted key (us_namespaces (user_spec u)) l).
Proof.
  intros Hl HD. assert (∀ o, o ∈ l → key o ∉ us_namespaces (user_spec u) → Inv I (kdelete o)) as H
    by (intros o Ho Hk; apply HD; split; [done|]; by exists w, w', l).
  clear Hl HD. induction l as [|o l IH]; [apply inv_ret|]. cbn [deleteUnwanted].
  apply inv_bind; [|intros _ _; apply IH; intros o' Ho'; apply H; by right].
  case_decide; [apply inv_ret|]. apply H; [by left|done].
Qed.
(** The clean-up at the end of a step. *)
Lemma serving_cleanup {O} {KO : Kind W O} (meta : O → ObjectMeta) (key : O → string) o' res :
  Kept meta → (∀ o, unwanted key o → Inv I (kdelete o)) → sameUser u o' →
  Inv serving (if decide (res = resultNil) then
    l ← call (klist (O:=O) "" [userLabel o']);
    _ ← call (deleteUnwanted key (us_namespaces (user_spec o')) l);
    mret resultNil
  else mret res).
Proof.
  intros HK HD [Hm Hs]. case_decide; [|apply inv_ret].
  assert (userLabel o' = userLabel u) as HL by (unfold userLabel, user_name; by rewrite Hm).
  rewrite HL, Hs. apply inv_bind; [by apply serving_call, (kept_list _ HK)|].
  intros l (s & s' & Hl). unfold call in Hl. destruct (klist _ _ _) as [r w'] eqn:E.
  injection Hl as -> _. apply inv_bind; [|intros; apply inv_ret].
  apply serving_call. by eapply serving_delete.
Qed.

Lemma same_controlled o m : sameUser u o → controlled o m = controlled u m.
Proof. intros [Hm _]. unfold controlled. by rewrite Hm. Qed.
Lemma controlled_by m m' : controlled u m = Ok m' → is_controlled_by m' (user_meta u) = true.
Proof. by apply controlled_after_set_controller. Qed.

Hypothesis keeps_clock : Inv I now.
Hypothesis keeps_namespaces : Kept ns_meta.
Hypothesis keeps_accounts : Kept sa_meta.
Hypothesis keeps_roles : Kept cr_meta.
Hypothesis keeps_bindings : Kept rb_meta.
Hypothesis keeps_secrets : Kept sec_meta.
Hypothesis may_delete_namespace : ∀ n, unwanted (λ n, om_name (ns_meta n)) n → Inv I (kdelete n).
Hypothesis may_delete_binding : ∀ b, unwanted (λ b, om_namespace (rb_meta b)) b → Inv I (kdelete b).

Lemma serving_own_namespace : Inv serving reconcileConfigNamespace.
Proof.
  apply serving_look. intros o Ho. apply inv_bind; [apply inv_of_result|]. intros m (p & p' & [= Hm _]).
  rewrite (same_controlled _ _ Ho) in Hm.
  apply (serving_createOr ns_meta); [done|by eapply controlled_by|]. intros existing.
  by eapply (serving_adopt ns_meta).
Qed.
Lemma serving_namespaces : Inv serving reconcileNamespaces.
Proof.
  apply serving_look. intros o Ho. apply inv_bind; [apply inv_of_result|]. intros k (p & p' & [= Hk _]).
  apply inv_bind; [|intros; by apply (serving_cleanup ns_meta)].
  apply (serving_inTurn _ _ _ _ Hk). intros ns m Hm. unfold desiredNamespace in Hm.
  rewrite (same_controlled _ _ Ho) in Hm.
  apply (serving_createOr ns_meta); [done|by eapply controlled_by|]. intros existing.
  by eapply (serving_adopt ns_meta).
Qed.
Lemma serving_account : Inv serving reconcileSA.
Proof.
  apply serving_look. intros o Ho. apply inv_bind; [apply inv_of_result|]. intros m (p & p' & [= Hm _]).
  rewrite (same_controlled _ _ Ho) in Hm.
  apply (serving_createOrTold sa_meta); [done|by eapply controlled_by|]. intros existing.
  by eapply (serving_adopt sa_meta).
Qed.
Lemma serving_role : Inv serving reconcileRole.
Proof.
  apply serving_look. intros o Ho. apply inv_bind; [apply inv_of_result|]. intros m (p & p' & [= Hm _]).
  rewrite (same_controlled _ _ Ho) in Hm.
  apply (serving_createOr cr_meta); [done|by eapply controlled_by|]. intros existing.
  destruct (_ || _); [|apply inv_ret]. apply inv_bind; [|intros; apply inv_ret].
  apply serving_call, (kept_update _ keeps_roles). by eapply with_owners_controlled.
Qed.
Lemma serving_bindings : Inv serving reconcileRoleBinding.
Proof.
  apply serving_look. intros o Ho. apply inv_bind; [apply inv_of_result|]. intros k (p & p' & [= Hk _]).
  apply inv_bind; [|intros; by apply (serving_cleanup rb_meta)].
  apply (serving_inTurn _ _ _ _ Hk). intros ns b Hm. unfold desiredRoleBinding in Hm.
  rewrite (same_controlled _ _ Ho) in Hm. destruct (controlled u _) as [m|e] eqn:E; [|done].
  injection Hm as <-. apply (serving_createOrTold rb_meta); [done|by eapply controlled_by|]. intros existing.
  by eapply (serving_adopt rb_meta).
Qed.
Lemma serving_secret : Inv serving reconcileSASecret.
Proof.
  apply serving_look. intros o Ho. apply inv_bind; [apply inv_of_result|]. intros s (p & p' & [= Hs _]).
  unfold desiredTokenSecret in Hs. rewrite (same_controlled _ _ Ho) in Hs.
  destruct (controlled u _) as [m|e] eqn:E; [|done]. injection Hs as <-.
  apply (serving_createOr sec_meta); [done|by eapply controlled_by|]. intros existing.
  by eapply (serving_adopt sec_meta).
Qed.
Lemma serving_status : Inv serving statusReconciler.
Proof.
  apply inv_bind; [apply serving_assign; intros o; apply observe_keeps|]. intros _ _.
  apply serving_look. intros o Ho. apply inv_bind; [apply serving_call, (kept_get _ keeps_secrets)|]. intros s _.
  apply inv_bind; [by apply serving_call|]. intros t _.
  destruct (_ !! _); (apply inv_bind; [by apply serving_assign|intros; apply inv_ret]).
Qed.

(** C25. All a pass over a workspace user can do to the cluster, whatever its
    outcome.  It creates only objects the user controls; an object it finds under
    one of the names it wants it updates only so that the user controls it; it
    deletes only namespaces, and role bindings in namespaces, that the API server
    lists under the user's label and that the spec does not name.  Any property of
    the cluster that these and the reads leave alone, a pass leaves alone. *)
Theorem user_footprint (w : W) : I w → I (outside (reconcile (mkOn w u)).2).
Proof.
  intros Hw. enough (Inv serving reconcile) as H by by apply (H (mkOn w u)).
  assert (∀ steps, Forall (Inv serving) steps → Inv serving (runSteps steps)) as Hrun.
  { induction 1 as [|step steps Hs Hsteps IH]; [apply inv_ret|]. cbn [runSteps].
    apply inv_bind; [done|]. intros res _. destruct (isStop res); [apply inv_ret|].
    destruct (isRequeue res); [apply inv_ret|]. destruct (requeueAfter res); [apply inv_ret|done]. }
  apply Hrun. unfold reconcileFns. rewrite !Forall_cons. split_and!; [apply serving_own_namespace|
    apply serving_namespaces|apply serving_account|apply serving_role|apply serving_bindings|
    apply serving_secret|apply serving_status|by constructor].
Qed.
End footprint.

(** * A concrete user *)

Import Cluster.
#[local] Instance a_user_digest : UserStatusDigest := ust_service_account_token.
Definition sample_user : User :=
  mkUser ((object_meta "ann" "") <| om_uid := "u1" |> <| om_labels := {[ StackdomeObjectGeneration := "7" ]} |>)
    (mkUserSpec ["shop"] "ann" [] "") (mkUserStatus 0 [] [] "" "" UserPhaseUnset "").
Definition of_ann (n ns : string) : ObjectMeta :=
  (object_meta n ns) <| om_owner_references := [mkOwnerReference "u1" "ann" true] |>.

Section provisioned.
#[local] Instance ann_namespaces : Kind Z KNamespace := only_objects [mkKNamespace (of_ann "shop" "")].
#[local] Instance ann_account : Kind Z ServiceAccount :=
  only_objects [mkServiceAccount (of_ann "ann-service-account" "ann-config")].
#[local] Instance ann_role : Kind Z ClusterRole := only_objects [mkClusterRole (of_ann "ann-role" "") []].
#[local] Instance ann_bindings : Kind Z RoleBinding :=
  only_objects [mkRoleBinding (of_ann "ann-role-rolebinding" "shop") [] (mkRoleRef "ClusterRole" "ann-role" "")].
#[local] Instance ann_secret : Kind Z Secret :=
  only_objects [mkSecret (of_ann "ann-service-account-secret" "ann-config") "" {[ "token" := "t0ken" ]}].

Lemma workspace_user_ready_witness :
  ∃ p', reconcile (mkOn 5%Z sample_user) = (Ok no_requeue, p') ∧
    ∃ token, readyFor sample_user (object p') token.
Proof.
  destruct (reconcile (mkOn 5%Z sample_user)) as [[res|e] p'] eqn:E; [|exfalso; vm_compute in E; discriminate].
  assert (res = no_requeue) as -> by (vm_compute in E; by injection E as <- _).
  exists p'. split; [reflexivity|].
  destruct (workspace_user_ready (W:=Z) _ _ _ E) as [_ [(_ & token & _ & H)|[[H _]|[H _]]]];
    [exists token; exact H|exfalso; discriminate H..].
Defined.
End provisioned.

(** A world that lists the namespaces deleted in it; the cluster has two under the
    user's label. *)
#[local] Instance namespace_log : Kind (list string) KNamespace := {
  kget n _ l := (Ok (mkKNamespace (of_ann "shop" "")), l);
  klist _ _ l := (Ok [mkKNamespace (of_ann "shop" ""); mkKNamespace (of_ann "old" "")], l);
  kcreate n l := (Ok n, l);
  kupdate n l := (Ok n, l);
  kupdate_status n l := (Ok n, l);
  kdelete n l := (Ok tt, om_name (ns_meta n) :: l);
}.
Definition inert {O} : Kind (list string) O := {|
  kget _ _ l := (Err (NotFound "object"), l);
  klist _ _ l := (Ok [], l);
  kcreate o l := (Ok o, l);
  kupdate o l := (Ok o, l);
  kupdate_status o l := (Ok o, l);
  kdelete _ l := (Ok tt, l);
|}.
#[local] Instance inert_accounts : Kind (list string) ServiceAccount := inert.
#[local] Instance inert_roles : Kind (list string) ClusterRole := inert.
#[local] Instance inert_bindings : Kind (list string) RoleBinding := inert.
#[local] Instance inert_secrets : Kind (list string) Secret := inert.
#[local] Instance no_clock : Clock (list string) := λ l, (0%Z, l).

(** The namespace the spec names is never deleted. *)
Lemma user_footprint_witness :
  "shop" ∉ outside (reconcile (mkOn ([] : list string) sample_user)).2.
Proof.
  apply (user_footprint (W:=list string) (λ l, "shop" ∉ l) sample_user).
  - intros l Hl; exact Hl.
  - split; intros; intros l Hl; exact Hl.
  - split; intros; intros l Hl; exact Hl.
  - split; intros; intros l Hl; exact Hl.
  - split; intros; intros l Hl; exact Hl.
  - split; intros; intros l Hl; exact Hl.
  - intros n [Hn _] l Hl. cbn. rewrite not_elem_of_cons. split; [|exact Hl].
    intros E. apply Hn. rewrite <- E. by left.
  - intros b _ l Hl; exact Hl.
  - apply not_elem_of_nil.
Defined.
