(* ===== verification/IngressTls.v ===== *)
(** Ingresses and their TLS annotations (pkg/ingresstls/ingresstls.go), and the
    networking objects the agent writes. *)
From S2P Require Import Prelude Text Kube Apimachinery Api.

(** * Objects *)

(** A rule: every rule the agent writes sends the prefix ["/"] of a host to one
    port of a Service. *)
Record IngressRule := mkIngressRule {
  ir_host : string; ir_service : string; ir_port : Z }.
Record IngressTLS := mkIngressTLS { it_hosts : list string; it_secret_name : string }.
Record IngressSpec := mkIngressSpec {
  isp_class_name : option string;
  isp_tls : list IngressTLS;
  isp_rules : list IngressRule;
}.
#[export] Instance ingress_rule_eq_dec : EqDecision IngressRule.
Proof. solve_decision. Defined.
#[export] Instance ingress_tls_eq_dec : EqDecision IngressTLS.
Proof. solve_decision. Defined.
#[export] Instance ingress_spec_eq_dec : EqDecision IngressSpec.
Proof. solve_decision. Defined.
Record Ingress := mkIngress { ing_meta : ObjectMeta; ing_spec : IngressSpec }.
#[export] Instance eta_ingress : Eta Ingress := λ i, mkIngress (ing_meta i) (ing_spec i).
Definition ing_annotations (i : Ingress) : gmap string string := om_annotations (ing_meta i).

(** A Traefik Middleware; its spec holds the redirect or something else. *)
Inductive MiddlewareSpec := RedirectScheme (scheme : string) (permanent : bool) | OtherMiddleware (text : string).
#[export] Instance middleware_spec_eq_dec : EqDecision MiddlewareSpec.
Proof. solve_decision. Defined.
Record Middleware := mkMiddleware { mw_meta : ObjectMeta; mw_spec : MiddlewareSpec }.
#[export] Instance eta_middleware : Eta Middleware := λ m, mkMiddleware (mw_meta m) (mw_spec m).

(** A ClusterIssuer is only looked up. *)
Record ClusterIssuer := mkClusterIssuer { ci_meta : ObjectMeta }.

(** * Annotations *)

Definition CertManagerClusterIssuerAnnotation : string := "cert-manager.io/cluster-issuer".
Definition TraefikEntrypointsAnnotation : string := "traefik.ingress.kubernetes.io/router.entrypoints".
Definition TraefikMiddlewaresAnnotation : string := "traefik.ingress.kubernetes.io/router.middlewares".
Definition RedirectMiddlewareName : string := "redirect-https".
Definition ManagedAnnotations : list string :=
  [CertManagerClusterIssuerAnnotation; TraefikEntrypointsAnnotation; TraefikMiddlewaresAnnotation].

Definition TraefikAnnotations (namespace : string) : gmap string string :=
  {[ TraefikEntrypointsAnnotation := "web,websecure";
     TraefikMiddlewaresAnnotation := namespace +:+ "-" +:+ RedirectMiddlewareName +:+ "@kubernetescrd" ]}.

Definition BuildTLSConfig (issuerName : string) (tlsHosts : list string)
    (namespace tlsSecretName : string) : gmap string string * list IngressTLS :=
  if decide (issuerName = "" ∨ length tlsHosts = 0) then (∅, [])
  else (<[CertManagerClusterIssuerAnnotation := issuerName]> (TraefikAnnotations namespace),
        [mkIngressTLS (Unique id tlsHosts) tlsSecretName]).

Definition IngressNeedsUpdate (desired existing : Ingress) : bool :=
  negb (bool_decide (ing_spec desired = ing_spec existing)) ||
  existsb (λ key, negb (bool_decide (mget (ing_annotations desired) key =
                                     mget (ing_annotations existing) key))) ManagedAnnotations.

Definition syncAnnotation (desired : gmap string string) (l : gmap string string) (key : string)
    : gmap string string :=
  if decide (mget desired key ≠ "") then <[key := mget desired key]> l else delete key l.
Definition SyncManagedAnnotations (desired : gmap string string) (i : Ingress) : Ingress :=
  i <| ing_meta ::= λ m, m <| om_annotations ::=
       λ l, foldl (syncAnnotation desired) l ManagedAnnotations |> |>.

Definition buildRedirectMiddleware (namespace : string) : Middleware :=
  mkMiddleware (object_meta RedirectMiddlewareName namespace) (RedirectScheme "https" false).

Section operations.
Context {GT : GoText} {CA : ConditionsApi} {W : Type}.
Context {KI : Kind W ClusterIssuer} {KM : Kind W Middleware}.

(** The issuer's name, or the reason and message why TLS is skipped. *)
Definition ResolveClusterIssuer (annotations : gmap string string)
    : SE W (string + string * string) :=
  let issuerName := mget annotations ClusterIssuerAnnotation in
  if decide (issuerName = "")
  then mret (inr ("ClusterIssuerNotConfigured", "Missing annotation " +:+ ClusterIssuerAnnotation))
  else
    res ← attempt (kget "" issuerName);
    match res with
    | Ok _ => mret (inl issuerName)
    | Err e =>
        if is_not_found e
        then mret (inr ("ClusterIssuerNotFound",
                        "ClusterIssuer " +:+ quote issuerName +:+ " does not exist"))
        else mret (inr ("ClusterIssuerLookupFailed",
                        "Failed to look up ClusterIssuer " +:+ quote issuerName +:+ ": " +:+ error_text e))
    end.

Definition EnsureRedirectMiddleware (namespace : string) : SE W unit :=
  let desired := buildRedirectMiddleware namespace in
  res ← attempt (kget namespace RedirectMiddlewareName);
  match res with
  | Err e => if is_not_found e then _ ← kcreate desired; mret tt else fail e
  | Ok existing =>
      if decide (mw_spec desired = mw_spec existing) then mret tt
      else _ ← kupdate (existing <| mw_spec := mw_spec desired |>); mret tt
  end.
End operations.

(** [SetTLSCondition], at an instant. *)
Definition SetTLSCondition `{ConditionsApi} (now : Time) (generation : Z) (conditionType : string)
    (status : ConditionStatus) (reason message : string) (cs : list Condition) : list Condition :=
  set_status_condition now cs (new_condition conditionType status generation reason message).

(** * Properties *)

Lemma sync_lookup desired l key :
  foldl (syncAnnotation desired) l ManagedAnnotations !! key =
  if decide (key ∈ ManagedAnnotations)
  then if decide (mget desired key = "") then None else Some (mget desired key)
  else l !! key.
Proof.
  assert (∀ ks (l : gmap string string), foldl (syncAnnotation desired) l ks !! key =
    if decide (key ∈ ks) then if decide (mget desired key = "") then None else Some (mget desired key)
    else l !! key) as H; [|apply H].
  clear l. induction ks as [|k ks IH]; intros l; [done|]. cbn [foldl]. rewrite IH.
  unfold syncAnnotation. destruct (decide (key ∈ ks)) as [Hin|Hin].
  - rewrite (decide_True (P:=key ∈ k :: ks)) by set_solver. done.
  - destruct (decide (key = k)) as [->|Hne].
    + rewrite (decide_True (P:=k ∈ k :: ks)) by set_solver.
      destruct (decide (mget desired k = "")) as [E|E].
      * rewrite decide_False by tauto. apply lookup_delete_eq.
      * rewrite decide_True by done. apply lookup_insert_eq.
    + rewrite (decide_False (P:=key ∈ k :: ks)) by set_solver.
      case_decide; [by rewrite lookup_insert_ne|by rewrite lookup_delete_ne].
Qed.

(** Updating an Ingress settles it: afterwards it needs no update, and the
    annotations the agent does not manage are untouched. *)
Lemma ingress_update_settles desired existing :
  let updated := SyncManagedAnnotations (ing_annotations desired)
                   (existing <| ing_spec := ing_spec desired |>) in
  IngressNeedsUpdate desired updated = false ∧
  ∀ key, key ∉ ManagedAnnotations → ing_annotations updated !! key = ing_annotations existing !! key.
Proof.
  intros updated.
  assert (∀ key, ing_annotations updated !! key = _) as Hl
    by (intros key; apply (sync_lookup (ing_annotations desired) (ing_annotations existing) key)).
  split.
  - unfold IngressNeedsUpdate. apply orb_false_iff. split; [by rewrite bool_decide_true|].
    apply not_true_iff_false. intros (key & Hk%list_elem_of_In & Hn)%existsb_exists.
    apply negb_true_iff, bool_decide_eq_false in Hn. apply Hn. unfold mget at 2. rewrite Hl.
    rewrite decide_True by done. by case_decide as E; [rewrite E|].
  - intros key Hk. rewrite Hl. by rewrite decide_False.
Qed.
