(* ===== verification/ObjectStorage.v ===== *)
(** Object storage: the resource (api/storage/v1alpha1/objectstorage_types.go) and
    its controller (internal/controller/objectstorage), which runs an S3 server on a
    volume and makes the buckets in it. *)
From S2P Require Import Prelude Text Kube Api Builds Storage KubeWorkloads PodSpecs Workloads IngressTls.
From S2P Require Import Objects.
From Stdlib Require Import Ascii.

(** * The resource *)

Definition ObjectStoragePhasePending : string := "Pending".
Definition ObjectStoragePhaseReady : string := "Ready".
Definition ObjectStorageConditionAvailable : string := "Available".
Definition ObjectStorageConditionBucketsReady : string := "BucketsReady".
Definition ObjectStorageConditionTLSConfigured : string := "TLSConfigured".
Definition ObjectStorageContainerPort : Z := 9000.

Record ObjectStorageIngressSpec := mkObjectStorageIngressSpec {
  ois_hostname : string;
  ois_ingress_class_name : option string;
  ois_tls : bool;
}.
(** A bucket is its name. *)
Record ObjectStorageSpec := mkObjectStorageSpec {
  oss_capacity : string;
  oss_storage_class_name : option string;
  oss_buckets : list string;
  oss_ingress : option ObjectStorageIngressSpec;
  oss_resources : option ResourceRequirements;
  oss_credential_rotation_requested_at : option Time;
}.
Record BucketStatus := mkBucketStatus { bst_name : string; bst_created : bool; bst_url : string }.
Record ObjectStorageStatus := mkObjectStorageStatus {
  ost_observed_generation : Z;
  ost_phase : string;
  ost_conditions : list Condition;
  ost_endpoint : string;
  ost_external_endpoint : string;
  ost_credentials_secret_name : string;
  ost_last_credential_rotation_time : option Time;
  ost_volume_name : string;
  ost_pvc_name : string;
  ost_buckets : list BucketStatus;
}.
#[export] Instance bucket_status_eq_dec : EqDecision BucketStatus.
Proof. solve_decision. Defined.
#[export] Instance object_storage_status_eq_dec : EqDecision ObjectStorageStatus.
Proof. solve_decision. Defined.
#[export] Instance eta_object_storage_status : Eta ObjectStorageStatus := λ s,
  mkObjectStorageStatus (ost_observed_generation s) (ost_phase s) (ost_conditions s) (ost_endpoint s)
    (ost_external_endpoint s) (ost_credentials_secret_name s) (ost_last_credential_rotation_time s)
    (ost_volume_name s) (ost_pvc_name s) (ost_buckets s).
Record ObjectStorage := mkObjectStorage {
  os_meta : ObjectMeta; os_spec : ObjectStorageSpec; os_status : ObjectStorageStatus }.
#[export] Instance eta_object_storage : Eta ObjectStorage := λ o,
  mkObjectStorage (os_meta o) (os_spec o) (os_status o).
Definition os_name (o : ObjectStorage) : string := om_name (os_meta o).
Definition os_namespace (o : ObjectStorage) : string := om_namespace (os_meta o).

Definition VolumeName (o : ObjectStorage) : string := os_name o +:+ "-objstore-vol".
Definition CredentialsSecretName (o : ObjectStorage) : string := os_name o +:+ "-objstore-credentials".
Definition DeploymentName (o : ObjectStorage) : string := os_name o +:+ "-objstore".
Definition ServiceName (o : ObjectStorage) : string := os_name o +:+ "-objstore".
Definition IngressName (o : ObjectStorage) : string := os_name o +:+ "-objstore".

(** * Keys *)

(** [crypto/rand.Read]: that many bytes. *)
Class RandomBytes (W : Type) := random_bytes : nat → SE W (list N).
Class RandomBytesLaws (W : Type) {RB : RandomBytes W} : Prop :=
  random_bytes_length n w l w' : random_bytes n w = (Ok l, w') → length l = n.

Definition hex_digit (n : N) : ascii := default "0"%char (String.get (N.to_nat n) "0123456789abcdef").
Fixpoint hex_encode (l : list N) : string :=
  match l with
  | [] => ""
  | b :: l => String (hex_digit (N.div b 16)) (String (hex_digit (N.modulo b 16)) (hex_encode l))
  end.

(** [s[:n]], which panics when [s] is shorter. *)
Definition slice_to (n : nat) (s : string) : result string :=
  if decide (n ≤ String.length s) then Ok (String.substring 0 n s)
  else Err (Panic "slice bounds out of range").

Definition generateRandomKey `{RandomBytes W} (n : nat) : SE W string :=
  bytes ← random_bytes ((n + 1) / 2);
  of_result (slice_to n (hex_encode bytes)).

(** * The S3 API *)

Inductive S3Error := BucketAlreadyOwnedByYou | BucketAlreadyExists | OtherS3Error (e : error).
Record S3Client := mkS3Client { s3_endpoint : string; s3_access_key : string; s3_secret_key : string }.
Class S3Api (W : Type) := s3_create_bucket : S3Client → string → W → option S3Error * W.

Definition CreateBucket `{S3Api W} (c : S3Client) (bucket : string) : SE W unit := λ w,
  let '(res, w) := s3_create_bucket c bucket w in
  (match res with
   | None | Some BucketAlreadyOwnedByYou | Some BucketAlreadyExists => Ok tt
   | Some (OtherS3Error e) => Err e
   end, w).

(** [t.Format("2006-01-02T15:04:05Z")]. *)
Class TimeStamp := time_stamp : Time → string.

(** * The controller *)

Definition cacheFinalizer : string := "objectstorage.stackdome.io/cleanup".

Section controller.
Context {GT : GoText} {TS : TimeStamp} {CA : ConditionsApi} {OA : OwnerApi} {FA : FinalizerApi}.
Context {W : Type} {CK : Clock W} {RB : RandomBytes W} {S3 : S3Api W}.
Context {KO : Kind W ObjectStorage} {KV : Kind W Volume} {KS : Kind W Secret} {CD : CreateOrUpdate W Deployment}.
Context {KSv : Kind W Service} {KI : Kind W Ingress} {KC : Kind W ClusterIssuer} {KM : Kind W Middleware}.
Context (image : string).

Definition setStatusCondition (t : Time) (type : string) (st : ConditionStatus) (reason msg : string)
    (o : ObjectStorage) : ObjectStorage :=
  let gen := om_generation (os_meta o) in
  o <| os_status ::= λ s, s <| ost_observed_generation := gen |>
    <| ost_conditions ::= λ cs, set_status_condition t cs (new_condition type st gen reason msg) |> |>.
Definition setPhase (phase : string) (o : ObjectStorage) : ObjectStorage :=
  o <| os_status ::= λ s, s <| ost_phase := phase |> |>.
Definition report (type : string) (st : ConditionStatus) (reason msg : string) : OM W ObjectStorage unit :=
  t ← call now; assign (setStatusCondition t type st reason msg).
Definition reportPending (reason msg : string) : OM W ObjectStorage subReconcilerResult :=
  _ ← report ObjectStorageConditionAvailable ConditionFalse reason msg;
  _ ← assign (setPhase ObjectStoragePhasePending);
  mret resultStop.

(** ** The volume *)

Definition desiredVolume (o : ObjectStorage) : Volume :=
  mkVolume (object_meta (VolumeName o) (os_namespace o))
    (mkVolumeSpec ∅ ∅ (oss_capacity (os_spec o)) (default "" (oss_storage_class_name (os_spec o))) None false
       "ReadWriteOnce")
    (mkVolumeStatus 0 [] "" VolumePhaseUnset ∅ "" "" "" "").
Definition backingVolumeAvailable (v : Volume) : bool :=
  match find_status_condition (vst_conditions (vol_status v)) (volume_condition_name VolumeConditionAvailable) with
  | Some c => negb (bool_decide (c_status c = ConditionFalse)) &&
              (c_observed_generation c =? om_generation (vol_meta v))%Z
  | None => false
  end.
Definition reconcileVolume : OM W ObjectStorage subReconcilerResult :=
  o ← look id;
  m ← of_result (set_controller_reference (os_meta o) (vol_meta (desiredVolume o)));
  createOr m ((desiredVolume o) <| vol_meta := m |>) (λ existing,
    if backingVolumeAvailable existing then
      _ ← assign (λ o, o <| os_status ::= λ s, s <| ost_volume_name := vol_name existing |>
                            <| ost_pvc_name := vst_pvc_name (vol_status existing) |> |>);
      mret resultNil
    else reportPending "VolumeNotAvailable" "Backing volume is not available").

(** ** The credentials *)

(** [requested.After(last)]. *)
Definition rotationRequested (o : ObjectStorage) : bool :=
  match oss_credential_rotation_requested_at (os_spec o), ost_last_credential_rotation_time (os_status o) with
  | None, _ => false
  | Some _, None => true
  | Some requested, Some last => (last <? requested)%Z
  end.

Definition credentialsSecret (o : ObjectStorage) (accessKey secretKey : string) : Secret :=
  mkSecret (object_meta (CredentialsSecretName o) (os_namespace o)) ""
    {[ "RUSTFS_ACCESS_KEY" := accessKey; "RUSTFS_SECRET_KEY" := secretKey;
       "AWS_ACCESS_KEY_ID" := accessKey; "AWS_SECRET_ACCESS_KEY" := secretKey ]}.
Definition createCredentialsSecret : OM W ObjectStorage subReconcilerResult :=
  o ← look id;
  accessKey ← call (generateRandomKey 20);
  secretKey ← call (generateRandomKey 40);
  let secret := credentialsSecret o accessKey secretKey in
  m ← of_result (set_controller_reference (os_meta o) (sec_meta secret));
  _ ← call (kcreate (secret <| sec_meta := m |>));
  t ← call now;
  _ ← assign (λ o, o <| os_status ::= λ s, s <| ost_last_credential_rotation_time := Some t |> |>);
  mret resultRequeue.

Definition reconcileCredentials : OM W ObjectStorage subReconcilerResult :=
  o ← look id;
  got ← call (attempt (kget (O:=Secret) (os_namespace o) (CredentialsSecretName o)));
  match got with
  | Err e => if is_not_found e then createCredentialsSecret else fail e
  | Ok secret =>
      if rotationRequested o then _ ← call (kdelete secret); createCredentialsSecret
      else
        _ ← assign (λ o, o <| os_status ::= λ s, s <| ost_credentials_secret_name := om_name (sec_meta secret) |> |>);
        mret resultNil
  end.

(** ** The server *)

Definition deploymentRolloutComplete (d : Deployment) : bool :=
  match dsp_replicas (dep_spec d) with
  | None => false
  | Some desired =>
      let s := dep_status d in
      (dst_updated_replicas s =? desired)%Z && (dst_ready_replicas s =? desired)%Z &&
      (dst_available_replicas s =? desired)%Z
  end.
Definition resourcesForSpec (o : ObjectStorage) : ResourceRequirements := default (∅, ∅) (oss_resources (os_spec o)).
Definition serverTemplate (o : ObjectStorage) : PodTemplateSpec :=
  mkPodTemplateSpec {[ "app" := DeploymentName o ]}
    (match ost_last_credential_rotation_time (os_status o) with
     | Some t => {[ "objectstorage.stackdome.io/credentials-rotated-at" := time_stamp t ]}
     | None => ∅
     end)
    (empty_pod_spec
       <| ps_containers := [(new_container "rustfs" image)
            <| ct_ports := [mkContainerPort "s3" ObjectStorageContainerPort] |>
            <| ct_env_from := [CredentialsSecretName o] |>
            <| ct_resources := resourcesForSpec o |>
            <| ct_volume_mounts := [mkKVolumeMount "data" "/data" "" false] |>] |>
       <| ps_volumes := [mkKVolume "data" (ClaimVolume (ost_pvc_name (os_status o)))] |>).
Definition mutateServer (o : ObjectStorage) (d : Deployment) : SE W (Deployment * unit) :=
  let d := d <| dep_spec ::= λ s, s <| dsp_replicas := Some 1%Z |>
                <| dsp_selector := {[ "app" := DeploymentName o ]} |> <| dsp_template := serverTemplate o |> |> in
  m ← of_result (set_controller_reference (os_meta o) (dep_meta d));
  mret (d <| dep_meta := m |>, tt).
(** The replica count of a Deployment that is not ready is logged. *)
Definition reconcileDeployment : OM W ObjectStorage subReconcilerResult :=
  o ← look id;
  res ← call (create_or_update unit (new_deployment (DeploymentName o) (os_namespace o)) (mutateServer o));
  let d := res.1.1 in
  if negb (DeploymentAvailable d) || negb (deploymentRolloutComplete d) then
    match dsp_replicas (dep_spec d) with
    | None => fail (Panic "nil pointer dereference")
    | Some _ => reportPending "DeploymentNotReady"
                  ("ObjectStorage deployment " +:+ om_name (dep_meta d) +:+ " is not yet available")
    end
  else mret resultNil.

Definition desiredService (o : ObjectStorage) : Service :=
  mkService (object_meta (ServiceName o) (os_namespace o))
    (mkServiceSpec {[ "app" := DeploymentName o ]}
       [mkServicePort "s3" ObjectStorageContainerPort (FromInt32 0) 0] "" "").
Definition endpointOf (s : Service) : string :=
  "http://" +:+ svc_name s +:+ "." +:+ om_namespace (svc_meta s) +:+ ".svc.cluster.local:" +:+
  pretty ObjectStorageContainerPort.
Definition reconcileService : OM W ObjectStorage subReconcilerResult :=
  o ← look id;
  m ← of_result (set_controller_reference (os_meta o) (svc_meta (desiredService o)));
  createOr m ((desiredService o) <| svc_meta := m |>) (λ existing,
    _ ← assign (λ o, o <| os_status ::= λ s, s <| ost_endpoint := endpointOf existing |> |>);
    mret resultNil).

(** ** The address from outside *)

Definition setTLS (st : ConditionStatus) (reason msg : string) : OM W ObjectStorage unit :=
  t ← call now;
  assign (λ o, o <| os_status ::= λ s, s <| ost_conditions ::=
    SetTLSCondition t (om_generation (os_meta o)) ObjectStorageConditionTLSConfigured st reason msg |> |>).
Definition resolveTLS (i : ObjectStorageIngressSpec)
    : OM W ObjectStorage (gmap string string * list IngressTLS) :=
  if negb (ois_tls i) then mret (∅, [])
  else
    o ← look id;
    issuer ← call (ResolveClusterIssuer (om_annotations (os_meta o)));
    match issuer with
    | inr (reason, msg) => _ ← setTLS ConditionFalse reason msg; mret (∅, [])
    | inl name => mret (BuildTLSConfig name [ois_hostname i] (os_namespace o) (IngressName o +:+ "-tls"))
    end.
Definition buildDesiredIngress (o : ObjectStorage) (i : ObjectStorageIngressSpec)
    (annotations : gmap string string) (tls : list IngressTLS) : Ingress :=
  mkIngress ((object_meta (IngressName o) (os_namespace o)) <| om_annotations := annotations |>)
    (mkIngressSpec (ois_ingress_class_name i) tls
       [mkIngressRule (ois_hostname i) (ServiceName o) ObjectStorageContainerPort]).

(** Was the Ingress created? *)
Definition syncIngress (desired : Ingress) (annotations : gmap string string) : SE W bool :=
  let m := ing_meta desired in
  got ← attempt (kget (O:=Ingress) (om_namespace m) (om_name m));
  match got with
  | Err e => if is_not_found e then _ ← kcreate desired; mret true else fail e
  | Ok existing =>
      if IngressNeedsUpdate desired existing then
        _ ← kupdate (SyncManagedAnnotations annotations (existing <| ing_spec := ing_spec desired |>));
        mret false
      else mret false
  end.
Definition setTLSConfiguredIfEnabled (annotations : gmap string string) : OM W ObjectStorage unit :=
  let issuer := mget annotations CertManagerClusterIssuerAnnotation in
  if decide (issuer = "") then mret tt
  else setTLS ConditionTrue "TLSConfigured" ("Using ClusterIssuer " +:+ quote issuer).
Definition finalizeTLS (annotations : gmap string string) (tls : list IngressTLS) : OM W ObjectStorage unit :=
  o ← look id;
  _ ← (if decide (tls = []) then mret tt else call (EnsureRedirectMiddleware (os_namespace o)));
  setTLSConfiguredIfEnabled annotations.
Definition externalEndpoint (tlsEnabled : bool) (hostname : string) : string :=
  (if tlsEnabled then "https" else "http") +:+ "://" +:+ hostname.

Definition reconcileIngress : OM W ObjectStorage subReconcilerResult :=
  o ← look id;
  match oss_ingress (os_spec o) with
  | None => mret resultNil
  | Some i =>
      '(annotations, tls) ← resolveTLS i;
      let desired := buildDesiredIngress o i annotations tls in
      m ← of_result (set_controller_reference (os_meta o) (ing_meta desired));
      created ← call (syncIngress (desired <| ing_meta := m |>) annotations);
      _ ← finalizeTLS annotations tls;
      if (created : bool) then mret resultRequeue
      else
        _ ← assign (λ o, o <| os_status ::= λ s, s
              <| ost_external_endpoint := externalEndpoint (ois_tls i) (ois_hostname i) |> |>);
        mret resultNil
  end.

(** ** The buckets *)

Definition recordBucket (b : BucketStatus) : OM W ObjectStorage unit :=
  assign (λ o, o <| os_status ::= λ s, s <| ost_buckets ::= λ l, l ++ [b] |> |>).
Fixpoint createBuckets (c : S3Client) (l : list string) : OM W ObjectStorage subReconcilerResult :=
  match l with
  | [] =>
      _ ← report ObjectStorageConditionBucketsReady ConditionTrue "BucketsReady" "All buckets created successfully";
      mret resultNil
  | b :: l =>
      res ← call (attempt (CreateBucket c b));
      match res with
      | Err _ =>
          _ ← recordBucket (mkBucketStatus b false "");
          _ ← report ObjectStorageConditionBucketsReady ConditionFalse "BucketCreationFailed"
                ("Failed to create bucket: " +:+ b);
          mret resultStop
      | Ok _ =>
          o ← look id;
          _ ← recordBucket (mkBucketStatus b true (ost_endpoint (os_status o) +:+ "/" +:+ b));
          createBuckets c l
      end
  end.
Definition reconcileBuckets : OM W ObjectStorage subReconcilerResult :=
  o ← look id;
  if decide (oss_buckets (os_spec o) = []) then mret resultNil
  else
    secret ← call (kget (O:=Secret) (os_namespace o) (ost_credentials_secret_name (os_status o)));
    let c := mkS3Client (ost_endpoint (os_status o)) (mget (sec_data secret) "AWS_ACCESS_KEY_ID")
               (mget (sec_data secret) "AWS_SECRET_ACCESS_KEY") in
    _ ← assign (λ o, o <| os_status ::= λ s, s <| ost_buckets := [] |> |>);
    createBuckets c (oss_buckets (os_spec o)).

(** ** The pass *)

Definition subReconcilers : list (OM W ObjectStorage subReconcilerResult) :=
  [reconcileVolume; reconcileCredentials; reconcileDeployment; reconcileService; reconcileIngress;
   reconcileBuckets].
(** Only the end of the whole chain reports availability. *)
Fixpoint runChain (steps : list (OM W ObjectStorage subReconcilerResult)) : OM W ObjectStorage CtrlResult :=
  match steps with
  | [] =>
      _ ← report ObjectStorageConditionAvailable ConditionTrue "ObjectStorageAvailable" "ObjectStorage is available";
      _ ← assign (setPhase ObjectStoragePhaseReady);
      mret no_requeue
  | step :: steps =>
      res ← step;
      if isNil res then runChain steps
      else if isStop res then mret no_requeue
      else if isRequeue res then mret (mkCtrlResult true 0)
      else match requeueAfter res with
           | Some t => mret (mkCtrlResult false t)
           | None => runChain steps
           end
  end.
Definition reconcile : OM W ObjectStorage CtrlResult := runChain subReconcilers.

Definition initializeStatusAndPhase : OM W ObjectStorage unit :=
  _ ← assign (λ o, o <| os_status ::= λ s, s <| ost_observed_generation := om_generation (os_meta o) |>
        <| ost_phase ::= λ ph, if decide (ph = "") then ObjectStoragePhasePending else ph |> |>);
  o ← look id;
  match find_status_condition (ost_conditions (os_status o)) ObjectStorageConditionAvailable with
  | Some _ => mret tt
  | None =>
      t ← call now;
      assign (λ o, o <| os_status ::= λ s, s <| ost_conditions ::= λ cs, set_status_condition t cs
        (new_condition ObjectStorageConditionAvailable ConditionUnknown (om_generation (os_meta o))
           "ObjectStorageStatusUnknown" "ObjectStorage status is unknown") |> |>)
  end.

Definition Reconcile (ns name : string) : SE W CtrlResult :=
  got ← attempt (kget (O:=ObjectStorage) ns name);
  match got with
  | Err e => if is_not_found e then mret no_requeue else fail e
  | Ok o =>
      if om_deletion_timestamp (os_meta o) is Some _ then
        if contains_finalizer cacheFinalizer (os_meta o) then
          _ ← kupdate (o <| os_meta ::= remove_finalizer cacheFinalizer |>);
          mret no_requeue
        else mret no_requeue
      else if negb (contains_finalizer cacheFinalizer (os_meta o)) then
        _ ← kupdate (o <| os_meta ::= λ m, (add_finalizer cacheFinalizer m).2 |>);
        mret no_requeue
      else
        out ← with_object o (_ ← initializeStatusAndPhase; reconcile);
        if decide (os_status o = os_status out.2) then mret out.1
        else _ ← kupdate_status out.2; mret out.1
  end.
End controller.
