(* ===== verification/ObjectStorageOutcome.v ===== *)
(** What the object-storage controller guarantees. *)
From S2P Require Import Prelude Text Kube Apimachinery Api Builds Storage KubeWorkloads PodSpecs Workloads.
From S2P Require Import IngressTls Objects ObjectStorage Samples.
From Stdlib Require Import Ascii.

Section outcome.
Context {GT : GoText} {TS : TimeStamp} {CA : ConditionsApi} {CL : ConditionsLaws} {OA : OwnerApi} {OL : OwnerLaws}.
Context {W : Type} {CK : Clock W} {RB : RandomBytes W} {S3 : S3Api W}.
Context {KV : Kind W Volume} {KS : Kind W Secret} {CD : CreateOrUpdate W Deployment}.
Context {KSv : Kind W Service} {KI : Kind W Ingress} {KC : Kind W ClusterIssuer} {KM : Kind W Middleware}.
Context (image : string).

(** * What a pass reports *)

Definition availableView (o : ObjectStorage) := view (ost_conditions (os_status o)) ObjectStorageConditionAvailable.
Definition sameStorage (o o' : ObjectStorage) : Prop := os_meta o' = os_meta o ∧ os_spec o' = os_spec o.
(** It says nothing new of availability. *)
Definition unreported (o o' : ObjectStorage) : Prop :=
  sameStorage o o' ∧ availableView o' = availableView o ∧ ost_phase (os_status o') = ost_phase (os_status o).
Definition reported (st : ConditionStatus) (phase : string) (o o' : ObjectStorage) : Prop :=
  sameStorage o o' ∧
  (∃ reason msg, availableView o' = Some (st, om_generation (os_meta o), reason, msg)) ∧
  ost_phase (os_status o') = phase.
(** One bucket could not be made: it is the last on the list, and the only one
    listed as not made. *)
Definition bucketFailed (o o' : ObjectStorage) : Prop :=
  unreported o o' ∧
  ∃ b made, b ∈ oss_buckets (os_spec o) ∧
    ost_buckets (os_status o') = made ++ [mkBucketStatus b false ""] ∧ Forall (λ s, bst_created s = true) made ∧
    view (ost_conditions (os_status o')) ObjectStorageConditionBucketsReady =
      Some (ConditionFalse, om_generation (os_meta o), "BucketCreationFailed", "Failed to create bucket: " +:+ b).

Lemma objstore_unreported_refl o : unreported o o.
Proof. by repeat split. Qed.
Lemma unreported_trans o1 o2 o3 : unreported o1 o2 → unreported o2 o3 → unreported o1 o3.
Proof. unfold unreported, sameStorage. intros. destruct_and!. split_and!; congruence. Qed.
Lemma objstore_reported_after o1 o2 o3 st phase : unreported o1 o2 → reported st phase o2 o3 → reported st phase o1 o3.
Proof.
  intros ([Hm Hs] & _) ([Hm' Hs'] & Hv & Hp). rewrite Hm in *. by split_and!; [split; congruence|..].
Qed.
Lemma failed_after o1 o2 o3 : unreported o1 o2 → bucketFailed o2 o3 → bucketFailed o1 o3.
Proof.
  intros H (H' & Hb). split; [by eapply unreported_trans|]. destruct H as ([Hm Hs] & _).
  by rewrite Hm, Hs in Hb.
Qed.

Lemma objstore_post_report type st reason msg (Q : unit → On W ObjectStorage → Prop) p :
  (∀ t w, Q tt (mkOn w (setStatusCondition t type st reason msg (object p)))) →
  post (report type st reason msg) Q p.
Proof. intros HQ. apply post_bind, post_call. intros t w _. apply post_assign, HQ. Qed.

Lemma objstore_post_reportPending reason msg (Q : subReconcilerResult → On W ObjectStorage → Prop) p :
  (∀ p', reported ConditionFalse ObjectStoragePhasePending (object p) (object p') → Q resultStop p') →
  post (reportPending reason msg) Q p.
Proof.
  intros HQ. unfold reportPending. apply post_bind, objstore_post_report. intros t w.
  apply post_bind, post_assign, post_ret, HQ. split; [done|]. split; [|done]. do 2 eexists.
  unfold availableView. cbn. by rewrite view_set_new, decide_True.
Qed.

(** * The steps

    [steps P o res o']: when the chain goes on, [P] holds of the object, and neither
    availability nor the time of the last rotation has changed. *)

Definition steps (P : ObjectStorage → Prop) (o : ObjectStorage) (res : subReconcilerResult)
    (p' : On W ObjectStorage) : Prop :=
  let o' := object p' in
  (res = resultNil ∧ unreported o o' ∧ P o' ∧
   ost_last_credential_rotation_time (os_status o') = ost_last_credential_rotation_time (os_status o)) ∨
  (res = resultRequeue ∧ unreported o o') ∨
  (res = resultStop ∧ (reported ConditionFalse ObjectStoragePhasePending o o' ∨ bucketFailed o o')).

Definition volumeSeen (o : ObjectStorage) : Prop :=
  ∃ w w' v, kget (O:=Volume) (os_namespace o) (VolumeName o) w = (Ok v, w') ∧ backingVolumeAvailable v = true.
Definition secretSeen (o : ObjectStorage) : Prop :=
  ∃ w w' s, kget (O:=Secret) (os_namespace o) (CredentialsSecretName o) w = (Ok s, w').
Definition serverSeen (o : ObjectStorage) : Prop :=
  ∃ w w' o1 d op, sameStorage o o1 ∧
    create_or_update unit (new_deployment (DeploymentName o) (os_namespace o)) (mutateServer image o1) w
      = (Ok (d, tt, op), w') ∧
    DeploymentAvailable d = true ∧ deploymentRolloutComplete d = true.
Definition serviceSeen (o : ObjectStorage) (url : string) : Prop :=
  ∃ w w' s, kget (O:=Service) (os_namespace o) (ServiceName o) w = (Ok s, w') ∧ url = endpointOf s.

Lemma key_of {A B} (m m' : ObjectMeta) (owner : ObjectMeta) (f : string → string → A → B) :
  set_controller_reference owner m = Ok m' → f (om_namespace m') (om_name m') = f (om_namespace m) (om_name m).
Proof. intros H. by destruct (set_controller_keeps _ _ _ H) as [refs ->]. Qed.

Ltac stuck := right; left; split; [done|]; first [apply objstore_unreported_refl | by repeat split].

Lemma volume_step p : post reconcileVolume (steps (λ _, volumeSeen (object p)) (object p)) p.
Proof.
  unfold reconcileVolume. apply post_bind, post_look, post_bind, post_of_result. intros m Hm.
  apply post_createOr; [intros; stuck|]. intros v w w' Hg.
  rewrite (key_of _ _ _ _ Hm) in Hg. destruct (backingVolumeAvailable v) eqn:E.
  - apply post_bind, post_assign, post_ret. left. split_and!; [done|by repeat split| |done]. by exists w, w', v.
  - apply objstore_post_reportPending. intros p' Hr. right. right. by auto.
Qed.

Lemma create_credentials_step (P : ObjectStorage → Prop) p :
  post createCredentialsSecret (steps P (object p)) p.
Proof. unfold createCredentialsSecret. repeat on_step. stuck. Qed.

Lemma credentials_step p :
  post reconcileCredentials (steps (λ _, secretSeen (object p) ∧ rotationRequested (object p) = false) (object p)) p.
Proof.
  unfold reconcileCredentials. apply post_bind, post_look, post_bind, post_call. intros got w Hg%attempt_inv.
  cbn [id] in *. destruct got as [s|e]; [|destruct (is_not_found e); [|apply post_fail];
    apply (create_credentials_step _ (mkOn w (object p)))].
  destruct (rotationRequested (object p)) eqn:E.
  - apply post_bind, post_call. intros u w' _. apply (create_credentials_step _ (mkOn w' (object p))).
  - apply post_bind, post_assign, post_ret. left. split_and!; [done|by repeat split| |done|done].
    by exists (outside p), w, s.
Qed.

Lemma deployment_step p : post (reconcileDeployment image) (steps (λ _, serverSeen (object p)) (object p)) p.
Proof.
  unfold reconcileDeployment. apply post_bind, post_look, post_bind, post_call. intros [[d []] op] w Hd.
  cbn [id fst] in *. destruct (DeploymentAvailable d) eqn:EA, (deploymentRolloutComplete d) eqn:ER;
    cbn [negb orb]; cycle 1.
  1-3: destruct (dsp_replicas (dep_spec d)); [|apply post_fail]; apply objstore_post_reportPending; intros p' Hr;
       right; right; by auto.
  apply post_ret. left. split_and!; [done|apply objstore_unreported_refl| |done].
  exists (outside p), w, (object p), d, op. by repeat split.
Qed.

Lemma objstore_service_step p :
  post reconcileService (steps (λ o', serviceSeen (object p) (ost_endpoint (os_status o'))) (object p)) p.
Proof.
  unfold reconcileService. apply post_bind, post_look, post_bind, post_of_result. intros m Hm.
  apply post_createOr; [intros; stuck|]. intros s w w' Hg. rewrite (key_of _ _ _ _ Hm) in Hg.
  apply post_bind, post_assign, post_ret. left. split_and!; [done|by repeat split| |done]. by exists w, w', s.
Qed.

(** ** The address from outside, and the buckets *)

Definition keeps (o o' : ObjectStorage) : Prop :=
  unreported o o' ∧ ost_endpoint (os_status o') = ost_endpoint (os_status o) ∧
  ost_last_credential_rotation_time (os_status o') = ost_last_credential_rotation_time (os_status o).
Lemma keeps_refl o : keeps o o.
Proof. by split_and!; [apply objstore_unreported_refl|..]. Qed.
Lemma keeps_trans o1 o2 o3 : keeps o1 o2 → keeps o2 o3 → keeps o1 o3.
Proof.
  intros (H1 & H2 & H3) (H1' & H2' & H3'). split_and!; [by eapply unreported_trans|congruence..].
Qed.

Lemma post_setTLS st reason msg (Q : unit → On W ObjectStorage → Prop) p :
  (∀ p', keeps (object p) (object p') → Q tt p') → post (setTLS st reason msg) Q p.
Proof.
  intros HQ. apply post_bind, post_call. intros t w _. apply post_assign, HQ. cbn.
  split; [|done]. split_and!; [done| |done]. unfold availableView, SetTLSCondition. cbn.
  by rewrite view_set_new, decide_False.
Qed.

Lemma post_resolveTLS i (Q : gmap string string * list IngressTLS → On W ObjectStorage → Prop) p :
  (∀ x p', keeps (object p) (object p') → Q x p') → post (resolveTLS i) Q p.
Proof.
  intros HQ. unfold resolveTLS. destruct (negb (ois_tls i)); [apply post_ret, HQ, keeps_refl|].
  apply post_bind, post_look, post_bind, post_call. intros [name|[reason msg]] w _.
  - apply post_ret, HQ, keeps_refl.
  - apply post_bind, post_setTLS. intros p' Hk. by apply post_ret, HQ.
Qed.

Lemma post_finalizeTLS annotations tls (Q : unit → On W ObjectStorage → Prop) p :
  (∀ p', keeps (object p) (object p') → Q tt p') → post (finalizeTLS annotations tls) Q p.
Proof.
  intros HQ. unfold finalizeTLS, setTLSConfiguredIfEnabled. apply post_bind, post_look, post_bind.
  assert (∀ w, post (if decide (mget annotations CertManagerClusterIssuerAnnotation = "") then mret tt
    else setTLS ConditionTrue "TLSConfigured"
           ("Using ClusterIssuer " +:+ quote (mget annotations CertManagerClusterIssuerAnnotation)))
    Q (mkOn w (object p))) as Hend.
  { intros w. case_decide; [apply post_ret, HQ, keeps_refl|]. by apply post_setTLS. }
  destruct (decide (tls = [])); [apply post_ret; destruct p; apply Hend|].
  apply post_call. intros [] w _. apply Hend.
Qed.

Definition exposed (o o' : ObjectStorage) : Prop :=
  match oss_ingress (os_spec o) with
  | Some i => ost_external_endpoint (os_status o') = externalEndpoint (ois_tls i) (ois_hostname i)
  | None => True
  end.
Lemma ingress_step p :
  post reconcileIngress (steps (λ o', keeps (object p) o' ∧ exposed (object p) o') (object p)) p.
Proof.
  unfold reconcileIngress, exposed. apply post_bind, post_look. cbn [id].
  destruct (oss_ingress (os_spec (object p))) as [i|] eqn:Ei.
  2:{ apply post_ret. left. split_and!; [done|apply objstore_unreported_refl|apply keeps_refl|done|done]. }
  apply post_bind, post_resolveTLS. intros [annotations tls] p1 H1.
  apply post_bind, post_of_result. intros m _. apply post_bind, post_call. intros created w _.
  apply post_bind, post_finalizeTLS. intros p2 H2. cbn [object] in H2.
  pose proof (keeps_trans _ _ _ H1 H2) as HK. destruct created.
  - apply post_ret. right. left. split; [done|]. apply HK.
  - apply post_bind, post_assign, post_ret. left.
    assert (keeps (object p) ((object p2) <| os_status ::= λ s, s
      <| ost_external_endpoint := externalEndpoint (ois_tls i) (ois_hostname i) |> |>)) as HK'
      by (eapply keeps_trans; [apply HK|]; by repeat split).
    split_and!; [done|apply HK'|apply HK'|done|apply HK'].
Qed.

Definition bucketMade (endpoint b : string) : BucketStatus := mkBucketStatus b true (endpoint +:+ "/" +:+ b).

(** The buckets made so far, and those still to make. *)
Lemma create_buckets_step c l o (made : list BucketStatus) p :
  (∀ b, b ∈ l → b ∈ oss_buckets (os_spec o)) → keeps o (object p) →
  ost_external_endpoint (os_status (object p)) = ost_external_endpoint (os_status o) →
  ost_buckets (os_status (object p)) = made → Forall (λ s, bst_created s = true) made →
  post (createBuckets c l) (steps (λ o', keeps o o' ∧
     ost_external_endpoint (os_status o') = ost_external_endpoint (os_status o) ∧
     ost_buckets (os_status o') = made ++ (bucketMade (ost_endpoint (os_status o)) <$> l)) o) p.
Proof.
  revert made p. induction l as [|b l IH]; intros made p Hl HK He Hb Hf.
  - apply post_bind, objstore_post_report. intros t w. apply post_ret. left.
    assert (keeps o (setStatusCondition t ObjectStorageConditionBucketsReady ConditionTrue "BucketsReady"
      "All buckets created successfully" (object p))) as HK'.
    { eapply keeps_trans; [apply HK|]. split; [|done]. split_and!; [done| |done].
      unfold availableView. cbn. by rewrite view_set_new, decide_False. }
    split_and!; [done|apply HK'|apply HK'|done|by rewrite app_nil_r|apply HK'].
  - cbn [createBuckets]. apply post_bind, post_call. intros res w _. destruct res as [u|e].
    + apply post_bind, post_look, post_bind, post_assign. cbn [object].
      eapply post_mono; [apply (IH (made ++ [bucketMade (ost_endpoint (os_status o)) b]))|].
      * intros b' Hb'. apply Hl. by right.
      * eapply keeps_trans; [apply HK|]. by repeat split.
      * done.
      * cbn. rewrite Hb. by destruct HK as (_ & -> & _).
      * apply Forall_app. split; [done|]. by constructor.
      * intros res p'. rewrite <- app_assoc. by intros H.
    + apply post_bind, post_assign, post_bind, objstore_post_report. intros t w'. apply post_ret. right. right.
      split; [done|]. right. split.
      * eapply unreported_trans; [apply HK|]. split_and!; [done| |done].
        unfold availableView. cbn. by rewrite view_set_new, decide_False.
      * exists b, made. destruct HK as (((Hm & _) & _) & _). split_and!; [apply Hl; by left| |done|].
        -- cbn. by rewrite Hb.
        -- cbn. rewrite view_set_new, decide_True by done. by rewrite Hm.
Qed.

Definition bucketsMade (o o' : ObjectStorage) : Prop :=
  oss_buckets (os_spec o) ≠ [] →
  ost_buckets (os_status o') = bucketMade (ost_endpoint (os_status o)) <$> oss_buckets (os_spec o).
Lemma buckets_step p :
  post reconcileBuckets (steps (λ o', keeps (object p) o' ∧
    ost_external_endpoint (os_status o') = ost_external_endpoint (os_status (object p)) ∧
    bucketsMade (object p) o') (object p)) p.
Proof.
  unfold reconcileBuckets, bucketsMade. apply post_bind, post_look. cbn [id]. case_decide as E.
  - apply post_ret. left. split_and!; [done|apply objstore_unreported_refl|apply keeps_refl|done|done|done].
  - apply post_bind, post_call. intros s w _. apply post_bind, post_assign. cbn [object outside].
    eapply post_mono; [apply (create_buckets_step _ _ (object p) []); [done|by repeat split|done|done|by constructor]|].
    intros res p' [(-> & Hu & (HK & He & Hb) & Hr)|[H|H]]; [left|right; left; exact H|right; right; exact H].
    by split_and!.
Qed.

(** * The pass *)

Definition ready (o o' : ObjectStorage) : Prop :=
  volumeSeen o ∧ secretSeen o ∧ rotationRequested o = false ∧ serverSeen o ∧
  serviceSeen o (ost_endpoint (os_status o')) ∧ exposed o o' ∧
  (oss_buckets (os_spec o) ≠ [] →
   ost_buckets (os_status o') = bucketMade (ost_endpoint (os_status o')) <$> oss_buckets (os_spec o)).
Definition passEnds (o : ObjectStorage) (res : CtrlResult) (p' : On W ObjectStorage) : Prop :=
  let o' := object p' in
  (res = no_requeue ∧ reported ConditionTrue ObjectStoragePhaseReady o o' ∧ ready o o') ∨
  (res = no_requeue ∧ (reported ConditionFalse ObjectStoragePhasePending o o' ∨ bucketFailed o o')) ∨
  (res = mkCtrlResult true 0 ∧ unreported o o').

Lemma post_step step rest (P : ObjectStorage → Prop) o p :
  unreported o (object p) → post step (steps P (object p)) p →
  (∀ p', P (object p') → unreported o (object p') →
     ost_last_credential_rotation_time (os_status (object p')) =
     ost_last_credential_rotation_time (os_status (object p)) → post (runChain rest) (passEnds o) p') →
  post (runChain (step :: rest)) (passEnds o) p.
Proof.
  intros Hu Hs Hrest. cbn [runChain]. apply post_bind. eapply post_mono; [apply Hs|].
  intros res p' [(-> & Hu' & HP & Hr)|[[-> Hu']|[-> Hr]]]; cbv beta.
  - apply Hrest; [done| |done]. by eapply unreported_trans.
  - apply post_ret. right. right. split; [done|]. by eapply unreported_trans.
  - apply post_ret. right. left. split; [done|].
    destruct Hr as [Hr|Hr]; [left; by eapply objstore_reported_after|right; by eapply failed_after].
Qed.

Lemma seen_same o o1 : sameStorage o o1 →
  (volumeSeen o1 → volumeSeen o) ∧ (secretSeen o1 → secretSeen o) ∧ (serverSeen o1 → serverSeen o) ∧
  (∀ url, serviceSeen o1 url → serviceSeen o url) ∧ (∀ o', exposed o1 o' → exposed o o').
Proof.
  intros [Hm Hs]. unfold volumeSeen, secretSeen, serverSeen, serviceSeen, exposed, VolumeName,
    CredentialsSecretName, DeploymentName, ServiceName, os_namespace, os_name, sameStorage. rewrite Hm, Hs. done.
Qed.

(** C26. What a pass can say of an object storage.  Available and Ready only at the end
    of the whole chain: the backing volume was available, the credentials were there
    and no rotation was due, the server's Deployment was available and rolled out,
    the endpoint in the status is that of the Service, the outer endpoint is the one
    the spec asks for, and every bucket of the spec is listed as made, at that
    endpoint.  Or a step says Unavailable and Pending; or a bucket could not be made,
    and then only the bucket condition says so; or the pass asks to come back at
    once, with nothing said of availability. *)
Theorem object_storage_pass_spec (p p' : On W ObjectStorage) (res : CtrlResult) :
  reconcile image p = (Ok res, p') → passEnds (object p) res p'.
Proof.
  enough (post (reconcile image) (passEnds (object p)) p) as H by apply H. set (o := object p).
  unfold reconcile, subReconcilers.
  apply (post_step _ _ _ _ _ (objstore_unreported_refl o) (volume_step p)). intros p1 Hvol Hu1 Hr1.
  apply (post_step _ _ _ _ _ Hu1 (credentials_step p1)). intros p2 [Hsec Hrot] Hu2 Hr2.
  apply (post_step _ _ _ _ _ Hu2 (deployment_step p2)). intros p3 Hdep Hu3 Hr3.
  apply (post_step _ _ _ _ _ Hu3 (objstore_service_step p3)). intros p4 Hsvc Hu4 Hr4.
  apply (post_step _ _ _ _ _ Hu4 (ingress_step p4)). intros p5 [HK5 Hexp] Hu5 Hr5.
  apply (post_step _ _ _ _ _ Hu5 (buckets_step p5)). intros p6 (HK6 & Hext & Hbuck) Hu6 Hr6.
  cbn [runChain]. apply post_bind, objstore_post_report. intros t w. apply post_bind, post_assign, post_ret.
  destruct (seen_same _ _ (proj1 Hu1)) as (_ & Fsec & _). destruct (seen_same _ _ (proj1 Hu2)) as (_ & _ & Fdep & _).
  destruct (seen_same _ _ (proj1 Hu3)) as (_ & _ & _ & Fsvc & _).
  destruct (seen_same _ _ (proj1 Hu4)) as (_ & _ & _ & _ & Fexp).
  pose proof (proj1 Hu6) as [Hm6 Hs6]. pose proof (proj1 Hu5) as [_ Hs5]. pose proof (proj1 Hu1) as [_ Hs1].
  left. split; [done|]. split.
  - split; [done|]. split; [|done]. do 2 eexists. unfold availableView. cbn.
    rewrite view_set_new, decide_True by done. by rewrite Hm6.
  - unfold ready. split_and!; [done|by apply Fsec| |by apply Fdep| | |].
    + unfold rotationRequested in *. by rewrite Hr1, Hs1 in Hrot.
    + cbn. destruct HK6 as (_ & -> & _), HK5 as (_ & -> & _). by apply Fsvc.
    + unfold exposed in *. specialize (Fexp _ Hexp). destruct (oss_ingress (os_spec o)); [|done].
      cbn. by rewrite Hext.
    + intros Hne. cbn. unfold bucketsMade in Hbuck. rewrite Hs5 in Hbuck. rewrite (Hbuck Hne).
      by destruct HK6 as (_ & -> & _).
Qed.
End outcome.

(** * Rotation *)

Lemma hex_encode_length l : String.length (hex_encode l) = 2 * length l.
Proof. induction l as [|b l IH]; [done|]. cbn [hex_encode String.length length]. rewrite IH. lia. Qed.
Lemma length_substring_0 n s : n ≤ String.length s → String.length (String.substring 0 n s) = n.
Proof.
  revert n. induction s as [|c s IH]; intros [|n] H; cbn in *; [done|lia|done|]. f_equal. apply IH. lia.
Qed.

(** Enough bytes are drawn for a key of any length: slicing never panics. *)
Lemma generate_key `{RandomBytesLaws W} n w l w' :
  random_bytes ((n + 1) / 2) w = (Ok l, w') →
  ∃ k, generateRandomKey n w = (Ok k, w') ∧ String.length k = n.
Proof.
  intros Hr. pose proof (random_bytes_length _ _ _ _ Hr) as Hl.
  assert (n ≤ String.length (hex_encode l)) as Hn.
  { rewrite hex_encode_length, Hl. pose proof (Nat.div_mod_eq (n + 1) 2).
    pose proof (Nat.mod_upper_bound (n + 1) 2). lia. }
  exists (String.substring 0 n (hex_encode l)). split; [|by apply length_substring_0].
  unfold generateRandomKey. rewrite (se_bind_ok _ _ _ _ _ Hr). unfold of_result, slice_to.
  by rewrite decide_True.
Qed.
Lemma generated_length `{RandomBytesLaws W} n w k w' : generateRandomKey n w = (Ok k, w') → String.length k = n.
Proof.
  intros Hk. pose proof Hk as (l & w1 & Hl & _)%se_bind_inv.
  destruct (generate_key _ _ _ _ Hl) as (k' & Hk' & Hn). rewrite Hk in Hk'. by injection Hk' as ->.
Qed.

Section rotation.
Context {CA : ConditionsApi} {OA : OwnerApi} {OL : OwnerLaws}.
Context {W : Type} {CK : Clock W} {RB : RandomBytes W} {RL : RandomBytesLaws W} {KS : Kind W Secret}.

Definition whole_second (t : Time) : Prop := (t `mod` second = 0)%Z.
(** The API keeps times to the second. *)
Definition stored (t u : Time) : Prop := (second * (t `div` second) ≤ u ≤ t)%Z.
Definition withTimes (requested last : Time) (o : ObjectStorage) : ObjectStorage :=
  o <| os_spec ::= λ s, mkObjectStorageSpec (oss_capacity s) (oss_storage_class_name s) (oss_buckets s)
          (oss_ingress s) (oss_resources s) (Some requested) |>
    <| os_status ::= λ s, s <| ost_last_credential_rotation_time := Some last |> |>.

(** New credentials are made once for each request.  When the step makes them, it
    makes a Secret with a 20-digit and a 40-digit key under both pairs of names, and
    writes down when.  A request for any moment up to then is done with, also after
    the API has rounded that time down to the second; a request for a later moment is
    still open, so the next pass makes the credentials once more. *)
Theorem credential_rotation_once (p p' : On W ObjectStorage) :
  reconcileCredentials p = (Ok resultRequeue, p') →
  ∃ t w accessKey secretKey secret created w1 w2,
    now w = (Ok t, outside p') ∧ kcreate secret w1 = (Ok created, w2) ∧
    sec_data secret = sec_data (credentialsSecret (object p) accessKey secretKey) ∧
    String.length accessKey = 20 ∧ String.length secretKey = 40 ∧
    ost_last_credential_rotation_time (os_status (object p')) = Some t ∧
    ∀ requested last, whole_second requested → stored t last →
      rotationRequested (withTimes requested last (object p')) = bool_decide (t < requested)%Z.
Proof.
  revert p'. enough (∀ p, post createCredentialsSecret (λ res p', ∃ t w accessKey secretKey secret created w1 w2,
    now w = (Ok t, outside p') ∧ kcreate secret w1 = (Ok created, w2) ∧
    sec_data secret = sec_data (credentialsSecret (object p) accessKey secretKey) ∧
    String.length accessKey = 20 ∧ String.length secretKey = 40 ∧
    ost_last_credential_rotation_time (os_status (object p')) = Some t) p) as Hc.
  { intros p' (o & p1 & [= <- <-] & H)%se_bind_inv. cbn [id] in H.
    apply se_bind_inv in H as (got & p2 & Hg & H).
    assert (object p2 = object p) as Ho by (unfold call in Hg; destruct (attempt _ _); by injection Hg as _ <-).
    assert (∃ p3, createCredentialsSecret p3 = (Ok resultRequeue, p') ∧ object p3 = object p) as (p3 & H3 & Ho3).
    { destruct got as [s|e]; [|destruct (is_not_found e); [by exists p2|done]].
      destruct (rotationRequested (object p)); [|by apply se_bind_inv in H as (? & ? & _ & ?)].
      apply se_bind_inv in H as (u & p3 & Hd & H). exists p3. split; [done|].
      unfold call in Hd. destruct (kdelete _ _). injection Hd as _ <-. done. }
    destruct (Hc _ _ _ H3) as (t & w & ak & sk & s & c & w1 & w2 & H1 & H2 & H4 & H5 & H6 & H7).
    exists t, w, ak, sk, s, c, w1, w2. rewrite Ho3 in H4. split_and!; try done.
    intros requested last Hw [Hl1 Hl2]. cbn. unfold whole_second, second in *. apply eq_bool_prop_intro.
    rewrite bool_decide_spec. rewrite Is_true_true, Z.ltb_lt. pose proof (Z.div_mod t 1000000000).
    pose proof (Z.div_mod requested 1000000000). pose proof (Z.mod_pos_bound t 1000000000). lia. }
  clear p. intros p. unfold createCredentialsSecret. apply post_bind, post_look. cbn [id].
  apply post_bind, post_call. intros ak w1 Hak. apply post_bind, post_call. intros sk w2 Hsk.
  apply post_bind, post_of_result. intros m _. apply post_bind, post_call. intros c w3 Hcr.
  apply post_bind, post_call. intros t w4 Ht. apply post_bind, post_assign, post_ret. cbn [object outside] in *.
  do 8 eexists. split_and!; [exact Ht|exact Hcr|done|by eapply generated_length..|done].
Qed.
End rotation.

(** * A concrete object storage *)

Import Cluster.
#[local] Instance zero_bytes : RandomBytes Z := λ n t, (Ok (repeat 7%N n), t).
#[local] Instance zero_bytes_laws : RandomBytesLaws Z.
Proof. intros n w l w' [= <- _]. apply repeat_length. Qed.
#[local] Instance open_s3 : S3Api Z := λ _ b t, (if decide (b = "taken") then Some BucketAlreadyOwnedByYou else None, t).
#[local] Instance no_stamp : TimeStamp := λ _, "".
#[local] Instance up_at_once : CreateOrUpdate Z Deployment := λ A d f t,
  match f d t with
  | (Ok (d, a), t) =>
      (Ok (d <| dep_status := mkDeploymentStatus 0 1 1 1 1 0
             [mkDeploymentCondition DeploymentAvailableType ConditionTrue "" 0%Z] |>, a, OpUpdated), t)
  | (Err e, t) => (Err e, t)
  end.
Definition sample_storage : ObjectStorage :=
  mkObjectStorage (object_meta "media" "default")
    (mkObjectStorageSpec "1Gi" None ["photos"; "taken"] (Some (mkObjectStorageIngressSpec "s3.example.org" None true))
       None (Some (3 * second)%Z))
    (mkObjectStorageStatus 0 "" [] "" "" "" (Some (3 * second)%Z) "" "" []).
#[local] Instance a_volume : Kind Z Volume :=
  only_objects [(sample_volume "media-objstore-vol" None)
    <| vol_status ::= λ s, s <| vst_conditions := [new_condition "Available" ConditionTrue 0 "" ""] |> |>].
#[local] Instance a_secret : Kind Z Secret :=
  only_objects [credentialsSecret sample_storage "0123" "4567"].
#[local] Instance a_service : Kind Z Service := only_objects [desiredService sample_storage].
#[local] Instance an_ingress : Kind Z Ingress := only_objects [mkIngress (object_meta "media-objstore" "default") (mkIngressSpec None [] [])].

Lemma object_storage_pass_spec_witness :
  ∃ p', reconcile "rustfs" (mkOn 5%Z sample_storage) = (Ok no_requeue, p') ∧
    ost_buckets (os_status (object p')) =
      bucketMade "http://media-objstore.default.svc.cluster.local:9000" <$> ["photos"; "taken"].
Proof.
  destruct (reconcile "rustfs" (mkOn 5%Z sample_storage)) as [[res|e] p'] eqn:E;
    [|exfalso; vm_compute in E; discriminate].
  assert (res = no_requeue) as -> by (vm_compute in E; by injection E as <- _).
  exists p'. split; [reflexivity|].
  destruct (object_storage_pass_spec (W:=Z) "rustfs" _ _ _ E) as [(_ & _ & H)|[(_ & [H|H])|[H _]]].
  - destruct H as (_ & _ & _ & _ & (w & w' & s & Hs & Hurl) & _ & Hb).
    rewrite (Hb ltac:(discriminate)), Hurl. vm_compute in Hs. by injection Hs as <- _.
  - exfalso. destruct H as (_ & _ & H). vm_compute in E. injection E as <-. vm_compute in H. discriminate.
  - exfalso. destruct H as [_ (b & made & _ & Hm & _)]. vm_compute in E. injection E as <-.
    change (ost_buckets _) with [mkBucketStatus "photos" true (bst_url (bucketMade "http://media-objstore.default.svc.cluster.local:9000" "photos"));
      mkBucketStatus "taken" true (bst_url (bucketMade "http://media-objstore.default.svc.cluster.local:9000" "taken"))] in Hm.
    destruct made as [|x [|y [|z made]]]; discriminate Hm.
  - exfalso. vm_compute in H. discriminate.
Defined.

(** A rotation asked for at three seconds past zero, done at five. *)
Lemma credential_rotation_once_witness :
  ∃ p', reconcileCredentials (mkOn (5 * second)%Z (withTimes (3 * second) (2 * second) sample_storage))
          = (Ok resultRequeue, p') ∧
    rotationRequested (withTimes (3 * second) (5 * second) (object p')) = false ∧
    rotationRequested (withTimes (6 * second) (5 * second) (object p')) = true.
Proof.
  destruct (reconcileCredentials _) as [[res|e] p'] eqn:E; [|exfalso; vm_compute in E; discriminate].
  assert (res = resultRequeue) as -> by (vm_compute in E; by injection E as <- _).
  exists p'. split; [reflexivity|].
  destruct (credential_rotation_once (W:=Z) _ _ E) as (t & w & ak & sk & s & c & w1 & w2 & _ & _ & _ & _ & _ & Ht & H).
  assert (t = 5 * second)%Z as -> by (vm_compute in E; injection E as <-; vm_compute in Ht; by injection Ht).
  split.
  - rewrite (H (3 * second)%Z (5 * second)%Z); [reflexivity|reflexivity|split; vm_compute; congruence].
  - rewrite (H (6 * second)%Z (5 * second)%Z); [reflexivity|reflexivity|split; vm_compute; congruence].
Defined.
