(* ===== verification/Nfs.v ===== *)
(** NFS servers (api/storage/v1alpha1/nfsserver_types.go and
    internal/controller/nfsserver) and the provisioner that makes volumes on them
    (pkg/rwmany_provisioner). *)
From S2P Require Import Prelude Text Paths Kube Api Builds Storage KubeWorkloads PodSpecs Workloads Objects.

(** * The resource *)

Definition NFSServerPhasePending : string := "Pending".
Definition NFSServerPhaseReady : string := "Ready".
Definition NFSServerConditionTypeAvailable : string := "Available".

Record NFSServerSpec := mkNFSServerSpec {
  nss_export_dir : string;
  nss_capacity : string;
  nss_backing_storage_class_name : option string;
}.
Record NFSServerStatus := mkNFSServerStatus {
  nst_url : string; nst_phase : string; nst_conditions : list Condition }.
#[export] Instance eta_nfs_server_status : Eta NFSServerStatus := λ s,
  mkNFSServerStatus (nst_url s) (nst_phase s) (nst_conditions s).
Record NFSServer := mkNFSServer {
  nfs_meta : ObjectMeta; nfs_spec : NFSServerSpec; nfs_status : NFSServerStatus }.
#[export] Instance eta_nfs_server : Eta NFSServer := λ n, mkNFSServer (nfs_meta n) (nfs_spec n) (nfs_status n).
Definition nfs_name (n : NFSServer) : string := om_name (nfs_meta n).
Definition nfs_namespace (n : NFSServer) : string := om_namespace (nfs_meta n).
Definition BackendPVCName (n : NFSServer) : string := nfs_name n +:+ "-nfs-pvc".

(** [equality.Semantic.DeepDerivative] on Deployment specs. *)
Class DeploymentDerivative := deployment_derivative : DeploymentSpec → DeploymentSpec → bool.

Record StorageClassOpts := mkStorageClassOpts {
  sco_name : string;
  sco_provisioner_name : string;
  sco_reclaim_policy : option string;
  sco_mount_options : list string;
  sco_allow_volume_expansion : option bool;
}.
Definition cacheFinalizer : string := "nfsserver.stackdome.io/cache".

(** * The controller *)

Section controller.
Context {QP : QuantityParse} {CA : ConditionsApi} {OA : OwnerApi} {FA : FinalizerApi} {DD : DeploymentDerivative}.
Context {W : Type} {CK : Clock W} {KN : Kind W NFSServer} {KP : Kind W PersistentVolumeClaim}.
Context {KD : Kind W Deployment} {KS : Kind W Service} {KC : Kind W StorageClass}.

Definition desiredStorageClass (o : StorageClassOpts) : StorageClass :=
  mkStorageClass (object_meta (sco_name o) "") (sco_provisioner_name o) (sco_reclaim_policy o)
    (sco_mount_options o) (sco_allow_volume_expansion o) "WaitForFirstConsumer".
(** The image the servers will run. *)
Definition NewNFSServerReconciler (o : StorageClassOpts) (image : string) : SE W string :=
  created ← attempt (kcreate (desiredStorageClass o));
  _ ← match created with
      | Err e => if is_already_exists e then mret tt else fail e
      | Ok _ => mret tt
      end;
  if decide (image = "") then fail (Errorf "nfs server image is required") else mret image.

Context (image : string).

Definition setAvailable (t : Time) (st : ConditionStatus) (reason msg phase : string) (n : NFSServer) : NFSServer :=
  n <| nfs_status ::= λ s, s <| nst_conditions ::= λ cs, set_status_condition t cs
         (new_condition NFSServerConditionTypeAvailable st 0 reason msg) |> <| nst_phase := phase |> |>.

Definition backendClaim (n : NFSServer) (size : string) : PersistentVolumeClaim :=
  mkPersistentVolumeClaim (object_meta (BackendPVCName n) (nfs_namespace n)) ["ReadWriteOnce"] size
    (nss_backing_storage_class_name (nfs_spec n)).
Definition reconcileBackendStorage : OM W NFSServer subReconcilerResult :=
  n ← look id;
  size ← of_result (parse_quantity (nss_capacity (nfs_spec n)));
  let desired := backendClaim n size in
  m ← of_result (set_owner_reference (nfs_meta n) (pvc_meta desired));
  createOr m (desired <| pvc_meta := m |>) (λ _, mret resultNil).

Definition serverDeploymentName (n : NFSServer) : string := nfs_name n +:+ "-nfs-server".
Definition serverContainer (n : NFSServer) : Container :=
  (new_container "nfs-server" image)
    <| ct_ports := [mkContainerPort "" 2049; mkContainerPort "" 20048; mkContainerPort "" 111] |>
    <| ct_security_context := Some (mkSecurityContext None [] [] None (Some true)) |>
    <| ct_env := [mkEnvVar "NFS_EXPORT_0" (nss_export_dir (nfs_spec n)) None;
                  mkEnvVar "NFS_DISABLE_VERSION_3" "1" None] |>
    <| ct_volume_mounts := [mkKVolumeMount "export" (nss_export_dir (nfs_spec n)) "" false] |>.
Definition serverDeployment (n : NFSServer) : Deployment :=
  let labels : gmap string string := {[ "app" := serverDeploymentName n ]} in
  (new_deployment (serverDeploymentName n) (nfs_namespace n))
    <| dep_spec ::= λ s, s <| dsp_selector := labels |> <| dsp_replicas := Some 1%Z |>
         <| dsp_template := mkPodTemplateSpec labels ∅
              (empty_pod_spec <| ps_containers := [serverContainer n] |>
                 <| ps_volumes := [mkKVolume "export" (ClaimVolume (BackendPVCName n))] |>) |> |>.
Definition reconcileNFSServerDeployment : OM W NFSServer subReconcilerResult :=
  n ← look id;
  m ← of_result (set_controller_reference (nfs_meta n) (dep_meta (serverDeployment n)));
  let desired := (serverDeployment n) <| dep_meta := m |> in
  createOr m desired (λ existing,
    _ ← (if deployment_derivative (dep_spec desired) (dep_spec existing) then mret tt
         else
           _ ← call (kupdate (desired <| dep_meta ::= λ m, m
                       <| om_resource_version := om_resource_version (dep_meta existing) |> |>));
           mret tt);
    existing ← call (kget (O:=Deployment) (om_namespace m) (om_name m));
    if DeploymentAvailable existing then mret resultNil
    else
      t ← call now;
      _ ← assign (setAvailable t ConditionFalse "NFSServerDeploymentNotReady"
            "NFSServer deployment is not yet available" NFSServerPhasePending);
      mret resultStop).

Definition serverService (n : NFSServer) : Service :=
  let port (name : string) (p : Z) := mkServicePort name p (FromInt32 0) 0 in
  mkService (object_meta (nfs_name n) (nfs_namespace n))
    (mkServiceSpec {[ "app" := serverDeploymentName n ]}
       [port "nfs" 2049%Z; port "mountd" 20048%Z; port "rpcbind" 111%Z] "" "").
Definition reconcileNFSServerService : OM W NFSServer subReconcilerResult :=
  n ← look id;
  m ← of_result (set_controller_reference (nfs_meta n) (svc_meta (serverService n)));
  createOr m ((serverService n) <| svc_meta := m |>) (λ existing,
    _ ← assign (λ n, n <| nfs_status ::= λ s, s <| nst_url := svs_cluster_ip (svc_spec existing) |> |>);
    mret resultNil).

Definition subReconcilers : list (OM W NFSServer subReconcilerResult) :=
  [reconcileBackendStorage; reconcileNFSServerDeployment; reconcileNFSServerService].
(** The answer of the step that ended the pass, if one did. *)
Fixpoint endedBy (steps : list (OM W NFSServer subReconcilerResult)) : OM W NFSServer (option CtrlResult) :=
  match steps with
  | [] => mret None
  | step :: steps =>
      res ← step;
      if isStop res then mret (Some no_requeue)
      else if isRequeue res then mret (Some (mkCtrlResult true 0))
      else match requeueAfter res with
           | Some t => mret (Some (mkCtrlResult false t))
           | None => endedBy steps
           end
  end.

(** [reconcileDelete] does nothing yet. *)
Definition reconcileDelete (n : NFSServer) : SE W CtrlResult := mret no_requeue.

Definition Reconcile (ns name : string) : SE W CtrlResult :=
  got ← attempt (kget (O:=NFSServer) ns name);
  match got with
  | Err e => if is_not_found e then mret no_requeue else fail e
  | Ok n =>
      if om_deletion_timestamp (nfs_meta n) is Some _ then
        if contains_finalizer cacheFinalizer (nfs_meta n) then
          res ← reconcileDelete n;
          if decide (res ≠ no_requeue) then mret res
          else _ ← kupdate (n <| nfs_meta ::= remove_finalizer cacheFinalizer |>); mret no_requeue
        else mret no_requeue
      else if negb (contains_finalizer cacheFinalizer (nfs_meta n)) then
        _ ← kupdate (n <| nfs_meta ::= λ m, (add_finalizer cacheFinalizer m).2 |>);
        mret no_requeue
      else
        out ← with_object n (endedBy subReconcilers);
        match out.1 with
        | Some res => mret res
        | None =>
            t ← now;
            _ ← kupdate_status (setAvailable t ConditionTrue "NFSServerAvailable"
                  "NFSServer deployment is available" NFSServerPhaseReady out.2);
            mret no_requeue
        end
  end.
End controller.
