(* ===== verification/Provisioner.v ===== *)
(** The provisioner of volumes on NFS servers
    (pkg/rwmany_provisioner/stackdome_rwmany_provisioner.go), called by the library
    sig-storage-lib-external-provisioner for claims and volumes of its class. *)
From S2P Require Import Prelude Text Paths Kube Api Storage KubeWorkloads Nfs.

Definition ProvisionedByAnnotation : string := "stackdome.io/provisioned-by".
Definition NamespaceAnnotation : string := "stackdome.io/nfs-server-namespace".

(** What the library passes and is told. *)
Record ProvisionOptions := mkProvisionOptions {
  po_storage_class : StorageClass;
  po_pv_name : string;
  po_pvc : PersistentVolumeClaim;
}.
Inductive ProvisioningState := ProvisioningFinished | ProvisioningInBackground.
#[export] Instance provisioning_state_eq_dec : EqDecision ProvisioningState.
Proof. solve_decision. Defined.

(** [PodExecuter.ExecuteCommand]: pod, container, command; what it prints. *)
Class PodExec (W : Type) := exec_in_pod : Pod → string → list string → SE W string.
(** [labels.NewRequirement] validates the value of a label; [SelectorsForObject] reads
    the selector of a Service; and the order of [podutils.ActivePods], reversed. *)
Class LabelValidation := valid_label_value : string → result unit.
Class ServiceSelector := service_selector : Service → result (gmap string string).
Class ActivePodSort := active_pods_first : list Pod → list Pod.
Class ActivePodSortLaws {AP : ActivePodSort} : Prop := active_pods_perm l : active_pods_first l ≡ₚ l.

Section provisioner.
Context {LV : LabelValidation} {SS : ServiceSelector} {AP : ActivePodSort} {CA : ConditionsApi}.
Context {W : Type} {PE : PodExec W} {KN : Kind W NFSServer} {KS : Kind W Service} {KP : Kind W Pod}.

Definition nfsServerAvailable (n : NFSServer) : bool :=
  match find_status_condition (nst_conditions (nfs_status n)) NFSServerConditionTypeAvailable with
  | Some c => bool_decide (c_status c = ConditionTrue)
  | None => false
  end.

(** [Items[0]] of a list the caller has seen is not empty. *)
Definition selectNFServer (l : list NFSServer) : result NFSServer :=
  match l with n :: _ => Ok n | [] => Err (Panic "index out of range") end.

Definition findNFSServerPod (n : NFSServer) : SE W Pod :=
  svc ← wrapping "failed to get nfs server svc: " (kget (O:=Service) (nfs_namespace n) (nfs_name n));
  selector ← wrapping "failed to get nfs server svc selector: " (of_result (service_selector svc));
  pods ← wrapping "failed to find nfs server pod: " (klist (O:=Pod) (nfs_namespace n) [selector]);
  if decide (pods = []) then fail (Errorf "no nfs server pod found")
  else match active_pods_first pods with
       | p :: _ => mret p
       | [] => fail (Panic "index out of range")
       end.

Definition shell (script : string) : list string := ["/bin/sh"; "-c"; script].

Definition pvcSubDirectoryName (o : ProvisionOptions) : string :=
  om_name (pvc_meta (po_pvc o)) +:+ "-" +:+ po_pv_name o.
Definition makeDirectory (path : string) : list string :=
  shell ("mkdir -p " +:+ path +:+ " && chmod 777 " +:+ path).
Definition provisionDirectoryForPVC (n : NFSServer) (pod : Pod) (o : ProvisionOptions) : SE W string :=
  let path := join_path (nss_export_dir (nfs_spec n)) (pvcSubDirectoryName o) in
  _ ← wrapping ("failed to create subdirectory inside nfs server for pvc '" +:+ om_name (pvc_meta (po_pvc o)) +:+
                "' : ") (exec_in_pod pod "" (makeDirectory path));
  mret (pvcSubDirectoryName o).

Definition newVolume (o : ProvisionOptions) (n : NFSServer) (dir reclaim : string) : PersistentVolume :=
  mkPersistentVolume
    ((object_meta (po_pv_name o) "") <| om_annotations :=
       {[ ProvisionedByAnnotation := nfs_name n; NamespaceAnnotation := nfs_namespace n ]} |>)
    reclaim (pvc_access_modes (po_pvc o)) (stc_mount_options (po_storage_class o))
    (pvc_storage_request (po_pvc o))
    (Some (mkNFSVolumeSource (nst_url (nfs_status n)) ("/" +:+ dir) false)).

(** The volume or an error, and whether the library need come back for it. *)
Definition Provision (o : ProvisionOptions) : SE W (result PersistentVolume * ProvisioningState) :=
  let ns := om_namespace (pvc_meta (po_pvc o)) in
  let finished e := mret (Err e, ProvisioningFinished) in
  let later e := mret (Err e, ProvisioningInBackground) in
  match om_labels (pvc_meta (po_pvc o)) !! StorageLabel with
  | None => finished (Errorf ("missing label '" +:+ StorageLabel +:+ "' in pvc"))
  | Some val =>
      match valid_label_value val with
      | Err e => finished (Wrapf "failed to create label requirement: " e)
      | Ok _ =>
          servers ← attempt (klist (O:=NFSServer) ns [{[ StorageLabel := val ]}]);
          match servers with
          | Err e => finished (Wrapf ("failed to list nfs Servers in pvc namespace " +:+ ns +:+ ": ") e)
          | Ok [] => finished (Errorf "no nfs servers found for this pvc")
          | Ok l =>
              n ← of_result (selectNFServer l);
              if negb (nfsServerAvailable n) then later (Errorf "backing nfs server not yet available")
              else
                pod ← attempt (findNFSServerPod n);
                match pod with
                | Err e => later (Wrapf "failed to get nfs server pod: " e)
                | Ok pod =>
                    dir ← attempt (provisionDirectoryForPVC n pod o);
                    match dir with
                    | Err e => later e
                    | Ok dir =>
                        match stc_reclaim_policy (po_storage_class o) with
                        | None => fail (Panic "nil pointer dereference")
                        | Some reclaim => mret (Ok (newVolume o n dir reclaim), ProvisioningFinished)
                        end
                    end
                end
          end
      end
  end.

(** * Deletion *)

Definition checkIfPathExistsInPod (pod : Pod) (path : string) : SE W bool :=
  out ← wrapping "failed to check if path exists: "
          (exec_in_pod pod "" (shell ("test -e " +:+ path +:+ " && echo 'exists' || echo 'not_exists'")));
  mret (bool_decide (trim_space out = "exists")).
Definition removeDirectory (path : string) : list string := shell ("rm -rf " +:+ path).
Definition emptyDirectory (path : string) : list string := shell ("rm -rf " +:+ path +:+ "/*").
Definition deletePVDirectory (pod : Pod) (path : string) : SE W unit :=
  _ ← exec_in_pod pod "" (removeDirectory path); mret tt.
Definition cleanUpPVDirectory (pod : Pod) (path : string) : SE W unit :=
  _ ← exec_in_pod pod "" (emptyDirectory path); mret tt.

Definition Delete (v : PersistentVolume) : SE W unit :=
  let annotations := om_annotations (pv_meta v) in
  match annotations !! ProvisionedByAnnotation, annotations !! NamespaceAnnotation with
  | Some name, Some ns =>
      n ← wrapping "failed to fetch backing NFS server: " (kget (O:=NFSServer) ns name);
      match pv_nfs v with
      | None => fail (Errorf "failed to delete pv: missing nfs server details in the provisioned volume")
      | Some src =>
          if decide (nfs_path src = "")
          then fail (Errorf "failed to delete pv: missing nfs server details in the provisioned volume")
          else
            let path := join_path (nss_export_dir (nfs_spec n)) (nfs_path src) in
            pod ← attempt (findNFSServerPod n);
            match pod with
            | Err _ => fail (Errorf "missing nfs server pod")
            | Ok pod =>
                there ← wrapping "failed to check if pv exists in nfs server: " (checkIfPathExistsInPod pod path);
                if negb there then mret tt
                else if decide (pv_reclaim_policy v = "Delete") then deletePVDirectory pod path
                else if decide (pv_reclaim_policy v = "Recycle") then cleanUpPVDirectory pod path
                else mret tt
            end
      end
  | _, _ => fail (Errorf "missing nfs server details in pv")
  end.
End provisioner.
