(* ===== verification/NfsOutcome.v ===== *)
(** What the NFS controller and the provisioner guarantee. *)
From S2P Require Import Prelude Text Paths Kube Apimachinery Api Storage KubeWorkloads PodSpecs Workloads Objects.
From S2P Require Import Nfs Provisioner Samples.
From Stdlib Require Import Ascii.

(** * Directories *)

Section directories.
Context {LV : LabelValidation} {SS : ServiceSelector} {AP : ActivePodSort} {CA : ConditionsApi}.
Context {W : Type} {PE : PodExec W} {KN : Kind W NFSServer} {KS : Kind W Service} {KP : Kind W Pod}.

Definition directoryOf (n : NFSServer) (o : ProvisionOptions) : string :=
  join_path (nss_export_dir (nfs_spec n)) (pvcSubDirectoryName o).

(** What a call leads from one world to another with: the server that a claim's label
    selects, the pod that serves it, and a command run in that pod. *)
Definition serverListed (o : ProvisionOptions) (n : NFSServer) (w w' : W) : Prop :=
  ∃ val l, om_labels (pvc_meta (po_pvc o)) !! StorageLabel = Some val ∧
    klist (O:=NFSServer) (om_namespace (pvc_meta (po_pvc o))) [{[ StorageLabel := val ]}] w = (Ok (n :: l), w').
Definition podFound (n : NFSServer) (pod : Pod) (w w' : W) : Prop :=
  ∃ svc w1 sel pods rest, kget (O:=Service) (nfs_namespace n) (nfs_name n) w = (Ok svc, w1) ∧
    service_selector svc = Ok sel ∧ klist (O:=Pod) (nfs_namespace n) [sel] w1 = (Ok pods, w') ∧
    active_pods_first pods = pod :: rest.
Definition ran (pod : Pod) (script : list string) (w w' : W) : Prop :=
  ∃ out, exec_in_pod pod "" script w = (Ok out, w').

Lemma find_pod_run n w pod w' : findNFSServerPod n w = (Ok pod, w') → podFound n pod w w'.
Proof.
  unfold findNFSServerPod. intros (svc & w1 & Hs%wrapping_ok & H)%se_bind_inv.
  apply se_bind_inv in H as (sel & w2 & Hsel%wrapping_ok & H). injection Hsel as Hsel <-.
  apply se_bind_inv in H as (pods & w3 & Hp%wrapping_ok & H). case_decide; [done|].
  destruct (active_pods_first pods) as [|p rest] eqn:E; [done|]. injection H as <- <-.
  by exists svc, w1, sel, pods, rest.
Qed.

(** A volume is made only on a server that says it is available, after its directory
    has been made there. *)
Lemma provision_spec o w pv st w' :
  Provision o w = (Ok (Ok pv, st), w') →
  st = ProvisioningFinished ∧
  ∃ n pod reclaim, nfsServerAvailable n = true ∧ stc_reclaim_policy (po_storage_class o) = Some reclaim ∧
    pv = newVolume o n (pvcSubDirectoryName o) reclaim ∧
    chain [serverListed o n; podFound n pod; ran pod (makeDirectory (directoryOf n o))] w w'.
Proof.
  unfold Provision. destruct (_ !! StorageLabel) as [val|] eqn:Ev; [|done].
  destruct (valid_label_value val) as [[]|e]; [|done].
  intros (servers & w1 & Hl%attempt_inv & H)%se_bind_inv. destruct servers as [[|n l]|e]; [done| |done].
  apply se_bind_inv in H as (n' & w2 & [= <- <-] & H).
  destruct (nfsServerAvailable n) eqn:En; cbn [negb] in H; [|done].
  apply se_bind_inv in H as (pod & w3 & Hpod%attempt_inv & H). destruct pod as [pod|e]; [|done].
  apply se_bind_inv in H as (dir & w4 & Hd%attempt_inv & H). destruct dir as [dir|e]; [|done].
  unfold provisionDirectoryForPVC in Hd. apply se_bind_inv in Hd as (out & w5 & Hx%wrapping_ok & Hd).
  injection Hd as <- <-. destruct (stc_reclaim_policy _) as [reclaim|]; [|done].
  injection H as <- <- <-. split; [done|]. exists n, pod, reclaim. split_and!; [done..|].
  exists w1. split; [by exists val, l|]. exists w3. split; [by apply find_pod_run|]. exists w5. split; [by exists out|done].
Qed.

(** A path is looked for in a pod and, when it is there, removed or emptied as the
    policy says; nothing else is done. *)
Definition reclaimed (pod : Pod) (policy path : string) (w w' : W) : Prop :=
  ∃ out w1, exec_in_pod pod "" (shell ("test -e " +:+ path +:+ " && echo 'exists' || echo 'not_exists'")) w
              = (Ok out, w1) ∧
    if decide (trim_space out = "exists") then
      if decide (policy = "Delete") then ran pod (removeDirectory path) w1 w'
      else if decide (policy = "Recycle") then ran pod (emptyDirectory path) w1 w'
      else w' = w1
    else w' = w1.

Lemma delete_spec v n src w w0 w' :
  pv_nfs v = Some src →
  (∃ name ns, om_annotations (pv_meta v) !! ProvisionedByAnnotation = Some name ∧
     om_annotations (pv_meta v) !! NamespaceAnnotation = Some ns ∧ kget (O:=NFSServer) ns name w = (Ok n, w0)) →
  Delete v w = (Ok tt, w') →
  ∃ pod, chain [podFound n pod;
    reclaimed pod (pv_reclaim_policy v) (join_path (nss_export_dir (nfs_spec n)) (nfs_path src))] w0 w'.
Proof.
  intros Hsrc (name & ns & Hn & Hns & Hg). unfold Delete. rewrite Hn, Hns.
  intros (n' & w1 & Hg'%wrapping_ok & H)%se_bind_inv. rewrite Hg in Hg'. injection Hg' as <- <-.
  rewrite Hsrc in H. case_decide; [done|].
  apply se_bind_inv in H as (pod & w2 & Hpod%attempt_inv & H). destruct pod as [pod|e]; [|done].
  apply se_bind_inv in H as (there & w3 & Ht%wrapping_ok & H). unfold checkIfPathExistsInPod in Ht.
  apply se_bind_inv in Ht as (out & w4 & Hx%wrapping_ok & Ht). injection Ht as <- <-.
  exists pod, w2. split; [by apply find_pod_run|]. exists w'. split; [|done]. exists out, w4. split; [done|].
  assert (∀ script, (_ ← exec_in_pod pod "" script; mret tt) w4 = (Ok tt, w') → ran pod script w4 w') as Hran
    by (intros script (o & w5 & Ho & [= <-])%se_bind_inv; by exists o).
  destruct (decide (trim_space out = "exists")) as [E|E].
  - rewrite bool_decide_true in H by done. cbn [negb] in H.
    case_decide; [by apply Hran|]. case_decide; [by apply Hran|by injection H].
  - rewrite bool_decide_false in H by done. by injection H.
Qed.

Lemma sub_directory_proper o :
  string_forall (λ c, negb (bool_decide (c = slash))) (pvcSubDirectoryName o) = true → proper (pvcSubDirectoryName o).
Proof.
  intros H. unfold proper. split_and!; [..|done]; unfold pvcSubDirectoryName; intros E;
    by destruct (om_name (pvc_meta (po_pvc o))) as [|? [|? [|]]].
Qed.

(** C27. The directory of a volume, from its making to its removal.  When the
    provisioner makes a volume, the run listed the servers by the claim's label in the
    claim's namespace, found the first of them available, found its pod by the
    selector of its Service, and made the directory [<export>/<claim>-<volume>] in
    that pod, in this order and with no other call.  When that volume is deleted
    while the server of the same name has the same export directory, which is not
    empty, the run reads the server, finds its pod in the same way, and looks there
    for exactly that path; if it is there it is removed under the policy Delete,
    emptied under Recycle, and left alone under another; nothing else is run.  For a
    rooted export directory and a name [<claim>-<volume>] without a slash, that path
    is directly below the export directory, so the export itself is not touched; and
    the volumes of the same server that share it are those of the same name
    [<claim>-<volume>] (which the pairs ("a-b", "c") and ("a", "b-c") have in
    common). *)
Theorem provisioned_directory_reclaimed (o : ProvisionOptions) (w w' : W) (pv : PersistentVolume)
    (st : ProvisioningState) :
  Provision o w = (Ok (Ok pv, st), w') →
  st = ProvisioningFinished ∧
  ∃ n pod, nfsServerAvailable n = true ∧
    chain [serverListed o n; podFound n pod; ran pod (makeDirectory (directoryOf n o))] w w' ∧
    (∀ n1 w1 w2 w3, kget (O:=NFSServer) (nfs_namespace n) (nfs_name n) w1 = (Ok n1, w2) →
       nss_export_dir (nfs_spec n1) = nss_export_dir (nfs_spec n) → nss_export_dir (nfs_spec n) ≠ "" →
       Delete pv w1 = (Ok tt, w3) →
       ∃ pod1, chain [podFound n1 pod1; reclaimed pod1 (pv_reclaim_policy pv) (directoryOf n o)] w2 w3) ∧
    (String.prefix "/" (nss_export_dir (nfs_spec n)) = true →
     string_forall (λ c, negb (bool_decide (c = slash))) (pvcSubDirectoryName o) = true →
     clean_elements (directoryOf n o) = clean_elements (nss_export_dir (nfs_spec n)) ++ [pvcSubDirectoryName o] ∧
     ∀ o2, string_forall (λ c, negb (bool_decide (c = slash))) (pvcSubDirectoryName o2) = true →
       (clean_elements (directoryOf n o2) = clean_elements (directoryOf n o) ↔
        pvcSubDirectoryName o2 = pvcSubDirectoryName o)).
Proof.
  intros (-> & n & pod & reclaim & Hn & _ & -> & Hran)%provision_spec. split; [done|].
  exists n, pod. split_and!; [done|done| |].
  - intros n1 w1 w2 w3 Hg Hex Hne HD.
    eapply delete_spec in HD; [|reflexivity|].
    2:{ do 2 eexists. cbn. split; [by rewrite lookup_insert_eq|]. split; [|exact Hg].
        rewrite lookup_insert_ne by done. apply lookup_insert_eq. }
    cbn [nfs_path] in HD. rewrite Hex, join_path_slash in HD; [exact HD|done|].
    unfold pvcSubDirectoryName. by destruct (om_name _).
  - intros Hr Hs.
    assert (∀ o1, string_forall (λ c, negb (bool_decide (c = slash))) (pvcSubDirectoryName o1) = true →
      clean_elements (directoryOf n o1) = clean_elements (nss_export_dir (nfs_spec n)) ++ [pvcSubDirectoryName o1]) as Hd.
    { intros o1 H1. apply clean_elements_join; [done|]. by apply sub_directory_proper. }
    split; [by apply Hd|]. intros o2 H2. rewrite !Hd by done. split; [|by intros ->].
    by intros [_ [=]]%app_inj_2.
Qed.
End directories.

(** * The controller *)

Section pass.
Context {QP : QuantityParse} {CA : ConditionsApi} {CL : ConditionsLaws} {OA : OwnerApi} {OL : OwnerLaws}.
Context {FA : FinalizerApi} {FL : FinalizerLaws} {DD : DeploymentDerivative}.
Context {W : Type} {CK : Clock W} {KN : Kind W NFSServer} {KP : Kind W PersistentVolumeClaim}.
Context {KD : Kind W Deployment} {KS : Kind W Service}.
Context (image : string).

Definition sameServer (n n' : NFSServer) : Prop := nfs_meta n' = nfs_meta n ∧ nfs_spec n' = nfs_spec n.
Definition says (st : ConditionStatus) (phase : string) (n' : NFSServer) : Prop :=
  (∃ reason msg, view (nst_conditions (nfs_status n')) NFSServerConditionTypeAvailable = Some (st, 0%Z, reason, msg)) ∧
  nst_phase (nfs_status n') = phase.
(** What the steps of a pass read, one call after another. *)
Definition backendSeen (n : NFSServer) (w w' : W) : Prop :=
  ∃ c, kget (O:=PersistentVolumeClaim) (nfs_namespace n) (BackendPVCName n) w = (Ok c, w').
(** The Deployment is brought up to date if need be, and read again. *)
Definition deploymentSeen (n : NFSServer) (P : Deployment → Prop) (w w' : W) : Prop :=
  ∃ d w1 w2 d2, kget (O:=Deployment) (nfs_namespace n) (serverDeploymentName n) w = (Ok d, w1) ∧
    (w2 = w1 ∨ ∃ desired o, kupdate (O:=Deployment) desired w1 = (Ok o, w2)) ∧
    kget (O:=Deployment) (nfs_namespace n) (serverDeploymentName n) w2 = (Ok d2, w') ∧ P d2.
Definition serviceSeen (n : NFSServer) (url : string) (w w' : W) : Prop :=
  ∃ s, kget (O:=Service) (nfs_namespace n) (nfs_name n) w = (Ok s, w') ∧ url = svs_cluster_ip (svc_spec s).
Definition clockRead (w w' : W) : Prop := w' = (time_now w).2.
(** The Deployment says so of the generation it has. *)
Definition deploymentUp (d : Deployment) : Prop :=
  ∃ c, c ∈ dst_conditions (dep_status d) ∧ dc_type c = DeploymentAvailableType ∧ dc_status c = ConditionTrue ∧
    om_generation (dep_meta d) = dst_observed_generation (dep_status d).

(** The calls of the steps: none of them is one on an [NFSServer]. *)
Definition stepCalls (I : W → Prop) : Prop :=
  Inv I now ∧
  ((∀ ns nm, Inv I (kget (O:=PersistentVolumeClaim) ns nm)) ∧ ∀ o, Inv I (kcreate (O:=PersistentVolumeClaim) o)) ∧
  ((∀ ns nm, Inv I (kget (O:=Deployment) ns nm)) ∧ (∀ o, Inv I (kcreate (O:=Deployment) o)) ∧
   ∀ o, Inv I (kupdate (O:=Deployment) o)) ∧
  ((∀ ns nm, Inv I (kget (O:=Service) ns nm)) ∧ ∀ o, Inv I (kcreate (O:=Service) o)).

Definition chainEnds (n : NFSServer) (w : W) (res : option CtrlResult) (p' : On W NFSServer) : Prop :=
  let n' := object p' in
  sameServer n n' ∧
  match res with
  | None =>
      chain [backendSeen n; deploymentSeen n deploymentUp; serviceSeen n (nst_url (nfs_status n'))] w (outside p') ∧
      nst_conditions (nfs_status n') = nst_conditions (nfs_status n)
  | Some res =>
      (res = mkCtrlResult true 0 ∧ n' = n) ∨
      (res = no_requeue ∧ says ConditionFalse NFSServerPhasePending n' ∧
       chain [backendSeen n; deploymentSeen n (λ d, ¬ deploymentUp d); clockRead] w (outside p'))
  end.

Lemma deployment_up d : DeploymentAvailable d = true ↔ deploymentUp d.
Proof.
  unfold DeploymentAvailable, deploymentUp. rewrite existsb_exists. split.
  - intros (c & Hc%list_elem_of_In & H). exists c.
    apply andb_true_iff in H as [[Ht%bool_decide_eq_true Hs%bool_decide_eq_true]%andb_true_iff Hg%Z.eqb_eq]. by split_and!.
  - intros (c & Hc%list_elem_of_In & Ht & Hs & Hg). exists c. split; [done|].
    by rewrite !bool_decide_true, Hg, Z.eqb_refl.
Qed.

Lemma says_set t st reason msg phase n : says st phase (setAvailable t st reason msg phase n).
Proof. split; [|done]. do 2 eexists. cbn. by rewrite view_set_new, decide_True. Qed.

Lemma backend_step n w : post reconcileBackendStorage (λ res p', object p' = n ∧
  (res = resultRequeue ∨ res = resultNil ∧ backendSeen n w (outside p'))) (mkOn w n).
Proof.
  unfold reconcileBackendStorage. apply post_bind, post_look, post_bind, post_of_result. intros size _.
  apply post_bind, post_of_result. intros m Hm. cbn [id object] in Hm.
  apply post_createOr_at; [by intros; split; [done|]; left|]. intros c w1 Hc. apply post_ret.
  split; [done|]. right. split; [done|]. exists c. destruct (set_owner_keeps _ _ _ Hm) as [refs ->]. exact Hc.
Qed.
Lemma nfs_deployment_step n w : post (reconcileNFSServerDeployment image) (λ res p',
  (res = resultRequeue ∧ object p' = n) ∨
  (res = resultNil ∧ object p' = n ∧ deploymentSeen n deploymentUp w (outside p')) ∨
  (res = resultStop ∧ sameServer n (object p') ∧ says ConditionFalse NFSServerPhasePending (object p') ∧
   chain [deploymentSeen n (λ d, ¬ deploymentUp d); clockRead] w (outside p'))) (mkOn w n).
Proof.
  unfold reconcileNFSServerDeployment. apply post_bind, post_look, post_bind, post_of_result.
  intros m Hm. cbn [id object] in Hm. destruct (set_controller_keeps _ _ _ Hm) as [refs ->].
  apply post_createOr_at; [by intros; left|]. cbn [object outside]. intros d w1 Hd. apply post_bind.
  eapply (post_mono _ (λ _ p', object p' = n ∧
    (outside p' = w1 ∨ ∃ desired o, kupdate (O:=Deployment) desired w1 = (Ok o, outside p')))).
  { destruct (deployment_derivative _ _); [apply post_ret; split; [done|by left]|].
    apply post_bind, post_call. intros o w2 Ho. apply post_ret. split; [done|]. right. by do 2 eexists. }
  intros [] [w2 n2] [Hn H2]. cbn [object outside] in *. subst n2.
  apply post_bind, post_call. intros d2 w3 Hd2. cbn [object outside] in *.
  assert (∀ P : Deployment → Prop, P d2 → deploymentSeen n P w w3) as Hseen by (intros P HP; by exists d, w1, w2, d2).
  destruct (DeploymentAvailable d2) eqn:Ed.
  - apply post_ret. right. left. split_and!; [done..|]. apply Hseen. by apply deployment_up.
  - apply post_bind, post_call. intros t w4 Ht. apply post_bind, post_assign, post_ret. right. right.
    split_and!; [done|done|apply says_set|]. exists w3. split; [apply Hseen; intros H%deployment_up; congruence|].
    exists w4. split; [|done]. cbn in Ht |- *. unfold now in Ht. unfold clockRead. by destruct (time_now w3); injection Ht.
Qed.
Lemma service_step n w : post reconcileNFSServerService (λ res p', 
  (res = resultRequeue ∧ object p' = n) ∨
  (res = resultNil ∧ sameServer n (object p') ∧ nst_conditions (nfs_status (object p')) = nst_conditions (nfs_status n) ∧
   serviceSeen n (nst_url (nfs_status (object p'))) w (outside p'))) (mkOn w n).
Proof.
  unfold reconcileNFSServerService. apply post_bind, post_look, post_bind, post_of_result.
  intros m Hm. cbn [id object] in Hm. destruct (set_controller_keeps _ _ _ Hm) as [refs ->].
  apply post_createOr_at; [by intros; left|]. cbn [object outside]. intros s w1 Hs.
  apply post_bind, post_assign, post_ret. right. split_and!; [done..|]. by exists s.
Qed.

Lemma chain_ends n w : post (endedBy (subReconcilers image)) (chainEnds n w) (mkOn w n).
Proof.
  assert (∀ w', chainEnds n w (Some (mkCtrlResult true 0)) (mkOn w' n)) as Hrq by (intros; split; [done|]; by left).
  unfold subReconcilers. cbn [endedBy].
  apply post_bind. eapply post_mono; [apply backend_step|]. intros r1 [w1 n1] [Hn H1]. cbn [object outside] in *.
  subst n1. destruct H1 as [->|[-> H1]]; [apply post_ret, Hrq|].
  apply post_bind. eapply post_mono; [apply nfs_deployment_step|]. intros r2 [w2 n2]. cbn [object outside].
  intros [[-> ->]|[(-> & -> & H2)|(-> & Hs & Hsay & H2)]]; [apply post_ret, Hrq| |].
  2: { apply post_ret. split; [done|]. right. split_and!; [done..|]. exists w1. by split. }
  apply post_bind. eapply post_mono; [apply service_step|]. intros r3 [w3 n3]. cbn [object outside].
  intros [[-> ->]|(-> & Hs & Hc & H3)]; [apply post_ret, Hrq|]. apply post_ret. split; [done|]. split; [|done].
  exists w1. split; [done|]. exists w2. split; [done|]. exists w3. by split.
Qed.

Lemma steps_inv I : stepCalls I → Inv (λ p : On W NFSServer, I (outside p)) (endedBy (subReconcilers image)).
Proof.
  intros (Hn & (H1 & H2) & (H3 & H4 & H5) & (H6 & H7)). unfold subReconcilers. cbn [endedBy].
  unfold reconcileBackendStorage, reconcileNFSServerDeployment, reconcileNFSServerService, createOr. solve_inv.
Qed.
Lemma steps_via n w out n' w' :
  with_object n (endedBy (subReconcilers image)) w = (Ok (out, n'), w') → via stepCalls w w'.
Proof.
  unfold with_object. intros E I HI Hw. pose proof (steps_inv I HI (mkOn w n) Hw) as H.
  destruct (endedBy _ _) as [[o|e] [wx nx]]; [|done]. injection E as <- <- <-. exact H.
Qed.

(** C28. What a pass over an NFS server writes, for a server that is not being deleted
    and has its finalizer.  A pass that goes to the end has read, one after another,
    the claim of the backing storage, the Deployment (brought up to date if need be
    and read again; the second read is available for its generation) and the Service,
    and then reads the clock and writes a status that says Available and Ready with
    the Service's address.  A pass that a step ends makes no call at all on an
    NFSServer after it has read it, so it writes no status: either the step asks to
    come back at once and has changed nothing in memory; or the second read of the
    Deployment was not available, the step said Unavailable and Pending of the object
    in memory, and that is lost.  So whatever holds of the world and survives the
    calls of the steps, the read of the server, and writes of statuses that say
    Available, survives the pass: once a server's status says Available, no pass
    over it says anything else. *)
Theorem nfs_status_writes (ns name : string) (w w0 w' : W) (n : NFSServer) (res : CtrlResult) :
  kget (O:=NFSServer) ns name w = (Ok n, w0) → om_deletion_timestamp (nfs_meta n) = None →
  cacheFinalizer ∈ om_finalizers (nfs_meta n) →
  Reconcile image ns name w = (Ok res, w') →
  ((via stepCalls w0 w' ∧ ∃ n', with_object n (endedBy (subReconcilers image)) w0 = (Ok (Some res, n'), w') ∧
     ((res = mkCtrlResult true 0 ∧ n' = n) ∨
      (res = no_requeue ∧ says ConditionFalse NFSServerPhasePending n' ∧
       chain [backendSeen n; deploymentSeen n (λ d, ¬ deploymentUp d); clockRead] w0 w'))) ∨
   (res = no_requeue ∧ ∃ n2,
     sameServer n n2 ∧ says ConditionTrue NFSServerPhaseReady n2 ∧
     chain [backendSeen n; deploymentSeen n deploymentUp; serviceSeen n (nst_url (nfs_status n2)); clockRead;
            λ w3 w4, ∃ n3, kupdate_status n2 w3 = (Ok n3, w4)] w0 w')) ∧
  (∀ I, stepCalls I → (∀ n2, says ConditionTrue NFSServerPhaseReady n2 → Inv I (kupdate_status n2)) →
     I w0 → I w').
Proof.
  intros Hg Hd Hf. unfold Reconcile. intros (got & w1 & Hr%attempt_inv & H)%se_bind_inv.
  rewrite Hg in Hr. injection Hr as <- <-. rewrite Hd in H.
  assert (contains_finalizer cacheFinalizer (nfs_meta n) = true) as Hc by by apply contains_finalizer_in.
  rewrite Hc in H. cbn [negb] in H. apply se_bind_inv in H as ([out n'] & w2 & Hchain & H).
  pose proof (steps_via _ _ _ _ _ Hchain) as Hvia. pose proof Hchain as Hends. unfold with_object in Hends.
  destruct (endedBy _ _) as [[out'|e] [wx nx]] eqn:E; [|done]. injection Hends as -> -> ->.
  destruct (chain_ends n w0 _ _ E) as [Hs He]. cbn [object outside fst snd] in *. destruct out as [res'|].
  - injection H as -> <-. split; [|by intros I HI _; apply Hvia]. left. split; [done|]. by exists n'.
  - apply se_bind_inv in H as (t & w3 & Ht & H). apply se_bind_inv in H as (n3 & w4 & Hu & H).
    injection H as <- <-. destruct He as [He _]. pose proof Ht as Hclock. split.
    + right. split; [done|]. eexists. split; [|split; [apply says_set|]]; [split; cbn; apply Hs|].
      eapply (chain_app [_; _; _]); [exact He|]. exists w3. split; [|exists w4; split; [by exists n3|done]].
      unfold now in Ht. unfold clockRead. by destruct (time_now w2); injection Ht.
    + intros I HI Hst Hw. apply (Hvia I HI) in Hw. apply (proj1 HI) in Hw. rewrite Ht in Hw. cbn [snd] in Hw.
      apply (Hst _ (says_set t ConditionTrue "NFSServerAvailable" "NFSServer deployment is available"
        NFSServerPhaseReady n')) in Hw. by rewrite Hu in Hw.
Qed.
End pass.

(** * A concrete server *)

Import Cluster.
#[local] Instance any_quantity : QuantityParse := λ s, Ok s.
#[local] Instance any_deployment : DeploymentDerivative := λ _ _, true.
#[local] Instance any_label : LabelValidation := λ _, Ok tt.
#[local] Instance own_selector : ServiceSelector := λ s, Ok (svs_selector (svc_spec s)).
#[local] Instance as_listed : ActivePodSort := id.
(** Every command succeeds and prints [exists]. *)
#[local] Instance shell_ok : PodExec Z := λ _ _ _ t, (Ok "exists", t).

Definition sample_server : NFSServer :=
  mkNFSServer ((object_meta "nfs" "default") <| om_finalizers := [Nfs.cacheFinalizer] |>)
    (mkNFSServerSpec "/exports" "1Gi" None)
    (mkNFSServerStatus "10.0.0.9" "Ready" [new_condition "Available" ConditionTrue 0 "" ""]).
#[local] Instance a_server : Kind Z NFSServer := only_objects [sample_server].
#[local] Instance a_claim : Kind Z PersistentVolumeClaim := only_objects [backendClaim sample_server "1Gi"].
#[local] Instance a_service : Kind Z Service := only_objects [serverService sample_server].
#[local] Instance a_pod : Kind Z Pod := only_objects [mkPod (object_meta "nfs-0" "default") "Running" "" [] []].

Definition sample_options : ProvisionOptions :=
  mkProvisionOptions (mkStorageClass (object_meta "rwmany" "") "p" (Some "Delete") [] None "") "pv1"
    (mkPersistentVolumeClaim ((object_meta "data" "default") <| om_labels := {[ StorageLabel := "main" ]} |>) [] "1Gi" None).

Lemma provisioned_directory_reclaimed_witness :
  ∃ pv n pod, Provision sample_options 5%Z = (Ok (Ok pv, ProvisioningFinished), 5%Z) ∧
    nfsServerAvailable n = true ∧
    chain (S:=Z) [serverListed sample_options n; podFound n pod; ran pod (makeDirectory (directoryOf n sample_options))] 5%Z 5%Z.
Proof.
  destruct (Provision sample_options 5%Z) as [[[[pv|e] st]|e] w] eqn:E; [|exfalso; vm_compute in E; discriminate..].
  assert (st = ProvisioningFinished ∧ w = 5%Z) as [-> ->] by (vm_compute in E; injection E as _ <- <-; by split).
  destruct (provisioned_directory_reclaimed (W:=Z) _ _ _ _ _ E) as (_ & n & pod & Hn & Hran & _).
  exists pv, n, pod. split; [reflexivity|]. by split.
Defined.

Section down.
(** Its Deployment exists, but is not available any more. *)
#[local] Instance a_deployment : Kind Z Deployment := only_objects [serverDeployment "image" sample_server].

Lemma nfs_status_writes_witness :
  ∃ n' w, Reconcile "image" "default" "nfs" 5%Z = (Ok no_requeue, w) ∧
    with_object sample_server (endedBy (subReconcilers "image")) 5%Z = (Ok (Some no_requeue, n'), w) ∧
    says ConditionFalse NFSServerPhasePending n'.
Proof.
  destruct (Reconcile "image" "default" "nfs" 5%Z) as [[res|e] w] eqn:E; [|exfalso; vm_compute in E; discriminate].
  assert (res = no_requeue) as -> by (vm_compute in E; by injection E as <- _).
  destruct (nfs_status_writes (W:=Z) "image" "default" "nfs" 5%Z 5%Z w sample_server no_requeue)
    as [[(_ & n' & H & [[Hr _]|(_ & Hs & _)])|(_ & n2 & _ & _ & Hc)] _];
    [reflexivity|reflexivity|by left|exact E|exfalso; vm_compute in Hr; discriminate Hr| |].
  - exists n', w. split; [reflexivity|]. by split.
  - exfalso. destruct Hc as (w1 & _ & w2 & (d & wa & wb & d2 & _ & _ & Hd & (c & Hc & _)) & _).
    injection Hd as <- _. apply not_elem_of_nil in Hc as [].
Defined.
End down.
