(* ===== verification/Tls.v ===== *)
(** Can a port serve HTTPS?  The two TLS paths of a StackResource
    (internal/controller/stackresource: cert_stage.go, referenced_tls_secret.go,
    tls_secret_watch.go): certificates issued by cert-manager, and Secrets copied
    from the platform's namespace. *)
From S2P Require Import Prelude Text Kube Apimachinery Api Verdicts Pass KubeWorkloads.

(** * Stages *)

Inductive tlsStage := tlsStageNone | tlsStageWaiting | tlsStageReady | tlsStageUnavailable.
#[export] Instance tls_stage_eq_dec : EqDecision tlsStage.
Proof. solve_decision. Defined.

Record tlsState := mkTlsState {
  Stage : tlsStage;
  Reason : string;
  TlsMessage : string;
  RetryAfter : Duration;
}.
Definition no_tls : tlsState := mkTlsState tlsStageNone "" "" 0.

Definition reasonTLSReady : string := "TLSReady".
Definition reasonTLSWaiting : string := "CertificateIssuing".
Definition tlsGracePeriod : Duration := (2 * minute)%Z.
(** [tlsGracePeriod] as [%s] prints it. *)
Definition tlsGracePeriodText : string := "2m0s".

Definition remainingTLSGracePeriod (pendingSince now : Time) : Duration :=
  if is_zero_time pendingSince then tlsGracePeriod
  else
    let remaining := int64_sub tlsGracePeriod (time_sub now pendingSince) in
    if (remaining <=? 0)%Z then 0%Z else remaining.

Definition orDefault (s fallback : string) : string := if decide (s = "") then fallback else s.

(** * Certificates (cert_stage.go) *)

Record CertificateCondition := mkCertificateCondition {
  cc_type : string; cc_status : ConditionStatus; cc_message : string }.
Record Certificate := mkCertificate {
  cert_meta : ObjectMeta;
  cert_conditions : list CertificateCondition;
  cert_failed_issuance_attempts : option Z;
}.
Definition CertificateConditionReady : string := "Ready".
Definition CertificateConditionIssuing : string := "Issuing".

Definition findCertCondition (cert : option Certificate) (condType : string)
    : option CertificateCondition :=
  cert ← cert; List.find (λ c, bool_decide (cc_type c = condType)) (cert_conditions cert).
Definition condMessage (c : option CertificateCondition) : string :=
  match c with Some c => cc_message c | None => "" end.

(** The message of a Ready condition that is True. *)
Definition certReady (cert : option Certificate) : option string :=
  match findCertCondition cert CertificateConditionReady with
  | Some c => if decide (cc_status c = ConditionTrue) then Some (cc_message c) else None
  | None => None
  end.
(** cert-manager's count of failed attempts, when there are any. *)
Definition failedAttempts (cert : option Certificate) : option Z :=
  match cert ≫= cert_failed_issuance_attempts with
  | Some n => if (0 <? n)%Z then Some n else None
  | None => None
  end.

Definition classifyCertificate (cert : option Certificate) (pendingSince now : Time) : tlsState :=
  let issuingMsg := condMessage (findCertCondition cert CertificateConditionIssuing) in
  match certReady cert, failedAttempts cert with
  | Some msg, _ => mkTlsState tlsStageReady reasonTLSReady (orDefault msg "certificate issued") 0
  | None, Some n =>
      mkTlsState tlsStageUnavailable "CertificateFailed"
        (orDefault issuingMsg "certificate issuance failed" +:+ " (" +:+ pretty n +:+
         " failed attempts)") 0
  | None, None =>
      let pendingMsg := orDefault issuingMsg "waiting for cert-manager to issue the certificate" in
      let remaining := remainingTLSGracePeriod pendingSince now in
      if (remaining =? 0)%Z
      then mkTlsState tlsStageUnavailable "CertificateTimedOut"
             ("no certificate after " +:+ tlsGracePeriodText +:+ ": " +:+ pendingMsg) 0
      else mkTlsState tlsStageWaiting reasonTLSWaiting pendingMsg remaining
  end.

(** [CertManagerTLSStatus] is [option Time]; a nil [waitingSince] and a nil status
    both start the clock. *)
Definition waitingSince (s : StackResourceStatus) : option Time :=
  cert_manager_tls s ≫= id.
Definition certManagerTLSPendingSince (r : StackResource) : Time :=
  default zero_time (waitingSince (sr_status r)).

Definition certNameSuffix : string := "-tls".
Definition certificateNameForResource (resourceName : string) : string :=
  resourceName +:+ certNameSuffix.
(** The request for the resource a Certificate belongs to. *)
Definition certificateToStackResource (cert : Certificate) : list NamespacedName :=
  match cut_suffix (om_name (cert_meta cert)) certNameSuffix with
  | Some name => if decide (name = "") then [] else [(om_namespace (cert_meta cert), name)]
  | None => []
  end.

Section certificates.
Context {W : Type} {KC : Kind W Certificate} {CK : Clock W}.

Definition updateCertManagerTLSStatus (stage : tlsStage) : PM W unit :=
  r ← gets resource;
  if decide (stage = tlsStageNone ∨ stage = tlsStageReady)
  then modifies (set_status (λ s, s <| cert_manager_tls := None |>))
  else match waitingSince (sr_status r) with
       | Some _ => mret tt
       | None =>
           t ← lift now;
           modifies (set_status (λ s, s <| cert_manager_tls := Some (Some t) |>))
       end.

Definition getCertManagerTLSState (r : StackResource) : SE W tlsState :=
  res ← attempt (kget (sr_namespace r) (certificateNameForResource (sr_name r)));
  cert ← match res with
         | Ok cert => mret (Some cert)
         | Err e => if is_not_found e then mret None else fail e
         end;
  t ← now;
  mret (classifyCertificate cert (certManagerTLSPendingSince r) t).
End certificates.

(** * Referenced Secrets (referenced_tls_secret.go) *)

(** [validation.IsDNS1123Subdomain] finds nothing wrong. *)
Class DnsValidation := is_dns1123_subdomain : string → bool.

Definition tlsSecretSourceLabel : string := "core.stackdome.io/tls-secret-source".
Definition reasonTLSSecretUnavailable : string := "TLSSecretUnavailable".
Definition DefaultPlatformTLSNamespace : string := "stackdome-control-plane".
Definition SecretTypeTLS : string := "kubernetes.io/tls".
Definition TLSCertKey : string := "tls.crt".
Definition TLSPrivateKeyKey : string := "tls.key".

Definition referencedTLSSecretPendingSince (r : StackResource) (ref : string) : Time :=
  match referenced_tls_secret (sr_status r) with
  | Some st => if decide (rts_reference st ≠ ref) then zero_time
               else default zero_time (rts_waiting_since st)
  | None => zero_time
  end.

Definition referencedTLSStatusWhileBlocked (r : StackResource) (ref message : string) (now : Time)
    : tlsState :=
  let remaining := remainingTLSGracePeriod (referencedTLSSecretPendingSince r ref) now in
  if (remaining =? 0)%Z
  then mkTlsState tlsStageUnavailable reasonTLSSecretUnavailable
         ("TLS secret unavailable after " +:+ tlsGracePeriodText +:+ ": " +:+ message) 0
  else mkTlsState tlsStageWaiting reasonTLSWaiting message remaining.

(** The running clock of this very reference. *)
Definition trackedSince (r : StackResource) (ref : string) : option Time :=
  match referenced_tls_secret (sr_status r) with
  | Some st => if decide (rts_reference st = ref) then rts_waiting_since st else None
  | None => None
  end.

Definition hasKeyPair (s : Secret) : bool :=
  negb (bool_decide (String.length (mget (sec_data s) TLSCertKey) = 0)) &&
  negb (bool_decide (String.length (mget (sec_data s) TLSPrivateKeyKey) = 0)).

(** The mutation of [ensureReferencedTLSSecretReplica]; its second part says
    whether a Secret of another type is in the way. *)
Definition mutateReplica (source replica : Secret) : Secret * bool :=
  if negb (bool_decide (om_resource_version (sec_meta replica) = "")) &&
     negb (bool_decide (sec_type replica = SecretTypeTLS))
  then (replica, true)
  else (mkSecret
          ((sec_meta replica)
             <| om_labels ::= <[tlsSecretSourceLabel := om_namespace (sec_meta source)]> |>
             <| om_owner_references := [] |>)
          SecretTypeTLS (sec_data source), false).

Section referenced.
Context {W : Type} {DV : DnsValidation} {CK : Clock W} {KSec : Kind W Secret}.
Context {US : CreateOrUpdate W Secret} (platformTLSNamespace : string).

Definition deleteManagedWrongTypeReplica (existing : Secret) : SE W unit :=
  match om_labels (sec_meta existing) !! tlsSecretSourceLabel with
  | None => mret tt
  | Some _ => ignore_not_found (kdelete existing)
  end.

Definition ensureReferencedTLSSecretReplica (targetNamespace : string) (source : Secret) : SE W bool :=
  res ← create_or_update bool
          (mkSecret (object_meta (om_name (sec_meta source)) targetNamespace) "" ∅)
          (λ replica, mret (mutateReplica source replica));
  let '(replica, wrongType, _) := res in
  if (wrongType : bool) then _ ← deleteManagedWrongTypeReplica replica; mret false
  else mret true.

Definition mirrorTLSSecret (r : StackResource) (ref sourceNamespace : string) : SE W (bool * string) :=
  res ← attempt (kget sourceNamespace ref);
  match res with
  | Err e =>
      if is_not_found e then mret (false, "waiting for referenced TLS Secret " +:+ ref) else fail e
  | Ok source =>
      if negb (hasKeyPair source)
      then mret (false, "waiting for a certificate and private key in referenced TLS Secret " +:+ ref)
      else
        ok ← ensureReferencedTLSSecretReplica (sr_namespace r) source;
        if (ok : bool) then mret (true, "referenced TLS Secret replicated")
        else mret (false, "waiting for referenced TLS Secret replica " +:+ ref +:+ " to be recreated")
  end.

Definition updateReferencedTLSSecretStatus (ref : string) (stage : tlsStage) : PM W unit :=
  r ← gets resource;
  since ← (if decide (stage = tlsStageReady) then mret None
           else match trackedSince r ref with
                | Some t => mret (Some t)
                | None => t ← lift now; mret (Some t)
                end);
  modifies (set_status (λ s, s <| referenced_tls_secret := Some (mkReferencedTLSSecretStatus ref since) |>)).

Definition reconcileReferencedTLSSecret (ref : string) : PM W tlsState :=
  r ← gets resource;
  if decide (ref = "") then
    _ ← modifies (set_status (λ s, s <| referenced_tls_secret := None |>));
    mret no_tls
  else if negb (is_dns1123_subdomain ref) then
    mret (mkTlsState tlsStageUnavailable reasonTLSSecretUnavailable
            "invalid referenced TLS Secret name" 0)
  else
    let sourceNamespace := orDefault platformTLSNamespace DefaultPlatformTLSNamespace in
    mirrored ← lift (mirrorTLSSecret r ref sourceNamespace);
    let '(ready, message) := mirrored in
    status ← (if negb ready then
                t ← lift now; mret (referencedTLSStatusWhileBlocked r ref message t)
              else mret (mkTlsState tlsStageReady reasonTLSReady message 0));
    _ ← updateReferencedTLSSecretStatus ref (Stage status);
    mret status.
End referenced.

(** * The watch on the platform's Secret (tls_secret_watch.go) *)

Definition platformWildcardTLSSecretFrom (secret : Secret) (namespace : string) : bool :=
  bool_decide (om_namespace (sec_meta secret) = namespace) &&
  bool_decide (sec_type secret = SecretTypeTLS) &&
  bool_decide (mget (om_labels (sec_meta secret)) LabelPlatformWildcardTLSSecret = "true").

Section watch.
Context {W : Type} {KR : Kind W StackResource} (platformTLSNamespace : string).

(** A list error is logged and wakes nobody. *)
Definition platformWildcardTLSSecretToStackResources (secret : Secret) : SE W (list NamespacedName) :=
  if negb (platformWildcardTLSSecretFrom secret platformTLSNamespace) then mret []
  else
    res ← attempt (klist "" [{[ LabelUsesPlatformWildcardTLS := "true" ]}]);
    match res with
    | Err _ => mret []
    | Ok l => mret ((λ r, (sr_namespace r, sr_name r)) <$> l)
    end.
End watch.

(** * Properties *)

(** What the two paths promise about a state: a state that waits always says when
    to look again, and no other does. *)
Definition tls_state_ok (s : tlsState) : Prop :=
  (Stage s = tlsStageWaiting ↔ (0 < RetryAfter s)%Z) ∧
  (Stage s ≠ tlsStageWaiting → RetryAfter s = 0%Z) ∧
  (Stage s ≠ tlsStageNone → Reason s ≠ "").

Lemma remaining_nonneg since now : (0 ≤ remainingTLSGracePeriod since now)%Z.
Proof. unfold remainingTLSGracePeriod. case_match; [done|]. case_match; lia. Qed.

Lemma remaining_spec since now :
  (0 < since ≤ now → now - since ≤ max_duration →
   remainingTLSGracePeriod since now = Z.max 0 (tlsGracePeriod - (now - since)))%Z.
Proof.
  intros Hs Hb. unfold remainingTLSGracePeriod, is_zero_time.
  destruct (Z.eqb_spec since 0); [lia|].
  rewrite time_sub_id by (unfold min_duration; lia).
  rewrite int64_sub_id by (unfold min_duration, max_duration, tlsGracePeriod, minute, second in *; lia).
  destruct (Z.leb_spec (tlsGracePeriod - (now - since)) 0); lia.
Qed.

Lemma blocked_ok r ref msg now : tls_state_ok (referencedTLSStatusWhileBlocked r ref msg now).
Proof.
  unfold referencedTLSStatusWhileBlocked.
  pose proof (remaining_nonneg (referencedTLSSecretPendingSince r ref) now).
  destruct (Z.eqb_spec (remainingTLSGracePeriod (referencedTLSSecretPendingSince r ref) now) 0);
    split_and!; cbn; try done; split; intros; (done || lia).
Qed.

(** C37. The stage of a certificate.  A Ready condition that is True wins over
    everything; then failed attempts make the path unavailable at once; otherwise
    the resource waits, and it waits exactly as long as its clock is within the
    two-minute grace period, coming back when that ends; afterwards the path is
    unavailable.  A clock that has not started gives the full period. *)
Theorem certificate_stage_spec cert since now :
  (since = 0 ∨ 0 < since ≤ now ∧ now - since ≤ max_duration)%Z →
  let s := classifyCertificate cert since now in
  let elapsed := if decide (since = 0)%Z then 0%Z else (now - since)%Z in
  tls_state_ok s ∧
  (Stage s = tlsStageReady ↔ is_Some (certReady cert)) ∧
  (Stage s = tlsStageWaiting ↔
     certReady cert = None ∧ failedAttempts cert = None ∧ (elapsed < tlsGracePeriod)%Z) ∧
  (Stage s = tlsStageWaiting → RetryAfter s = (tlsGracePeriod - elapsed)%Z) ∧
  Stage s ≠ tlsStageNone.
Proof.
  intros Hs s elapsed.
  assert (remainingTLSGracePeriod since now = Z.max 0 (tlsGracePeriod - elapsed)) as Hr.
  { unfold elapsed. case_decide as E; [by subst|]. apply remaining_spec; lia. }
  unfold s, classifyCertificate, tls_state_ok. rewrite Hr.
  assert (∀ P : Prop, ¬ P → (tlsStageReady = tlsStageWaiting ↔ P) ∧
    (tlsStageUnavailable = tlsStageWaiting ↔ P)) as Hno by (intros P HP; split; split; done).
  destruct (certReady cert) as [m|]; [|destruct (failedAttempts cert) as [n|]].
  - cbn. split_and!; try done. refine (proj1 (Hno _ _)). by intros [H _]; discriminate H.
  - cbn. split_and!; try done. refine (proj2 (Hno _ _)). by intros (_ & H & _); discriminate H.
  - destruct (Z.eqb_spec (Z.max 0 (tlsGracePeriod - elapsed)) 0); cbn [Stage RetryAfter Reason].
    + split_and!; try done. refine (proj2 (Hno _ _)). lia.
    + split_and!; try done; [split; [lia|done]| |intros _; lia].
      split; [|done]. intros _. split_and!; [done..|lia].
Qed.

(** The naming rule that links a Certificate to its resource can be inverted. *)
Lemma certificate_name_roundtrip m n :
  n ≠ "" → om_name (cert_meta m) = certificateNameForResource n →
  certificateToStackResource m = [(om_namespace (cert_meta m), n)].
Proof.
  intros Hn E. unfold certificateToStackResource. rewrite E. unfold certificateNameForResource.
  by rewrite cut_suffix_app, decide_False.
Qed.

Lemma classify_ok cert since now : tls_state_ok (classifyCertificate cert since now).
Proof.
  unfold classifyCertificate. pose proof (remaining_nonneg since now).
  destruct (certReady cert); [|destruct (failedAttempts cert)].
  1-2: cbn; split_and!; done.
  destruct (Z.eqb_spec (remainingTLSGracePeriod since now) 0);
    split_and!; cbn; try done; split; intros; (done || lia).
Qed.

Lemma no_tls_ok : tls_state_ok no_tls.
Proof. by split_and!. Qed.

Section referenced_facts.
Context {W : Type} {DV : DnsValidation} {CK : Clock W} {KSec : Kind W Secret}.
Context {US : CreateOrUpdate W Secret} (platformTLSNamespace : string).

Lemma referenced_ok ref p :
  post (reconcileReferencedTLSSecret platformTLSNamespace ref) (λ s _, tls_state_ok s) p.
Proof.
  unfold reconcileReferencedTLSSecret. do 2 vcg_step. case_decide; [vcg; apply no_tls_ok|].
  destruct (negb _); [by vcg|]. apply post_bind, post_lift_any. intros [ready msg] w. cbv zeta.
  apply post_bind. eapply (post_mono _ (λ s _, tls_state_ok s)).
  - destruct ready; cbn [negb]; [by apply post_ret|]. apply post_bind, post_lift_any. intros t w'.
    apply post_ret, blocked_ok.
  - intros s p' Hs. apply post_bind, post_any. intros _ p''. by apply post_ret.
Qed.
End referenced_facts.

(** * Witness *)

Lemma certificate_stage_spec_witness :
  RetryAfter (classifyCertificate None (10 * second) (70 * second)) = (60 * second)%Z.
Proof.
  destruct (certificate_stage_spec None (10 * second) (70 * second)) as (_ & _ & _ & H & _).
  - right. vm_compute. split; [split; [reflexivity|discriminate]|discriminate].
  - rewrite H by reflexivity. reflexivity.
Defined.
