(* ===== verification/Svc.v ===== *)
(** The network step of a StackResource
    (internal/controller/stackresource/svc_reconciler.go): its Service, its two
    Ingresses, and the public addresses it may hand out. *)
From S2P Require Import Prelude Text Kube Apimachinery Api Verdicts Pass KubeWorkloads Storage.
From S2P Require Import Samples.
From S2P Require Import PodSpecs IngressTls Tls.

(** * Services *)

(** [equality.Semantic.DeepDerivative] on Service specs: what the first sets, the
    second has. *)
Class DeepDerivative := service_derivative : ServiceSpec → ServiceSpec → bool.

Definition clearNodePorts (s : ServiceSpec) : ServiceSpec :=
  s <| svs_ports ::= fmap (λ p, mkServicePort (svp_name p) (svp_port p) (svp_target_port p) 0) |>.
(** [AreServicesEqual] (internal/controller/util.go). *)
Definition AreServicesEqual `{DeepDerivative} (a b : Service) : bool :=
  service_derivative (clearNodePorts (svc_spec a)) (clearNodePorts (svc_spec b)).

Definition ResourceSVCName (r : StackResource) : string := sr_name r.

Definition buildServicePorts (r : StackResource) : list ServicePort :=
  (λ p, mkServicePort (port_name p) (port_number p) (FromString (port_name p)) 0)
    <$> ports (sr_spec r).

Definition isHeadlessService (r : StackResource) (ps : list ServicePort) : bool :=
  bool_decide (workload_type (sr_spec r) = WorkloadTypeStatefulService) ||
  bool_decide (length ps = 0).

Definition buildDesiredService (r : StackResource) : Service :=
  let ps := buildServicePorts r in
  let headless := isHeadlessService r ps in
  mkService
    ((object_meta (ResourceSVCName r) (sr_namespace r)) <| om_labels := IdentityLabels r |>)
    (mkServiceSpec (GetWorkloadLabelForResource r) ps
       (if headless then "None" else "") (if headless then "" else "ClusterIP")).

(** * Routes *)

Record exposedPortRoutes := mkExposedPortRoutes {
  allFQDNs : gmap Z string;
  certManagerIngressFQDNs : gmap Z string;
  certManagerHosts : list string;
  referencedTLSSecretRef : string;
  referencedTLSFQDNs : gmap Z string;
  referencedTLSHosts : list string;
}.
#[export] Instance eta_routes : Eta exposedPortRoutes := λ r,
  mkExposedPortRoutes (allFQDNs r) (certManagerIngressFQDNs r) (certManagerHosts r)
    (referencedTLSSecretRef r) (referencedTLSFQDNs r) (referencedTLSHosts r).
Definition no_routes : exposedPortRoutes := mkExposedPortRoutes ∅ ∅ [] "" ∅ [].

Section routes.
Context {GT : GoText} {DV : DnsValidation}.

(** The referenced Secret of a port, if it names a valid one. *)
Definition portReferencedTLSSecretRef (p : Port) : option string :=
  if negb (port_tls p) then None
  else if negb (is_dns1123_subdomain (port_tls_secret_ref p)) then None
  else Some (port_tls_secret_ref p).

Definition addRoute (routes : exposedPortRoutes) (p : Port) : result exposedPortRoutes :=
  if negb (port_expose_to_public p) then Ok routes
  else
    let number := port_number p in
    let routes := routes <| allFQDNs ::= <[number := port_fqdn p]> |> in
    match portReferencedTLSSecretRef p with
    | Some ref =>
        let current := referencedTLSSecretRef routes in
        if decide (current ≠ "" ∧ current ≠ ref)
        then Err (Errorf ("conflicting referenced TLS Secret refs " +:+ quote current +:+ " and " +:+ quote ref))
        else Ok (routes <| referencedTLSSecretRef := ref |>
                   <| referencedTLSFQDNs ::= <[number := port_fqdn p]> |>
                   <| referencedTLSHosts ::= (λ l, l ++ [port_fqdn p]) |>)
    | None =>
        let routes := if port_tls p
                      then routes <| certManagerHosts ::= (λ l, l ++ [port_fqdn p]) |> else routes in
        Ok (routes <| certManagerIngressFQDNs ::= <[number := port_fqdn p]> |>)
    end.

Fixpoint collectRoutes (routes : exposedPortRoutes) (ps : list Port) : result exposedPortRoutes :=
  match ps with
  | [] => Ok routes
  | p :: ps => routes ← addRoute routes p; collectRoutes routes ps
  end.
Definition collectExposedPortRoutes (r : StackResource) : result exposedPortRoutes :=
  collectRoutes no_routes (ports (sr_spec r)).

(** * Addresses *)

Definition buildExternalAddress (port : Z) (fqdn : string) (r : StackResource)
    (certManagerTLSStage referencedTLSStage : tlsStage) : option ExternalAddress :=
  match GetPort r port with
  | None => None
  | Some p =>
      if negb (port_expose_to_public p) then None
      else if negb (port_tls p) then Some (mkExternalAddress port ("http://" +:+ fqdn))
      else
        let stage := match portReferencedTLSSecretRef p with
                     | Some _ => referencedTLSStage
                     | None => certManagerTLSStage
                     end in
        match stage with
        | tlsStageReady => Some (mkExternalAddress port ("https://" +:+ fqdn))
        | tlsStageUnavailable => Some (mkExternalAddress port ("http://" +:+ fqdn))
        | _ => None
        end
  end.

(** Go visits the entries of a map in no particular order: an order is a
    parameter. *)
Class MapOrder := map_order : gmap Z string → list (Z * string).
Class MapOrderLaws {MO : MapOrder} : Prop := map_order_perm m : map_order m ≡ₚ map_to_list m.

Definition buildExternalAddresses {MO : MapOrder} (r : StackResource) (portFQDNs : gmap Z string)
    (certManagerTLSStage referencedTLSStage : tlsStage) : list ExternalAddress :=
  omap (λ e, buildExternalAddress e.1 e.2 r certManagerTLSStage referencedTLSStage)
    (map_order portFQDNs).
End routes.

(** Rules in the order of the port numbers, whatever the order of the map. *)
Definition buildIngressRules (portFqdnMap : gmap Z string) (serviceName : string) : list IngressRule :=
  (λ port, mkIngressRule (default "" (portFqdnMap !! port)) serviceName port)
    <$> sort_ints (map_to_list portFqdnMap).*1.

Definition buildReferencedTLSConfig (ref : string) (hosts : list string) (stage : tlsStage)
    : list IngressTLS :=
  if decide (ref = "" ∨ stage ≠ tlsStageReady) then []
  else [mkIngressTLS (Unique id hosts) ref].

Definition httpProxyNameForResource (n : string) : string := n +:+ "-http-proxy".
Definition referencedTLSIngressNameForResource (n : string) : string := n +:+ "-wildcard".

(** The earliest retry among some states; zero when none asks for one. *)
Definition earliestRetry (l : list tlsState) : Duration :=
  foldl (λ earliest s,
    if (0 <? RetryAfter s)%Z && ((earliest =? 0)%Z || (RetryAfter s <? earliest)%Z)
    then RetryAfter s else earliest) 0%Z l.

Definition buildDesiredIngress (r : StackResource) (n : string) (rules : list IngressRule)
    (annotations : gmap string string) (tls : list IngressTLS) : Ingress :=
  mkIngress ((object_meta n (sr_namespace r)) <| om_annotations := annotations |>)
    (mkIngressSpec None tls rules).

(** What [setTLSConfigured] writes, if anything. *)
Definition tlsCondition (cert refs : tlsState) : option (ConditionStatus * tlsState) :=
  let blocked s := negb (bool_decide (Stage s = tlsStageNone)) &&
                   negb (bool_decide (Stage s = tlsStageReady)) in
  if blocked refs then Some (ConditionFalse, refs)
  else if blocked cert then Some (ConditionFalse, cert)
  else if decide (Stage cert = tlsStageReady) then Some (ConditionTrue, cert)
  else if decide (Stage refs = tlsStageReady) then Some (ConditionTrue, refs)
  else None.

(** * The step *)

Record ingressState := mkIngressState {
  publicFQDNs : gmap Z string;
  certManagerTLS : tlsState;
  referencedTLS : tlsState;
}.

Section step.
Context {GT : GoText} {DV : DnsValidation} {MO : MapOrder} {DD : DeepDerivative}.
Context {OA : OwnerApi} {CA : ConditionsApi} {W : Type} {CK : Clock W}.
Context {KSvc : Kind W Service} {KIng : Kind W Ingress} {KC : Kind W Certificate}.
Context {KIss : Kind W ClusterIssuer} {KM : Kind W Middleware} {KSec : Kind W Secret}.
Context {US : CreateOrUpdate W Secret} (platformTLSNamespace : string).

Definition ensureService (r : StackResource) : SE W Service :=
  let desired := buildDesiredService r in
  m ← of_result (set_controller_reference (sr_meta r) (svc_meta desired));
  let desired := desired <| svc_meta := m |> in
  res ← attempt (kget (sr_namespace r) (svc_name desired));
  match res with
  | Err e => if is_not_found e then kcreate desired else fail e
  | Ok existing =>
      if AreServicesEqual desired existing then mret existing
      else kupdate (desired <| svc_meta ::= λ m, m
                      <| om_resource_version := om_resource_version (svc_meta existing) |> |>)
  end.

Definition deleteChildIngress (r : StackResource) (n : string) : SE W unit :=
  res ← attempt (kget (sr_namespace r) n);
  match res with
  | Err e => if is_not_found e then mret tt else fail e
  | Ok stale =>
      if negb (is_controlled_by (ing_meta stale) (sr_meta r)) then mret tt
      else ignore_not_found (kdelete stale)
  end.

Definition applyIngress (desired : Ingress) (annotations : gmap string string) : SE W unit :=
  res ← attempt (kget (om_namespace (ing_meta desired)) (om_name (ing_meta desired)));
  match res with
  | Err e => if is_not_found e then _ ← kcreate desired; mret tt else fail e
  | Ok existing =>
      if IngressNeedsUpdate desired existing
      then _ ← kupdate (SyncManagedAnnotations annotations
                          (existing <| ing_spec := ing_spec desired |>)); mret tt
      else mret tt
  end.

Definition reconcileIngressCR (r : StackResource) (n : string) (rules : list IngressRule)
    (annotations : gmap string string) (tls : list IngressTLS) : SE W unit :=
  if decide (length rules = 0) then deleteChildIngress r n
  else
    let desired := buildDesiredIngress r n rules annotations tls in
    m ← of_result (set_controller_reference (sr_meta r) (ing_meta desired));
    applyIngress (desired <| ing_meta := m |>) annotations.

Definition cleanupIngress : PM W unit :=
  r ← gets resource;
  let delete n := lift (wrapping ("delete Ingress " +:+ n +:+ ": ") (deleteChildIngress r n)) in
  _ ← delete (httpProxyNameForResource (sr_name r));
  _ ← delete (referencedTLSIngressNameForResource (sr_name r));
  modifies (set_status (λ s, s
    <| referenced_tls_secret := None |>
    <| cert_manager_tls := None |>
    <| conditions ::= (λ cs, remove_status_condition
         (remove_status_condition cs (domain_name StackResourceTLSConfigured))
         (domain_name StackResourceIngressReady)) |>)).

Definition reconcileCertManagerIngress (svc : Service) (routes : exposedPortRoutes) : PM W tlsState :=
  r ← gets resource;
  let rules := buildIngressRules (certManagerIngressFQDNs routes) (svc_name svc) in
  let name := httpProxyNameForResource (sr_name r) in
  if decide (length (certManagerHosts routes) = 0) then
    _ ← updateCertManagerTLSStatus tlsStageNone;
    _ ← lift (reconcileIngressCR r name rules ∅ []);
    mret no_tls
  else
    issuer ← lift (ResolveClusterIssuer (sr_annotations r));
    match issuer with
    | inr (reason, message) =>
        _ ← updateCertManagerTLSStatus tlsStageNone;
        _ ← lift (reconcileIngressCR r name rules ∅ []);
        mret (mkTlsState tlsStageUnavailable reason message 0)
    | inl issuerName =>
        status ← lift (getCertManagerTLSState r);
        _ ← updateCertManagerTLSStatus (Stage status);
        let '(annotations, tls) := BuildTLSConfig issuerName (certManagerHosts routes)
          (sr_namespace r) (certificateNameForResource (sr_name r)) in
        let annotations := if decide (Stage status ≠ tlsStageReady)
                           then delete TraefikMiddlewaresAnnotation annotations else annotations in
        _ ← lift (reconcileIngressCR r name rules annotations tls);
        mret status
    end.

Definition reconcileReferencedTLSIngress (svc : Service) (routes : exposedPortRoutes)
    : PM W tlsState :=
  status ← reconcileReferencedTLSSecret platformTLSNamespace (referencedTLSSecretRef routes);
  r ← gets resource;
  let annotations := if decide (Stage status = tlsStageReady)
                     then TraefikAnnotations (sr_namespace r) else ∅ in
  let tls := buildReferencedTLSConfig (referencedTLSSecretRef routes) (referencedTLSHosts routes)
               (Stage status) in
  _ ← lift (reconcileIngressCR r (referencedTLSIngressNameForResource (sr_name r))
              (buildIngressRules (referencedTLSFQDNs routes) (svc_name svc)) annotations tls);
  mret status.

Definition setTLSConfigured (cert refs : tlsState) : PM W unit :=
  match tlsCondition cert refs with
  | None => mret tt
  | Some (status, s) =>
      t ← lift now;
      modifies (set_resource (λ r, r <| sr_status ::= λ st, st <| conditions ::=
        SetTLSCondition t (sr_generation r) (domain_name StackResourceTLSConfigured)
          status (Reason s) (TlsMessage s) |> |>))
  end.

Definition reconcileIngress (svc : Service) : PM W ingressState :=
  r ← gets resource;
  routes ← of_result (collectExposedPortRoutes r);
  cert ← reconcileCertManagerIngress svc routes;
  refs ← reconcileReferencedTLSIngress svc routes;
  _ ← (if decide (Stage cert = tlsStageReady ∨ Stage refs = tlsStageReady)
       then lift (EnsureRedirectMiddleware (sr_namespace r)) else mret tt);
  _ ← setTLSConfigured cert refs;
  mret (mkIngressState (allFQDNs routes) cert refs).

Definition reportWaiting (s : tlsState) : PM W unit :=
  if decide (Stage s = tlsStageWaiting) then reportNotReady (Reason s) (TlsMessage s) else mret tt.

(** Addresses, the IngressReady condition and the verdicts, from the state the
    Ingresses are in. *)
Definition publish (st : ingressState) : PM W SubReconcilerResult :=
  r ← gets resource;
  _ ← modifies (set_status (λ s, s <| external_address :=
        buildExternalAddresses r (publicFQDNs st) (Stage (certManagerTLS st))
          (Stage (referencedTLS st)) |>));
  _ ← setCondition StackResourceIngressReady true "IngressConfigured"
        "ingress routes configured for public ports";
  _ ← reportWaiting (certManagerTLS st);
  _ ← reportWaiting (referencedTLS st);
  let retryAfter := earliestRetry [certManagerTLS st; referencedTLS st] in
  if (0 <? retryAfter)%Z then mret (ResultDeferredRequeue retryAfter) else mret ResultNil.

Definition reconcile : PM W SubReconcilerResult :=
  r ← gets resource;
  let t := workload_type (sr_spec r) in
  if decide (t = WorkloadTypeWorker ∨ t = WorkloadTypeJob ∨ t = WorkloadTypeCronJob)
  then mret ResultNil
  else
    _ ← of_result (collectExposedPortRoutes r);
    svc ← lift (ensureService r);
    _ ← modifies (set_status (λ s, s <| internal_address := Some (svc_name svc) |>));
    if negb (HasExposedPort (sr_spec r)) then
      _ ← cleanupIngress;
      _ ← modifies (set_status (λ s, s <| external_address := [] |>));
      mret ResultNil
    else
      st ← reconcileIngress svc;
      publish st.
End step.

(** * Routes *)

Section route_properties.
Context {GT : GoText} {DV : DnsValidation}.

Definition exposed (ps : list Port) (p : Port) : Prop := p ∈ ps ∧ port_expose_to_public p = true.

(** What the map [m] holds, of the ports that satisfy [P]. *)
Definition holds_ports (ps : list Port) (P : Port → Prop) (m : gmap Z string) : Prop :=
  ∀ n f, m !! n = Some f ↔ ∃ p, exposed ps p ∧ P p ∧ port_number p = n ∧ port_fqdn p = f.
Definition holds_hosts (ps : list Port) (P : Port → Prop) (l : list string) : Prop :=
  ∀ h, h ∈ l ↔ ∃ p, exposed ps p ∧ P p ∧ port_fqdn p = h.

Definition referenced (p : Port) : Prop := is_Some (portReferencedTLSSecretRef p).

(** The routes collected from [ps]. *)
Definition routes_of (ps : list Port) (r : exposedPortRoutes) : Prop :=
  holds_ports ps (λ _, True) (allFQDNs r) ∧
  holds_ports ps (λ p, ¬ referenced p) (certManagerIngressFQDNs r) ∧
  holds_ports ps referenced (referencedTLSFQDNs r) ∧
  holds_hosts ps (λ p, ¬ referenced p ∧ port_tls p = true) (certManagerHosts r) ∧
  holds_hosts ps referenced (referencedTLSHosts r) ∧
  (∀ p ref, exposed ps p → portReferencedTLSSecretRef p = Some ref → ref = referencedTLSSecretRef r) ∧
  (referencedTLSSecretRef r ≠ "" → ∃ p, exposed ps p ∧
     portReferencedTLSSecretRef p = Some (referencedTLSSecretRef r)).

Lemma exposed_snoc ps p q : exposed (ps ++ [p]) q ↔ exposed ps q ∨ (q = p ∧ port_expose_to_public p = true).
Proof.
  unfold exposed. rewrite elem_of_app, list_elem_of_singleton.
  split; [intros [[Hq| ->] He]; auto|intros [[Hq He]|[-> He]]; auto].
Qed.

Lemma holds_ports_hidden ps P m p :
  port_expose_to_public p = false ∨ ¬ P p → holds_ports ps P m → holds_ports (ps ++ [p]) P m.
Proof.
  intros Hp H n f. rewrite (H n f). setoid_rewrite exposed_snoc.
  split; [intros (q & ? & ?); exists q; tauto|]. intros (q & [Hq|[-> He]] & HP & Hn); [eauto|]. destruct Hp; congruence.
Qed.
Lemma holds_ports_insert ps P m p :
  port_number p ∉ port_number <$> ps → port_expose_to_public p = true → P p →
  holds_ports ps P m → holds_ports (ps ++ [p]) P (<[port_number p := port_fqdn p]> m).
Proof.
  intros Hn He HP H n f. setoid_rewrite exposed_snoc. destruct (decide (port_number p = n)) as [<-|Hne].
  - rewrite lookup_insert_eq. split.
    + intros [= <-]. exists p. split; [by right|]. done.
    + intros (q & [[Hq _]|[-> _]] & _ & E & Ef); [|congruence].
      destruct Hn. rewrite <- E. by apply list_elem_of_fmap_2.
  - rewrite lookup_insert_ne, (H n f) by done. split; [intros (q & ? & ?); exists q; tauto|].
    intros (q & [Hq|[-> _]] & ? & ? & ?); [eauto|congruence].
Qed.
Lemma holds_hosts_hidden ps P l p :
  port_expose_to_public p = false ∨ ¬ P p → holds_hosts ps P l → holds_hosts (ps ++ [p]) P l.
Proof.
  intros Hp H h. rewrite (H h). setoid_rewrite exposed_snoc.
  split; [intros (q & ? & ?); exists q; tauto|]. intros (q & [Hq|[-> He]] & HP & Hn); [eauto|]. destruct Hp; congruence.
Qed.
Lemma holds_hosts_snoc ps (P : Port → Prop) l p :
  port_expose_to_public p = true → P p →
  holds_hosts ps P l → holds_hosts (ps ++ [p]) P (l ++ [port_fqdn p]).
Proof.
  intros He HP H h. rewrite elem_of_app, list_elem_of_singleton, (H h). setoid_rewrite exposed_snoc.
  split; [intros [(q & ? & ?)| ->]; [exists q|exists p]; tauto|]. intros (q & [Hq|[-> _]] & ? & ?); [left; eauto|by right].
Qed.

Lemma ref_nonempty p :
  is_dns1123_subdomain "" = false → portReferencedTLSSecretRef p ≠ Some "".
Proof.
  intros Hdns. unfold portReferencedTLSSecretRef. destruct (port_tls p); cbn [negb]; [|done].
  destruct (is_dns1123_subdomain (port_tls_secret_ref p)) eqn:E; cbn [negb]; [|done].
  intros [= H]. rewrite H in E. congruence.
Qed.

(** Two exposed ports that name different valid Secrets. *)
Definition conflicting (ps : list Port) : Prop :=
  ∃ p q a b, exposed ps p ∧ exposed ps q ∧ portReferencedTLSSecretRef p = Some a ∧
    portReferencedTLSSecretRef q = Some b ∧ a ≠ b.

Lemma addRoute_spec ps r p :
  is_dns1123_subdomain "" = false →
  port_number p ∉ port_number <$> ps → routes_of ps r →
  match addRoute r p with
  | Ok r' => routes_of (ps ++ [p]) r'
  | Err _ => conflicting (ps ++ [p])
  end.
Proof.
  intros Hdns Hn (Ha & Hc & Hr & Hch & Hrh & Hu & He). unfold addRoute.
  destruct (port_expose_to_public p) eqn:Hp; cbn [negb].
  2: { split_and!; try (by apply holds_ports_hidden; [left|]); try (by apply holds_hosts_hidden; [left|]).
       - intros q ref [Hq|[-> ?]]%exposed_snoc; [by apply Hu|congruence].
       - intros Hne. destruct (He Hne) as (q & Hq & E). exists q. split; [apply exposed_snoc; by left|done]. }
  destruct (portReferencedTLSSecretRef p) as [ref|] eqn:Eref.
  - assert (referenced p) as Hrp by by eexists.
    assert (ref ≠ "") as Hne.
    { intros ->. by apply (ref_nonempty p). }
    cbn [referencedTLSSecretRef modify]. case_decide as Hcf.
    + destruct Hcf as [Hc1 Hc2]. destruct (He Hc1) as (q & Hq & Eq).
      exists q, p, (referencedTLSSecretRef r), ref.
      split_and!; [apply exposed_snoc; by left|apply exposed_snoc; by right|done..].
    + assert (referencedTLSSecretRef r = "" ∨ referencedTLSSecretRef r = ref) as Hcur.
      { destruct (decide (referencedTLSSecretRef r = "")); [by left|].
        destruct (decide (referencedTLSSecretRef r = ref)); [by right|tauto]. }
      split_and!; cbn.
      * by apply holds_ports_insert.
      * apply holds_ports_hidden; [by right; intros []|done].
      * by apply holds_ports_insert.
      * apply holds_hosts_hidden; [by right; intros [[] _]|done].
      * by apply holds_hosts_snoc.
      * intros q ref' [Hq|[-> _]]%exposed_snoc Eq; [|congruence].
        specialize (Hu q ref' Hq Eq) as ->. destruct Hcur as [Hcur|]; [|done].
        exfalso. rewrite Hcur in Eq. by apply (ref_nonempty q).
      * intros _. exists p. split; [apply exposed_snoc; by right|done].
  - assert (¬ referenced p) as Hrp by (unfold referenced; rewrite Eref; by intros []).
    assert (∀ r', referencedTLSSecretRef r' = referencedTLSSecretRef r →
      (∀ q ref, exposed (ps ++ [p]) q → portReferencedTLSSecretRef q = Some ref →
         ref = referencedTLSSecretRef r') ∧
      (referencedTLSSecretRef r' ≠ "" → ∃ q, exposed (ps ++ [p]) q ∧
         portReferencedTLSSecretRef q = Some (referencedTLSSecretRef r'))) as Hrest.
    { intros r' ->. split.
      - intros q ref [Hq|[-> _]]%exposed_snoc E; [by eapply Hu|congruence].
      - intros Hne. destruct (He Hne) as (q & Hq & E). exists q. split; [apply exposed_snoc; by left|done]. }
    destruct (port_tls p) eqn:Ht; (split; [|split; [|split; [|split; [|split; [|by apply Hrest]]]]]); cbn;
      first [by apply holds_ports_insert | by apply holds_ports_hidden; [by right|]
            |by apply holds_hosts_snoc | apply holds_hosts_hidden; [right|done]]; [done| |done].
    intros [_ H]. congruence.
Qed.

Lemma conflicting_mono ps qs : conflicting ps → conflicting (ps ++ qs).
Proof.
  intros (p & q & a & b & [Hp ?] & [Hq ?] & ?). exists p, q, a, b.
  unfold exposed. rewrite !elem_of_app. tauto.
Qed.

Lemma collectRoutes_spec ps pre r :
  is_dns1123_subdomain "" = false → NoDup (port_number <$> pre ++ ps) → routes_of pre r →
  match collectRoutes r ps with
  | Ok r' => routes_of (pre ++ ps) r'
  | Err _ => conflicting (pre ++ ps)
  end.
Proof.
  intros Hdns. revert pre r. induction ps as [|p ps IH]; intros pre r HN Hr; cbn.
  { by rewrite app_nil_r. }
  assert (port_number p ∉ port_number <$> pre) as Hn.
  { rewrite fmap_app in HN. apply NoDup_app in HN as (_ & HN & _). intros Hin.
    apply (HN _ Hin). cbn. left. }
  pose proof (addRoute_spec pre r p Hdns Hn Hr) as H.
  replace (pre ++ p :: ps) with ((pre ++ [p]) ++ ps) in * by by rewrite <- app_assoc.
  destruct (addRoute r p) as [r'|e]; cbn; [by apply IH|by apply conflicting_mono].
Qed.

(** Every public port gets exactly one route.  With distinct port numbers,
    the ports that name a valid TLS Secret go to the Ingress of that Secret, all
    others to the standard one, which also issues the certificates of those that
    ask for TLS; both together serve all public ports.  Collecting fails exactly
    when two public ports name different Secrets. *)
Theorem routes_partition r :
  is_dns1123_subdomain "" = false → NoDup (port_number <$> ports (sr_spec r)) →
  match collectExposedPortRoutes r with
  | Ok routes =>
      routes_of (ports (sr_spec r)) routes ∧ ¬ conflicting (ports (sr_spec r)) ∧
      certManagerIngressFQDNs routes ##ₘ referencedTLSFQDNs routes ∧
      allFQDNs routes = certManagerIngressFQDNs routes ∪ referencedTLSFQDNs routes
  | Err _ => conflicting (ports (sr_spec r))
  end.
Proof.
  intros Hdns HN. set (ps := ports (sr_spec r)) in *.
  pose proof (collectRoutes_spec ps [] no_routes Hdns HN) as H. cbn [app] in H.
  unfold collectExposedPortRoutes. fold ps.
  assert (routes_of [] no_routes) as H0.
  { unfold no_routes. split_and!; try done; cbn; unfold holds_ports, holds_hosts, exposed.
    1-3: intros n f; rewrite lookup_empty; set_solver.
    all: set_solver. }
  specialize (H H0). destruct (collectRoutes no_routes ps) as [rt|e]; [|done].
  pose proof H as (Ha & Hc & Hr & _ & _ & Hu & _).
  assert (certManagerIngressFQDNs rt ##ₘ referencedTLSFQDNs rt) as Hd.
  { apply map_disjoint_spec. intros n f g Hf%Hc Hg%Hr.
    destruct Hf as (p & [Hp _] & Hnr & <- & _), Hg as (q & [Hq _] & Hrf & E & _).
    by rewrite (NoDup_name_inj port_number ps q p HN Hq Hp E) in Hrf. }
  split_and!; [done| |done|].
  - intros (p & q & a & b & Hp & Hq & Ep & Eq & Hne). apply Hne.
    by rewrite (Hu p a Hp Ep), (Hu q b Hq Eq).
  - apply map_eq. intros n. apply option_eq. intros f.
    rewrite lookup_union_Some, (Ha n f), (Hc n f), (Hr n f) by done. split.
    + intros (p & Hp & _ & Hn & Hf). unfold referenced.
      destruct (portReferencedTLSSecretRef p) eqn:E; [right|left]; exists p; rewrite E; naive_solver.
    + intros [(p & Hp & _ & ?)|(p & Hp & _ & ?)]; eauto.
Qed.
End route_properties.

(** * Addresses and verdicts *)

Section address_properties.
Context {GT : GoText} {DV : DnsValidation} {MO : MapOrder} {ML : MapOrderLaws}.

(** The scheme a public port is published with, if it is published. *)
Definition scheme (cert refs : tlsStage) (p : Port) : option string :=
  if negb (port_tls p) then Some "http://"
  else match (if decide (is_Some (portReferencedTLSSecretRef p)) then refs else cert) with
       | tlsStageReady => Some "https://"
       | tlsStageUnavailable => Some "http://"
       | _ => None
       end.

Lemma buildExternalAddress_spec n fqdn r cert refs a :
  buildExternalAddress n fqdn r cert refs = Some a ↔
  ∃ p s, GetPort r n = Some p ∧ port_expose_to_public p = true ∧ scheme cert refs p = Some s ∧
         a = mkExternalAddress n (s +:+ fqdn).
Proof.
  assert (buildExternalAddress n fqdn r cert refs =
    match GetPort r n with
    | Some p => if port_expose_to_public p
                then (λ s, mkExternalAddress n (s +:+ fqdn)) <$> scheme cert refs p else None
    | None => None
    end) as ->.
  { unfold buildExternalAddress, scheme. destruct (GetPort r n) as [p|]; [|done].
    destruct (port_expose_to_public p), (port_tls p); try done. cbn [negb].
    destruct (portReferencedTLSSecretRef p);
      [rewrite decide_True by eauto; by destruct refs|rewrite decide_False by (by intros []); by destruct cert]. }
  destruct (GetPort r n) as [p|]; [|split; [done|intros (? & ? & [=] & _)]].
  destruct (port_expose_to_public p) eqn:He; [|split; [done|intros (? & ? & [= <-] & ? & _); congruence]].
  rewrite fmap_Some. split.
  - intros (s & Hs & ->). by exists p, s.
  - intros (q & s & [= <-] & _ & Hs & ->). by exists s.
Qed.

(** The public addresses.  Every public port of the map has at most one
    address, and it has one exactly when its scheme is settled: plain ports are
    published as http at once; a TLS port as https only when its own TLS path is
    ready, as http only when that path has become unavailable, and not at all
    while it waits.  The order of the list is that of a Go map. *)
Theorem external_addresses_spec r m cert refs :
  NoDup (ea_target_port <$> buildExternalAddresses r m cert refs) ∧
  ∀ a, a ∈ buildExternalAddresses r m cert refs ↔
    ∃ p fqdn s, m !! ea_target_port a = Some fqdn ∧ GetPort r (ea_target_port a) = Some p ∧
      port_expose_to_public p = true ∧ scheme cert refs p = Some s ∧ ea_address a = s +:+ fqdn.
Proof.
  unfold buildExternalAddresses. split.
  - assert (NoDup (map_order m).*1) as HN by (rewrite map_order_perm; apply NoDup_fst_map_to_list).
    revert HN. induction (map_order m) as [|[n f] l IH]; [constructor|].
    cbn [fmap list_fmap fst]. intros [Hn HN]%NoDup_cons. cbn [omap list_omap fst snd].
    destruct (buildExternalAddress n f r cert refs) as [a|] eqn:E; [|by apply IH].
    cbn [fmap list_fmap]. apply NoDup_cons. split; [|by apply IH].
    apply buildExternalAddress_spec in E as (? & ? & _ & _ & _ & ->). cbn.
    intros (b & E & Hb)%list_elem_of_fmap. apply list_elem_of_omap in Hb as ([n' f'] & Hin & Hb).
    apply buildExternalAddress_spec in Hb as (? & ? & _ & _ & _ & ->). cbn in E. subst n'.
    apply Hn. exact (list_elem_of_fmap_2 fst _ _ Hin).
  - intros a. rewrite list_elem_of_omap. setoid_rewrite buildExternalAddress_spec. split.
    + intros ([n f] & Hin & p & s & Hp & He & Hs & ->). rewrite map_order_perm in Hin.
      apply elem_of_map_to_list in Hin. cbn. eauto 10.
    + intros (p & f & s & Hm & Hp & He & Hs & Ha). exists (ea_target_port a, f). split.
      * rewrite map_order_perm. by apply elem_of_map_to_list.
      * exists p, s. split_and!; [done..|]. destruct a; cbn in *; congruence.
Qed.
End address_properties.

Section step_properties.
Context {GT : GoText} {DV : DnsValidation} {MO : MapOrder} {DD : DeepDerivative}.
Context {OA : OwnerApi} {CA : ConditionsApi} {CL : ConditionsLaws} {W : Type} {CK : Clock W}.
Context {KSvc : Kind W Service} {KIng : Kind W Ingress} {KC : Kind W Certificate}.
Context {KIss : Kind W ClusterIssuer} {KM : Kind W Middleware} {KSec : Kind W Secret}.
Context {US : CreateOrUpdate W Secret} (platformTLSNamespace : string).

(** The obligation of the step towards the chain: it never halts it, and public
    ports end with IngressReady. *)
Lemma publish_outcome st p :
  post (publish (W:=W) st) (λ res p', halts res = false ∧ holds StackResourceIngressReady p') p.
Proof.
  unfold publish. do 4 vcg_step. apply post_bind, post_setCondition. intros t w.
  match goal with |- post _ _ ?p2 => assert (holds StackResourceIngressReady p2) as Hh
    by apply holds_setCondition; generalize dependent p2 end. intros p2 Hh.
  unfold reportWaiting, reportNotReady. vcg; (split; [done|]); exact Hh.
Qed.

Lemma network_outcome p :
  post (reconcile (W:=W) platformTLSNamespace) (λ res p', halts res = false ∧
    (workload_type (sr_spec (resource p)) ≠ WorkloadTypeWorker →
     workload_type (sr_spec (resource p)) ≠ WorkloadTypeJob →
     workload_type (sr_spec (resource p)) ≠ WorkloadTypeCronJob →
     HasExposedPort (sr_spec (resource p)) = true → holds StackResourceIngressReady p')) p.
Proof.
  unfold reconcile. do 2 vcg_step. case_decide as Hs; [apply post_ret; split; [done|naive_solver]|].
  do 2 vcg_step. do 4 vcg_step. destruct (HasExposedPort (sr_spec (resource p))); cbn [negb].
  - apply post_bind, post_any. intros st p1. eapply post_mono; [apply publish_outcome|].
    by intros res p' [Hh Hi].
  - apply post_bind, post_any. intros _ p1. do 2 vcg_step. by apply post_ret.
Qed.

End step_properties.

(** * Witnesses *)

Import Cluster.
#[local] Instance nonempty_name : DnsValidation := λ s, negb (bool_decide (s = "")).
#[local] Instance ascending : MapOrder := map_to_list.
#[local] Instance ascending_laws : MapOrderLaws.
Proof. intros m. reflexivity. Qed.
#[local] Instance same_spec : DeepDerivative := λ a b, bool_decide (svs_cluster_ip a = svs_cluster_ip b).

Definition public_resource : StackResource :=
  (sample_resource "web") <| sr_spec ::= λ s, s <| ports :=
    [mkPort "http" 80 "TCP" true "shop.example" false "";
     mkPort "api" 443 "TCP" true "api.example" true "wildcard"] |> |>.

Lemma routes_partition_witness :
  ∃ routes, collectExposedPortRoutes public_resource = Ok routes ∧
    certManagerIngressFQDNs routes ##ₘ referencedTLSFQDNs routes.
Proof.
  pose proof (routes_partition public_resource eq_refl) as H.
  destruct (collectExposedPortRoutes public_resource) as [routes|e] eqn:E;
    [|exfalso; vm_compute in E; discriminate].
  exists routes. split; [reflexivity|]. apply H. vm_compute.
  apply NoDup_cons. split; [|apply NoDup_singleton].
  intros Hin%list_elem_of_singleton. discriminate Hin.
Defined.

Lemma external_addresses_spec_witness :
  mkExternalAddress 80 "http://shop.example" ∈
    buildExternalAddresses public_resource {[ 80%Z := "shop.example" ]} tlsStageNone tlsStageWaiting.
Proof.
  apply (proj2 (external_addresses_spec public_resource {[ 80%Z := "shop.example" ]} tlsStageNone
    tlsStageWaiting)).
  eexists _, _, _. split_and!; [vm_compute; reflexivity..].
Defined.
