(* ===== verification/NetworkOutcome.v ===== *)
(** What the network step guarantees: its two TLS paths, followed through a run, and
    the addresses it then publishes. *)
From S2P Require Import Prelude Text Kube Apimachinery Api Verdicts Pass KubeWorkloads Storage.
From S2P Require Import Samples PodSpecs IngressTls Tls Svc.

(** * What the step leaves alone *)

Section frames.
Context {GT : GoText} {DV : DnsValidation} {MO : MapOrder} {DD : DeepDerivative}.
Context {OA : OwnerApi} {CA : ConditionsApi} {CL : ConditionsLaws} {W : Type} {CK : Clock W}.
Context {KSvc : Kind W Service} {KIng : Kind W Ingress} {KC : Kind W Certificate}.
Context {KIss : Kind W ClusterIssuer} {KM : Kind W Middleware} {KSec : Kind W Secret}.
Context {US : CreateOrUpdate W Secret}.

Lemma reportWaiting_keeps ds s : Preserves (W:=W) (keeps ds) (reportWaiting s).
Proof. unfold reportWaiting, reportNotReady. solve_preserves. Qed.
Lemma certManager_keeps ds svc routes : Preserves (W:=W) (keeps ds) (reconcileCertManagerIngress svc routes).
Proof. unfold reconcileCertManagerIngress, updateCertManagerTLSStatus. cbv zeta. solve_preserves. Qed.
Lemma referencedTLS_keeps ds ns svc routes :
  Preserves (W:=W) (keeps ds) (reconcileReferencedTLSIngress ns svc routes).
Proof.
  unfold reconcileReferencedTLSIngress, reconcileReferencedTLSSecret, updateReferencedTLSSecretStatus.
  cbv zeta. solve_preserves.
Qed.
#[local] Hint Resolve reportWaiting_keeps certManager_keeps referencedTLS_keeps : preserves.

Lemma setTLSConfigured_keeps ds cert refs :
  StackResourceTLSConfigured ∈ ds → Preserves (W:=W) (keeps ds) (setTLSConfigured cert refs).
Proof.
  intros Hd. unfold setTLSConfigured. destruct (tlsCondition cert refs) as [[status s]|]; [|solve_preserves].
  do 2 preserves_step. split_and!; [done..|]. intros t Ht. cbn. unfold sr_conditions. cbn.
  unfold SetTLSCondition. rewrite view_set_new, decide_False; [done|]. intros ->. exact (Ht (list_elem_of_fmap_2 domain_name _ _ Hd)).
Qed.
Lemma cleanup_keeps ds :
  StackResourceTLSConfigured ∈ ds → StackResourceIngressReady ∈ ds → Preserves (W:=W) (keeps ds) cleanupIngress.
Proof.
  intros Ht Hi. unfold cleanupIngress. cbv zeta. repeat (apply Preserves_bind; [exact _|solve_preserves|intros ?]).
  apply Preserves_modifies. intros p. split_and!; [done..|]. intros t Hn. cbn. unfold sr_conditions, view. cbn.
  rewrite !find_remove_status_condition_ne; [done|..]; intros E; subst t; apply Hn;
    first [exact (list_elem_of_fmap_2 domain_name _ _ Ht)|exact (list_elem_of_fmap_2 domain_name _ _ Hi)].
Qed.
#[local] Hint Resolve setTLSConfigured_keeps cleanup_keeps : preserves.

End frames.
#[export] Hint Resolve reportWaiting_keeps certManager_keeps referencedTLS_keeps : preserves.
#[export] Hint Resolve setTLSConfigured_keeps cleanup_keeps : preserves.

Section step_properties.
Context {GT : GoText} {DV : DnsValidation} {MO : MapOrder} {ML : MapOrderLaws} {DD : DeepDerivative}.
Context {OA : OwnerApi} {CA : ConditionsApi} {CL : ConditionsLaws} {W : Type} {CK : Clock W}.
Context {KSvc : Kind W Service} {KIng : Kind W Ingress} {KC : Kind W Certificate}.
Context {KIss : Kind W ClusterIssuer} {KM : Kind W Middleware} {KSec : Kind W Secret}.
Context {US : CreateOrUpdate W Secret} (platformTLSNamespace : string).

(** * What the step reports *)

Lemma earliestRetry_spec a b :
  tls_state_ok a → tls_state_ok b →
  let d := earliestRetry [a; b] in
  (0 ≤ d)%Z ∧ ((0 < d)%Z ↔ Stage a = tlsStageWaiting ∨ Stage b = tlsStageWaiting) ∧
  ∀ s, s = a ∨ s = b → Stage s = tlsStageWaiting → (d ≤ RetryAfter s)%Z.
Proof.
  intros (Ha & Ha0 & _) (Hb & Hb0 & _) d.
  assert (d = if (0 <? RetryAfter a)%Z
              then if (0 <? RetryAfter b)%Z then Z.min (RetryAfter a) (RetryAfter b) else RetryAfter a
              else if (0 <? RetryAfter b)%Z then RetryAfter b else 0%Z) as ->.
  { unfold d, earliestRetry. cbn [foldl].
    destruct (Z.ltb_spec 0 (RetryAfter a)), (Z.ltb_spec 0 (RetryAfter b)); cbn [andb orb Z.eqb]; try done.
    destruct (Z.eqb_spec (RetryAfter a) 0); [lia|].
    destruct (Z.ltb_spec (RetryAfter b) (RetryAfter a)); cbn [orb]; lia. }
  split_and!.
  - destruct (Z.ltb_spec 0 (RetryAfter a)), (Z.ltb_spec 0 (RetryAfter b)); lia.
  - rewrite Ha, Hb. destruct (Z.ltb_spec 0 (RetryAfter a)), (Z.ltb_spec 0 (RetryAfter b)); lia.
  - intros s [->| ->] Hs; [apply Ha in Hs|apply Hb in Hs];
      destruct (Z.ltb_spec 0 (RetryAfter a)), (Z.ltb_spec 0 (RetryAfter b)); lia.
Qed.

(** What [publish] and the step leave behind for the state [st]. *)
Definition published (st : ingressState) (res : SubReconcilerResult) (p' : Pass W) : Prop :=
  halts res = false ∧ holds StackResourceIngressReady p' ∧
  external_address (sr_status (resource p')) =
    buildExternalAddresses (resource p') (publicFQDNs st) (Stage (certManagerTLS st))
      (Stage (referencedTLS st)) ∧
  (Stage (certManagerTLS st) = tlsStageWaiting ∨ Stage (referencedTLS st) = tlsStageWaiting →
     is_Some (NotReady (verdicts p')) ∧
     ∃ d, res = ResultDeferredRequeue d ∧ (0 < d)%Z ∧
       ∀ s, s = certManagerTLS st ∨ s = referencedTLS st → Stage s = tlsStageWaiting →
         (d ≤ RetryAfter s)%Z).

Lemma notReady_is_some reason msg v : is_Some (NotReady (ReportNotReady reason msg v)).
Proof. unfold ReportNotReady. by destruct (NotReady v) eqn:E; cbn; rewrite ?E. Qed.
Lemma notReady_kept reason msg v : is_Some (NotReady v) → is_Some (NotReady (ReportNotReady reason msg v)).
Proof. intros _. apply notReady_is_some. Qed.

Lemma publish_spec st p :
  tls_state_ok (certManagerTLS st) → tls_state_ok (referencedTLS st) →
  post (publish (W:=W) st) (published st) p.
Proof.
  intros Ha Hb. pose proof (earliestRetry_spec _ _ Ha Hb) as (Hd & Hpos & Hle).
  unfold publish. do 4 vcg_step. apply post_bind, post_setCondition. intros t w.
  set (p1 := mkPass _ _ _).
  apply post_bind. eapply (post_mono _ (λ _ p2, resource p2 = resource p1 ∧
    (Stage (certManagerTLS st) = tlsStageWaiting → is_Some (NotReady (verdicts p2))))).
  { unfold reportWaiting. case_decide as E; [unfold reportNotReady|]; vcg; (split; [done|]);
      [intros _; apply notReady_is_some|done]. }
  intros _ p2 [E2 H2]. apply post_bind. eapply (post_mono _ (λ _ p3, resource p3 = resource p1 ∧
    (Stage (certManagerTLS st) = tlsStageWaiting ∨ Stage (referencedTLS st) = tlsStageWaiting →
     is_Some (NotReady (verdicts p3))))).
  { unfold reportWaiting. case_decide as E; [unfold reportNotReady|]; vcg; (split; [done|]).
    - intros _; apply notReady_is_some.
    - intros [Hw|Hw]; [by apply H2|done]. }
  intros _ p3 [E3 H3]. cbv zeta.
  assert (holds StackResourceIngressReady p3 ∧ external_address (sr_status (resource p3)) =
    buildExternalAddresses (resource p3) (publicFQDNs st) (Stage (certManagerTLS st))
      (Stage (referencedTLS st))) as [Hh Hx].
  { unfold holds. rewrite E3. split; [|reflexivity].
    do 2 eexists. unfold p1. cbn. unfold sr_conditions. cbn. by rewrite view_set_new, decide_True. }
  destruct (Z.ltb_spec 0 (earliestRetry [certManagerTLS st; referencedTLS st])) as [Hp|Hp];
    apply post_ret; (split_and!; [done|done|done|]); intros Hw.
  - split; [by apply H3|]. eexists. split_and!; [done..|]. exact Hle.
  - apply Hpos in Hw. lia.
Qed.

(** * Certificates *)

(** The first Ready condition of the certificate is True; its issuance has failed. *)
Definition certIssued (c : option Certificate) : Prop :=
  ∃ crt k, c = Some crt ∧ firstOf (λ k, cc_type k = CertificateConditionReady) (cert_conditions crt) k ∧
    cc_status k = ConditionTrue.
Definition issuanceFailed (c : option Certificate) : Prop :=
  ∃ crt n, c = Some crt ∧ cert_failed_issuance_attempts crt = Some n ∧ (0 < n)%Z.

(** A path that waits since [since] is given up when its grace period has run out,
    and asks to be looked at when it does. *)
Definition graceVerdict (since t : Time) (s : tlsState) : Prop :=
  if decide (remainingTLSGracePeriod since t = 0%Z) then Stage s = tlsStageUnavailable
  else Stage s = tlsStageWaiting ∧ RetryAfter s = remainingTLSGracePeriod since t.
Definition certVerdict (c : option Certificate) (since t : Time) (s : tlsState) : Prop :=
  (certIssued c → Stage s = tlsStageReady) ∧
  (¬ certIssued c → issuanceFailed c → Stage s = tlsStageUnavailable) ∧
  (¬ certIssued c → ¬ issuanceFailed c → graceVerdict since t s).

Lemma cert_ready c : is_Some (certReady c) ↔ certIssued c.
Proof.
  unfold certReady, findCertCondition, certIssued. destruct c as [crt|]; cbn.
  2: { split; [by intros []|by intros (? & ? & [=] & _)]. }
  pose proof (find_firstOf (λ k, cc_type k = CertificateConditionReady) (cert_conditions crt)) as H.
  destruct (List.find _ _) as [k|].
  - split.
    + case_decide as E; [intros _; by exists crt, k|by intros []].
    + intros (crt' & k' & [= <-] & Hk & Hs). rewrite (firstOf_unique _ _ _ _ H Hk), decide_True by done. by eexists.
  - split; [by intros []|]. intros (crt' & k' & [= <-] & Hk & _). by destruct (H k').
Qed.
Lemma failed_attempts c : is_Some (failedAttempts c) ↔ issuanceFailed c.
Proof.
  unfold failedAttempts, issuanceFailed. destruct c as [crt|]; cbn.
  2: { split; [by intros []|by intros (? & ? & [=] & _)]. }
  destruct (cert_failed_issuance_attempts crt) as [n|] eqn:E.
  - destruct (Z.ltb_spec 0 n); [|split; [by intros []|]].
    + split; [intros _; by exists crt, n|by eexists].
    + intros (crt' & n' & [= <-] & E' & Hn). rewrite E in E'. injection E' as <-. lia.
  - split; [by intros []|]. intros (crt' & n' & [= <-] & E' & _). congruence.
Qed.
Lemma classify_verdict c since t : certVerdict c since t (classifyCertificate c since t).
Proof.
  unfold certVerdict, graceVerdict, classifyCertificate. rewrite <- cert_ready, <- failed_attempts.
  destruct (certReady c) as [msg|]; [split_and!; [done|intros []; eauto..]|].
  destruct (failedAttempts c) as [n|]; [split_and!; [by intros []|done|intros _ []; eauto]|].
  split_and!; [by intros []|by intros _ []|intros _ _].
  destruct (Z.eqb_spec (remainingTLSGracePeriod since t) 0); by case_decide.
Qed.

(** How the certificate's path is judged: there is no host that asks for one; or its
    issuer cannot be told; or the Certificate is read, then the clock. *)
Definition certAnswered (r : StackResource) (hosts : list string) (s : tlsState) (w w' : W) : Prop :=
  if decide (hosts = []) then s = no_tls ∧ w' = w
  else ∃ issuer w1, ResolveClusterIssuer (sr_annotations r) w = (Ok issuer, w1) ∧
    match issuer with
    | inr _ => Stage s = tlsStageUnavailable ∧ w' = w1
    | inl _ => ∃ found w2, kget (O:=Certificate) (sr_namespace r) (certificateNameForResource (sr_name r)) w1
                 = (found, w2) ∧ w' = (time_now w2).2 ∧
        match found with
        | Ok crt => certVerdict (Some crt) (certManagerTLSPendingSince r) (time_now w2).1 s
        | Err e => is_not_found e = true ∧ certVerdict None (certManagerTLSPendingSince r) (time_now w2).1 s
        end
    end.

(** The calls that bring Ingresses, and the redirect, into the state decided on. *)
Definition ingressCalls (I : W → Prop) : Prop :=
  Inv I now ∧
  ((∀ ns n, Inv I (kget (O:=Ingress) ns n)) ∧ (∀ o, Inv I (kcreate (O:=Ingress) o)) ∧
   (∀ o, Inv I (kupdate (O:=Ingress) o)) ∧ ∀ o, Inv I (kdelete (O:=Ingress) o)) ∧
  ((∀ ns n, Inv I (kget (O:=Middleware) ns n)) ∧ (∀ o, Inv I (kcreate (O:=Middleware) o)) ∧
   ∀ o, Inv I (kupdate (O:=Middleware) o)).

Ltac inv_lifted := repeat first
  [ solve [eauto with inv]
  | apply inv_lift
  | apply inv_bind; [|intros ? _]
  | case_decide
  | match goal with |- Inv _ (match ?x with _ => _ end) => destruct x end ].

Lemma ingress_inv I r n rules annotations tls :
  ingressCalls I → Inv I (reconcileIngressCR r n rules annotations tls).
Proof.
  intros (_ & (H1 & H2 & H3 & H4) & _). unfold reconcileIngressCR, deleteChildIngress, applyIngress. inv_lifted.
Qed.
Lemma redirect_inv I ns : ingressCalls I → Inv I (EnsureRedirectMiddleware ns).
Proof. intros (_ & _ & H1 & H2 & H3). unfold EnsureRedirectMiddleware. inv_lifted. Qed.

(** A run that makes only those calls. *)
Lemma post_via {A} calls (m : PM W A) p :
  (∀ I, calls I → Inv (λ p : Pass W, I (world p)) m) → post m (λ _ p', via calls (world p) (world p')) p.
Proof. intros Hm a p' E I HI Hp. specialize (Hm I HI p Hp). by rewrite E in Hm. Qed.
Lemma post_and {S A} (m : SE S A) (P Q : A → S → Prop) s : post m P s → post m Q s → post m (λ a s', P a s' ∧ Q a s') s.
Proof. intros HP HQ a s' E. split; [by apply HP|by apply HQ]. Qed.
Lemma post_with {S A} (P Q : A → S → Prop) (m : SE S A) s : post m P s → post m (λ a s', P a s' → Q a s') s → post m Q s.
Proof. intros HP HQ a s' E. apply HQ; [done|]. by apply HP. Qed.
Lemma ingress_via (r : StackResource) n rules annotations tls p :
  post (lift (reconcileIngressCR r n rules annotations tls)) (λ _ p', via ingressCalls (world p) (world p')) p.
Proof. apply post_via. intros I HI. by apply inv_lift, ingress_inv. Qed.
Lemma clock_inv I : ingressCalls I → Inv I now.
Proof. by intros []. Qed.
Lemma cert_status_via stage p :
  post (updateCertManagerTLSStatus stage) (λ _ p', via ingressCalls (world p) (world p')) p.
Proof.
  apply post_via. intros I HI%clock_inv. unfold updateCertManagerTLSStatus. inv_lifted; by apply inv_local.
Qed.

(** What the certificate's path reads and decides of, and leaves alone. *)
Definition untouched (p p' : Pass W) : Prop :=
  keeps [] p p' ∧ same referenced_tls_secret p p'.
Lemma certManager_untouched svc routes p :
  post (reconcileCertManagerIngress (W:=W) svc routes) (λ _ p', untouched p p') p.
Proof.
  intros a p' E. split; [exact (Preserves_post _ _ p (certManager_keeps _ svc routes) a p' E)|].
  refine (Preserves_post (same referenced_tls_secret) _ p _ a p' E).
  unfold reconcileCertManagerIngress, updateCertManagerTLSStatus. cbv zeta. solve_preserves.
Qed.

Lemma certManager_run svc routes p :
  post (reconcileCertManagerIngress (W:=W) svc routes) (λ s p', tls_state_ok s ∧
    chain [certAnswered (resource p) (certManagerHosts routes) s; via ingressCalls] (world p) (world p')) p.
Proof.
  unfold reconcileCertManagerIngress, certAnswered. do 2 vcg_step. cbv zeta.
  destruct (certManagerHosts routes) as [|h hosts]; cbn [length].
  { rewrite decide_True by done. apply post_bind. eapply post_mono; [apply cert_status_via|]. cbv beta. intros _ p1 H1.
    apply post_bind. eapply post_mono; [apply ingress_via|]. cbv beta. intros _ p2 H2. apply post_ret.
    split; [apply no_tls_ok|]. exists (world p). split; [by rewrite decide_True|].
    eexists. split; [by eapply via_trans|done]. }
  rewrite decide_False by done.
  apply post_bind, post_lift. intros [name|[reason msg]] w Hi.
  - apply post_bind, post_lift. intros s w' Hs. apply post_bind.
    eapply post_mono; [apply cert_status_via|]. cbv beta. intros _ p1 H1. destruct (BuildTLSConfig _ _ _ _).
    apply post_bind. eapply post_mono; [apply ingress_via|]. cbv beta. intros _ p2 H2. apply post_ret.
    unfold getCertManagerTLSState in Hs. apply se_bind_inv in Hs as (res & w1 & Hg%attempt_inv & Hs).
    cbn [world] in Hg. apply se_bind_inv in Hs as (cert & w2 & Hc & Hs).
    apply se_bind_inv in Hs as (t & w3 & Ht & Hs). injection Hs as <- <-.
    assert (t = (time_now w2).1 ∧ w3 = (time_now w2).2) as [-> ->]
      by (unfold now in Ht; destruct (time_now w2); by injection Ht).
    split; [apply classify_ok|]. exists (time_now w2).2. split; [|eexists; split; [by eapply via_trans|done]].
    rewrite decide_False by done. exists (inl name), w. split; [exact Hi|]. exists res, w1. split; [exact Hg|].
    destruct res as [crt|e].
    + injection Hc as <- <-. split; [done|apply classify_verdict].
    + destruct (is_not_found e); [|discriminate Hc]. injection Hc as <- <-. split; [done|]. split; [done|apply classify_verdict].
  - apply post_bind. eapply post_mono; [apply cert_status_via|]. cbv beta. intros _ p1 H1.
    apply post_bind. eapply post_mono; [apply ingress_via|]. cbv beta. intros _ p2 H2. apply post_ret. split.
    + split_and!; [done..|]. intros _. cbn. unfold ResolveClusterIssuer in Hi. case_decide; [by injection Hi as <- _|].
      apply se_bind_inv in Hi as ([c|e] & w1 & _ & Hi); [done|]. destruct (is_not_found e); by injection Hi as <- _.
    + exists w. split; [|eexists; split; [by eapply via_trans|done]]. rewrite decide_False by done.
      exists (inr (reason, msg)), w. by split.
Qed.

(** * Referenced Secrets *)

Definition keyed (s : Secret) : Prop :=
  mget (sec_data s) TLSCertKey ≠ "" ∧ mget (sec_data s) TLSPrivateKeyKey ≠ "".
Lemma has_key_pair s : hasKeyPair s = true ↔ keyed s.
Proof.
  unfold hasKeyPair, keyed. rewrite andb_true_iff, !negb_true_iff, !bool_decide_eq_false.
  assert (∀ x : string, String.length x ≠ 0 ↔ x ≠ "") as H by (intros []; cbn; split; intros; (done || by intros [])).
  by rewrite !H.
Qed.

(** The copy of the Secret is made or brought up to date in the resource's namespace;
    a Secret of another type is in the way ([ok] is false) and is deleted if it
    carries the label of a copy. *)
Definition replicaMade (r : StackResource) (source : Secret) (ok : bool) (w w' : W) : Prop :=
  ∃ replica wrong op w1,
    create_or_update bool (mkSecret (object_meta (om_name (sec_meta source)) (sr_namespace r)) "" ∅)
      (λ replica, mret (mutateReplica source replica)) w = (Ok (replica, wrong, op), w1) ∧
    ok = negb wrong ∧
    match (if wrong then om_labels (sec_meta replica) !! tlsSecretSourceLabel else None) with
    | Some _ => ∃ ans, kdelete replica w1 = (ans, w') ∧ (ans = Ok tt ∨ ∃ e, ans = Err e ∧ is_not_found e = true)
    | None => w' = w1
    end.
(** The path waits, or has waited long enough; the clock is read for that. *)
Definition blockedAt (r : StackResource) (ref : string) (s : tlsState) (w w' : W) : Prop :=
  graceVerdict (referencedTLSSecretPendingSince r ref) (time_now w).1 s ∧ w' = (time_now w).2.

(** How the path of the referenced Secret is judged: no port names one; or its name is
    no name; or the Secret is read in the platform's namespace and, when it has a
    certificate and a key, copied. *)
Definition referencedAnswered (r : StackResource) (ref : string) (s : tlsState) (w w' : W) : Prop :=
  if decide (ref = "") then s = no_tls ∧ w' = w
  else if is_dns1123_subdomain ref then
    ∃ found w1, kget (O:=Secret) (orDefault platformTLSNamespace DefaultPlatformTLSNamespace) ref w = (found, w1) ∧
      match found with
      | Err e => is_not_found e = true ∧ blockedAt r ref s w1 w'
      | Ok source =>
          (keyed source → ∃ ok w2, replicaMade r source ok w1 w2 ∧
             if ok then Stage s = tlsStageReady ∧ w' = w2 else blockedAt r ref s w2 w') ∧
          (¬ keyed source → blockedAt r ref s w1 w')
      end
  else Stage s = tlsStageUnavailable ∧ w' = w.

Lemma replica_run r source w ok w' :
  ensureReferencedTLSSecretReplica (sr_namespace r) source w = (Ok ok, w') → replicaMade r source ok w w'.
Proof.
  unfold ensureReferencedTLSSecretReplica. intros ([[replica wrong] op] & w1 & Hc & H)%se_bind_inv.
  exists replica, wrong, op, w1. split; [exact Hc|]. destruct wrong.
  - apply se_bind_inv in H as ([] & w2 & Hd & [= <- <-]). split; [done|].
    unfold deleteManagedWrongTypeReplica in Hd. destruct (om_labels _ !! _); [|by injection Hd].
    unfold ignore_not_found in Hd. apply se_bind_inv in Hd as (ans & w3 & Ha%attempt_inv & Hd).
    destruct ans as [[]|e]; [injection Hd as <-; eexists; split; [exact Ha|by left]|].
    destruct (is_not_found e) eqn:E; [|discriminate Hd]. injection Hd as <-. eexists. split; [exact Ha|]. right. by exists e.
  - injection H as <- <-. by split.
Qed.

Lemma blocked_verdict r ref msg w :
  blockedAt r ref (referencedTLSStatusWhileBlocked r ref msg (time_now w).1) w (time_now w).2.
Proof.
  unfold blockedAt, graceVerdict, referencedTLSStatusWhileBlocked. split; [|done].
  destruct (Z.eqb_spec (remainingTLSGracePeriod (referencedTLSSecretPendingSince r ref) (time_now w).1) 0); by case_decide.
Qed.

Lemma blocked_post r ref msg (p : Pass W) :
  post (t ← lift now; mret (referencedTLSStatusWhileBlocked r ref msg t))
    (λ s p', tls_state_ok s ∧ blockedAt r ref s (world p) (world p')) p.
Proof.
  apply post_bind, post_lift. intros t w Ht. apply post_ret. split; [apply blocked_ok|]. cbn [world].
  assert (t = (time_now (world p)).1 ∧ w = (time_now (world p)).2) as [-> ->]
    by (unfold now in Ht; destruct (time_now (world p)); by injection Ht).
  apply blocked_verdict.
Qed.

Lemma ref_status_via ref stage p :
  post (updateReferencedTLSSecretStatus ref stage) (λ _ p', via ingressCalls (world p) (world p')) p.
Proof.
  apply post_via. intros I HI%clock_inv. unfold updateReferencedTLSSecretStatus. inv_lifted; by apply inv_local.
Qed.

Lemma referenced_run ref p :
  post (reconcileReferencedTLSSecret (W:=W) platformTLSNamespace ref) (λ s p', tls_state_ok s ∧
    chain [referencedAnswered (resource p) ref s; via ingressCalls] (world p) (world p')) p.
Proof.
  unfold reconcileReferencedTLSSecret. do 2 vcg_step.
  assert (∀ s w w', referencedAnswered (resource p) ref s (world p) w → via ingressCalls w w' →
    chain [referencedAnswered (resource p) ref s; via ingressCalls] (world p) w') as Hend
    by (intros s w w' Ha Hv; exists w; split; [exact Ha|by exists w']).
  unfold referencedAnswered in *. case_decide as Hr.
  { vcg. split; [apply no_tls_ok|]. apply (Hend _ (world p)); [done|apply via_refl]. }
  destruct (is_dns1123_subdomain ref) eqn:Hdns; cbn [negb].
  2: { apply post_ret. split; [by split_and!|]. apply (Hend _ (world p)); [done|apply via_refl]. }
  apply post_bind, post_lift. intros [ready msg] w Hm. cbv zeta. apply post_bind.
  eapply (post_mono _ (λ s p1, tls_state_ok s ∧ ∃ found w1,
    kget (O:=Secret) (orDefault platformTLSNamespace DefaultPlatformTLSNamespace) ref (world p) = (found, w1) ∧
      match found with
      | Err e => is_not_found e = true ∧ blockedAt (resource p) ref s w1 (world p1)
      | Ok source =>
          (keyed source → ∃ ok w2, replicaMade (resource p) source ok w1 w2 ∧
             if ok then Stage s = tlsStageReady ∧ world p1 = w2 else blockedAt (resource p) ref s w2 (world p1)) ∧
          (¬ keyed source → blockedAt (resource p) ref s w1 (world p1))
      end)).
  2: { intros s p1 [Hok Hs]. apply post_bind. eapply post_mono; [apply ref_status_via|]. cbv beta. intros _ p2 H2.
       apply post_ret. split; [exact Hok|]. by apply (Hend _ (world p1)). }
  unfold mirrorTLSSecret in Hm. apply se_bind_inv in Hm as (found & w1 & Hg%attempt_inv & Hm).
  destruct found as [source|e].
  - destruct (hasKeyPair source) eqn:Hk; cbn [negb] in Hm.
    + apply has_key_pair in Hk. apply se_bind_inv in Hm as (ok & w2 & Hrep%replica_run & Hm).
      destruct ok; injection Hm as <- <- <-; cbn [negb].
      * apply post_ret. split; [by split_and!|]. exists (Ok source), w1. split; [exact Hg|].
        split; [intros _; by exists true, w2|done].
      * eapply post_mono; [apply blocked_post|]. intros s p1 [Hok Hb]. split; [exact Hok|].
        exists (Ok source), w1. split; [exact Hg|]. split; [intros _; by exists false, w2|done].
    + assert (¬ keyed source) as Hnk by (intros H%has_key_pair; congruence).
      injection Hm as <- <- <-. cbn [negb]. eapply post_mono; [apply blocked_post|]. intros s p1 [Hok Hb].
      split; [exact Hok|]. exists (Ok source), w1. by split_and!.
  - destruct (is_not_found e) eqn:He; [|discriminate Hm]. injection Hm as <- <- <-. cbn [negb].
    eapply post_mono; [apply blocked_post|]. intros s p1 [Hok Hb]. split; [exact Hok|]. exists (Err e), w1. by split_and!.
Qed.

(** * The step *)

#[local] Hint Extern 1 (_ ∈ _) => set_solver : preserves.

Lemma referenced_same r r' ref s w w' :
  sr_meta r' = sr_meta r → referenced_tls_secret (sr_status r') = referenced_tls_secret (sr_status r) →
  referencedAnswered r' ref s w w' → referencedAnswered r ref s w w'.
Proof.
  intros Hm Hs. assert (sr_namespace r' = sr_namespace r) as Hns by (unfold sr_namespace; by rewrite Hm).
  assert (referencedTLSSecretPendingSince r' ref = referencedTLSSecretPendingSince r ref) as Hp
    by (unfold referencedTLSSecretPendingSince; by rewrite Hs).
  unfold referencedAnswered, replicaMade, blockedAt. by rewrite Hns, Hp.
Qed.

Lemma ingress_run svc p :
  post (reconcileIngress (W:=W) platformTLSNamespace svc) (λ st p', ∃ routes,
    collectExposedPortRoutes (resource p) = Ok routes ∧ publicFQDNs st = allFQDNs routes ∧
    tls_state_ok (certManagerTLS st) ∧ tls_state_ok (referencedTLS st) ∧
    chain [certAnswered (resource p) (certManagerHosts routes) (certManagerTLS st); via ingressCalls;
           referencedAnswered (resource p) (referencedTLSSecretRef routes) (referencedTLS st);
           via ingressCalls] (world p) (world p')) p.
Proof.
  unfold reconcileIngress. do 2 vcg_step. apply post_bind, post_of_result. intros routes Hroutes.
  apply post_bind. eapply post_mono; [apply post_and; [apply certManager_run|apply certManager_untouched]|].
  intros cert p1 [[Hc Hchain] [Hk Hsame]]. apply post_bind. unfold reconcileReferencedTLSIngress. apply post_bind.
  eapply post_mono; [apply referenced_run|]. intros refs p2 [Hr (wa & Ha & wb & Hb & E2)]. cbv beta.
  do 2 vcg_step. cbv zeta. apply post_bind. eapply post_mono; [apply ingress_via|]. cbv beta. intros _ p3 H3.
  apply post_ret, post_bind. eapply post_mono.
  { apply (post_via ingressCalls). intros I HI. case_decide; [by apply inv_lift, redirect_inv|apply inv_ret]. }
  cbv beta. intros _ p4 H4. apply post_bind. eapply post_mono.
  { apply (post_via ingressCalls). intros I HI%clock_inv. unfold setTLSConfigured.
    destruct (tlsCondition cert refs) as [[status s]|]; [|apply inv_ret].
    apply inv_bind; [by apply inv_lift|]. intros t _. by apply inv_local. }
  cbv beta. intros _ p5 H5. apply post_ret. exists routes. split_and!; [done..|].
  destruct Hchain as (wc & Hcert & wd & Hd & E1). exists wc. split; [exact Hcert|]. exists wd. split; [exact Hd|].
  exists wa. split; [|exists (world p5); split; [|done]].
  - rewrite <- E1. eapply referenced_same; [apply Hk|exact Hsame|exact Ha].
  - cbn in *. subst wb. by eapply via_trans; [exact Hb|eapply via_trans; [exact H3|eapply via_trans]].
Qed.

(** The calls that bring the Service into its state. *)
Definition serviceCalls (I : W → Prop) : Prop :=
  (∀ ns n, Inv I (kget (O:=Service) ns n)) ∧ (∀ o, Inv I (kcreate (O:=Service) o)) ∧
  ∀ o, Inv I (kupdate (O:=Service) o).
Lemma service_inv I r : serviceCalls I → Inv I (ensureService r).
Proof. intros (H1 & H2 & H3). unfold ensureService. inv_lifted. Qed.

Lemma publish_via st p : post (publish (W:=W) st) (λ _ p', via ingressCalls (world p) (world p')) p.
Proof.
  apply post_via. intros I HI%clock_inv. unfold publish, reportWaiting, reportNotReady, setCondition. cbv zeta.
  inv_lifted; by apply inv_local.
Qed.

Lemma GetPort_distinct (r : StackResource) n q :
  NoDup (port_number <$> ports (sr_spec r)) →
  GetPort r n = Some q ↔ q ∈ ports (sr_spec r) ∧ port_number q = n.
Proof.
  intros HN. unfold GetPort. split.
  - intros Hf. apply find_some in Hf as [Hq E%Z.eqb_eq]. by rewrite list_elem_of_In.
  - intros [Hq <-]. destruct (List.find _ _) as [q'|] eqn:E.
    + apply find_some in E as [Hq' E%Z.eqb_eq]. apply list_elem_of_In in Hq'.
      by rewrite (NoDup_name_inj port_number _ _ _ HN Hq' Hq E).
    + apply list_elem_of_In in Hq. apply (find_none _ _ E) in Hq. by rewrite Z.eqb_refl in Hq.
Qed.

(** The addresses of distinct ports: each public port is published under its own
    name with the scheme its path allows, and nothing else is. *)
Lemma addresses_of_ports r r' routes cert refs :
  sr_spec r' = sr_spec r → is_dns1123_subdomain "" = false → NoDup (port_number <$> ports (sr_spec r)) →
  collectExposedPortRoutes r = Ok routes →
  ∀ a, a ∈ buildExternalAddresses r' (allFQDNs routes) cert refs ↔
    ∃ q s, exposed (ports (sr_spec r)) q ∧ port_number q = ea_target_port a ∧
      scheme cert refs q = Some s ∧ ea_address a = s +:+ port_fqdn q.
Proof.
  intros Hsp Hdns HN Hroutes a.
  destruct (external_addresses_spec r' (allFQDNs routes) cert refs) as [_ H]. rewrite (H a). clear H.
  pose proof (routes_partition r Hdns HN) as Hp. rewrite Hroutes in Hp. destruct Hp as ((Ha & _) & _).
  unfold holds_ports in Ha. setoid_rewrite Ha. setoid_rewrite GetPort_distinct; [|by rewrite Hsp].
  rewrite Hsp. split.
  - intros (q & f & s & (q' & [Hq' He'] & _ & Hn' & <-) & [Hq Hn] & He & Hs & Had).
    rewrite (NoDup_name_inj port_number _ q' q HN Hq' Hq) in Had by congruence. exists q, s. by split_and!.
  - intros (q & s & [Hq He] & Hn & Hs & Had). exists q, (port_fqdn q), s. split_and!; [|done..]. by exists q.
Qed.

End step_properties.

(** * Witness *)

Import Cluster.
#[local] Existing Instance nonempty_name.
#[local] Existing Instance ascending.
#[local] Existing Instance ascending_laws.
#[local] Existing Instance same_spec.

