(* ===== verification/StackStorage.v ===== *)
(** Stack storage: the resource (api/storage/v1alpha1/storage_types.go) and its
    controller (internal/controller/stackstorage), which makes the volumes of a
    stack and an SSH server that serves them. *)
From S2P Require Import Prelude Text Kube Api Builds Storage KubeWorkloads PodSpecs Workloads Users Svc Objects.

(** * The resource *)

Inductive StoragePhase := StoragePhaseUnset | StorageReady | StoragePending.
Definition StorageAvailable : string := "Available".

(** The map holds pointers: a key may have no spec. *)
Record StorageSpec := mkStorageSpec {
  sts_provisioned_for : string;
  sts_user_public_ssh_key : string;
  sts_volume_specs : gmap string (option VolumeSpec);
}.
(** [LastSyncedAt] is never set. *)
Record VolumeInfo := mkVolumeInfo { vi_volume_name : string; vi_subpath : string; vi_available : bool }.
Record StorageStatus := mkStorageStatus {
  sgs_observed_server_generation : Z;
  sgs_conditions : list Condition;
  sgs_phase : StoragePhase;
  sgs_volume_status : list VolumeInfo;
  sgs_status_hash : string;
  sgs_service_name : string;
}.
#[export] Instance eta_storage_status : Eta StorageStatus := λ s,
  mkStorageStatus (sgs_observed_server_generation s) (sgs_conditions s) (sgs_phase s)
    (sgs_volume_status s) (sgs_status_hash s) (sgs_service_name s).
Record Storage := mkStorage { sg_meta : ObjectMeta; sg_spec : StorageSpec; sg_status : StorageStatus }.
#[export] Instance eta_storage : Eta Storage := λ s, mkStorage (sg_meta s) (sg_spec s) (sg_status s).
Definition sg_name (s : Storage) : string := om_name (sg_meta s).
Definition sg_namespace (s : Storage) : string := om_namespace (sg_meta s).

(** [fnv] over [spew] of a status whose hash is cleared. *)
Class StorageStatusDigest := digest_storage_status : StorageStatus → string.

Definition ContainsVolume (s : Storage) (name : string) : bool :=
  bool_decide (is_Some (sts_volume_specs (sg_spec s) !! name)).
Definition MountPathForVolume (s : Storage) (name : string) : string := "/" +:+ sg_name s +:+ "/" +:+ name.
Definition VolumeInfoFor (s : Storage) (name : string) : option VolumeInfo :=
  List.find (λ i, bool_decide (vi_volume_name i = name)) (sgs_volume_status (sg_status s)).
Definition VolumeSpecFor (s : Storage) (name : string) : option VolumeSpec :=
  default None (sts_volume_specs (sg_spec s) !! name).
(** A key without a spec is a nil dereference. *)
Definition HasSyncRequiredStorageResources `{StringMapOrder} (s : Storage) : result bool :=
  foldr (λ e rest, match e.2 with
                   | None => Err (Panic "nil pointer dereference")
                   | Some sp => if vsp_needs_sync_before_use sp then Ok true else rest
                   end) (Ok false) (string_map_order (sts_volume_specs (sg_spec s))).

Definition storageLabels (s : Storage) : gmap string string :=
  {[ "storage.stackdome.io/ProvisionedFor" := sts_provisioned_for (sg_spec s);
     "storage.stackdome.io/ssh-server-for" := sg_name s ]}.
Definition StorageServerSSHSecretName (s : Storage) : string := sg_name s +:+ "-public-ssh-secret".
Definition storageServerServiceName (s : Storage) : string := sg_name s +:+ "-storage-svc".
Definition SSH_SECRET_KEY : string := "authorized_keys".
Definition StackdomeSSHServerImage : string := "quay.io/stackdome/ssh-server:v.0.0.1".

(** A read past the cache, and the index of objects by the name of their controller. *)
Class UncachedGet (W O : Type) := uget : string → string → SE W O.
Class ListByController (W O : Type) := list_by_controller : string → string → SE W (list O).
(** The index: an object without a controller is a nil dereference. *)
Definition controllerIndex `{OwnerApi} (m : ObjectMeta) : result (list string) :=
  match get_controller_of m with
  | Some r => Ok [ref_name r]
  | None => Err (Panic "nil pointer dereference")
  end.

(** * The controller *)

Section controller.
Context {SD : StorageStatusDigest} {SO : StringMapOrder} {DD : DeepDerivative} {CA : ConditionsApi} {OA : OwnerApi}.
Context {W : Type} {CK : Clock W} {KS : Kind W Storage} {KV : Kind W Volume} {LV : ListByController W Volume}.
Context {KSec : Kind W Secret} {US : UncachedGet W Secret} {CD : CreateOrUpdate W Deployment} {KSv : Kind W Service}.

Definition observeServerGeneration (s : Storage) : Storage :=
  match om_labels (sg_meta s) !! StackdomeObjectGeneration with
  | Some v => s <| sg_status ::= λ st, st <| sgs_observed_server_generation := parse_int64 v |> |>
  | None => s
  end.
Definition setCondition (t : Time) (st : ConditionStatus) (reason msg : string) (s : Storage) : Storage :=
  s <| sg_status ::= λ x, x <| sgs_conditions ::= λ cs, set_status_condition t cs
    (new_condition StorageAvailable st (om_generation (sg_meta s)) reason msg) |> |>.
Definition hashed (s : Storage) : Storage :=
  s <| sg_status ::= λ x, x <| sgs_status_hash := digest_storage_status (x <| sgs_status_hash := "" |>) |> |>.

Definition unavailableStorage (t : Time) (reason msg : string) (s : Storage) : Storage :=
  hashed (setCondition t ConditionFalse reason msg
    ((observeServerGeneration s) <| sg_status ::= λ x, x <| sgs_phase := StoragePending |> |>)).
Definition reportStorageUnAvailable (reason msg : string) : OM W Storage unit :=
  t ← call now; assign (unavailableStorage t reason msg).
Definition availableStorage (t : Time) (svc : Service) (s : Storage) : Storage :=
  hashed (setCondition t ConditionTrue "AllComponentsUp" "All components are up and running."
    ((observeServerGeneration s)
       <| sg_status ::= λ x, x <| sgs_phase := StorageReady |> <| sgs_service_name := svc_name svc |> |>)).
Definition reportStorageAvailable (svc : Service) : OM W Storage unit :=
  t ← call now; assign (availableStorage t svc).

(** ** Volumes *)

Definition volumeAvailable (v : Volume) : bool :=
  match find_status_condition (vst_conditions (vol_status v)) (volume_condition_name VolumeConditionAvailable) with
  | Some c => bool_decide (c_status c = ConditionTrue) &&
              (c_observed_generation c =? om_generation (vol_meta v))%Z
  | None => false
  end.
Definition storageVolume (s : Storage) (name : string) (sp : VolumeSpec) : Volume :=
  mkVolume
    ((object_meta name (sg_namespace s)) <| om_labels := <[ StorageLabel := sg_name s ]> (vsp_labels sp) |>
       <| om_annotations := vsp_annotations sp |>)
    (mkVolumeSpec ∅ ∅ (vsp_size sp) (vsp_storage_class sp) (vsp_source sp) (vsp_needs_sync_before_use sp)
       (vsp_access_mode sp))
    (mkVolumeStatus 0 [] "" VolumePhaseUnset ∅ "" "" "" "").
(** The volume found, when there was one. *)
Definition reconcileVolume (name : string) (spec : option VolumeSpec)
    : OM W Storage (subReconcilerResult * option Volume) :=
  match spec with
  | None => fail (Panic "nil pointer dereference")
  | Some sp =>
      s ← look id;
      let desired := storageVolume s name sp in
      m ← of_result (set_controller_reference (sg_meta s) (vol_meta desired));
      let desired := desired <| vol_meta := m |> in
      got ← call (attempt (kget (O:=Volume) (om_namespace m) (om_name m)));
      match got with
      | Err e => if is_not_found e then _ ← call (kcreate desired); mret (resultRequeue, None) else fail e
      | Ok existing =>
          _ ← (if decide (vol_spec existing = vol_spec desired) then mret tt
               else
                 _ ← call (kupdate (desired <| vol_meta ::= λ m, m
                             <| om_resource_version := om_resource_version (vol_meta existing) |> |>));
                 mret tt);
          if volumeAvailable existing then mret (resultNil, Some existing)
          else
            _ ← reportStorageUnAvailable "VolumeNotReady" ("Volume '" +:+ name +:+ "' not ready");
            mret (resultStop, Some existing)
      end
  end.
Fixpoint reconcileVolumes (l : list (string * option VolumeSpec)) (found : gmap string Volume)
    : OM W Storage (subReconcilerResult * gmap string Volume) :=
  match l with
  | [] => mret (resultNil, found)
  | (name, spec) :: l =>
      '(res, existing) ← reconcileVolume name spec;
      if decide (res = resultNil) then
        match existing with
        | Some v => reconcileVolumes l (<[ vol_name v := v ]> found)
        | None => fail (Panic "nil pointer dereference")
        end
      else mret (res, found)
  end.
Fixpoint deleteUndefined (defined : string → bool) (l : list Volume) : SE W unit :=
  match l with
  | [] => mret tt
  | v :: l =>
      _ ← (if defined (vol_name v) then mret tt else kdelete v);
      deleteUndefined defined l
  end.
Definition removeExtraVolumes (s : Storage) : SE W unit :=
  l ← klist (O:=Volume) (sg_namespace s) [{[ StorageLabel := sg_name s ]}];
  deleteUndefined (ContainsVolume s) l.
Definition setVolumeStatus (found : gmap string Volume) (s : Storage) : Storage :=
  s <| sg_status ::= λ x, x <| sgs_volume_status :=
    (λ e, mkVolumeInfo e.1 (MountPathForVolume s e.1) (volumeAvailable e.2)) <$> string_map_order found |> |>.

Definition reconcileStorageVolumes : OM W Storage subReconcilerResult :=
  s ← look id;
  '(res, found) ← reconcileVolumes (string_map_order (sts_volume_specs (sg_spec s))) ∅;
  if decide (res = resultNil) then
    _ ← call (removeExtraVolumes s);
    _ ← assign (setVolumeStatus found);
    mret resultNil
  else mret res.
(** ** The key of the user *)

Definition sshSecret (s : Storage) : Secret :=
  mkSecret ((object_meta (StorageServerSSHSecretName s) (sg_namespace s)) <| om_labels := storageLabels s |>) ""
    {[ SSH_SECRET_KEY := sts_user_public_ssh_key (sg_spec s) ]}.
Definition holdsKey (s : Storage) (existing : Secret) : bool :=
  bool_decide (sec_data existing !! SSH_SECRET_KEY = Some (sts_user_public_ssh_key (sg_spec s))).
Definition reconcileSSHSecret : OM W Storage subReconcilerResult :=
  s ← look id;
  m ← of_result (set_controller_reference (sg_meta s) (sec_meta (sshSecret s)));
  let desired := (sshSecret s) <| sec_meta := m |> in
  got ← call (attempt (uget (om_namespace m) (om_name m)));
  match got with
  | Err e => if is_not_found e then _ ← call (kcreate desired); mret (resultRequeueAfter second) else fail e
  | Ok existing =>
      if holdsKey s existing then mret resultNil
      else
        _ ← call (kupdate (existing <| sec_data := sec_data desired |>));
        mret (resultRequeueAfter second)
  end.

(** ** The server *)

Definition getVolumesDefined (s : Storage) : SE W (list Volume) :=
  l ← list_by_controller (O:=Volume) (sg_namespace s) (sg_name s);
  mret (List.filter (λ v, ContainsVolume s (vol_name v)) l).
Definition podVolumes (s : Storage) (l : list Volume) : list KVolume :=
  ((λ v, mkKVolume (vol_name v) (ClaimVolume (vst_pvc_name (vol_status v)))) <$> l) ++
  [mkKVolume "user-ssh-public-key" (SecretVolume (mkSecretVolumeSource (StorageServerSSHSecretName s) []))].
Definition podMounts (s : Storage) (l : list Volume) : list KVolumeMount :=
  ((λ v, mkKVolumeMount (vol_name v) (MountPathForVolume s (vol_name v)) "" false) <$> l) ++
  [mkKVolumeMount "user-ssh-public-key" "/home/stackdomeuser/.ssh/authorized_keys" "authorized_keys" false].
(** What else the container already has is kept. *)
Definition serverContainer (s : Storage) (l : list Volume) (c : Container) : Container :=
  c <| ct_name := sg_name s +:+ "-storage-server" |>
    <| ct_image := StackdomeSSHServerImage |>
    <| ct_image_pull_policy := "IfNotPresent" |>
    <| ct_ports := [mkContainerPort "" 2222] |>
    <| ct_volume_mounts := podMounts s l |>
    <| ct_resources := (∅, {[ "memory" := "1000Mi" ]}) |>.
Definition serverContainers (s : Storage) (l : list Volume) (cs : list Container) : list Container :=
  match cs with
  | [] => [serverContainer s l (new_container "" "")]
  | c :: cs => serverContainer s l c :: cs
  end.
Definition mutateServer (s : Storage) (l : list Volume) (d : Deployment) : SE W (Deployment * unit) :=
  let d := d
    <| dep_meta ::= λ m, m <| om_labels := storageLabels s |> |>
    <| dep_spec ::= λ sp, sp <| dsp_replicas := Some 1%Z |> <| dsp_selector := storageLabels s |>
         <| dsp_template ::= λ t, t <| pt_labels := storageLabels s |>
              <| pt_spec ::= λ ps, ps <| ps_volumes := podVolumes s l |>
                   <| ps_containers ::= serverContainers s l |> |> |> |> in
  m ← of_result (set_controller_reference (sg_meta s) (dep_meta d));
  mret (d <| dep_meta := m |>, tt).
(** [CreateOrUpdate] answers [OperationResultNone] with every error, so the report of
    the error branch is never made. *)
Definition ensureStorageServerDeployment : OM W Storage subReconcilerResult :=
  s ← look id;
  volumes ← call (getVolumesDefined s);
  res ← call (create_or_update unit (new_deployment (sg_name s) (sg_namespace s)) (mutateServer s volumes));
  match res.2 with
  | OpCreated =>
      _ ← reportStorageUnAvailable "StorageServerNotReady" "Storage Server is being created";
      mret resultRequeue
  | _ =>
      if DeploymentAvailable res.1.1 then mret resultNil
      else
        _ ← reportStorageUnAvailable "StorageServerNotReady" "Storage Server unavailable";
        mret resultStop
  end.

(** ** The service *)

Definition storageService (s : Storage) : Service :=
  mkService ((object_meta (storageServerServiceName s) (sg_namespace s)) <| om_labels := storageLabels s |>)
    (mkServiceSpec (storageLabels s) [mkServicePort "ssh" 2222 (FromInt32 2222) 0] "" "").
(** A service that differs is updated, and nothing is reported. *)
Definition reconcileStorageService : OM W Storage subReconcilerResult :=
  s ← look id;
  m ← of_result (set_controller_reference (sg_meta s) (svc_meta (storageService s)));
  let desired := (storageService s) <| svc_meta := m |> in
  createOr m desired (λ existing,
    if negb (AreServicesEqual desired existing) then
      _ ← call (kupdate (existing <| svc_spec := svc_spec desired |>)); mret resultNil
    else
      _ ← reportStorageAvailable existing; mret resultNil).

(** ** The pass *)

Definition subReconcilers : list (OM W Storage subReconcilerResult) :=
  [reconcileStorageVolumes; reconcileSSHSecret; ensureStorageServerDeployment; reconcileStorageService].
Definition Reconcile (ns name : string) : SE W CtrlResult :=
  got ← attempt (kget (O:=Storage) ns name);
  match got with
  | Err e => if is_not_found e then mret no_requeue else fail e
  | Ok s =>
      '(res, s') ← with_object s (runSteps subReconcilers);
      _ ← kupdate_status s';
      mret res
  end.
End controller.
