(* ===== verification/StackStorageOutcome.v ===== *)
(** What the stack-storage controller guarantees. *)
From S2P Require Import Prelude Text Kube Apimachinery Api Builds Storage KubeWorkloads PodSpecs Workloads Users Svc Objects.
From S2P Require Import StackStorage Samples.

Section outcome.
Context {SD : StorageStatusDigest} {SO : StringMapOrder} {SL : StringMapOrderLaws} {DD : DeepDerivative}.
Context {CA : ConditionsApi} {CL : ConditionsLaws} {OA : OwnerApi} {OL : OwnerLaws}.
Context {W : Type} {CK : Clock W} {KV : Kind W Volume} {LV : ListByController W Volume}.
Context {KSec : Kind W Secret} {US : UncachedGet W Secret} {CD : CreateOrUpdate W Deployment} {KSv : Kind W Service}.

(** * What a pass reports *)

Definition availableView (s : Storage) := view (sgs_conditions (sg_status s)) StorageAvailable.
Definition sameStorage (s s' : Storage) : Prop := sg_meta s' = sg_meta s ∧ sg_spec s' = sg_spec s.
(** Nothing is said, and the hash is still that of the last report. *)
Definition unreported (s s' : Storage) : Prop :=
  sameStorage s s' ∧ availableView s' = availableView s ∧ sgs_phase (sg_status s') = sgs_phase (sg_status s) ∧
  sgs_status_hash (sg_status s') = sgs_status_hash (sg_status s).
Definition reported (st : ConditionStatus) (phase : StoragePhase) (s s' : Storage) : Prop :=
  sameStorage s s' ∧
  (∃ reason msg, availableView s' = Some (st, om_generation (sg_meta s), reason, msg)) ∧
  sgs_phase (sg_status s') = phase ∧
  sgs_status_hash (sg_status s') = digest_storage_status ((sg_status s') <| sgs_status_hash := "" |>).

Lemma storage_unreported_refl s : unreported s s.
Proof. by repeat split. Qed.
Lemma storage_unreported_trans s1 s2 s3 : unreported s1 s2 → unreported s2 s3 → unreported s1 s3.
Proof. unfold unreported, sameStorage. intros. destruct_and!. split_and!; congruence. Qed.
Lemma storage_reported_after s1 s2 s3 st phase : unreported s1 s2 → reported st phase s2 s3 → reported st phase s1 s3.
Proof. intros ([Hm Hs] & _) ([Hm' Hs'] & Hv & Hp & Hh). rewrite Hm in *. by split_and!; [split; congruence|..]. Qed.

Lemma meta_observe s : sameStorage s (observeServerGeneration s).
Proof. unfold observeServerGeneration. by destruct (_ !! _). Qed.
Lemma status_observe s :
  ∃ g, sg_status (observeServerGeneration s) = (sg_status s) <| sgs_observed_server_generation := g |>.
Proof.
  unfold observeServerGeneration. destruct (_ !! _); [by eexists|].
  exists (sgs_observed_server_generation (sg_status s)). by destruct s as [? ? []].
Qed.

Lemma post_reportStorageUnAvailable reason msg (Q : unit → On W Storage → Prop) p :
  (∀ p', reported ConditionFalse StoragePending (object p) (object p') → Q tt p') →
  post (reportStorageUnAvailable reason msg) Q p.
Proof.
  intros HQ. apply post_bind, post_call. intros t w _. apply post_assign, HQ.
  destruct (meta_observe (object p)) as [Hm Hs]. split_and!; [by split| |done|done].
  exists reason, msg. unfold availableView, unavailableStorage, hashed, setCondition. cbn.
  by rewrite view_set_new, decide_True, Hm.
Qed.

(** * What a whole pass has seen *)

Definition volumeSeen (s : Storage) (name : string) (v : Volume) : Prop :=
  ∃ w w', kget (O:=Volume) (sg_namespace s) name w = (Ok v, w') ∧ volumeAvailable v = true.
(** Every volume of the spec was found available, and the status lists them. *)
Definition volumesSeen (s s' : Storage) : Prop :=
  ∃ found : gmap string Volume,
    sgs_volume_status (sg_status s') =
      (λ e, mkVolumeInfo e.1 (MountPathForVolume s e.1) true) <$> string_map_order found ∧
    (∀ name, is_Some (sts_volume_specs (sg_spec s) !! name) →
       ∃ v, volumeSeen s name v ∧ is_Some (found !! vol_name v)) ∧
    (∀ key v, found !! key = Some v →
       ∃ name, is_Some (sts_volume_specs (sg_spec s) !! name) ∧ volumeSeen s name v ∧ vol_name v = key).
Definition secretSeen (s : Storage) : Prop :=
  ∃ w w' secret, uget (sg_namespace s) (StorageServerSSHSecretName s) w = (Ok secret, w') ∧ holdsKey s secret = true.
Definition serverSeen (s : Storage) : Prop :=
  ∃ w1 w2 w3 s1 volumes d op, sameStorage s s1 ∧ getVolumesDefined s1 w1 = (Ok volumes, w2) ∧
    create_or_update unit (new_deployment (sg_name s) (sg_namespace s)) (mutateServer s1 volumes) w2
      = (Ok (d, tt, op), w3) ∧
    op ≠ OpCreated ∧ DeploymentAvailable d = true.
Definition serviceSeen (s : Storage) (same : bool) (svc : Service) : Prop :=
  ∃ w w', kget (O:=Service) (sg_namespace s) (storageServerServiceName s) w = (Ok svc, w') ∧
    AreServicesEqual (storageService s) svc = same.

Lemma storage_seen_same s s1 : sameStorage s s1 →
  (secretSeen s1 → secretSeen s) ∧ (serverSeen s1 → serverSeen s) ∧
  (∀ b svc, serviceSeen s1 b svc → serviceSeen s b svc).
Proof.
  intros [Hm Hs]. unfold secretSeen, serverSeen, serviceSeen, sameStorage, StorageServerSSHSecretName, holdsKey,
    storageServerServiceName, storageService, storageServerServiceName, storageLabels, sg_namespace, sg_name.
  by rewrite Hm, Hs.
Qed.

(** ** The steps *)

Lemma storage_volume_step name spec (Q : subReconcilerResult * option Volume → On W Storage → Prop) p :
  (∀ v w, volumeSeen (object p) name v → Q (resultNil, Some v) (mkOn w (object p))) →
  (∀ w, Q (resultRequeue, None) (mkOn w (object p))) →
  (∀ v p', reported ConditionFalse StoragePending (object p) (object p') → Q (resultStop, Some v) p') →
  post (reconcileVolume name spec) Q p.
Proof.
  intros HN HR HS. unfold reconcileVolume. destruct spec as [sp|]; [|apply post_fail].
  apply post_bind, post_look, post_bind, post_of_result. intros m Hm. cbn [id] in *.
  destruct (set_controller_keeps _ _ _ Hm) as [refs ->].
  apply post_bind, post_call. intros got w Hg%attempt_inv. cbn [om_namespace om_name storageVolume vol_meta] in *.
  destruct got as [v|e].
  2:{ destruct (is_not_found e); [|apply post_fail]. apply post_bind, post_call. intros c w' _. apply post_ret, HR. }
  apply post_bind. eapply (post_mono _ (λ _ p', object p' = object p)); [by repeat on_step|].
  intros [] [w1 s1] Hs1. cbn in Hs1. subst s1. destruct (volumeAvailable v) eqn:E.
  - apply post_ret, HN. by exists (outside p), w.
  - apply post_bind, post_reportStorageUnAvailable. intros p' Hr. by apply post_ret, HS.
Qed.

Definition foundFor (s : Storage) (names : list string) (found : gmap string Volume) : Prop :=
  (∀ name, name ∈ names → ∃ v, volumeSeen s name v ∧ is_Some (found !! vol_name v)) ∧
  (∀ key v, found !! key = Some v → ∃ name, name ∈ names ∧ volumeSeen s name v ∧ vol_name v = key).

Lemma found_insert s names found name v :
  foundFor s names found → volumeSeen s name v → foundFor s (names ++ [name]) (<[vol_name v := v]> found).
Proof.
  intros [Hall Hkey] Hv. split.
  - intros n [Hin| ->%list_elem_of_singleton]%elem_of_app; [|exists v; split; [done|rewrite lookup_insert_eq; eauto]].
    destruct (Hall n Hin) as (v' & Hs & Hf). exists v'. split; [done|].
    destruct (decide (vol_name v' = vol_name v)) as [->|]; [rewrite lookup_insert_eq; eauto|by rewrite lookup_insert_ne].
  - intros key v'. destruct (decide (key = vol_name v)) as [->|Hne].
    + rewrite lookup_insert_eq. intros [= <-]. exists name. split; [set_solver|done].
    + rewrite lookup_insert_ne by done. intros (n & Hin & H)%Hkey. exists n. split; [set_solver|done].
Qed.

Lemma volumes_found l names found (Q : subReconcilerResult * gmap string Volume → On W Storage → Prop) p :
  foundFor (object p) names found →
  (∀ found w, foundFor (object p) (names ++ l.*1) found → Q (resultNil, found) (mkOn w (object p))) →
  (∀ found w, Q (resultRequeue, found) (mkOn w (object p))) →
  (∀ found p', reported ConditionFalse StoragePending (object p) (object p') → Q (resultStop, found) p') →
  post (reconcileVolumes l found) Q p.
Proof.
  intros HF HN HR HS. revert names found p HF HN HR HS.
  induction l as [|[name spec] l IH]; intros names found p HF HN HR HS; cbn [reconcileVolumes].
  - apply post_ret. destruct p as [w s]. apply HN. cbn [fmap list_fmap]. by rewrite app_nil_r.
  - apply post_bind, storage_volume_step.
    + intros v w Hv. rewrite decide_True by done. apply (IH (names ++ [name])); [by apply found_insert| |done..].
      intros found' w' HF'. apply HN. cbn [fmap list_fmap fst object] in *. by rewrite <- app_assoc in HF'.
    + intros w. apply post_ret, HR.
    + intros v p' Hr. by apply post_ret, HS.
Qed.

Definition halted (s : Storage) (res : subReconcilerResult) (p' : On W Storage) : Prop :=
  ((res = resultRequeue ∨ res = resultRequeueAfter second) ∧ unreported s (object p')) ∨
  ((res = resultStop ∨ res = resultRequeue) ∧ reported ConditionFalse StoragePending s (object p')).

Lemma volumes_step p :
  post reconcileStorageVolumes (λ res p',
    (res = resultNil ∧ unreported (object p) (object p') ∧ volumesSeen (object p) (object p')) ∨
    halted (object p) res p') p.
Proof.
  unfold reconcileStorageVolumes. apply post_bind, post_look, post_bind. cbn [id].
  apply (volumes_found _ [] ∅); [split; [set_solver|by intros ? ? ?%lookup_empty_Some]|..].
  - intros found w [Hall Hkey]. rewrite decide_True by done. apply post_bind, post_call. intros [] w' _.
    apply post_bind, post_assign, post_ret. left. split; [done|]. split; [by repeat split|].
    assert (∀ name, name ∈ (string_map_order (sts_volume_specs (sg_spec (object p)))).*1 ↔
                    is_Some (sts_volume_specs (sg_spec (object p)) !! name)) as Hin.
    { intros name. rewrite string_map_order_perm, list_elem_of_fmap. split.
      - intros ([k o] & -> & Ho%elem_of_map_to_list). by exists o.
      - intros [o Ho]. exists (name, o). split; [done|]. by apply elem_of_map_to_list. }
    exists found. split_and!.
    + cbn. apply list_fmap_ext. intros i [key v] Hi. apply list_elem_of_lookup_2 in Hi.
      rewrite string_map_order_perm in Hi. apply elem_of_map_to_list in Hi.
      destruct (Hkey _ _ Hi) as (_ & _ & (? & ? & _ & Ha) & _). cbn. by rewrite Ha.
    + intros name Hn. apply Hall. by apply Hin.
    + intros key v (name & Hn & H)%Hkey. exists name. split; [by apply Hin|done].
  - intros found w. apply post_ret. right. left. split; [by left|apply storage_unreported_refl].
  - intros found p' Hr. apply post_ret. right. right. split; [by left|done].
Qed.

Lemma storage_secret_step p :
  post reconcileSSHSecret (λ res p',
    (res = resultNil ∧ object p' = object p ∧ secretSeen (object p)) ∨ halted (object p) res p') p.
Proof.
  unfold reconcileSSHSecret. apply post_bind, post_look, post_bind, post_of_result. intros m Hm. cbn [id] in *.
  destruct (set_controller_keeps _ _ _ Hm) as [refs ->]. apply post_bind, post_call. intros got w Hg%attempt_inv.
  destruct got as [secret|e].
  - destruct (holdsKey _ _) eqn:E; [apply post_ret; left; split_and!; [done..|by exists (outside p), w, secret]|].
    repeat on_step. right. left. split; [by right|apply storage_unreported_refl].
  - repeat on_step. right. left. split; [by right|apply storage_unreported_refl].
Qed.

Lemma server_step p :
  post ensureStorageServerDeployment (λ res p',
    (res = resultNil ∧ object p' = object p ∧ serverSeen (object p)) ∨ halted (object p) res p') p.
Proof.
  unfold ensureStorageServerDeployment. apply post_bind, post_look, post_bind, post_call. intros volumes w Hv.
  apply post_bind, post_call. intros [[d []] op] w' Hd. cbn [id fst snd outside object] in *.
  assert (∀ reason msg res, res = resultStop ∨ res = resultRequeue →
    post (_ ← reportStorageUnAvailable reason msg; mret res) (λ res p',
      (res = resultNil ∧ object p' = object p ∧ serverSeen (object p)) ∨ halted (object p) res p')
      (mkOn w' (object p))) as Hreport.
  { intros reason msg res Hres. apply post_bind, post_reportStorageUnAvailable. intros p' Hr. apply post_ret.
    right. right. by split. }
  assert (op ≠ OpCreated → DeploymentAvailable d = true → serverSeen (object p)) as Hseen
    by (intros; by exists (outside p), w, w', (object p), volumes, d, op).
  destruct op; [|apply Hreport; by right|].
  all: destruct (DeploymentAvailable d) eqn:E; [apply post_ret; left; split_and!; [done..|by apply Hseen]|];
    apply Hreport; by left.
Qed.

Definition serviceEnds (s : Storage) (res : subReconcilerResult) (p' : On W Storage) : Prop :=
  (res = resultNil ∧ reported ConditionTrue StorageReady s (object p') ∧
   sgs_volume_status (sg_status (object p')) = sgs_volume_status (sg_status s) ∧
   ∃ svc, serviceSeen s true svc ∧ sgs_service_name (sg_status (object p')) = svc_name svc) ∨
  (res = resultNil ∧ object p' = s ∧ ∃ svc, serviceSeen s false svc) ∨
  halted s res p'.

Lemma storage_service_step p : post reconcileStorageService (serviceEnds (object p)) p.
Proof.
  unfold reconcileStorageService. apply post_bind, post_look, post_bind, post_of_result. intros m Hm. cbn [id] in *.
  destruct (set_controller_keeps _ _ _ Hm) as [refs ->].
  apply post_createOr; [intros; right; right; left; split; [by left|apply storage_unreported_refl]|]. intros svc w w' Hg.
  destruct (AreServicesEqual _ svc) eqn:E; cbn [negb].
  - apply post_bind, post_bind, post_call. intros t w1 _. apply post_assign, post_ret. left.
    destruct (meta_observe (object p)) as [Hmeta Hs]. destruct (status_observe (object p)) as [g Hg'].
    split_and!; [done| | |by exists svc; split; [exists w, w'|]].
    + split_and!; [by split| |done|done]. do 2 eexists.
      unfold availableView, availableStorage, hashed, setCondition. cbn.
      by rewrite view_set_new, decide_True, Hmeta.
    + unfold availableStorage, hashed, setCondition. cbn. by rewrite Hg'.
  - apply post_bind, post_call. intros c w1 _. apply post_ret. right. left. split_and!; [done..|].
    by exists svc, w, w'.
Qed.

(** * A pass *)

Definition served (s s' : Storage) : Prop := volumesSeen s s' ∧ secretSeen s ∧ serverSeen s.
Definition passEnds (s : Storage) (res : CtrlResult) (p' : On W Storage) : Prop :=
  let s' := object p' in
  (res = no_requeue ∧ reported ConditionTrue StorageReady s s' ∧ served s s' ∧
   ∃ svc, serviceSeen s true svc ∧ sgs_service_name (sg_status s') = svc_name svc) ∨
  (res = no_requeue ∧ unreported s s' ∧ served s s' ∧ ∃ svc, serviceSeen s false svc) ∨
  ((res = no_requeue ∨ res = mkCtrlResult true 0) ∧ reported ConditionFalse StoragePending s s') ∨
  ((res = mkCtrlResult true 0 ∨ res = mkCtrlResult false second) ∧ unreported s s').

Lemma halted_ends s s1 res p' steps :
  unreported s s1 → halted s1 res p' →
  (res = resultNil ∧ post (runSteps steps) (passEnds s) p') ∨ (res = resultStop ∧ passEnds s no_requeue p') ∨
  (res = resultRequeue ∧ passEnds s (mkCtrlResult true 0) p') ∨
  (∃ t, res = resultRequeueAfter t ∧ passEnds s (mkCtrlResult false t) p').
Proof.
  intros Hu [[[->| ->] H]|[[->| ->] H]].
  - right. right. left. split; [done|]. right. right. right. split; [by left|]. by eapply storage_unreported_trans.
  - right. right. right. exists second. split; [done|]. right. right. right. split; [by right|].
    by eapply storage_unreported_trans.
  - right. left. split; [done|]. right. right. left. split; [by left|]. by eapply storage_reported_after.
  - right. right. left. split; [done|]. right. right. left. split; [by right|]. by eapply storage_reported_after.
Qed.

(** What a pass can say of a stack storage.  It is Available and Ready only after
    the whole chain: every volume of the spec was found with its Available condition
    true at its generation and exactly these volumes are listed in the status, the
    Secret held the user's key, the SSH server's Deployment was there and available,
    and the Service matched and is named in the status.  Or the Service was found
    different: it is rewritten and the pass ends without a word, whatever was said
    before.  Or a step says Unavailable and Pending, or asks to come back, having
    said nothing.  Whenever something is said, the status hash is that of the rest
    of the status; when nothing is said the hash stays the one of the last report. *)
Theorem stack_storage_pass_spec (p p' : On W Storage) (res : CtrlResult) :
  runSteps subReconcilers p = (Ok res, p') → passEnds (object p) res p'.
Proof.
  enough (post (runSteps subReconcilers) (passEnds (object p)) p) as H by apply H. set (s := object p).
  unfold subReconcilers. apply post_runSteps_cons. eapply post_mono; [apply volumes_step|]. fold s. cbv beta.
  intros r [w1 s1] [(-> & Hu & Hvol)|Hh]; [|by eapply halted_ends; [apply storage_unreported_refl|]]. cbn [object] in *.
  destruct (storage_seen_same _ _ (proj1 Hu)) as (Fsec & Fdep & Fsvc).
  left. split; [done|]. apply post_runSteps_cons. eapply post_mono; [apply storage_secret_step|]. cbn [object]. cbv beta.
  intros r [w2 s2] [(-> & Hs2 & Hsec)|Hh]; [|by eapply halted_ends]. cbn [object] in Hs2. subst s2.
  left. split; [done|]. apply post_runSteps_cons. eapply post_mono; [apply server_step|]. cbn [object]. cbv beta.
  intros r [w3 s3] [(-> & Hs3 & Hdep)|Hh]; [|by eapply halted_ends]. cbn [object] in Hs3. subst s3.
  left. split; [done|]. apply post_runSteps_cons. eapply post_mono; [apply storage_service_step|]. cbn [object].
  intros r p4 [(-> & Hr & Hl & svc & Hsvc & Hname)|[(-> & Heq & svc & Hsvc)|Hh]]; [| |by eapply halted_ends].
  - left. split; [done|]. apply post_ret. left. split; [done|]. split; [by eapply storage_reported_after|]. split.
    + split; [|by split; [apply Fsec|apply Fdep]]. destruct Hvol as (found & Hst & Hrest). exists found.
      split; [|exact Hrest]. by rewrite Hl.
    + exists svc. split; [by apply Fsvc|done].
  - left. split; [done|]. apply post_ret. right. left. rewrite Heq. split; [done|]. split; [done|]. split.
    + by split; [|split; [apply Fsec|apply Fdep]].
    + exists svc. by apply Fsvc.
Qed.
End outcome.

(** * A concrete storage *)

Import Cluster.
#[local] Instance walked : StringMapOrder := λ A m, map_to_list m.
#[local] Instance walked_laws : StringMapOrderLaws.
Proof. by intros A m. Qed.
#[local] Instance no_hash : StorageStatusDigest := λ _, "".
#[local] Instance alike : DeepDerivative := λ _ _, true.
#[local] Instance up_at_once : CreateOrUpdate Z Deployment := λ A d f t,
  match f d t with
  | (Ok (d, a), t) =>
      (Ok (d <| dep_status := mkDeploymentStatus 0 1 1 1 1 0
             [mkDeploymentCondition DeploymentAvailableType ConditionTrue "" 0%Z] |>, a, OpUpdated), t)
  | (Err e, t) => (Err e, t)
  end.
Definition sample_stack_storage : Storage :=
  mkStorage (object_meta "main" "default")
    (mkStorageSpec "ann" "ssh-ed25519 AAAA" {[ "data" := Some (vol_spec (sample_volume "data" None)) ]})
    (mkStorageStatus 0 [] StoragePhaseUnset [] "" "").
#[local] Instance a_volume : Kind Z Volume :=
  only_objects [(sample_volume "data" None)
    <| vol_status ::= λ s, s <| vst_conditions := [new_condition "Available" ConditionTrue 0 "" ""] |> |>].
#[local] Instance its_volumes : ListByController Z Volume := λ _ _ t, (Ok [sample_volume "data" None], t).
#[local] Instance a_key : UncachedGet Z Secret := λ _ _ t, (Ok (sshSecret sample_stack_storage), t).
#[local] Instance a_service : Kind Z Service := only_objects [storageService sample_stack_storage].

Lemma stack_storage_pass_spec_witness :
  ∃ p', runSteps subReconcilers (mkOn 5%Z sample_stack_storage) = (Ok no_requeue, p') ∧
    reported ConditionTrue StorageReady sample_stack_storage (object p') ∧
    sgs_service_name (sg_status (object p')) = "main-storage-svc".
Proof.
  destruct (runSteps _ _) as [[res|e] p'] eqn:E; [|exfalso; vm_compute in E; discriminate].
  assert (res = no_requeue) as -> by (vm_compute in E; by injection E as <- _).
  exists p'. split; [reflexivity|].
  assert (sgs_service_name (sg_status (object p')) = "main-storage-svc") as Hname
    by (vm_compute in E; injection E as <-; reflexivity).
  assert (sgs_phase (sg_status (object p')) = StorageReady) as Hphase
    by (vm_compute in E; injection E as <-; reflexivity).
  split; [|exact Hname].
  destruct (stack_storage_pass_spec (W:=Z) _ _ _ E)
    as [(_ & Hr & _)|[(_ & (_ & _ & Hp & _) & _)|[(_ & _ & _ & Hp & _)|[[Hr|Hr] _]]]].
  - exact Hr.
  - exfalso. rewrite Hphase in Hp. vm_compute in Hp. discriminate Hp.
  - exfalso. rewrite Hphase in Hp. discriminate Hp.
  - exfalso. vm_compute in Hr. discriminate.
  - exfalso. vm_compute in Hr. discriminate.
Defined.
