(* ===== verification/ClusterInfo.v ===== *)
(** The cluster information controller (internal/controller/clusterinfo): one
    cluster-wide object whose status describes the nodes, storage classes, load
    balancers and ingress classes, written when it has changed. *)
From S2P Require Import Prelude Text Kube Apimachinery KubeWorkloads Crash StackStorage Samples.

(** * The resource *)

Definition ClusterInfoSingletonName : string := "stackdome-cluster-info".
Definition ClusterInfoDefaultLBNamespace : string := "stackdome-control-plane".
Inductive ClusterInfoPhase := ClusterInfoPhaseUnset | ClusterInfoPhaseReady | ClusterInfoPhaseRefreshing | ClusterInfoPhaseUnknown.
Record ClusterInfoSpec := mkClusterInfoSpec { cis_load_balancer_namespaces : list string }.
Record NodeTopology := mkNodeTopology { nt_zone : string; nt_region : string }.
Record NodeInfo := mkNodeInfo {
  ni_name : string;
  ni_ready : bool;
  ni_allocatable_cpu : string;
  ni_allocatable_memory : string;
  ni_allocatable_ephemeral_disk : string;
  ni_capacity_ephemeral_disk : string;
  ni_topology : NodeTopology;
}.
Record StorageClassInfo := mkStorageClassInfo { sci_name : string; sci_provisioner : string; sci_is_default : bool }.
Record LoadBalancerInfo := mkLoadBalancerInfo {
  lbi_service_name : string;
  lbi_service_namespace : string;
  lbi_ingress_ips : list string;
  lbi_ingress_hostnames : list string;
  lbi_has_ip : bool;
}.
#[export] Instance eta_load_balancer_info : Eta LoadBalancerInfo := λ i,
  mkLoadBalancerInfo (lbi_service_name i) (lbi_service_namespace i) (lbi_ingress_ips i) (lbi_ingress_hostnames i) (lbi_has_ip i).
Record IngressClassInfo := mkIngressClassInfo { ici_name : string; ici_controller : string; ici_is_default : bool }.
Record ClusterInfoStatus := mkClusterInfoStatus {
  cit_phase : ClusterInfoPhase;
  cit_status_hash : string;
  cit_last_refreshed_at : option Time;
  cit_kubernetes_version : string;
  cit_total_nodes : Z;
  cit_ready_nodes : Z;
  cit_availability_zones : list string;
  cit_nodes : list NodeInfo;
  cit_storage_classes : list StorageClassInfo;
  cit_load_balancers : list LoadBalancerInfo;
  cit_ingress_classes : list IngressClassInfo;
}.
#[export] Instance eta_cluster_info_status : Eta ClusterInfoStatus := λ s,
  mkClusterInfoStatus (cit_phase s) (cit_status_hash s) (cit_last_refreshed_at s) (cit_kubernetes_version s)
    (cit_total_nodes s) (cit_ready_nodes s) (cit_availability_zones s) (cit_nodes s) (cit_storage_classes s)
    (cit_load_balancers s) (cit_ingress_classes s).
Definition no_cluster_status : ClusterInfoStatus :=
  mkClusterInfoStatus ClusterInfoPhaseUnset "" None "" 0 0 [] [] [] [] [].
Record ClusterInfo := mkClusterInfo { ci_meta : ObjectMeta; ci_spec : ClusterInfoSpec; ci_status : ClusterInfoStatus }.
#[export] Instance eta_cluster_info : Eta ClusterInfo := λ c, mkClusterInfo (ci_meta c) (ci_spec c) (ci_status c).

(** The FNV hash of the printed status. *)
Class ClusterInfoDigest := digest_cluster_info : ClusterInfoStatus → string.
Definition ComputeStatusHash `{ClusterInfoDigest} (s : ClusterInfoStatus) : string :=
  digest_cluster_info (s <| cit_status_hash := "" |>).

(** * What is collected

    Nodes and Services with the fields this controller reads; quantities are texts. *)

Record InfoNode := mkInfoNode {
  in_meta : ObjectMeta;
  in_conditions : list (string * ConditionStatus);
  in_allocatable : gmap string string;
  in_capacity : gmap string string;
}.
Record BalancedService := mkBalancedService {
  bs_service : Service;
  (** the address and the host name of each ingress point *)
  bs_ingress : list (string * string);
}.
Record IngressClass := mkIngressClass { ic_meta : ObjectMeta; ic_controller : string }.

(** [Quantity.IsZero], [String] and [Value]. *)
Class QuantityView := {
  quantity_is_zero : string → bool;
  quantity_string : string → string;
  quantity_value : string → Z;
}.

Definition quantityToMi `{QuantityView} (q : string) : string := pretty (Z.quot (quantity_value q) (2 ^ 20)) +:+ "Mi".
Definition quantityToGi `{QuantityView} (q : string) : string := pretty (Z.quot (quantity_value q) (2 ^ 30)) +:+ "Gi".

Definition labelTopologyZone : string := "topology.kubernetes.io/zone".
Definition labelTopologyRegion : string := "topology.kubernetes.io/region".
Definition labelLegacyFailureDomainZone : string := "failure-domain.beta.kubernetes.io/zone".
Definition labelLegacyFailureDomainRegion : string := "failure-domain.beta.kubernetes.io/region".
Definition annotationDefaultStorageClass : string := "storageclass.kubernetes.io/is-default-class".
Definition annotationDefaultIngressClass : string := "ingressclass.kubernetes.io/is-default-class".
Definition NodeReady : string := "Ready".
Definition ServiceTypeLoadBalancer : string := "LoadBalancer".

(** The first Ready condition decides. *)
Fixpoint readyIn (cs : list (string * ConditionStatus)) : bool :=
  match cs with
  | [] => false
  | (t, st) :: cs => if decide (t = NodeReady) then bool_decide (st = ConditionTrue) else readyIn cs
  end.
Definition isNodeReady (n : InfoNode) : bool := readyIn (in_conditions n).
Definition firstLabel (labels : gmap string string) (l legacy : string) : string :=
  if decide (mget labels l = "") then mget labels legacy else mget labels l.
Definition extractTopology (labels : gmap string string) : NodeTopology :=
  mkNodeTopology (firstLabel labels labelTopologyZone labelLegacyFailureDomainZone)
    (firstLabel labels labelTopologyRegion labelLegacyFailureDomainRegion).

Section collectors.
Context {QV : QuantityView} {SO : StringMapOrder}.

(** An amount that is absent is zero, and a zero is not shown. *)
Definition shown (show : string → string) (amounts : gmap string string) (name : string) : string :=
  match amounts !! name with
  | Some q => if quantity_is_zero q then "" else show q
  | None => ""
  end.
Definition nodeInfo (n : InfoNode) : NodeInfo :=
  mkNodeInfo (om_name (in_meta n)) (isNodeReady n) (shown quantity_string (in_allocatable n) "cpu")
    (shown quantityToMi (in_allocatable n) "memory") (shown quantityToGi (in_allocatable n) "ephemeral-storage")
    (shown quantityToGi (in_capacity n) "ephemeral-storage") (extractTopology (om_labels (in_meta n))).
Definition zone (i : NodeInfo) : string := nt_zone (ni_topology i).
Definition zoneSet (infos : list NodeInfo) : gmap string unit :=
  foldl (λ m i, if decide (zone i = "") then m else <[zone i := tt]> m) ∅ infos.
Definition BuildNodeInfoList (nodes : list InfoNode) : list NodeInfo * list string :=
  let infos := nodeInfo <$> nodes in
  (infos, sort_strings (string_map_order (zoneSet infos)).*1).

Definition isDefault (annotation : string) (m : ObjectMeta) : bool :=
  bool_decide (mget (om_annotations m) annotation = "true").
Definition BuildStorageClassInfoList (l : list StorageClass) : list StorageClassInfo :=
  (λ c, mkStorageClassInfo (om_name (stc_meta c)) (stc_provisioner c) (isDefault annotationDefaultStorageClass (stc_meta c))) <$> l.
Definition addIngress (i : LoadBalancerInfo) (point : string * string) : LoadBalancerInfo :=
  let i := if decide (point.1 = "") then i else (i <| lbi_ingress_ips ::= λ l, l ++ [point.1] |>) <| lbi_has_ip := true |> in
  if decide (point.2 = "") then i else i <| lbi_ingress_hostnames ::= λ l, l ++ [point.2] |>.
Definition loadBalancerInfo (s : BalancedService) : LoadBalancerInfo :=
  foldl addIngress (mkLoadBalancerInfo (svc_name (bs_service s)) (om_namespace (svc_meta (bs_service s))) [] [] false)
    (bs_ingress s).
Definition BuildLoadBalancerInfoList (l : list BalancedService) : list LoadBalancerInfo :=
  loadBalancerInfo <$> filter (λ s, svs_type (svc_spec (bs_service s)) = ServiceTypeLoadBalancer) l.
Definition BuildIngressClassInfoList (l : list IngressClass) : list IngressClassInfo :=
  (λ c, mkIngressClassInfo (om_name (ic_meta c)) (ic_controller c) (isDefault annotationDefaultIngressClass (ic_meta c))) <$> l.
End collectors.

(** * The controller *)

(** A merge patch of the status: what the object was, and what it is to be. *)
Class StatusPatch (W O : Type) := patch_status : O → O → SE W O.
(** The version the API server tells the discovery client, when there is one. *)
Class ServerVersion (W : Type) := server_version : option (SE W string).

Definition refreshInterval : Duration := (10 * minute)%Z.

Section controller.
Context {QV : QuantityView} {SO : StringMapOrder} {CD : ClusterInfoDigest} {W : Type} {CK : Clock W}.
Context {SV : ServerVersion W} {UG : UncachedGet W ClusterInfo} {KI : Kind W ClusterInfo} {PS : StatusPatch W ClusterInfo}.
Context {UN : UncachedList W InfoNode} {UC : UncachedList W StorageClass} {US : UncachedList W BalancedService}.
Context {UI : UncachedList W IngressClass}.

Fixpoint servicesOf (namespaces : list string) : SE W (list BalancedService) :=
  match namespaces with
  | [] => mret []
  | ns :: namespaces =>
      l ← ulist (O:=BalancedService) ns [];
      rest ← servicesOf namespaces;
      mret (l ++ rest)
  end.
Definition kubernetesVersion : SE W string :=
  match server_version with
  | None => mret ""
  | Some ask => version ← attempt ask; mret (match version with Ok v => v | Err _ => "" end)
  end.
Definition collectStatus (spec : ClusterInfoSpec) : SE W ClusterInfoStatus :=
  version ← kubernetesVersion;
  nodes ← ulist (O:=InfoNode) "" [];
  let '(infos, zones) := BuildNodeInfoList nodes in
  classes ← ulist (O:=StorageClass) "" [];
  services ← servicesOf (cis_load_balancer_namespaces spec);
  ingresses ← ulist (O:=IngressClass) "" [];
  mret (mkClusterInfoStatus ClusterInfoPhaseUnset "" None version (Z.of_nat (length infos))
    (foldl (λ n i, if ni_ready i then n + 1 else n) 0 infos)%Z zones infos (BuildStorageClassInfoList classes)
    (BuildLoadBalancerInfoList services) (BuildIngressClassInfoList ingresses)).

Definition singleton : ClusterInfo :=
  mkClusterInfo (object_meta ClusterInfoSingletonName "") (mkClusterInfoSpec [ClusterInfoDefaultLBNamespace]) no_cluster_status.
Definition refreshed (t : Time) (status : ClusterInfoStatus) : ClusterInfoStatus :=
  status <| cit_status_hash := ComputeStatusHash status |> <| cit_last_refreshed_at := Some t |>
         <| cit_phase := ClusterInfoPhaseReady |>.
Definition Reconcile (ns name : string) : SE W CtrlResult :=
  got ← attempt (uget (O:=ClusterInfo) ns name);
  match got with
  | Err e => if is_not_found e then _ ← kcreate singleton; mret (mkCtrlResult true 0) else fail e
  | Ok cr =>
      status ← collectStatus (ci_spec cr);
      if decide (ComputeStatusHash status = cit_status_hash (ci_status cr)) then mret (mkCtrlResult false refreshInterval)
      else
        t ← now;
        _ ← patch_status cr (cr <| ci_status := refreshed t status |>);
        mret (mkCtrlResult false refreshInterval)
  end.

(** The requests other objects give rise to. *)
Definition mapToSingleton : list NamespacedName := [("", ClusterInfoSingletonName)].
Definition mapLBServiceToSingleton (s : option Service) : list NamespacedName :=
  match s with
  | Some s => if decide (svs_type (svc_spec s) = ServiceTypeLoadBalancer) then mapToSingleton else []
  | None => []
  end.
End controller.

(** * What is collected, and when it is written *)

Section properties.
Context {QV : QuantityView} {SO : StringMapOrder} {SL : StringMapOrderLaws} {CD : ClusterInfoDigest} {W : Type} {CK : Clock W}.
Context {SV : ServerVersion W} {UG : UncachedGet W ClusterInfo} {KI : Kind W ClusterInfo} {PS : StatusPatch W ClusterInfo}.
Context {UN : UncachedList W InfoNode} {UC : UncachedList W StorageClass} {US : UncachedList W BalancedService}.
Context {UI : UncachedList W IngressClass}.

Lemma elem_of_zoneSet infos z : is_Some (zoneSet infos !! z) ↔ z ≠ "" ∧ z ∈ zone <$> infos.
Proof.
  unfold zoneSet. induction infos as [|i infos IH] using rev_ind.
  - cbn. rewrite lookup_empty. split; [by intros [? ?]|]. by intros [_ ?%not_elem_of_nil].
  - rewrite foldl_snoc, fmap_app, elem_of_app. cbn [fmap list_fmap]. rewrite list_elem_of_singleton.
    destruct (decide _) as [Hz|Hz].
    + rewrite IH. naive_solver.
    + destruct (decide (z = zone i)) as [->|]; [rewrite lookup_insert_eq; naive_solver|].
      rewrite lookup_insert_ne by done. rewrite IH. naive_solver.
Qed.
Lemma zones_spec nodes :
  let '(infos, zones) := BuildNodeInfoList nodes in
  NoDup zones ∧ StronglySorted str_le zones ∧ ∀ z, z ∈ zones ↔ z ≠ "" ∧ z ∈ zone <$> infos.
Proof.
  cbn. split_and!.
  - unfold sort_strings. rewrite merge_sort_Permutation, string_map_order_perm. apply NoDup_fst_map_to_list.
  - apply (StronglySorted_merge_sort str_le).
  - intros z. rewrite elem_of_sort_strings, string_map_order_perm, <- elem_of_zoneSet, list_elem_of_fmap. split.
    + intros ([z' u] & -> & Hu%elem_of_map_to_list). by exists u.
    + intros [u Hu]. exists (z, u). split; [done|]. by apply elem_of_map_to_list.
Qed.

Lemma ready_count infos n :
  foldl (λ n i, if ni_ready i then n + 1 else n)%Z n infos = (n + Z.of_nat (length (filter (λ i, ni_ready i = true) infos)))%Z.
Proof.
  revert n. induction infos as [|i infos IH]; intros n; [cbn; lia|]. cbn [foldl]. rewrite IH, filter_cons.
  destruct (ni_ready i); [rewrite decide_True by done|rewrite decide_False by done]; cbn [length]; lia.
Qed.

Lemma addIngress_fold points i :
  foldl addIngress i points =
  mkLoadBalancerInfo (lbi_service_name i) (lbi_service_namespace i)
    (lbi_ingress_ips i ++ filter (.≠ "") points.*1) (lbi_ingress_hostnames i ++ filter (.≠ "") points.*2)
    (lbi_has_ip i || negb (bool_decide (filter (.≠ "") points.*1 = []))).
Proof.
  revert i. induction points as [|[ip host] points IH]; intros i.
  - destruct i. cbn. by rewrite !app_nil_r, orb_false_r.
  - cbn [foldl]. rewrite IH. cbn [fmap list_fmap fst snd]. rewrite !filter_cons. unfold addIngress. cbn [fst snd].
    destruct (decide (ip = "")) as [->|Hi]; [rewrite (decide_False (P:="" ≠ "")) by naive_solver|rewrite (decide_True (P:=ip ≠ "")) by done];
    (destruct (decide (host = "")) as [->|Hh]; [try rewrite (decide_False (P:="" ≠ "")) by naive_solver|rewrite (decide_True (P:=host ≠ "")) by done]);
    cbn; f_equal; rewrite <- ?app_assoc; try done; rewrite ?orb_true_r; done.
Qed.

(** A node is ready when the first of its conditions of type Ready is True. *)
Definition nodeIsReady (n : InfoNode) : Prop :=
  ∃ before after, in_conditions n = before ++ (NodeReady, ConditionTrue) :: after ∧ NodeReady ∉ before.*1.

Lemma is_node_ready n : isNodeReady n = true ↔ nodeIsReady n.
Proof.
  unfold isNodeReady, nodeIsReady. induction (in_conditions n) as [|[t st] cs IH]; cbn [readyIn].
  { split; [done|]. by intros ([] & after & [=] & _). }
  destruct (decide (t = NodeReady)) as [->|Hne].
  - rewrite bool_decide_eq_true. split; [intros ->; exists [], cs; split; [done|apply not_elem_of_nil]|].
    intros ([|[t' st'] before] & after & [= ] & Hn); [done|]. subst t'. destruct Hn. by left.
  - rewrite IH. split.
    + intros (before & after & -> & Hn). exists ((t, st) :: before), after. split; [done|].
      cbn. rewrite not_elem_of_cons. by split.
    + intros ([|[t' st'] before] & after & [= ] & Hn); [by subst|]. subst. cbn in Hn.
      apply not_elem_of_cons in Hn as [_ Hn]. by exists before, after.
Qed.

(** What is said of a node, of a class, and of a load balancer. *)
Definition nodeDescribed (n : InfoNode) (i : NodeInfo) : Prop :=
  ni_name i = om_name (in_meta n) ∧ (ni_ready i = true ↔ nodeIsReady n) ∧
  ni_topology i = extractTopology (om_labels (in_meta n)) ∧
  ni_allocatable_cpu i = shown quantity_string (in_allocatable n) "cpu" ∧
  ni_allocatable_memory i = shown quantityToMi (in_allocatable n) "memory" ∧
  ni_allocatable_ephemeral_disk i = shown quantityToGi (in_allocatable n) "ephemeral-storage" ∧
  ni_capacity_ephemeral_disk i = shown quantityToGi (in_capacity n) "ephemeral-storage".
Definition markedDefault (annotation : string) (m : ObjectMeta) : Prop := om_annotations m !! annotation = Some "true".
Definition classDescribed (c : StorageClass) (i : StorageClassInfo) : Prop :=
  sci_name i = om_name (stc_meta c) ∧ sci_provisioner i = stc_provisioner c ∧
  (sci_is_default i = true ↔ markedDefault annotationDefaultStorageClass (stc_meta c)).
Definition ingressDescribed (c : IngressClass) (i : IngressClassInfo) : Prop :=
  ici_name i = om_name (ic_meta c) ∧ ici_controller i = ic_controller c ∧
  (ici_is_default i = true ↔ markedDefault annotationDefaultIngressClass (ic_meta c)).
Definition balancerDescribed (b : BalancedService) (i : LoadBalancerInfo) : Prop :=
  lbi_service_name i = svc_name (bs_service b) ∧ lbi_service_namespace i = om_namespace (svc_meta (bs_service b)) ∧
  lbi_ingress_ips i = filter (.≠ "") (bs_ingress b).*1 ∧ lbi_ingress_hostnames i = filter (.≠ "") (bs_ingress b).*2 ∧
  (lbi_has_ip i = true ↔ ∃ ip host, (ip, host) ∈ bs_ingress b ∧ ip ≠ "").

(** The status tells the truth about these objects. *)
Definition describes (s : ClusterInfoStatus) (version : string) (nodes : list InfoNode) (classes : list StorageClass)
    (services : list BalancedService) (ingresses : list IngressClass) : Prop :=
  cit_kubernetes_version s = version ∧
  Forall2 nodeDescribed nodes (cit_nodes s) ∧ cit_total_nodes s = Z.of_nat (length nodes) ∧
  cit_ready_nodes s = Z.of_nat (length (filter (λ i, ni_ready i = true) (cit_nodes s))) ∧
  (NoDup (cit_availability_zones s) ∧ StronglySorted str_le (cit_availability_zones s)) ∧
  (∀ z, z ∈ cit_availability_zones s ↔
        z ≠ "" ∧ ∃ n, n ∈ nodes ∧ nt_zone (extractTopology (om_labels (in_meta n))) = z) ∧
  Forall2 classDescribed classes (cit_storage_classes s) ∧
  Forall2 balancerDescribed (filter (λ b, svs_type (svc_spec (bs_service b)) = ServiceTypeLoadBalancer) services)
    (cit_load_balancers s) ∧
  Forall2 ingressDescribed ingresses (cit_ingress_classes s).

(** The reads of a pass, one after another: the version, the nodes, the storage
    classes, the services of each namespace of the spec, and the ingress classes. *)
Definition versionRead (version : string) (w w' : W) : Prop :=
  match server_version with
  | None => version = "" ∧ w' = w
  | Some ask => ∃ answer, ask w = (answer, w') ∧ version = match answer with Ok v => v | Err _ => "" end
  end.
Definition listed {O} `{UncachedList W O} (ns : string) (l : list O) (w w' : W) : Prop := ulist ns [] w = (Ok l, w').
Definition readsOf (spec : ClusterInfoSpec) (version : string) (nodes : list InfoNode) (classes : list StorageClass)
    (services : list (list BalancedService)) (ingresses : list IngressClass) : list (W → W → Prop) :=
  [versionRead version; listed "" nodes; listed "" classes] ++
  zip_with listed (cis_load_balancer_namespaces spec) services ++ [listed "" ingresses].

Lemma Forall2_map {A B} (R : A → B → Prop) (f : A → B) l : (∀ a, R a (f a)) → Forall2 R l (f <$> l).
Proof. intros H. induction l; constructor; auto. Qed.
Lemma is_default annotation m : isDefault annotation m = true ↔ markedDefault annotation m.
Proof.
  unfold isDefault, markedDefault, mget. rewrite bool_decide_eq_true. destruct (om_annotations m !! annotation); [cbn|done].
  split; [by intros ->|congruence].
Qed.
Lemma balancer_described b : balancerDescribed b (loadBalancerInfo b).
Proof.
  unfold loadBalancerInfo. rewrite addIngress_fold. split_and!; [done..|]. cbn.
  rewrite negb_true_iff, bool_decide_eq_false. split.
  - intros Hne. destruct (filter (.≠ "") (bs_ingress b).*1) as [|ip l] eqn:E; [done|].
    assert (ip ∈ filter (.≠ "") (bs_ingress b).*1) as Hin by (rewrite E; by left).
    apply list_elem_of_filter in Hin as [Hip Hin]. apply list_elem_of_fmap in Hin as ([ip' host] & -> & Hin).
    by exists ip', host.
  - intros (ip & host & Hin & Hip) E.
    assert (ip ∈ filter (.≠ "") (bs_ingress b).*1) as Hf
      by (apply list_elem_of_filter; split; [done|]; by apply (list_elem_of_fmap_2 fst _ (ip, host))).
    rewrite E in Hf. by apply not_elem_of_nil in Hf.
Qed.

Lemma services_run namespaces w services w' :
  servicesOf namespaces w = (Ok services, w') →
  ∃ each, length each = length namespaces ∧ services = concat each ∧ chain (zip_with listed namespaces each) w w'.
Proof.
  revert w services. induction namespaces as [|ns namespaces IH]; intros w services; cbn [servicesOf].
  { intros [= <- <-]. by exists []. }
  intros (l & w1 & Hl & H)%se_bind_inv. apply se_bind_inv in H as (rest & w2 & Hr & [= <- <-]).
  apply IH in Hr as (each & Hlen & -> & Hc). exists (l :: each). cbn. split_and!; [by rewrite Hlen|done|]. by exists w1.
Qed.
Lemma version_run w version w' : kubernetesVersion w = (Ok version, w') → versionRead version w w'.
Proof.
  unfold kubernetesVersion, versionRead. destruct server_version as [ask|]; [|by intros [= <- <-]].
  intros (answer & w1 & Ha%attempt_inv & [= <- <-])%se_bind_inv. by exists answer.
Qed.

Lemma collect_step spec w :
  post (collectStatus spec) (λ s w', ∃ version nodes classes services ingresses,
    length services = length (cis_load_balancer_namespaces spec) ∧
    chain (readsOf spec version nodes classes services ingresses) w w' ∧
    describes s version nodes classes (concat services) ingresses) w.
Proof.
  unfold collectStatus. apply post_bind. intros version w0 Hver%version_run. apply post_bind. intros nodes w1 Hn.
  destruct (BuildNodeInfoList nodes) as [infos zones] eqn:E. pose proof (zones_spec nodes) as Hz. rewrite E in Hz.
  injection E as <- _. apply post_bind. intros classes w2 Hcl. apply post_bind.
  intros services w3 (each & Hlen & -> & Hs)%services_run.
  apply post_bind. intros ingresses w4 Hi. apply post_ret. exists version, nodes, classes, each, ingresses.
  split; [done|]. split.
  { eapply (chain_app [_; _; _]); [|eapply chain_snoc; [exact Hs|exact Hi]].
    exists w0. split; [done|]. exists w1. split; [done|]. by exists w2. }
  destruct Hz as (HN & HS & Hin). split_and!; cbn; [done| |by rewrite length_fmap|by rewrite ready_count|done..| | | |].
  - apply Forall2_map. intros n. split_and!; [done| |done..]. apply is_node_ready.
  - intros z. rewrite Hin. f_equiv. rewrite list_elem_of_fmap. split.
    + intros (i & -> & (n & -> & Hn')%list_elem_of_fmap). by exists n.
    + intros (n & Hn' & <-). exists (nodeInfo n). split; [done|]. by apply list_elem_of_fmap_2.
  - apply Forall2_map. intros c. split_and!; [done|done|apply is_default].
  - apply Forall2_map, balancer_described.
  - apply Forall2_map. intros c. split_and!; [done|done|apply is_default].
Qed.

(** C35. The description of the cluster is true when it is written, and written when it
    has changed.  A pass over an object that is there reads, one after another from the
    world in which it found the object, the server's version (if it has a discovery
    client; an error reads as none), every node, every storage class, the services of
    each namespace of the spec in turn, and every ingress class.  The status it
    collects describes each node, counts the nodes and those described as ready (the
    first condition of type Ready is True), names the zones of the nodes sorted and
    each once, describes each storage and ingress class and whether it is the default,
    and describes each service of type LoadBalancer of those namespaces, in their
    order, with an address exactly when one of its ingress points has one.  The pass
    writes nothing when the status hashes to what is recorded; else it reads the clock
    and writes that status with its hash, and a pass that finds the object as written
    and collects the same writes nothing. *)
Theorem cluster_info_refresh (ns name : string) (w w0 w' : W) (cr : ClusterInfo) (res : CtrlResult) :
  uget (O:=ClusterInfo) ns name w = (Ok cr, w0) → Reconcile ns name w = (Ok res, w') →
  res = mkCtrlResult false refreshInterval ∧
  ∃ status w1, collectStatus (ci_spec cr) w0 = (Ok status, w1) ∧
    (∃ version nodes classes services ingresses,
       length services = length (cis_load_balancer_namespaces (ci_spec cr)) ∧
       chain (readsOf (ci_spec cr) version nodes classes services ingresses) w0 w1 ∧
       describes status version nodes classes (concat services) ingresses) ∧
    ((ComputeStatusHash status = cit_status_hash (ci_status cr) ∧ w' = w1) ∨
     (ComputeStatusHash status ≠ cit_status_hash (ci_status cr) ∧
      ∃ t w2 cr', now w1 = (Ok t, w2) ∧
        patch_status cr (cr <| ci_status := status <| cit_status_hash := ComputeStatusHash status |>
          <| cit_last_refreshed_at := Some t |> <| cit_phase := ClusterInfoPhaseReady |> |>) w2 = (Ok cr', w') ∧
        ∀ w3 w4 w5, uget (O:=ClusterInfo) ns name w3 = (Ok (cr <| ci_status := refreshed t status |>), w4) →
          collectStatus (ci_spec cr) w4 = (Ok status, w5) →
          Reconcile ns name w3 = (Ok (mkCtrlResult false refreshInterval), w5))).
Proof.
  intros Hg. assert (∀ w w0 cr, uget (O:=ClusterInfo) ns name w = (Ok cr, w0) → Reconcile ns name w =
    (status ← collectStatus (ci_spec cr);
     if decide (ComputeStatusHash status = cit_status_hash (ci_status cr)) then mret (mkCtrlResult false refreshInterval)
     else t ← now; _ ← patch_status cr (cr <| ci_status := refreshed t status |>);
          mret (mkCtrlResult false refreshInterval)) w0) as Hrun.
  { intros wa wb c Hc. unfold Reconcile. by se_step by (by apply attempt_ok). }
  rewrite (Hrun _ _ _ Hg). intros (status & w1 & Hc & Hend)%se_bind_inv.
  pose proof (collect_step _ _ _ _ Hc) as Hd. destruct (decide _) as [Hh|Hh] in Hend.
  - injection Hend as <- <-. split; [done|]. exists status, w1. split_and!; [done..|by left].
  - apply se_bind_inv in Hend as (t & w2 & Ht & Hend). apply se_bind_inv in Hend as (cr' & w3 & Hp & Hend).
    injection Hend as <- <-. split; [done|]. exists status, w1. split_and!; [done..|]. right. split; [done|].
    exists t, w2, cr'. split_and!; [done..|]. intros wa wb wc Ha Hb. rewrite (Hrun _ _ _ Ha).
    se_step by exact Hb. cbn. by rewrite decide_True.
Qed.
End properties.

(** * A concrete cluster *)

Import Cluster.
#[local] Instance any_amount : QuantityView := {
  quantity_is_zero q := bool_decide (q = "0"); quantity_string := id; quantity_value _ := 0%Z }.
#[local] Instance zones_walked : StringMapOrder := λ A m, map_to_list m.
#[local] Instance zones_walked_laws : StringMapOrderLaws.
Proof. by intros A m. Qed.
#[local] Instance zone_digest : ClusterInfoDigest := λ s, join (cit_availability_zones s) ",".
#[local] Instance no_version : ServerVersion Z := None.
#[local] Instance the_info : UncachedGet Z ClusterInfo := λ _ _ t, (Ok singleton, t).
#[local] Instance patched : StatusPatch Z ClusterInfo := λ _ c t, (Ok c, t).
Definition zoned (name zone : string) : InfoNode :=
  mkInfoNode ((object_meta name "") <| om_labels := {[ labelTopologyZone := zone ]} |>) [("Ready", ConditionTrue)] ∅ ∅.
#[local] Instance two_nodes : UncachedList Z InfoNode := λ _ _ t, (Ok [zoned "a" "west"; zoned "b" "east"], t).

Lemma cluster_info_refresh_witness :
  ∃ w' status, Reconcile (W:=Z) "" ClusterInfoSingletonName 5%Z = (Ok (mkCtrlResult false refreshInterval), w') ∧
    cit_total_nodes status = 2%Z ∧ cit_ready_nodes status = 2%Z ∧
    cit_availability_zones status = ["east"; "west"].
Proof.
  destruct (Reconcile (W:=Z) "" ClusterInfoSingletonName 5%Z) as [[res|e] w'] eqn:E; [|exfalso; vm_compute in E; discriminate].
  destruct (cluster_info_refresh "" ClusterInfoSingletonName 5%Z 5%Z w' singleton res eq_refl E)
    as (-> & status & w1 & Hc & (version & nodes & classes & services & ingresses & _ & Hr & Hd) & _).
  exists w', status. split; [reflexivity|]. destruct Hr as (wa & _ & wb & Hn & _). injection Hn as <- _.
  destruct Hd as (_ & _ & H2 & _). split; [rewrite H2; reflexivity|].
  vm_compute in Hc. injection Hc as <- _. split; reflexivity.
Defined.
