(* ===== verification/ErrorPages.v ===== *)
(** The error pages (internal/errorpages): the answer to a request of the proxy for
    the page of a status code. *)
From Stdlib Require Import Ascii.
From S2P Require Import Prelude Text.

(** * The standard library *)

(** [strconv.Atoi]: an optional sign and decimal digits, within 64 bits. *)
Fixpoint digits_value (acc : Z) (s : string) : option Z :=
  match s with
  | EmptyString => Some acc
  | String c s => if is_digit c then digits_value (10 * acc + (Z.of_N (N_of_ascii c) - 48)) s else None
  end.
Definition unsigned (s : string) : option Z := if decide (s = "") then None else digits_value 0 s.
Definition Atoi (s : string) : option Z :=
  match s with
  | String "-"%char s => v ← unsigned s; if (v <=? 2 ^ 63)%Z then Some (- v)%Z else None
  | String "+"%char s => v ← unsigned s; if (v <? 2 ^ 63)%Z then Some v else None
  | s => v ← unsigned s; if (v <? 2 ^ 63)%Z then Some v else None
  end.

(** [http.StatusText]. *)
Definition status_texts : list (Z * string) := [
  (100, "Continue"); (101, "Switching Protocols"); (102, "Processing"); (103, "Early Hints");
  (200, "OK"); (201, "Created"); (202, "Accepted"); (203, "Non-Authoritative Information"); (204, "No Content");
  (205, "Reset Content"); (206, "Partial Content"); (207, "Multi-Status"); (208, "Already Reported"); (226, "IM Used");
  (300, "Multiple Choices"); (301, "Moved Permanently"); (302, "Found"); (303, "See Other"); (304, "Not Modified");
  (305, "Use Proxy"); (307, "Temporary Redirect"); (308, "Permanent Redirect");
  (400, "Bad Request"); (401, "Unauthorized"); (402, "Payment Required"); (403, "Forbidden"); (404, "Not Found");
  (405, "Method Not Allowed"); (406, "Not Acceptable"); (407, "Proxy Authentication Required"); (408, "Request Timeout");
  (409, "Conflict"); (410, "Gone"); (411, "Length Required"); (412, "Precondition Failed");
  (413, "Request Entity Too Large"); (414, "Request URI Too Long"); (415, "Unsupported Media Type");
  (416, "Requested Range Not Satisfiable"); (417, "Expectation Failed"); (418, "I'm a teapot");
  (421, "Misdirected Request"); (422, "Unprocessable Entity"); (423, "Locked"); (424, "Failed Dependency");
  (425, "Too Early"); (426, "Upgrade Required"); (428, "Precondition Required"); (429, "Too Many Requests");
  (431, "Request Header Fields Too Large"); (451, "Unavailable For Legal Reasons");
  (500, "Internal Server Error"); (501, "Not Implemented"); (502, "Bad Gateway"); (503, "Service Unavailable");
  (504, "Gateway Timeout"); (505, "HTTP Version Not Supported"); (506, "Variant Also Negotiates");
  (507, "Insufficient Storage"); (508, "Loop Detected"); (510, "Not Extended"); (511, "Network Authentication Required")
]%Z.
Definition StatusText (code : Z) : string := default "" (snd <$> List.find (λ e, e.1 =? code)%Z status_texts).

(** * The server *)

Definition quoted (s : string) : string := String (Ascii.ascii_of_nat 34) (s +:+ String (Ascii.ascii_of_nat 34) "").
Definition wantsHTML (accept : string) : bool := contains accept "text/html".
(** The texts are ASCII without quotes, which [%q] leaves as they are. *)
Definition errorJSON (status : Z) : string :=
  "{" +:+ quoted "type" +:+ ":" +:+ quoted "Error" +:+ "," +:+ quoted "reason" +:+ ":" +:+ quoted (StatusText status) +:+ "}".

Record Response := mkResponse { rs_status : Z; rs_content_type : string; rs_cache_control : string; rs_body : string }.

Section server.
(** The embedded files by name. *)
Context (Assets : gmap string string).

Definition pageFor (path : string) : Z * string :=
  match Atoi path with
  | Some code =>
      if (code <? 100)%Z || (599 <? code)%Z then (404%Z, mget Assets "404.html")
      else match Assets !! (pretty code +:+ ".html") with
           | Some page => (code, page)
           | None => (code, mget Assets "500.html")
           end
  | None => (404%Z, mget Assets "404.html")
  end.
(** A request for the path, with this Accept header. *)
Definition Handler (path accept : string) : Response :=
  if decide (path = "/healthz") then mkResponse 200 "" "" ("ok" +:+ String (Ascii.ascii_of_nat 10) "")
  else
    let '(status, page) := pageFor (trim_prefix path "/") in
    if wantsHTML accept then mkResponse status "text/html; charset=utf-8" "no-store" page
    else mkResponse status "application/json; charset=utf-8" "no-store" (errorJSON status).

(** Every code the proxy can ask for is read back as it was printed. *)
Lemma Atoi_code (code : Z) : (100 ≤ code ≤ 599)%Z → Atoi (pretty code) = Some code.
Proof.
  intros H. assert (Forall (λ c : Z, Atoi (pretty c) = Some c) (seqZ 100 500)) as HF.
  { apply (bool_decide_unpack _). vm_compute. exact I. }
  rewrite Forall_forall in HF. apply HF, elem_of_seqZ. lia.
Qed.

(** A page for every path: the status is one a response can carry, and the page of a
    code that has one is that page, under that code. *)
Theorem error_page_answers (path : string) :
  (100 ≤ (pageFor path).1 ≤ 599)%Z ∧
  (∀ code page, (100 ≤ code ≤ 599)%Z → Assets !! (pretty code +:+ ".html") = Some page →
     pageFor (pretty code) = (code, page)) ∧
  (∀ code, (100 ≤ code ≤ 599)%Z → (pageFor (pretty code)).1 = code).
Proof.
  unfold pageFor. split; [|split].
  - destruct (Atoi path) as [code|]; [|cbn; lia]. destruct (_ || _) eqn:E; [cbn; lia|].
    apply orb_false_iff in E as [E1%Z.ltb_ge E2%Z.ltb_ge]. destruct (Assets !! _); cbn; lia.
  - intros code page H Hp. rewrite (Atoi_code _ H), Hp.
    rewrite (proj2 (Z.ltb_ge _ _)), (proj2 (Z.ltb_ge _ _)) by lia. done.
  - intros code H. rewrite (Atoi_code _ H). rewrite (proj2 (Z.ltb_ge _ _)), (proj2 (Z.ltb_ge _ _)) by lia.
    cbn. by destruct (Assets !! _).
Qed.
End server.
