(* ===== verification/Postgres.v ===== *)
(** Postgres clusters: the resource (api/addons/v1alpha1/postgrescluster_types.go),
    the objects of the CloudNativePG operator it is translated into, and the
    translation (internal/controller/addons/postgrescluster/pg_cluster_reconciler.go). *)
From S2P Require Import Prelude Text Kube Apimachinery Api KubeWorkloads.

(** * The resource *)

Definition PendingPhase : string := "Pending".
Definition ErrorPhase : string := "Error".
Definition DeletingPhase : string := "Deleting".
Definition ClusterConfigurationValid : string := "ClusterConfigurationValid".
Definition ClusterReady : string := "ClusterReady".
Definition ClusterHiberated : string := "ClusterHibernated".
Definition ClusterFenced : string := "ClusterFenced".
Definition DatabasesApplied : string := "DatabasesApplied".
Definition ContinuousWalArchivingSuccess : string := "ContinuousWalArchivingSuccess".
Definition LastBaseBackupSucceeded : string := "LastBaseBackupSucceeded".

(** Tolerations are copied, never inspected. *)
Record InstancePlacementSpec := mkInstancePlacementSpec {
  ips_topology_key : string;
  ips_placement_policy : string;
  ips_tolerations : list string;
  ips_node_selector : gmap string string;
}.
Record DatabaseSpec := mkDatabaseSpec { dbs_name : string; dbs_extensions : list string }.
Record ReplicasSpec := mkReplicasSpec { rps_num_synchronous : Z; rps_data_durability : string }.
Record PostgreSQLSpec := mkPostgreSQLSpec {
  pgs_image_catalog_ref : option string;
  pgs_major_version : Z;
  pgs_minor_version : Z;
  pgs_postgres_conf : gmap string string;
}.
Record ScheduledBaseBackupSpec := mkScheduledBaseBackupSpec { sbb_schedule : string; sbb_enabled : bool }.
Record ClusterBackupSpec := mkClusterBackupSpec {
  cbs_wal_archiving_enabled : bool;
  cbs_object_store_name : string;
  cbs_scheduled : option ScheduledBaseBackupSpec;
  cbs_last_base_backup_requested_at : option Time;
}.
Record PgStorageSpec := mkPgStorageSpec { pss_storage_class_name : string; pss_size : string }.
Record CredentialSecret := mkCredentialSecret { crs_secret_ref : SecretReference; crs_key : string }.
Record ExternalClusterSpec := mkExternalClusterSpec {
  ecs_name : string;
  ecs_host : string;
  ecs_user : string;
  ecs_port : Z;
  ecs_db_name : string;
  ecs_ssl_mode : string;
  ecs_password : CredentialSecret;
}.
Record ImportSpec := mkImportSpec { imp_databases : list string; imp_source : ExternalClusterSpec }.
Record RecoveryFromObjectStoreSpec := mkRecoveryFromObjectStoreSpec {
  ros_object_store_name : string;
  ros_source_cluster_name : string;
  ros_target_time : option string;
}.
Record RecoverySpec := mkRecoverySpec {
  rec_object_store : option RecoveryFromObjectStoreSpec;
  rec_backup_name : option string;
}.
(** [InitDbSpec] is a pointer to a struct with the pointer to the import. *)
Record BootstrapSpec := mkBootstrapSpec {
  bts_init_db : option (option ImportSpec);
  bts_recovery : option RecoverySpec;
}.

(** [PostgreSQLSpec] and [StorageSpec] are pointers the API server does not accept an
    object without; [ReplicasSpec] is optional. *)
Record PostgresClusterSpec := mkPostgresClusterSpec {
  pcs_instances : Z;
  pcs_replicas : option ReplicasSpec;
  pcs_postgresql : PostgreSQLSpec;
  pcs_bootstrap : option BootstrapSpec;
  pcs_enable_superuser_access : bool;
  pcs_storage : PgStorageSpec;
  pcs_resources : ResourceRequirements;
  pcs_placement : option InstancePlacementSpec;
  pcs_backup : option ClusterBackupSpec;
  pcs_hibernation_enabled : bool;
  pcs_fencing : option bool;
  pcs_databases : list DatabaseSpec;
}.
#[export] Instance eta_pg_spec : Eta PostgresClusterSpec := λ s,
  mkPostgresClusterSpec (pcs_instances s) (pcs_replicas s) (pcs_postgresql s) (pcs_bootstrap s)
    (pcs_enable_superuser_access s) (pcs_storage s) (pcs_resources s) (pcs_placement s) (pcs_backup s)
    (pcs_hibernation_enabled s) (pcs_fencing s) (pcs_databases s).

Record DatabaseInfo := mkDatabaseInfo { dbi_name : string; dbi_owner : string }.
Record ClusterConnectionInfo := mkClusterConnectionInfo { cci_host : string; cci_port : Z; cci_ssl_mode : string }.
Record PostgresClusterOutputs := mkPostgresClusterOutputs {
  out_cluster_name : string;
  out_write_service : string;
  out_read_service : string;
  out_client_ca_secret : string;
  out_cluster_connection : option ClusterConnectionInfo;
  out_databases : list DatabaseInfo;
  out_superuser_secret : option string;
  out_user_secrets : gmap string string;
}.
#[export] Instance eta_outputs : Eta PostgresClusterOutputs := λ o,
  mkPostgresClusterOutputs (out_cluster_name o) (out_write_service o) (out_read_service o) (out_client_ca_secret o)
    (out_cluster_connection o) (out_databases o) (out_superuser_secret o) (out_user_secrets o).
Record PostgresClusterStatus := mkPostgresClusterStatus {
  pst_observed_generation : Z;
  pst_conditions : list Condition;
  pst_phase : string;
  pst_status_hash : string;
  pst_current_major_version : string;
  pst_current_minor_version : string;
  pst_current_image : string;
  pst_outputs : option PostgresClusterOutputs;
  pst_last_immediate_backup_processed_at : option Time;
}.
#[export] Instance eta_pg_status : Eta PostgresClusterStatus := λ s,
  mkPostgresClusterStatus (pst_observed_generation s) (pst_conditions s) (pst_phase s) (pst_status_hash s)
    (pst_current_major_version s) (pst_current_minor_version s) (pst_current_image s) (pst_outputs s)
    (pst_last_immediate_backup_processed_at s).
#[export] Instance database_info_eq_dec : EqDecision DatabaseInfo.
Proof. solve_decision. Defined.
#[export] Instance connection_info_eq_dec : EqDecision ClusterConnectionInfo.
Proof. solve_decision. Defined.
#[export] Instance outputs_eq_dec : EqDecision PostgresClusterOutputs.
Proof. solve_decision. Defined.
#[export] Instance pg_status_eq_dec : EqDecision PostgresClusterStatus.
Proof. solve_decision. Defined.
Record PostgresCluster := mkPostgresCluster {
  pg_meta : ObjectMeta; pg_spec : PostgresClusterSpec; pg_status : PostgresClusterStatus }.
#[export] Instance eta_pg : Eta PostgresCluster := λ p, mkPostgresCluster (pg_meta p) (pg_spec p) (pg_status p).
Definition pg_name (p : PostgresCluster) : string := om_name (pg_meta p).
Definition pg_namespace (p : PostgresCluster) : string := om_namespace (pg_meta p).

Definition CnpgClusterName (p : PostgresCluster) : string :=
  pg_name p +:+ "-" +:+ pretty (pgs_major_version (pcs_postgresql (pg_spec p))).
Definition DbConnectionString (e : ExternalClusterSpec) (password : string) : string :=
  "host=" +:+ ecs_host e +:+ " port=" +:+ pretty (ecs_port e) +:+ " user=" +:+ ecs_user e +:+ " dbname=" +:+
  ecs_db_name e +:+ " sslmode=" +:+ ecs_ssl_mode e +:+ " password=" +:+ password.

(** * The operator's objects

    The fields the agent sets or reads, and the operator's constants. *)

Class CnpgConstants := {
  ConditionClusterReady : string;
  ConditionBackup : string;
  ConditionContinuousArchiving : string;
  BackupPhaseCompleted : string;
  HibernationConditionType : string;
  HibernationOn : string;
  HibernationOff : string;
}.

Record PluginConfiguration := mkPluginConfiguration {
  plg_name : string;
  plg_enabled : option bool;
  plg_is_wal_archiver : option bool;
  plg_parameters : gmap string string;
}.
Record ExternalCluster := mkExternalCluster {
  exc_name : string;
  exc_connection_parameters : gmap string string;
  exc_password : option SecretKeySelector;
  exc_plugin : option PluginConfiguration;
}.
(** What a bootstrap starts from: an empty database, an import, or a recovery from an
    external cluster (to a point in time) or from a backup. *)
Record CnpgImport := mkCnpgImport { ci_external_cluster : string; ci_type : string; ci_databases : list string }.
Record BootstrapRecovery := mkBootstrapRecovery {
  br_source : string; br_target_time : option string; br_backup : option string }.
Inductive BootstrapConfiguration :=
  | InitDB (import : option CnpgImport)
  | Recovery (r : BootstrapRecovery).
Record SynchronousReplicas := mkSynchronousReplicas { syn_method : string; syn_number : Z; syn_data_durability : string }.
Record AffinityConfiguration := mkAffinityConfiguration {
  aff_topology_key : string;
  aff_node_selector : gmap string string;
  aff_tolerations : list string;
  aff_pod_anti_affinity_type : string;
}.
Record CnpgClusterSpec := mkCnpgClusterSpec {
  cls_instances : Z;
  cls_image_name : string;
  cls_storage : option string * string;
  cls_bootstrap : option BootstrapConfiguration;
  cls_external_clusters : list ExternalCluster;
  cls_plugins : list PluginConfiguration;
  cls_synchronous : option SynchronousReplicas;
  cls_parameters : gmap string string;
  cls_affinity : AffinityConfiguration;
  cls_enable_superuser_access : option bool;
  cls_resources : ResourceRequirements;
  cls_enable_pdb : option bool;
}.
#[export] Instance eta_cnpg_spec : Eta CnpgClusterSpec := λ s,
  mkCnpgClusterSpec (cls_instances s) (cls_image_name s) (cls_storage s) (cls_bootstrap s) (cls_external_clusters s)
    (cls_plugins s) (cls_synchronous s) (cls_parameters s) (cls_affinity s) (cls_enable_superuser_access s)
    (cls_resources s) (cls_enable_pdb s).
Record CnpgClusterStatus := mkCnpgClusterStatus {
  clt_conditions : list Condition; clt_phase : string; clt_write_service : string; clt_read_service : string }.
Record CnpgCluster := mkCnpgCluster {
  cl_meta : ObjectMeta; cl_spec : CnpgClusterSpec; cl_status : CnpgClusterStatus }.
#[export] Instance eta_cnpg : Eta CnpgCluster := λ c, mkCnpgCluster (cl_meta c) (cl_spec c) (cl_status c).
Definition no_affinity : AffinityConfiguration := mkAffinityConfiguration "" ∅ [] "".
Definition new_cnpg_cluster (n ns : string) : CnpgCluster :=
  mkCnpgCluster (object_meta n ns)
    (mkCnpgClusterSpec 0 "" (None, "") None [] [] None ∅ no_affinity None (∅, ∅) None)
    (mkCnpgClusterStatus [] "" "" "").

(** The images of a catalogue by major version; the clusters an object store has
    backups of; a backup. *)
Record ImageCatalog := mkImageCatalog { cat_meta : ObjectMeta; cat_images : list (Z * string) }.
Record ObjectStore := mkObjectStore { obs_meta : ObjectMeta; obs_server_recovery_window : gmap string unit }.
Record BackupSpec := mkBackupSpec { bks_cluster : string; bks_method : string; bks_plugin : PluginConfiguration }.
Record Backup := mkBackup { bk_meta : ObjectMeta; bk_spec : BackupSpec; bk_phase : string }.
#[export] Instance eta_backup : Eta Backup := λ b, mkBackup (bk_meta b) (bk_spec b) (bk_phase b).

(** * The translation *)

Definition barmanPlugin : string := "barman-cloud.cloudnative-pg.io".

Definition buildAffinityConfiguration (p : PostgresCluster) : AffinityConfiguration :=
  match pcs_placement (pg_spec p) with
  | None => no_affinity
  | Some i => mkAffinityConfiguration (ips_topology_key i) (ips_node_selector i) (ips_tolerations i)
                (ips_placement_policy i)
  end.

(** The replicas are read through a pointer that may be nil. *)
Definition buildPostgresConfiguration (p : PostgresCluster) : result (option SynchronousReplicas * gmap string string) :=
  match pcs_replicas (pg_spec p) with
  | None => Err (Panic "nil pointer dereference")
  | Some r =>
      Ok (if (0 <? rps_num_synchronous r)%Z && (1 <? pcs_instances (pg_spec p))%Z
          then Some (mkSynchronousReplicas "any" (rps_num_synchronous r) (rps_data_durability r)) else None,
          pgs_postgres_conf (pcs_postgresql (pg_spec p)))
  end.

Definition buildPluginsSpec (p : PostgresCluster) : list PluginConfiguration :=
  match pcs_backup (pg_spec p) with
  | Some b =>
      if cbs_wal_archiving_enabled b then
        [mkPluginConfiguration barmanPlugin (Some true) (Some true)
           {[ "barmanObjectName" := cbs_object_store_name b ]}]
      else []
  | None => []
  end.

Definition importSource (s : ExternalClusterSpec) : ExternalCluster :=
  mkExternalCluster (ecs_name s)
    {[ "host" := ecs_host s; "port" := pretty (ecs_port s); "user" := ecs_user s; "dbname" := ecs_db_name s;
       "sslmode" := ecs_ssl_mode s ]}
    (Some (mkSecretKeySelector (sr_ref_name (crs_secret_ref (ecs_password s))) (crs_key (ecs_password s)))) None.
Definition recoverySource (o : RecoveryFromObjectStoreSpec) : ExternalCluster :=
  mkExternalCluster (ros_object_store_name o) ∅ None
    (Some (mkPluginConfiguration barmanPlugin None None
      {[ "barmanObjectName" := ros_object_store_name o; "serverName" := ros_source_cluster_name o ]})).
Definition buildExternalClusters (p : PostgresCluster) : list ExternalCluster :=
  match pcs_bootstrap (pg_spec p) with
  | None => []
  | Some b =>
      match bts_init_db b, bts_recovery b with
      | Some (Some i), _ => [importSource (imp_source i)]
      | _, Some (mkRecoverySpec (Some o) _) => [recoverySource o]
      | _, _ => []
      end
  end.

Definition buildRecoveryDefaults : BootstrapRecovery := mkBootstrapRecovery "" None None.
Definition buildBootstrapSpec (p : PostgresCluster) : option BootstrapConfiguration :=
  match pcs_bootstrap (pg_spec p) with
  | None => None
  | Some b =>
      match bts_init_db b, bts_recovery b with
      | None, None => None
      | Some import, _ =>
          Some (InitDB ((λ i, mkCnpgImport (ecs_name (imp_source i)) "microservice" (imp_databases i)) <$> import))
      | None, Some (mkRecoverySpec (Some o) _) =>
          Some (Recovery (mkBootstrapRecovery (ros_object_store_name o) (ros_target_time o)
                            (br_backup buildRecoveryDefaults)))
      | None, Some (mkRecoverySpec None (Some backup)) =>
          Some (Recovery (mkBootstrapRecovery (br_source buildRecoveryDefaults) (br_target_time buildRecoveryDefaults)
                            (Some backup)))
      | None, Some _ => None
      end
  end.

(** [buildDesiredCluster] is not called. *)
Definition buildDesiredCluster (p : PostgresCluster) (image : string) : result CnpgCluster :=
  '(synchronous, parameters) ← buildPostgresConfiguration p;
  Ok (mkCnpgCluster (object_meta (CnpgClusterName p) (pg_namespace p))
    (mkCnpgClusterSpec (pcs_instances (pg_spec p)) image
       (Some (pss_storage_class_name (pcs_storage (pg_spec p))), pss_size (pcs_storage (pg_spec p)))
       (buildBootstrapSpec p) (buildExternalClusters p) (buildPluginsSpec p) synchronous parameters
       (buildAffinityConfiguration p) (Some (pcs_enable_superuser_access (pg_spec p))) (pcs_resources (pg_spec p))
       (Some (negb (bool_decide (pcs_instances (pg_spec p) = 1)%Z))))
    (mkCnpgClusterStatus [] "" "" "")).
