(* ===== verification/PostgresController.v ===== *)
(** The Postgres cluster controller (internal/controller/addons/postgrescluster): a
    pass validates the spec, keeps the operator's cluster as the spec says, hibernates
    or fences it, keeps its databases, and asks for backups. *)
From S2P Require Import Prelude Text Kube Apimachinery Api KubeWorkloads Objects Postgres.

Definition cacheFinalizer : string := "addons-postgrescluster.stackdome.io/cache".
Definition requeueIntervalOnValidationFailure : Duration := (30 * second)%Z.

(** * More of the operator's objects *)

Inductive EnsureOption := EnsurePresent | EnsureAbsent.
#[export] Instance ensure_eq_dec : EqDecision EnsureOption.
Proof. solve_decision. Defined.
Record CnpgDatabaseSpec := mkCnpgDatabaseSpec {
  dsp_cluster : string;
  dsp_name : string;
  dsp_owner : string;
  dsp_ensure : EnsureOption;
  dsp_extensions : list (string * EnsureOption);
}.
#[export] Instance eta_database_spec : Eta CnpgDatabaseSpec := λ s,
  mkCnpgDatabaseSpec (dsp_cluster s) (dsp_name s) (dsp_owner s) (dsp_ensure s) (dsp_extensions s).
Record CnpgDatabaseStatus := mkCnpgDatabaseStatus {
  dbt_applied : option bool; dbt_observed_generation : Z; dbt_extensions : list (string * bool) }.
Record Database := mkDatabase { db_meta : ObjectMeta; db_spec : CnpgDatabaseSpec; db_status : CnpgDatabaseStatus }.
#[export] Instance eta_database : Eta Database := λ d, mkDatabase (db_meta d) (db_spec d) (db_status d).
Definition db_name (d : Database) : string := om_name (db_meta d).

#[export] Instance plugin_eq_dec : EqDecision PluginConfiguration.
Proof. solve_decision. Defined.
Record ScheduledBackupSpec := mkScheduledBackupSpec {
  sbs_owner_reference : string;
  sbs_schedule : string;
  sbs_immediate : option bool;
  sbs_cluster : string;
  sbs_method : string;
  sbs_plugin : PluginConfiguration;
}.
#[export] Instance scheduled_backup_spec_eq_dec : EqDecision ScheduledBackupSpec.
Proof. solve_decision. Defined.
Record ScheduledBackup := mkScheduledBackup { sb_meta : ObjectMeta; sb_spec : ScheduledBackupSpec }.
#[export] Instance eta_scheduled_backup : Eta ScheduledBackup := λ s, mkScheduledBackup (sb_meta s) (sb_spec s).

(** [Quantity.Cmp] is -1; the cron parser accepts a schedule; base64 decoding; the
    formats "20060102-150405" and RFC 3339 of an instant in UTC; the package
    [database/sql], whose connections are handles. *)
Class QuantityOrder := quantity_less : string → string → bool.
Class CronParse := cron_valid : string → bool.
Class Base64Decode := base64_decode : string → result string.
Class BackupTimeFormat := { compact_time : Time → string; rfc3339 : Time → string }.
Class SqlDriver (W : Type) := {
  sql_open : string → string → SE W nat;
  sql_ping : nat → SE W unit;
  sql_close : nat → SE W unit;
}.

(** * The check of a connection (pkg/database/db.go) *)

Definition PostgresDialect : string := "postgres".
Section connection.
Context {W : Type} {SD : SqlDriver W}.
Definition Connect (dialect connection : string) : SE W nat :=
  if decide (dialect = PostgresDialect) then sql_open PostgresDialect connection
  else fail (Errorf ("unsupported database dialect: " +:+ dialect)).
(** The connection is closed whatever the answer, and its closing is not checked. *)
Definition Ping (dialect connection : string) : SE W unit :=
  conn ← wrapping "failed to connect to database: " (Connect dialect connection);
  answer ← attempt (wrapping "failed to ping database: " (sql_ping conn));
  _ ← attempt (sql_close conn);
  of_result answer.
End connection.

Section controller.
Context {CC : CnpgConstants} {QP : QuantityParse} {QO : QuantityOrder} {CP : CronParse} {BD : Base64Decode}.
Context {TF : BackupTimeFormat} {CA : ConditionsApi} {OA : OwnerApi} {FA : FinalizerApi}.
Context {SO : StringMapOrder} {W : Type} {CK : Clock W} {DP : SqlDriver W}.
Context {KP : Kind W PostgresCluster} {KC : Kind W CnpgCluster} {UC : CreateOrUpdate W CnpgCluster}.
Context {KI : Kind W ImageCatalog} {KO : Kind W ObjectStore} {KB : Kind W Backup} {KSB : Kind W ScheduledBackup}.
Context {KD : Kind W Database} {KSec : Kind W Secret} {KSC : Kind W StorageClass}.

(** ** Reports *)

Definition withCondition (t : Time) (type : string) (st : ConditionStatus) (reason msg : string)
    (p : PostgresCluster) : PostgresCluster :=
  p <| pg_status ::= λ s, s <| pst_observed_generation := om_generation (pg_meta p) |>
         <| pst_conditions ::= λ cs, set_status_condition t cs
              (new_condition type st (om_generation (pg_meta p)) reason msg) |> |>.
Definition setStatusCondition (type : string) (st : ConditionStatus) (reason msg : string)
    : OM W PostgresCluster unit :=
  t ← call now; assign (withCondition t type st reason msg).
Definition setPhase (phase : string) : OM W PostgresCluster unit :=
  assign (λ p, p <| pg_status ::= λ s, s <| pst_phase := phase |> |>).
Definition conditionOf (type : string) (p : PostgresCluster) : option Condition :=
  find_status_condition (pst_conditions (pg_status p)) type.
Definition clusterIsReady (p : PostgresCluster) : bool :=
  match conditionOf ClusterReady p with
  | Some c => (c_observed_generation c =? om_generation (pg_meta p))%Z && bool_decide (c_status c = ConditionTrue)
  | None => false
  end.

(** ** Validation *)

Definition invalid (reason msg : string) : OM W PostgresCluster subReconcilerResult :=
  _ ← setStatusCondition ClusterConfigurationValid ConditionFalse reason msg;
  _ ← setPhase ErrorPhase;
  mret resultStop.
(** Get an object the spec refers to. *)
Definition referred {O} `{Kind W O} (ns name : string) (missing : OM W PostgresCluster subReconcilerResult)
    (found : O → OM W PostgresCluster subReconcilerResult) : OM W PostgresCluster subReconcilerResult :=
  got ← call (attempt (kget (O:=O) ns name));
  match got with
  | Err e => if is_not_found e then missing else fail e
  | Ok o => found o
  end.

Definition shouldRunValidation (p : PostgresCluster) : bool :=
  match conditionOf ClusterConfigurationValid p with
  | Some c => negb (bool_decide (c_status c = ConditionTrue)) ||
              negb (c_observed_generation c =? om_generation (pg_meta p))%Z
  | None => true
  end.

Definition validateReplicasSpec : OM W PostgresCluster subReconcilerResult :=
  p ← look id;
  match pcs_replicas (pg_spec p) with
  | None => fail (Panic "nil pointer dereference")
  | Some r =>
      if (pcs_instances (pg_spec p) <=? rps_num_synchronous r)%Z then
        invalid "InvalidSynchronousReplicas"
          ("Number of synchronous replicas (" +:+ pretty (rps_num_synchronous r) +:+
           ") cannot be greater than or equal to total instances (" +:+ pretty (pcs_instances (pg_spec p)) +:+ ")")
      else mret resultNil
  end.

Definition validateStorageSpec : OM W PostgresCluster subReconcilerResult :=
  p ← look id;
  let class := pss_storage_class_name (pcs_storage (pg_spec p)) in
  referred (O:=StorageClass) "" class
    (invalid "StorageClassNotFound" ("storage class '" +:+ class +:+ "' not found in cluster"))
    (λ _, mret resultNil).

Definition scheduled (b : ClusterBackupSpec) : option string :=
  match cbs_scheduled b with
  | Some s => if sbb_enabled s then Some (sbb_schedule s) else None
  | None => None
  end.
Definition validateBackupSpec : OM W PostgresCluster subReconcilerResult :=
  p ← look id;
  match pcs_backup (pg_spec p) with
  | None => mret resultNil
  | Some b =>
      referred (O:=ObjectStore) (pg_namespace p) (cbs_object_store_name b)
        (invalid "ObjectStoreNotFound" "Backup object store not found") (λ _,
        match scheduled b with
        | None => if cbs_wal_archiving_enabled b
                  then invalid "WalArchivingRequiresScheduledBackup"
                         "WAL archiving requires scheduled base backup to be enabled"
                  else mret resultNil
        | Some schedule => if cron_valid schedule then mret resultNil
                           else invalid "BaseBackupScheduleInvalid" "Base backup schedule is invalid"
        end)
  end.

(** [lo.Find] on the images of the catalogue. *)
Definition catalogImage (major : Z) (c : ImageCatalog) : option string :=
  snd <$> List.find (λ i, i.1 =? major)%Z (cat_images c).
Definition validateImageCatalogPresent : OM W PostgresCluster subReconcilerResult :=
  p ← look id;
  let pg := pcs_postgresql (pg_spec p) in
  match pgs_image_catalog_ref pg with
  | None => invalid "ImageCatalogNotFound" "PostgreSQL image catalog reference is not set"
  | Some name =>
      if decide (name = "") then invalid "ImageCatalogNameEmpty" "PostgreSQL image catalog name is empty"
      else referred (O:=ImageCatalog) (pg_namespace p) name
             (invalid "ImageCatalogNotFound" "PostgreSQL image catalog not found") (λ c,
             match catalogImage (pgs_major_version pg) c with
             | Some _ => mret resultNil
             | None => invalid "ImageCatalogVersionNotFound"
                 ("PostgreSQL version '" +:+ pretty (pgs_major_version pg) +:+
                  "' not found in image catalog '" +:+ name +:+ "'")
             end)
  end.

Definition ensureSourceClusterAccess (s : ExternalClusterSpec) : OM W PostgresCluster subReconcilerResult :=
  p ← look id;
  referred (O:=Secret) (pg_namespace p) (sr_ref_name (crs_secret_ref (ecs_password s)))
    (invalid "InitDbSourceClusterPasswordSecretNotFound" "Source cluster password secret not found") (λ secret,
    match base64_decode (default "" (sec_data secret !! crs_key (ecs_password s))) with
    | Err _ => invalid "InitDbSourceClusterPasswordBase64DecodeError"
                 "Failed to decode base64 encoded source cluster password"
    | Ok password =>
        if decide (password = "") then invalid "InitDbSourceClusterPasswordEmpty" "Source cluster password is empty"
        else
          answer ← call (attempt (Ping PostgresDialect (DbConnectionString s password)));
          match answer with
          | Err _ => invalid "InitDbSourceClusterConnectionError" "Failed to connect to source cluster"
          | Ok _ => mret resultNil
          end
    end).
Definition validateInitDbSpec (import : option ImportSpec) : OM W PostgresCluster subReconcilerResult :=
  match import with
  | Some i => ensureSourceClusterAccess (imp_source i)
  | None => mret resultNil
  end.
Definition validateRecoveryBackup (name : option string) : OM W PostgresCluster subReconcilerResult :=
  p ← look id;
  match name with
  | None => mret resultNil
  | Some name =>
      referred (O:=Backup) (pg_namespace p) name (invalid "BackupNotFound" "Backup not found for recovery") (λ b,
        if decide (bk_phase b = BackupPhaseCompleted) then mret resultNil
        else invalid "BackupNotCompleted" "Referenced Backup is not completed for recovery")
  end.
Definition validateRecoverySpec (r : RecoverySpec) : OM W PostgresCluster subReconcilerResult :=
  p ← look id;
  match rec_object_store r with
  | None => validateRecoveryBackup (rec_backup_name r)
  | Some o =>
      referred (O:=ObjectStore) (pg_namespace p) (ros_object_store_name o)
        (invalid "ObjectStoreNotFound" "Object store not found for recovery") (λ store,
        match obs_server_recovery_window store !! ros_source_cluster_name o with
        | None => invalid "ObjectStoreNoBackupsFound"
            ("No backups found for source cluster '" +:+ ros_source_cluster_name o +:+ "' in object store '" +:+
             ros_object_store_name o +:+ "'")
        | Some _ => validateRecoveryBackup (rec_backup_name r)
        end)
  end.
Definition validateBootstrapSpec : OM W PostgresCluster subReconcilerResult :=
  p ← look id;
  match pcs_bootstrap (pg_spec p) with
  | None => mret resultNil
  | Some b =>
      match bts_init_db b, bts_recovery b with
      | Some import, _ => validateInitDbSpec import
      | None, Some r => validateRecoverySpec r
      | None, None => mret resultNil
      end
  end.

(** A Go map, walked in whatever order. *)
Definition validations : gmap string (OM W PostgresCluster subReconcilerResult) :=
  {[ "ReplicasSpecValidation" := validateReplicasSpec;
     "StorageSpecValidation" := validateStorageSpec;
     "BackupSpecValidation" := validateBackupSpec;
     "ImageCatalogValidation" := validateImageCatalogPresent;
     "BootstrapSpecValidation" := validateBootstrapSpec ]}.
Fixpoint runValidations (l : list (string * OM W PostgresCluster subReconcilerResult))
    : OM W PostgresCluster subReconcilerResult :=
  match l with
  | [] => mret resultNil
  | (name, validate) :: l =>
      res ← wrapping ("error during " +:+ name +:+ ": ") validate;
      if isStop res || isRequeue res then mret (resultRequeueAfter requeueIntervalOnValidationFailure)
      else match requeueAfter res with
           | Some t => mret (resultRequeueAfter t)
           | None => runValidations l
           end
  end.
Definition reconcileValidation : OM W PostgresCluster subReconcilerResult :=
  p ← look id;
  if negb (shouldRunValidation p) then mret resultNil
  else
    res ← runValidations (string_map_order validations);
    if decide (res = resultNil) then
      _ ← setStatusCondition ClusterConfigurationValid ConditionTrue "ClusterConfigurationValid"
            "PostgresCluster configuration is valid";
      mret resultNil
    else mret res.

(** ** The cluster *)

(** The mutation; whether it refused to shrink the storage. *)
Definition mutateCluster (p : PostgresCluster) (image : string) (c : CnpgCluster) : SE W (CnpgCluster * bool) :=
  let size := (cls_storage (cl_spec c)).2 in
  let desired := pss_size (pcs_storage (pg_spec p)) in
  shrinks ← (if decide (size = "") then mret false
             else
               want ← wrapping ("failed to parse storage size " +:+ desired +:+ ": ") (of_result (parse_quantity desired));
               have ← wrapping ("failed to parse existing storage size " +:+ size +:+ ": ")
                        (of_result (parse_quantity size));
               mret (quantity_less want have));
  if (shrinks : bool) then mret (c, true)
  else
    '(synchronous, parameters) ← of_result (buildPostgresConfiguration p);
    let c := c <| cl_spec := mkCnpgClusterSpec (pcs_instances (pg_spec p))
      (if decide (cls_image_name (cl_spec c) = "") then image else cls_image_name (cl_spec c))
      (Some (pss_storage_class_name (pcs_storage (pg_spec p))), desired)
      (buildBootstrapSpec p) (buildExternalClusters p) (buildPluginsSpec p) synchronous parameters
      (buildAffinityConfiguration p) (Some (pcs_enable_superuser_access (pg_spec p))) (pcs_resources (pg_spec p))
      (Some (negb (bool_decide (pcs_instances (pg_spec p) = 1)%Z))) |> in
    m ← of_result (set_controller_reference (pg_meta p) (cl_meta c));
    mret (c <| cl_meta := m |>, false).

Definition serviceHost (service ns : string) : string := service +:+ "." +:+ ns +:+ ".svc.cluster.local".
Definition clusterOutputs (c : CnpgCluster) : PostgresClusterOutputs :=
  let host := serviceHost (clt_write_service (cl_status c)) (om_namespace (cl_meta c)) in
  mkPostgresClusterOutputs (om_name (cl_meta c)) host
    (serviceHost (clt_read_service (cl_status c)) (om_namespace (cl_meta c))) ""
    (Some (mkClusterConnectionInfo host 5432 "require")) [] None ∅.
Definition SecretTypeBasicAuth : string := "kubernetes.io/basic-auth".
(** What one Secret of the namespace adds. *)
Definition secretOutput (cluster : string) (o : PostgresClusterOutputs) (s : Secret) : PostgresClusterOutputs :=
  let name := om_name (sec_meta s) in
  if decide (sec_type s = SecretTypeBasicAuth ∧ name = cluster +:+ "-superuser")
  then o <| out_superuser_secret := Some name |>
  else if decide (name = cluster +:+ "-ca") then o <| out_client_ca_secret := name |>
  else if bool_decide (sec_type s = SecretTypeBasicAuth) && String.prefix cluster name
  then o <| out_user_secrets ::= <[default "" (sec_data s !! "username") := name]> |>
  else o.
Definition populateStatus (c : CnpgCluster) : OM W PostgresCluster unit :=
  _ ← assign (λ p, p <| pg_status ::= λ s, s
        <| pst_current_image := cls_image_name (cl_spec c) |>
        <| pst_current_major_version := pretty (pgs_major_version (pcs_postgresql (pg_spec p))) |>
        <| pst_current_minor_version := pretty (pgs_minor_version (pcs_postgresql (pg_spec p))) |>
        <| pst_outputs := Some (clusterOutputs c) |> |>);
  p ← look id;
  secrets ← call (wrapping ("failed to list secrets in namespace " +:+ pg_namespace p +:+ ": ")
                    (klist (O:=Secret) (pg_namespace p) []));
  assign (λ p, p <| pg_status ::= λ s, s <| pst_outputs ::= fmap (λ o,
    foldl (secretOutput (om_name (cl_meta c))) o secrets) |> |>).

Definition reconcileCluster : OM W PostgresCluster subReconcilerResult :=
  p ← look id;
  let pg := pcs_postgresql (pg_spec p) in
  match pgs_image_catalog_ref pg with
  | None => fail (Panic "nil pointer dereference")
  | Some name =>
      catalog ← call (kget (O:=ImageCatalog) (pg_namespace p) name);
      match catalogImage (pgs_major_version pg) catalog with
      | None => fail (Errorf ("image not found in catalog " +:+ name +:+ " for version " +:+ pretty (pgs_major_version pg)))
      | Some image =>
          res ← call (create_or_update bool (new_cnpg_cluster (CnpgClusterName p) (pg_namespace p))
                        (mutateCluster p image));
          let c := res.1.1 in
          if (res.1.2 : bool) then invalid "InvalidStorageSize" "Desired storage size is less than existing"
          else if bool_decide ((c_status <$> find_status_condition (clt_conditions (cl_status c)) ConditionClusterReady)
                               = Some ConditionTrue) then
            _ ← setStatusCondition ClusterReady ConditionTrue "Ready" "PostgresCluster is ready";
            _ ← setPhase (clt_phase (cl_status c));
            _ ← populateStatus c;
            mret resultNil
          else
            _ ← setStatusCondition ClusterReady ConditionFalse "NotReady" "PostgresCluster is not ready";
            _ ← setPhase (clt_phase (cl_status c));
            mret resultStop
      end
  end.

(** ** Hibernation and fencing *)

Definition dquote : string := String (Ascii.ascii_of_nat 34) "".
Definition fencedInstanceAnnotation : string := "cnpg.io/fencedInstances".
(** The single quotes are part of the value. *)
Definition clusterFencedAnnotationValue : string := "'[" +:+ dquote +:+ "*" +:+ dquote +:+ "]'".
Definition removeCondition (type : string) : OM W PostgresCluster unit :=
  assign (λ p, p <| pg_status ::= λ s, s <| pst_conditions ::= λ cs, remove_status_condition cs type |> |>).
Definition annotate (key value : string) (c : CnpgCluster) : CnpgCluster :=
  c <| cl_meta ::= λ m, m <| om_annotations ::= <[key := value]> |> |>.

Definition reconcileClusterHibernation (c : CnpgCluster) : OM W PostgresCluster subReconcilerResult :=
  p ← look id;
  let value := if pcs_hibernation_enabled (pg_spec p) then HibernationOn else HibernationOff in
  let hibernated := find_status_condition (clt_conditions (cl_status c)) HibernationConditionType in
  if decide (om_annotations (cl_meta c) !! HibernationConditionType ≠ Some value) then
    _ ← call (kupdate (annotate HibernationConditionType value c)); mret resultRequeue
  else if decide (value = HibernationOn) then
    match hibernated with
    | Some h =>
        if decide (c_status h = ConditionTrue) then
          _ ← setStatusCondition ClusterHiberated ConditionTrue "ClusterHibernated" "The cluster is currently hibernated";
          mret resultNil
        else mret resultStop
    | None => mret resultStop
    end
  else if decide (value = HibernationOff) then
    if match hibernated with Some h => bool_decide (c_status h = ConditionFalse) | None => true end then
      _ ← removeCondition ClusterHiberated; mret resultNil
    else mret resultStop
  else mret resultNil.

Definition reconcileClusterFencing (c : CnpgCluster) : OM W PostgresCluster subReconcilerResult :=
  p ← look id;
  let existing := om_annotations (cl_meta c) !! fencedInstanceAnnotation in
  if default false (pcs_fencing (pg_spec p)) then
    if decide (existing ≠ Some clusterFencedAnnotationValue) then
      _ ← call (kupdate (annotate fencedInstanceAnnotation clusterFencedAnnotationValue c));
      mret (resultRequeueAfter (30 * second)%Z)
    else
      _ ← setStatusCondition ClusterFenced ConditionTrue "ClusterFenced" "The cluster is currently fenced";
      mret resultNil
  else if decide (is_Some existing) then
    _ ← call (kupdate (c <| cl_meta ::= λ m, m <| om_annotations ::= delete fencedInstanceAnnotation |> |>));
    mret (resultRequeueAfter (30 * second)%Z)
  else
    _ ← removeCondition ClusterFenced; mret resultNil.

Definition reconcileLifecycle : OM W PostgresCluster subReconcilerResult :=
  p ← look id;
  c ← call (kget (O:=CnpgCluster) (pg_namespace p) (CnpgClusterName p));
  res ← reconcileClusterHibernation c;
  if decide (res = resultNil) then reconcileClusterFencing c else mret res.
(** ** Databases *)

Definition defaultDatabaseOwner : string := "app".
Definition defaultDatabaseName : string := "app".
Definition createdByLabel : string := "addons.postgres.stackdome.io/created-by".
Definition createdByValue : string := "stackdome-addons-controller".

Definition desiredDatabase (p : PostgresCluster) (d : DatabaseSpec) : Database :=
  mkDatabase ((object_meta (dbs_name d) (pg_namespace p)) <| om_labels := {[ createdByLabel := createdByValue ]} |>)
    (mkCnpgDatabaseSpec (CnpgClusterName p) (dbs_name d) defaultDatabaseOwner EnsurePresent
       ((λ e, (e, EnsurePresent)) <$> dbs_extensions d))
    (mkCnpgDatabaseStatus None 0 []).
(** An existing database is left as it is. *)
Definition ensureDatabase (p : PostgresCluster) (d : DatabaseSpec) : SE W unit :=
  m ← of_result (set_controller_reference (pg_meta p) (db_meta (desiredDatabase p d)));
  got ← attempt (kget (O:=Database) (pg_namespace p) (dbs_name d));
  match got with
  | Ok _ => mret tt
  | Err e => if is_not_found e then _ ← kcreate ((desiredDatabase p d) <| db_meta := m |>); mret tt else fail e
  end.
Fixpoint ensureDatabases (p : PostgresCluster) (l : list DatabaseSpec) : SE W unit :=
  match l with
  | [] => mret tt
  | d :: l => _ ← ensureDatabase p d; ensureDatabases p l
  end.

Definition databaseApplied (d : Database) : bool :=
  bool_decide (dbt_applied (db_status d) = Some true) &&
  (dbt_observed_generation (db_status d) =? om_generation (db_meta d))%Z.
(** The walk over the databases of the namespace: it ends at the first that is on
    its way out. *)
Fixpoint removeUnWanted (wanted : list string) (l : list Database) : SE W unit :=
  match l with
  | [] => mret tt
  | d :: l =>
      if decide (dsp_name (db_spec d) = defaultDatabaseName) then removeUnWanted wanted l
      else if decide (db_name d ∈ wanted) then removeUnWanted wanted l
      else if decide (dsp_ensure (db_spec d) = EnsureAbsent) then
        if databaseApplied d then ignore_not_found (kdelete d) else mret tt
      else
        _ ← ignore_not_found (_ ← kupdate (d <| db_spec ::= λ s, s <| dsp_ensure := EnsureAbsent |> |>); mret tt);
        removeUnWanted wanted l
  end.
Definition reconcileUnWantedDatabases (p : PostgresCluster) : SE W unit :=
  l ← klist (O:=Database) (pg_namespace p) [{[ createdByLabel := createdByValue ]}];
  removeUnWanted (dbs_name <$> pcs_databases (pg_spec p)) l.

(** Each entry of the status overwrites what the one before it said. *)
Definition extensionsApplied (desired : list string) (existing : list (string * bool)) : bool :=
  foldl (λ _ e, if decide (e.1 ∈ desired) then e.2 else false) true existing.
Definition reconcileDatabaseStatus (p : PostgresCluster) (d : DatabaseSpec) : SE W (bool * string) :=
  existing ← kget (O:=Database) (pg_namespace p) (dbs_name d);
  if negb (databaseApplied existing) then mret (false, "Database '" +:+ dbs_name d +:+ "' not applied")
  else if negb (extensionsApplied (dbs_extensions d) (dbt_extensions (db_status existing))) then
    mret (false, "Extensions for database '" +:+ dbs_name d +:+ "' not applied")
  else mret (true, "Database and extensions are applied").

Definition setDatabases (names : list string) : OM W PostgresCluster unit :=
  p ← look id;
  match pst_outputs (pg_status p) with
  | None => fail (Panic "nil pointer dereference")
  | Some o => assign (λ p, p <| pg_status ::= λ s, s
      <| pst_outputs := Some (o <| out_databases := (λ n, mkDatabaseInfo n defaultDatabaseOwner) <$> names |>) |> |>)
  end.
Definition populateDatabaseInfoStatus (l : list DatabaseSpec) : OM W PostgresCluster unit :=
  setDatabases (Unique id ((dbs_name <$> l) ++ [defaultDatabaseName])).
Definition databaseStep (d : DatabaseSpec) : OM W PostgresCluster subReconcilerResult :=
  p ← look id;
  '(reconciled, msg) ← call (reconcileDatabaseStatus p d);
  if (reconciled : bool) then mret resultNil
  else _ ← setStatusCondition DatabasesApplied ConditionFalse "DatabasesNotApplied" msg; mret resultStop.
Definition reconcileDatabases : OM W PostgresCluster subReconcilerResult :=
  p ← look id;
  let l := pcs_databases (pg_spec p) in
  if negb (clusterIsReady p) then mret resultNil
  else if decide (length l = 0) then _ ← setDatabases [defaultDatabaseName]; mret resultNil
  else
    _ ← call (ensureDatabases p l);
    _ ← call (reconcileUnWantedDatabases p);
    res ← inTurn databaseStep l;
    if decide (res = resultNil) then
      _ ← setStatusCondition DatabasesApplied ConditionTrue "DatabasesApplied"
            "All databases and extensions applied successfully";
      _ ← populateDatabaseInfoStatus l;
      mret resultNil
    else mret res.

(** ** Backups *)

Definition scheduledBackupName (p : PostgresCluster) : string := CnpgClusterName p +:+ "-scheduled-backup".
Definition backupPlugin (b : ClusterBackupSpec) : PluginConfiguration :=
  mkPluginConfiguration barmanPlugin None None {[ "barmanObjectName" := cbs_object_store_name b ]}.
Definition buildDesiredScheduledBackup (p : PostgresCluster) (b : ClusterBackupSpec) (s : ScheduledBaseBackupSpec)
    (immeadiate : bool) : ScheduledBackup :=
  mkScheduledBackup (object_meta (scheduledBackupName p) (pg_namespace p))
    (mkScheduledBackupSpec "cluster" (sbb_schedule s) (Some immeadiate) (CnpgClusterName p) "plugin" (backupPlugin b)).
Definition reconcileScheduledBackup (p : PostgresCluster) (b : ClusterBackupSpec) : SE W unit :=
  match cbs_scheduled b with
  | None => mret tt
  | Some s =>
      if negb (sbb_enabled s) then mret tt
      else
        let desired := buildDesiredScheduledBackup p b s (cbs_wal_archiving_enabled b) in
        m ← of_result (set_controller_reference (pg_meta p) (sb_meta desired));
        let desired := desired <| sb_meta := m |> in
        got ← attempt (kget (O:=ScheduledBackup) (pg_namespace p) (scheduledBackupName p));
        match got with
        | Err e => if is_not_found e then _ ← kcreate desired; mret tt else fail e
        | Ok existing =>
            if decide (sb_spec existing = sb_spec desired) then mret tt
            else
              _ ← kupdate (desired <| sb_meta ::= λ m,
                    m <| om_resource_version := om_resource_version (sb_meta existing) |> |>);
              mret tt
        end
  end.

Definition shouldCreateImmeadiateBackup (processed requested : option Time) : bool :=
  match requested, processed with
  | None, _ => false
  | Some _, None => true
  | Some r, Some t => (t <? r)%Z
  end.
Definition immediateBackupName (p : PostgresCluster) (requested : Time) : string :=
  CnpgClusterName p +:+ "-" +:+ compact_time requested.
Definition immediateBackup (p : PostgresCluster) (b : ClusterBackupSpec) (requested : Time) : Backup :=
  mkBackup (object_meta (immediateBackupName p requested) (pg_namespace p))
    (mkBackupSpec (CnpgClusterName p) "plugin" (backupPlugin b)) "".
Definition createBackup (p : PostgresCluster) (b : ClusterBackupSpec) (requested : Time) : SE W unit :=
  m ← of_result (set_controller_reference (pg_meta p) (bk_meta (immediateBackup p b requested)));
  made ← attempt (kcreate ((immediateBackup p b requested) <| bk_meta := m |>));
  match made with
  | Ok _ => mret tt
  | Err e => if is_already_exists e then mret tt else fail e
  end.
(** Copy a condition of the operator's cluster, when it is there. *)
Definition relay (from type : string) (message : Condition → string) (c : CnpgCluster) : OM W PostgresCluster unit :=
  match find_status_condition (clt_conditions (cl_status c)) from with
  | Some k => setStatusCondition type (c_status k) (c_reason k) (message k)
  | None => mret tt
  end.
Definition transitionMessage (k : Condition) : string :=
  c_message k +:+ "[" +:+ rfc3339 (c_last_transition_time k) +:+ "]".
Definition reconcileBackups : OM W PostgresCluster subReconcilerResult :=
  p ← look id;
  match pcs_backup (pg_spec p) with
  | None => mret resultNil
  | Some b =>
      if negb (clusterIsReady p) then mret resultNil
      else
        _ ← call (reconcileScheduledBackup p b);
        c ← call (kget (O:=CnpgCluster) (pg_namespace p) (CnpgClusterName p));
        _ ← relay ConditionBackup LastBaseBackupSucceeded transitionMessage c;
        _ ← (if cbs_wal_archiving_enabled b
             then relay ConditionContinuousArchiving ContinuousWalArchivingSuccess c_message c else mret tt);
        p ← look id;
        match cbs_last_base_backup_requested_at b with
        | Some requested =>
            if shouldCreateImmeadiateBackup (pst_last_immediate_backup_processed_at (pg_status p)) (Some requested) then
              _ ← call (createBackup p b requested);
              t ← call now;
              _ ← assign (λ p, p <| pg_status ::= λ s, s <| pst_last_immediate_backup_processed_at := Some t |> |>);
              mret resultNil
            else mret resultNil
        | None => mret resultNil
        end
  end.

(** ** The controller *)

Definition subReconcilers : list (OM W PostgresCluster subReconcilerResult) :=
  [reconcileValidation; reconcileCluster; reconcileLifecycle; reconcileDatabases; reconcileBackups].
(** The chain of the steps. *)
Definition reconcile : OM W PostgresCluster CtrlResult := runSteps subReconcilers.
Definition observed (p : PostgresCluster) : PostgresCluster :=
  p <| pg_status ::= λ s, s <| pst_observed_generation := om_generation (pg_meta p) |> <| pst_phase := PendingPhase |> |>.
Definition statusUnknown (t : Time) (p : PostgresCluster) : PostgresCluster :=
  p <| pg_status ::= λ s, s <| pst_conditions ::= λ cs, set_status_condition t cs
    (new_condition ClusterReady ConditionUnknown (om_generation (pg_meta p)) "PostgresClusterStatusUnknown"
       "PostgresCluster status is unknown") |> |>.
Definition initializeStatusAndPhase : OM W PostgresCluster unit :=
  _ ← assign observed;
  p ← look id;
  match conditionOf ClusterReady p with
  | Some _ => mret tt
  | None => t ← call now; assign (statusUnknown t)
  end.
Definition reconcileDelete (p : PostgresCluster) : SE W PostgresCluster :=
  '(_, p') ← with_object p (
    _ ← setStatusCondition ClusterReady ConditionFalse "Deleted" "PostgresCluster has been deleted";
    setPhase DeletingPhase);
  kupdate_status p'.
Definition Reconcile (ns name : string) : SE W CtrlResult :=
  got ← attempt (kget (O:=PostgresCluster) ns name);
  match got with
  | Err e => if is_not_found e then mret no_requeue else fail e
  | Ok p =>
      if decide (is_Some (om_deletion_timestamp (pg_meta p))) then
        if contains_finalizer cacheFinalizer (pg_meta p) then
          p ← reconcileDelete p;
          _ ← kupdate (p <| pg_meta ::= remove_finalizer cacheFinalizer |>);
          mret no_requeue
        else mret no_requeue
      else if negb (contains_finalizer cacheFinalizer (pg_meta p)) then
        _ ← kupdate (p <| pg_meta ::= λ m, (add_finalizer cacheFinalizer m).2 |>);
        mret no_requeue
      else
        '(res, p') ← with_object p (_ ← initializeStatusAndPhase; reconcile);
        if decide (pg_status p' = pg_status p) then mret res
        else _ ← kupdate_status p'; mret res
  end.
End controller.
