(* ===== verification/PostgresSamples.v ===== *)
(** A Postgres cluster and a small outside world for the witnesses. *)
From S2P Require Import Prelude Text Kube Apimachinery Api KubeWorkloads Objects Samples Postgres PostgresController.

Module PostgresWorld.
Export Cluster.
#[export] Instance cnpg_constants : CnpgConstants := {
  ConditionClusterReady := "Ready";
  ConditionBackup := "LastBackupSucceeded";
  ConditionContinuousArchiving := "ContinuousArchiving";
  BackupPhaseCompleted := "completed";
  HibernationConditionType := "cnpg.io/hibernation";
  HibernationOn := "on";
  HibernationOff := "off";
}.
#[export] Instance quantity_text : QuantityParse := λ s, Ok s.
#[export] Instance quantity_order : QuantityOrder := λ a b, String.ltb a b.
#[export] Instance any_schedule : CronParse := λ _, true.
#[export] Instance plain_base64 : Base64Decode := Ok.
#[export] Instance plain_times : BackupTimeFormat := { compact_time t := pretty t; rfc3339 t := pretty t }.
#[export] Instance walk : StringMapOrder := λ A m, map_to_list m.
#[export] Instance walk_laws : StringMapOrderLaws.
Proof. by intros A m. Qed.
#[export] Instance answering : SqlDriver Z := {
  sql_open _ _ t := (Ok 0, t); sql_ping _ t := (Ok tt, t); sql_close _ t := (Ok tt, t) }.

Definition sample_spec (databases : list DatabaseSpec) (backup : option ClusterBackupSpec) : PostgresClusterSpec :=
  mkPostgresClusterSpec 3 (Some (mkReplicasSpec 1 "required")) (mkPostgreSQLSpec (Some "catalog") 16 4 ∅) None false
    (mkPgStorageSpec "standard" "5Gi") (∅, ∅) None backup false None databases.
Definition sample_postgres (databases : list DatabaseSpec) (backup : option ClusterBackupSpec) : PostgresCluster :=
  mkPostgresCluster (object_meta "db" "default") (sample_spec databases backup)
    (mkPostgresClusterStatus 0 [] "" "" "" "" "" None None).
(** The same, called ready by an earlier step. *)
Definition ready_postgres (databases : list DatabaseSpec) (backup : option ClusterBackupSpec) : PostgresCluster :=
  (sample_postgres databases backup) <| pg_status ::= λ s, s
    <| pst_conditions := [new_condition ClusterReady ConditionTrue 0 "Ready" "PostgresCluster is ready"] |>
    <| pst_outputs := Some (mkPostgresClusterOutputs "db-16" "" "" "" None [] None ∅) |> |>.
(** The operator's cluster, ready as soon as it is made. *)
Definition made_ready (c : CnpgCluster) : CnpgCluster :=
  (c <| cl_status := mkCnpgClusterStatus [new_condition "Ready" ConditionTrue 0 "" ""] "healthy" "db-16-rw" "db-16-ro" |>)
    <| cl_meta ::= λ m, m <| om_annotations := {[ "cnpg.io/hibernation" := "off" ]} |> |>.
#[export] Instance ready_at_once : CreateOrUpdate Z CnpgCluster := λ A c f t,
  match f c t with
  | (Ok (c, a), t) => (Ok (made_ready c, a, OpUpdated), t)
  | (Err e, t) => (Err e, t)
  end.
#[export] Instance the_class : Kind Z StorageClass := only_objects [mkStorageClass (object_meta "standard" "") "" None [] None ""].
#[export] Instance the_catalog : Kind Z ImageCatalog :=
  only_objects [mkImageCatalog (object_meta "catalog" "default") [(15, "pg:15"); (16, "pg:16")]%Z].
#[export] Instance the_cluster : Kind Z CnpgCluster :=
  only_objects [made_ready (new_cnpg_cluster "db-16" "default")].
End PostgresWorld.
