(* ===== verification/PostgresOutcome.v ===== *)
(** What the Postgres cluster controller guarantees. *)
From S2P Require Import Prelude Text Kube Apimachinery Api KubeWorkloads Objects Postgres PostgresController.
From S2P Require Import PostgresSamples.

Section outcome.
Context {CC : CnpgConstants} {QP : QuantityParse} {QO : QuantityOrder} {CP : CronParse} {BD : Base64Decode}.
Context {TF : BackupTimeFormat} {CA : ConditionsApi} {CL : ConditionsLaws} {OA : OwnerApi} {FA : FinalizerApi}.
Context {SO : StringMapOrder} {SL : StringMapOrderLaws} {W : Type} {CK : Clock W} {DP : SqlDriver W}.
Context {KP : Kind W PostgresCluster} {KC : Kind W CnpgCluster} {UC : CreateOrUpdate W CnpgCluster}.
Context {KI : Kind W ImageCatalog} {KO : Kind W ObjectStore} {KB : Kind W Backup} {KSB : Kind W ScheduledBackup}.
Context {KD : Kind W Database} {KSec : Kind W Secret} {KSC : Kind W StorageClass}.

(** * Validation *)

Definition conditionView (p : PostgresCluster) (type : string) := view (pst_conditions (pg_status p)) type.
Definition samePostgres (p p' : PostgresCluster) : Prop := pg_meta p' = pg_meta p ∧ pg_spec p' = pg_spec p.
(** The configuration is called invalid, and nothing else is said but the phase. *)
Definition refused (p p' : PostgresCluster) : Prop :=
  samePostgres p p' ∧
  (∃ reason msg, conditionView p' ClusterConfigurationValid =
                 Some (ConditionFalse, om_generation (pg_meta p), reason, msg)) ∧
  (∀ t, t ≠ ClusterConfigurationValid → conditionView p' t = conditionView p t) ∧
  pst_phase (pg_status p') = ErrorPhase ∧ pst_outputs (pg_status p') = pst_outputs (pg_status p).

Lemma view_withCondition t type st reason msg p type' :
  conditionView (withCondition t type st reason msg p) type' =
  if decide (type' = type) then Some (st, om_generation (pg_meta p), reason, msg) else conditionView p type'.
Proof. unfold conditionView, withCondition. cbn. by rewrite view_set_new. Qed.

Lemma post_setStatusCondition type st reason msg (Q : unit → On W PostgresCluster → Prop) p :
  (∀ t w, Q tt (mkOn w (withCondition t type st reason msg (object p)))) →
  post (setStatusCondition type st reason msg) Q p.
Proof. intros HQ. apply post_bind, post_call. intros t w _. apply post_assign, HQ. Qed.

Lemma post_invalid reason msg (Q : subReconcilerResult → On W PostgresCluster → Prop) p :
  (∀ p', refused (object p) (object p') → Q resultStop p') → post (invalid reason msg) Q p.
Proof.
  intros HQ. apply post_bind, post_setStatusCondition. intros t w. apply post_bind, post_assign, post_ret, HQ.
  cbn [object]. split_and!; [done| | |done..].
  - exists reason, msg. change (conditionView (withCondition t ClusterConfigurationValid ConditionFalse reason msg (object p))
      ClusterConfigurationValid = Some (ConditionFalse, om_generation (pg_meta (object p)), reason, msg)).
    by rewrite view_withCondition, decide_True.
  - intros t' Ht. change (conditionView (withCondition t ClusterConfigurationValid ConditionFalse reason msg (object p)) t'
      = conditionView (object p) t'). by rewrite view_withCondition, decide_False.
Qed.

(** A check passes and leaves the object alone, or refuses. *)
Definition checks (p : On W PostgresCluster) (res : subReconcilerResult) (p' : On W PostgresCluster) : Prop :=
  (res = resultNil ∧ object p' = object p) ∨ (res = resultStop ∧ refused (object p) (object p')).
Lemma checks_nil p w : checks p resultNil (mkOn w (object p)).
Proof. by left. Qed.
Lemma checks_refused p p' : refused (object p) (object p') → checks p resultStop p'.
Proof. by right. Qed.

Lemma post_referred {O} {KO' : Kind W O} ns name missing found Q (p : On W PostgresCluster) :
  (∀ w, post missing Q (mkOn w (object p))) → (∀ o w, post (found o) Q (mkOn w (object p))) →
  post (referred (O:=O) ns name missing found) Q p.
Proof.
  intros HM HF. apply post_bind, post_call. intros [o|e] w _; [apply HF|]. destruct (is_not_found e); [apply HM|apply post_fail].
Qed.

Ltac check_step :=
  first
  [ apply checks_nil
  | apply post_invalid; intros ? ?; by apply checks_refused
  | apply post_referred; intros
  | on_step ].

Lemma replicas_check p : post validateReplicasSpec (checks p) p.
Proof. unfold validateReplicasSpec. repeat check_step. by left. Qed.
Lemma storage_check p : post validateStorageSpec (checks p) p.
Proof. unfold validateStorageSpec. repeat check_step. Qed.
Lemma backup_check p : post validateBackupSpec (checks p) p.
Proof. unfold validateBackupSpec. repeat check_step. by left. Qed.
Lemma catalog_check p : post validateImageCatalogPresent (checks p) p.
Proof. unfold validateImageCatalogPresent. repeat check_step. Qed.
Lemma recovery_backup_check name p : post (validateRecoveryBackup name) (checks p) p.
Proof. unfold validateRecoveryBackup. repeat check_step. by left. Qed.
Lemma recovery_backup_here name p w :
  post (validateRecoveryBackup name) (checks p) (mkOn w (object p)).
Proof. exact (recovery_backup_check name (mkOn w (object p))). Qed.
Lemma bootstrap_check p : post validateBootstrapSpec (checks p) p.
Proof.
  unfold validateBootstrapSpec, validateInitDbSpec, ensureSourceClusterAccess, validateRecoverySpec.
  repeat first [ apply recovery_backup_check | apply recovery_backup_here | check_step ]; by left.
Qed.

Lemma validations_check name v p : validations !! name = Some v → post v (checks p) p.
Proof.
  unfold validations.
  repeat (rewrite lookup_insert_Some; intros [[<- <-]|[_ H]]; [|revert H]);
    [apply replicas_check|apply storage_check|apply backup_check|apply catalog_check|].
  rewrite lookup_singleton_Some. intros [<- <-]. apply bootstrap_check.
Qed.

(** A check was run on the object and passed. *)
Definition passed (o : PostgresCluster) (v : SE (On W PostgresCluster) subReconcilerResult) : Prop :=
  ∃ w w', v (mkOn w o) = (Ok resultNil, mkOn w' o).
Definition failedValidation (o : PostgresCluster) (res : subReconcilerResult) (p' : On W PostgresCluster) : Prop :=
  res = resultRequeueAfter requeueIntervalOnValidationFailure ∧ refused o (object p').

Lemma validations_run l p :
  (∀ name v p, (name, v) ∈ l → post v (checks p) p) →
  post (runValidations l) (λ res p',
    (res = resultNil ∧ object p' = object p ∧ Forall (passed (object p)) l.*2) ∨
    failedValidation (object p) res p') p.
Proof.
  revert p. induction l as [|[name v] l IH]; intros p Hl; cbn [runValidations].
  - apply post_ret. left. by split_and!.
  - apply post_bind, post_wrapping. intros res p' E.
    destruct (Hl name v p ltac:(left) res p' E) as [[-> Ho]|[-> Hr]].
    + cbn [isStop isRequeue requeueAfter resultNil orb]. eapply post_mono; [apply IH; intros ??? H; apply (Hl name0); by right|].
      cbv beta. rewrite Ho. intros r p1 [(-> & Ho' & HF)|Hf]; [left|by right]. split_and!; [done..|].
      constructor; [|done]. exists (outside p), (outside p'). destruct p, p'. cbn in *. by subst.
    + cbn [isStop resultStop orb]. apply post_ret. right. by split.
Qed.

(** The spec was found valid: in this pass by every check, or in an earlier one of
    the same generation. *)
Definition validated (p : PostgresCluster) : Prop :=
  (∀ name v, validations !! name = Some v → passed p v) ∨ shouldRunValidation p = false.
Lemma validation_step p :
  post reconcileValidation (λ res p',
    (res = resultNil ∧ samePostgres (object p) (object p') ∧ validated (object p) ∧
     (∃ reason msg, conditionView (object p') ClusterConfigurationValid =
                    Some (ConditionTrue, om_generation (pg_meta (object p)), reason, msg)) ∧
     (∀ t, t ≠ ClusterConfigurationValid → conditionView (object p') t = conditionView (object p) t) ∧
     pst_outputs (pg_status (object p')) = pst_outputs (pg_status (object p))) ∨
    failedValidation (object p) res p') p.
Proof.
  unfold reconcileValidation. apply post_bind, post_look. cbn [id].
  destruct (shouldRunValidation (object p)) eqn:E; cbn [negb].
  - apply post_bind. eapply post_mono.
    { apply validations_run. intros name v p1 Hin. apply (validations_check name).
      rewrite string_map_order_perm in Hin. by apply elem_of_map_to_list in Hin. }
    cbv beta. intros res p' [(-> & Ho & HF)|Hf].
    + rewrite decide_True by done. apply post_bind, post_setStatusCondition. intros t w. apply post_ret. left.
      cbn [object]. rewrite Ho. split_and!; [done..| | | |done].
      * left. intros name v Hv. rewrite Forall_forall in HF. apply HF, list_elem_of_fmap. exists (name, v).
        split; [done|]. rewrite string_map_order_perm. by apply elem_of_map_to_list.
      * do 2 eexists. by rewrite view_withCondition, decide_True.
      * intros t' Ht. by rewrite view_withCondition, decide_False.
    + rewrite decide_False by (by intros ->; destruct Hf). apply post_ret. by right.
  - apply post_ret. left. split_and!; [done..|by right| |done|done].
    unfold shouldRunValidation, conditionOf in E. unfold conditionView, view.
    destruct (find_status_condition _ _) as [c|]; [|done]. apply orb_false_iff in E as [Hs Hg].
    apply negb_false_iff, bool_decide_eq_true in Hs. apply negb_false_iff, Z.eqb_eq in Hg.
    exists (c_reason c), (c_message c). cbn. unfold cond_view. by rewrite Hs, Hg.
Qed.

(** * The cluster *)

Definition clusterSeen (p : PostgresCluster) (c : CnpgCluster) (shrinks : bool) : Prop :=
  ∃ name catalog image w1 w1' w2 w2' op,
    pgs_image_catalog_ref (pcs_postgresql (pg_spec p)) = Some name ∧
    kget (O:=ImageCatalog) (pg_namespace p) name w1 = (Ok catalog, w1') ∧
    catalogImage (pgs_major_version (pcs_postgresql (pg_spec p))) catalog = Some image ∧
    create_or_update bool (new_cnpg_cluster (CnpgClusterName p) (pg_namespace p)) (mutateCluster p image) w2 =
      (Ok (c, shrinks, op), w2').
Definition operatorReady (c : CnpgCluster) : bool :=
  bool_decide ((c_status <$> find_status_condition (clt_conditions (cl_status c)) ConditionClusterReady) = Some ConditionTrue).
(** The outputs are those of the cluster and the Secrets of the namespace, but for the
    databases, which a later step lists. *)
Definition butDatabases (p : PostgresCluster) : option PostgresClusterOutputs :=
  (λ o, o <| out_databases := [] |>) <$> pst_outputs (pg_status p).
Definition outputsOf (c : CnpgCluster) (secrets : list Secret) : PostgresClusterOutputs :=
  (foldl (secretOutput (om_name (cl_meta c))) (clusterOutputs c) secrets) <| out_databases := [] |>.

(** The facts a pass reports about the cluster, and what it leaves of them. *)
Definition reportsCluster (p : PostgresCluster) (c : CnpgCluster) (st : ConditionStatus) (reason msg : string)
    (p' : PostgresCluster) : Prop :=
  samePostgres p p' ∧
  conditionView p' ClusterReady = Some (st, om_generation (pg_meta p), reason, msg) ∧
  conditionView p' ClusterConfigurationValid = conditionView p ClusterConfigurationValid ∧
  pst_phase (pg_status p') = clt_phase (cl_status c).
Definition clusterEnds (p : PostgresCluster) (res : subReconcilerResult) (p' : On W PostgresCluster) : Prop :=
  (∃ c, res = resultStop ∧ clusterSeen p c true ∧ refused p (object p')) ∨
  (∃ c, res = resultStop ∧ clusterSeen p c false ∧ operatorReady c = false ∧
        reportsCluster p c ConditionFalse "NotReady" "PostgresCluster is not ready" (object p')) ∨
  (∃ c secrets w w', res = resultNil ∧ clusterSeen p c false ∧ operatorReady c = true ∧
     klist (O:=Secret) (pg_namespace p) [] w = (Ok secrets, w') ∧
     reportsCluster p c ConditionTrue "Ready" "PostgresCluster is ready" (object p') ∧
     butDatabases (object p') = Some (outputsOf c secrets)).

Lemma cluster_step p : post reconcileCluster (clusterEnds (object p)) p.
Proof.
  unfold reconcileCluster. apply post_bind, post_look. cbn [id].
  destruct (pgs_image_catalog_ref _) as [name|] eqn:En; [|apply post_fail].
  apply post_bind, post_call. intros catalog w Hcat. destruct (catalogImage _ catalog) as [image|] eqn:Ei; [|apply post_fail].
  apply post_bind, post_call. intros [[c shrinks] op] w' Hc. cbn [fst snd outside object] in *.
  assert (clusterSeen (object p) c shrinks) as Hseen by (unfold clusterSeen; by eauto 15).
  destruct shrinks; [apply post_invalid; intros p' Hr; left; exists c; by split_and!|].
  unfold operatorReady in *. destruct (bool_decide _) eqn:Er.
  - apply post_bind, post_setStatusCondition. intros t w2. apply post_bind, post_assign, post_bind.
    unfold populateStatus. apply post_bind, post_assign, post_bind, post_look, post_bind, post_call.
    intros secrets w3 Hs. apply post_assign, post_ret. right. right. cbn [outside object id] in *.
    assert (∃ w w', klist (O:=Secret) (pg_namespace (object p)) [] w = (Ok secrets, w')) as (wa & wb & Hl).
    { do 2 eexists. revert Hs. unfold wrapping. intros (r & s1 & Hr%attempt_inv & Hs)%se_bind_inv.
      destruct r; [|done]. injection Hs as <- <-. exact Hr. }
    exists c, secrets, wa, wb. split_and!; [done..| |done].
    split_and!; [done| | |done].
    + change (conditionView (withCondition t ClusterReady ConditionTrue "Ready" "PostgresCluster is ready" (object p)) ClusterReady
        = Some (ConditionTrue, om_generation (pg_meta (object p)), "Ready", "PostgresCluster is ready")).
      by rewrite view_withCondition, decide_True.
    + change (conditionView (withCondition t ClusterReady ConditionTrue "Ready" "PostgresCluster is ready" (object p))
        ClusterConfigurationValid = conditionView (object p) ClusterConfigurationValid).
      by rewrite view_withCondition, decide_False.
  - apply post_bind, post_setStatusCondition. intros t w2. apply post_bind, post_assign, post_ret. right. left.
    exists c. cbn [object] in *. split_and!; [done..|]. split_and!; [done| | |done].
    + change (conditionView (withCondition t ClusterReady ConditionFalse "NotReady" "PostgresCluster is not ready" (object p))
        ClusterReady = Some (ConditionFalse, om_generation (pg_meta (object p)), "NotReady", "PostgresCluster is not ready")).
      by rewrite view_withCondition, decide_True.
    + change (conditionView (withCondition t ClusterReady ConditionFalse "NotReady" "PostgresCluster is not ready" (object p))
        ClusterConfigurationValid = conditionView (object p) ClusterConfigurationValid).
      by rewrite view_withCondition, decide_False.
Qed.

(** * The steps after the cluster leave these facts alone *)

Definition leaves (p p' : PostgresCluster) : Prop :=
  samePostgres p p' ∧ conditionView p' ClusterReady = conditionView p ClusterReady ∧
  conditionView p' ClusterConfigurationValid = conditionView p ClusterConfigurationValid ∧
  pst_phase (pg_status p') = pst_phase (pg_status p) ∧ butDatabases p' = butDatabases p.
Abbreviation Leaves p m := (Inv (λ p1 : On W PostgresCluster, leaves p (object p1)) m).

Lemma leaves_setStatusCondition p type st reason msg :
  type ≠ ClusterReady → type ≠ ClusterConfigurationValid → Leaves p (setStatusCondition type st reason msg).
Proof.
  intros Hr Hv. unfold setStatusCondition. apply inv_bind; [apply inv_object_call|]. intros t _.
  apply (inv_object_assign (leaves p)). intros o (Hs & HR & HV & Hrest).
  split; [done|]. split; [|split; [|done]]; rewrite view_withCondition, decide_False by done; done.
Qed.
Lemma leaves_removeCondition p type :
  type ≠ ClusterReady → type ≠ ClusterConfigurationValid → Leaves p (removeCondition type).
Proof.
  intros Hr Hv. apply (inv_object_assign (leaves p)). intros o (Hs & HR & HV & Hrest).
  split; [done|]. split; [|split; [|done]].
  - rewrite <- HR. unfold conditionView, view. cbn. by rewrite find_remove_status_condition_ne.
  - rewrite <- HV. unfold conditionView, view. cbn. by rewrite find_remove_status_condition_ne.
Qed.
Lemma leaves_call p {A} (m : SE W A) : Leaves p (call m).
Proof. apply (inv_object_call (leaves p)). Qed.
Lemma leaves_setDatabases p names : Leaves p (setDatabases names).
Proof.
  intros p1 (Hs & HR & HV & Hp & Hb). unfold setDatabases, look, gets, mbind, se_bind. cbn.
  unfold butDatabases in Hb. destruct (pst_outputs (pg_status (object p1))) as [o|] eqn:E; cbn; [|by unfold leaves, butDatabases; rewrite E].
  split_and!; [done..|]. exact Hb.
Qed.
Hint Resolve leaves_call leaves_setDatabases : inv.
Hint Extern 1 (Inv _ (setStatusCondition _ _ _ _)) => apply leaves_setStatusCondition; discriminate : inv.
Hint Extern 1 (Inv _ (removeCondition _)) => apply leaves_removeCondition; discriminate : inv.

Lemma lifecycle_leaves p : Leaves p reconcileLifecycle.
Proof. unfold reconcileLifecycle, reconcileClusterHibernation, reconcileClusterFencing. solve_inv. Qed.
Lemma databases_in_turn_leaves p l : Leaves p (inTurn databaseStep l).
Proof. induction l; cbn [inTurn]; [solve_inv|]. unfold databaseStep at 1. solve_inv. Qed.
Hint Resolve databases_in_turn_leaves : inv.
Lemma databases_leave p : Leaves p reconcileDatabases.
Proof. unfold reconcileDatabases, populateDatabaseInfoStatus. solve_inv. Qed.
Lemma backups_leave p : Leaves p reconcileBackups.
Proof.
  unfold reconcileBackups, relay. solve_inv.
Qed.

(** * A pass *)

Definition reported (p : PostgresCluster) (c : CnpgCluster) (st : ConditionStatus) (p' : PostgresCluster) : Prop :=
  samePostgres p p' ∧
  (∃ reason msg, conditionView p' ClusterReady = Some (st, om_generation (pg_meta p), reason, msg)) ∧
  (∃ reason msg, conditionView p' ClusterConfigurationValid =
                 Some (ConditionTrue, om_generation (pg_meta p), reason, msg)) ∧
  pst_phase (pg_status p') = clt_phase (cl_status c).
Definition passEnds (p : PostgresCluster) (res : CtrlResult) (p' : PostgresCluster) : Prop :=
  (res = mkCtrlResult false requeueIntervalOnValidationFailure ∧ refused p p') ∨
  (validated p ∧ ∃ c,
     (res = no_requeue ∧ clusterSeen p c true ∧ refused p p') ∨
     (res = no_requeue ∧ clusterSeen p c false ∧ operatorReady c = false ∧ reported p c ConditionFalse p') ∨
     (clusterSeen p c false ∧ operatorReady c = true ∧ reported p c ConditionTrue p' ∧
      ∃ secrets w w', klist (O:=Secret) (pg_namespace p) [] w = (Ok secrets, w') ∧
                      butDatabases p' = Some (outputsOf c secrets))).

(** What is seen depends on the metadata and the spec. *)
Lemma clusterSeen_same p p1 c b : samePostgres p p1 → clusterSeen p1 c b → clusterSeen p c b.
Proof. destruct p, p1. intros [[= ->] [= ->]]. done. Qed.

Lemma leaves_refl p : leaves p p.
Proof. done. Qed.
Lemma reported_leaves p c st p1 p2 : leaves p1 p2 → reported p c st p1 → reported p c st p2.
Proof.
  intros ([Hm Hs] & HR & HV & Hp & _) ([Hm' Hs'] & Hr & Hv & Hp'). unfold reported, samePostgres.
  by rewrite Hm, Hs, HR, HV, Hp.
Qed.

Lemma later_steps_leave p steps :
  (∀ step, step ∈ steps → Leaves p step) → Leaves p (runSteps steps).
Proof.
  induction steps as [|step steps IH]; intros Hs; cbn [runSteps]; [apply inv_ret|].
  assert (Leaves p step) by (apply Hs; left). assert (Leaves p (runSteps steps)) by (apply IH; intros; apply Hs; by right).
  solve_inv.
Qed.
Lemma after_cluster_leaves p : Leaves p (runSteps [reconcileLifecycle; reconcileDatabases; reconcileBackups]).
Proof.
  apply later_steps_leave. intros step. rewrite !elem_of_cons. intros [->|[->|[->|[]%not_elem_of_nil]]];
    [apply lifecycle_leaves|apply databases_leave|apply backups_leave].
Qed.

(** C29. What a pass that ends without an error may say of a Postgres cluster.  Either
    some check refused the spec: configuration invalid, phase Error, come back in half
    a minute, with metadata, spec, the other conditions and the outputs as they were.  Or every check passed (in this pass, in
    whatever order the map of checks is walked, or earlier at this generation), the
    image of the spec's major version was found in its catalogue and the operator's
    cluster was created or updated with it; and then: it would have shrunk the storage,
    and the configuration is called invalid; or the operator does not call it ready,
    and neither does the pass, which ends there; or the operator calls it ready and the
    pass says Ready at this generation, with the phase of the operator's cluster and
    the outputs of that cluster and of the Secrets listed, whatever the later steps do. *)
Theorem postgres_pass_spec (p p' : On W PostgresCluster) (res : CtrlResult) :
  reconcile p = (Ok res, p') → passEnds (object p) res (object p').
Proof.
  enough (post reconcile (λ res p', passEnds (object p) res (object p')) p) as H by apply H.
  set (s := object p). unfold reconcile, subReconcilers. apply post_runSteps_cons. eapply post_mono; [apply validation_step|].
  fold s. cbv beta. intros r p1 [(-> & Hsame & Hval & (rs & m & HV) & Hother & Hout)|[-> Hr]].
  2: { right. right. right. eexists. split; [done|]. by left. }
  left. split; [done|]. apply post_runSteps_cons. eapply post_mono; [apply cluster_step|].
  destruct Hsame as [Hm Hs]. cbv beta.
  assert (∀ p2 : On W PostgresCluster, refused (object p1) (object p2) → refused s (object p2)) as Htrans.
  { intros p2 ([Hm' Hs'] & Hv & Ho & Hp & Hout'). unfold refused, samePostgres. rewrite <- Hm, <- Hs, Hm', Hs'.
    split_and!; [done..| |done|by rewrite Hout']. intros t Ht. by rewrite Ho, Hother. }
  assert (∀ c st reason msg p2, reportsCluster (object p1) c st reason msg p2 → reported s c st p2) as Hrep.
  { intros c st reason msg p2 ([Hm' Hs'] & HR & HV' & Hp). unfold reported, samePostgres.
    rewrite Hm', Hs', HR, HV', HV, Hm, Hs. by split_and!; eauto. }
  assert (∀ c b, clusterSeen (object p1) c b → clusterSeen s c b) as Hseen by (intros; by eapply clusterSeen_same).
  intros r p2 [(c & -> & Hc & Hr)|[(c & -> & Hc & Hn & Hr)|(c & secrets & w & w' & -> & Hc & Hn & Hl & Hr & Hb)]].
  - right. left. split; [done|]. right. split; [done|]. exists c. left. split_and!; [done|by apply Hseen|by apply Htrans].
  - right. left. split; [done|]. right. split; [done|]. exists c. right. left.
    split_and!; [done|by apply Hseen|done|by eapply Hrep].
  - left. split; [done|]. intros res' p3 E. right. split; [done|]. exists c. right. right.
    pose proof (after_cluster_leaves (object p2) p2 (leaves_refl _)) as HL. rewrite E in HL. cbn in HL.
    split_and!; [by apply Hseen|done|by eapply reported_leaves, Hrep|].
    exists secrets, w, w'. split; [unfold pg_namespace in *; by rewrite <- Hm|].
    destruct HL as (_ & _ & _ & _ & ->). done.
Qed.
End outcome.

(** * A concrete cluster *)

Import PostgresWorld.

Lemma postgres_pass_spec_witness :
  ∃ p', reconcile (mkOn 5%Z (sample_postgres [] None)) = (Ok no_requeue, p') ∧
    ∃ c, operatorReady c = true ∧ reported (sample_postgres [] None) c ConditionTrue (object p').
Proof.
  destruct (reconcile _) as [[res|e] p'] eqn:E; [|exfalso; vm_compute in E; discriminate].
  assert (res = no_requeue) as -> by (vm_compute in E; by injection E as <- _).
  exists p'. split; [reflexivity|].
  assert (pst_phase (pg_status (object p')) = "healthy") as Hphase
    by (vm_compute in E; injection E as <-; reflexivity).
  destruct (postgres_pass_spec (W:=Z) _ _ _ E)
    as [[Hres _]|(_ & c & [(_ & _ & _ & _ & _ & Hp & _)|[(_ & _ & _ & _ & (rs & m & Hv) & _)|(_ & Hn & Hrep & _)]])].
  - exfalso. discriminate Hres.
  - exfalso. rewrite Hphase in Hp. discriminate Hp.
  - exfalso. assert (fst (fst (fst (default (ConditionUnknown, 0%Z, "", "") (conditionView (object p') ClusterReady)))) = ConditionTrue) as Ht
      by (vm_compute in E; injection E as <-; vm_compute; reflexivity).
    rewrite Hv in Ht. discriminate Ht.
  - exists c. split; [exact Hn|exact Hrep].
Defined.
