(* ===== verification/PostgresSteps.v ===== *)
(** What the database and the backup step of the Postgres cluster controller
    guarantee, and that the translation of a bootstrap names no cluster it does not
    describe. *)
From S2P Require Import Prelude Text Kube Apimachinery Api KubeWorkloads Objects Samples Postgres PostgresController PostgresOutcome PostgresSamples.

(** * The bootstrap *)

(** The external cluster a bootstrap starts from. *)
Definition sourceOf (b : BootstrapConfiguration) : option string :=
  match b with
  | InitDB import => ci_external_cluster <$> import
  | Recovery r => if decide (br_source r = "") then None else Some (br_source r)
  end.

(** The operator's cluster never starts from an external cluster it does not
    describe: the source of an import, and the object store a recovery reads, are
    among the external clusters of the same spec, the import's with its password and
    the recovery's with the plugin that reads the backups of the source cluster. *)
Theorem bootstrap_source_declared (p : PostgresCluster) :
  match buildBootstrapSpec p ≫= sourceOf with
  | Some source => ∃ e, buildExternalClusters p = [e] ∧ exc_name e = source ∧
      (is_Some (exc_password e) ∨
       ∃ o plugin, exc_plugin e = Some plugin ∧
         plg_parameters plugin !! "serverName" = Some (ros_source_cluster_name o) ∧
         plg_parameters plugin !! "barmanObjectName" = Some source)
  | None => True
  end.
Proof.
  unfold buildBootstrapSpec, buildExternalClusters. destruct (pcs_bootstrap _) as [[[[i|]|] [[[o|] [backup|]]|]]|]; try done; cbn.
  1-5: by eexists; split_and!; [done|done|left; eexists].
  all: destruct (decide (ros_object_store_name o = "")) as [|]; [done|].
  all: eexists; split_and!; [done|done|right; exists o; eexists; split_and!; [done|..]].
  all: by vm_compute.
Qed.

Section databases.
Context {CC : CnpgConstants} {TF : BackupTimeFormat} {CA : ConditionsApi} {CL : ConditionsLaws} {OA : OwnerApi}.
Context {W : Type} {CK : Clock W} {KD : Kind W Database}.

(** * The database step *)

Lemma extensionsApplied_iff desired l :
  extensionsApplied desired l = true ↔ l = [] ∨ ∃ front e, l = front ++ [(e, true)] ∧ e ∈ desired.
Proof.
  unfold extensionsApplied. destruct l as [|[e b] front _] using rev_ind; cbn.
  - split; [by left|done].
  - rewrite foldl_snoc. cbn. split.
    + case_decide; [|done]. intros ->. right. eauto.
    + intros [H|(front' & e' & [-> [= -> ->]]%app_inj_tail & He)]; [by destruct front|]. by rewrite decide_True.
Qed.

(** A database of the spec is in place; the operator's last word on its extensions is
    about one that is wanted. *)
Definition inPlace (d : DatabaseSpec) (existing : Database) : Prop :=
  databaseApplied existing = true ∧
  (dbt_extensions (db_status existing) = [] ∨
   ∃ front e, dbt_extensions (db_status existing) = front ++ [(e, true)] ∧ e ∈ dbs_extensions d).
Definition databaseSeen (p : PostgresCluster) (d : DatabaseSpec) (existing : Database) : Prop :=
  ∃ w w', kget (O:=Database) (pg_namespace p) (dbs_name d) w = (Ok existing, w').

Lemma post_database_status p d (Q : bool * string → W → Prop) w :
  (∀ existing msg w', databaseSeen p d existing → inPlace d existing → Q (true, msg) w') →
  (∀ existing msg w', databaseSeen p d existing → ¬ inPlace d existing → Q (false, msg) w') →
  post (reconcileDatabaseStatus p d) Q w.
Proof.
  intros HT HF. apply post_bind. intros existing w' Hg. assert (databaseSeen p d existing) as Hs by by exists w, w'.
  destruct (databaseApplied existing) eqn:Ea; cbn [negb];
    [|apply post_ret; eapply HF; [done|]; intros [Ha _]; by rewrite Ea in Ha].
  destruct (extensionsApplied _ _) eqn:Ee; cbn [negb]; apply post_ret.
  - eapply HT; [done|]. split; [done|]. by apply extensionsApplied_iff.
  - eapply HF; [done|]. intros [_ H%extensionsApplied_iff]. by rewrite Ee in H.
Qed.

Definition databasesNamed (names : list string) : list DatabaseInfo := (λ n, mkDatabaseInfo n defaultDatabaseOwner) <$> names.
Definition listsDatabases (p p' : PostgresCluster) (names : list string) : Prop :=
  ∃ o, pst_outputs (pg_status p) = Some o ∧
       pst_outputs (pg_status p') = Some (o <| out_databases := databasesNamed names |>).
Definition databasesEnd (p : PostgresCluster) (res : subReconcilerResult) (p' : PostgresCluster) : Prop :=
  let l := pcs_databases (pg_spec p) in
  if negb (clusterIsReady p) then res = resultNil ∧ p' = p
  else if decide (length l = 0) then res = resultNil ∧ listsDatabases p p' [defaultDatabaseName]
  else
    (res = resultNil ∧ Forall (λ d, ∃ existing, databaseSeen p d existing ∧ inPlace d existing) l ∧
     (∃ reason msg, conditionView p' DatabasesApplied = Some (ConditionTrue, om_generation (pg_meta p), reason, msg)) ∧
     listsDatabases p p' (Unique id ((dbs_name <$> l) ++ [defaultDatabaseName]))) ∨
    (res = resultStop ∧ (∃ d existing, d ∈ l ∧ databaseSeen p d existing ∧ ¬ inPlace d existing) ∧
     (∃ msg, conditionView p' DatabasesApplied =
             Some (ConditionFalse, om_generation (pg_meta p), "DatabasesNotApplied", msg)) ∧
     pst_outputs (pg_status p') = pst_outputs (pg_status p)).

Lemma post_setDatabases names (Q : unit → On W PostgresCluster → Prop) p :
  (∀ p', listsDatabases (object p) (object p') names → (∀ t, conditionView (object p') t = conditionView (object p) t) →
     Q tt p') →
  post (setDatabases names) Q p.
Proof.
  intros HQ. unfold setDatabases. apply post_bind, post_look. cbn [id].
  destruct (pst_outputs _) as [o|] eqn:E; [|apply post_fail]. apply post_assign, HQ; [|done]. by exists o.
Qed.

Lemma database_one d p :
  post (databaseStep d) (λ res p',
    (res = resultNil ∧ (∃ existing, databaseSeen (object p) d existing ∧ inPlace d existing) ∧ object p' = object p) ∨
    (res = resultStop ∧ (∃ existing, databaseSeen (object p) d existing ∧ ¬ inPlace d existing) ∧
     ∃ t msg, object p' = withCondition t DatabasesApplied ConditionFalse "DatabasesNotApplied" msg (object p))) p.
Proof.
  unfold databaseStep. apply post_bind, post_look, post_bind, post_call. cbn [id]. intros [reconciled msg] w Hs.
  assert (if reconciled then ∃ existing, databaseSeen (object p) d existing ∧ inPlace d existing
          else ∃ existing, databaseSeen (object p) d existing ∧ ¬ inPlace d existing) as H.
  { revert Hs. apply (post_database_status (object p) d (λ a _, if a.1 then _ else _)); cbn; eauto. }
  destruct reconciled; [apply post_ret; by left|]. apply post_bind, post_setStatusCondition. intros t w'.
  apply post_ret. right. split_and!; [done..|]. by exists t, msg.
Qed.

(** C31. What the database step finds and says.  Nothing, while the cluster is not
    ready.  A spec without databases is answered with the default one.  Otherwise the
    step goes on only when every database of the spec was found applied at its
    generation, the operator's last word on its extensions being about one of the spec
    that is applied; then it says so at this generation and lists the databases of the
    spec and the default one, each once.  It stops at one that is not in place, says
    so at this generation, and lists nothing. *)
Theorem database_step_spec (p p' : On W PostgresCluster) (res : subReconcilerResult) :
  reconcileDatabases p = (Ok res, p') → databasesEnd (object p) res (object p').
Proof.
  enough (post reconcileDatabases (λ res p', databasesEnd (object p) res (object p')) p) as H by apply H.
  unfold reconcileDatabases. apply post_bind, post_look. cbn [id]. unfold databasesEnd.
  destruct (negb _); [by apply post_ret|]. destruct (decide _) as [|Hne].
  { apply post_bind, post_setDatabases. intros p1 Hp _. by apply post_ret. }
  apply post_bind, post_call. intros [] w1 _. apply post_bind, post_call. intros [] w2 _. cbn [outside object].
  apply post_bind. apply (post_inTurn databaseStep _
    (λ d, ∃ existing, databaseSeen (object p) d existing ∧ inPlace d existing) (λ o, o = object p)); [done|..].
  - intros d p1 Hd Ho. eapply post_mono; [apply database_one|]. cbv beta. rewrite Ho.
    intros r p2 [(-> & Hp & Hsame)|(-> & Hx & t & msg & Hsame)]; [by left|right]. split; [done|].
    rewrite decide_False by done. apply post_ret. right. destruct Hx as (existing & Hs & Hn). rewrite Hsame.
    split_and!; [done|by eauto| |done]. exists msg. by rewrite view_withCondition, decide_True.
  - intros p1 HF Ho. rewrite decide_True by done. apply post_bind, post_setStatusCondition. intros t w. rewrite Ho.
    apply post_bind, post_setDatabases. cbn [object]. intros p2 Hl Hv. apply post_ret. left. split_and!; [done..| |done].
    do 2 eexists. by rewrite Hv, view_withCondition, decide_True.
Qed.

(** ** What it may do to the databases of the cluster *)

Section footprint.
Context (I : W → Prop) (p : PostgresCluster).

(** The API server listed it as made by the agent, it is not the default one, and the
    spec does not name it.  Nothing is said of the Postgres cluster it belongs to. *)
Definition orphan (d : Database) : Prop :=
  (∃ w w' l, klist (O:=Database) (pg_namespace p) [{[ createdByLabel := createdByValue ]}] w = (Ok l, w') ∧ d ∈ l) ∧
  dsp_name (db_spec d) ≠ defaultDatabaseName ∧ db_name d ∉ dbs_name <$> pcs_databases (pg_spec p).
Definition announcedAbsent (d : Database) : Database := d <| db_spec ::= λ s, s <| dsp_ensure := EnsureAbsent |> |>.
(** What the agent may do, as far as [I] is concerned. *)
Record MayTouchDatabases : Prop := {
  may_read_clock : Inv I now;
  may_get ns n : Inv I (kget (O:=Database) ns n);
  may_list ns sel : Inv I (klist (O:=Database) ns sel);
  may_create d m : d ∈ pcs_databases (pg_spec p) →
    set_controller_reference (pg_meta p) (db_meta (desiredDatabase p d)) = Ok m →
    Inv I (kcreate ((desiredDatabase p d) <| db_meta := m |>));
  may_announce d : orphan d → dsp_ensure (db_spec d) ≠ EnsureAbsent → Inv I (kupdate (announcedAbsent d));
  may_delete d : orphan d → dsp_ensure (db_spec d) = EnsureAbsent → databaseApplied d = true → Inv I (kdelete d);
}.
Hypothesis may : MayTouchDatabases.

Lemma ensure_databases_inv l : l ⊆ pcs_databases (pg_spec p) → Inv I (ensureDatabases p l).
Proof.
  induction l as [|d l IH]; intros Hl; [apply inv_ret|]. cbn [ensureDatabases].
  apply inv_bind; [|intros; apply IH; set_solver]. unfold ensureDatabase.
  apply inv_bind; [apply inv_of_result|]. intros m (w & w' & [= Hm _]).
  apply inv_bind; [apply inv_attempt, may_get, may|]. intros [o|e] _; [apply inv_ret|].
  destruct (is_not_found e); [|apply inv_fail]. apply inv_bind; [|intros; apply inv_ret].
  apply may; [set_solver|done].
Qed.
Lemma removal_databases_inv l :
  (∀ d, d ∈ l → dsp_name (db_spec d) ≠ defaultDatabaseName → db_name d ∉ dbs_name <$> pcs_databases (pg_spec p) → orphan d) →
  Inv I (removeUnWanted (dbs_name <$> pcs_databases (pg_spec p)) l).
Proof.
  induction l as [|d l IH]; intros Hl; cbn [removeUnWanted]; [apply inv_ret|].
  assert (Inv I (removeUnWanted (dbs_name <$> pcs_databases (pg_spec p)) l)) as HI
    by (apply IH; intros; apply Hl; [by right|done..]).
  destruct (decide (dsp_name _ = _)) as [|Hname]; [done|]. destruct (decide (db_name d ∈ _)) as [|Hkey]; [done|].
  assert (orphan d) as Ho by (by apply Hl; [left|..]).
  destruct (decide _) as [Ha|Ha].
  - destruct (databaseApplied d) eqn:E; [|apply inv_ret]. by apply inv_ignore_not_found, may.
  - apply inv_bind; [|done]. apply inv_ignore_not_found, inv_bind; [by apply may|]. intros; apply inv_ret.
Qed.
Lemma unwanted_inv : Inv I (reconcileUnWantedDatabases p).
Proof.
  unfold reconcileUnWantedDatabases. apply inv_bind; [apply may|]. intros l (w & w' & Hl). apply removal_databases_inv.
  intros d Hd. split; [by exists w, w', l|done].
Qed.

(** What the step knows of the object while it runs. *)
Definition keeping (q : On W PostgresCluster) : Prop := I (outside q) ∧ samePostgres p (object q).
Lemma keeping_call {A} (m : SE W A) : Inv I m → Inv keeping (call m).
Proof. intros Hm q [H1 H2]. specialize (Hm _ H1). unfold call, keeping in *. by destruct (m (outside q)). Qed.
Lemma keeping_condition type st reason msg : Inv keeping (setStatusCondition type st reason msg).
Proof.
  apply inv_bind; [apply keeping_call, may|]. intros t _ q [H1 H2]. split; [exact H1|exact H2].
Qed.
Lemma keeping_setDatabases names : Inv keeping (setDatabases names).
Proof.
  intros q [H1 H2]. unfold setDatabases, look, gets, mbind, se_bind. cbn. by destruct (pst_outputs _).
Qed.

Lemma keeping_in_turn l : Inv keeping (inTurn databaseStep l).
Proof.
  induction l as [|d l IH]; cbn [inTurn]; [apply inv_ret|]. apply inv_bind.
  - unfold databaseStep. apply inv_bind; [apply inv_look|]. intros o _. apply inv_bind.
    + apply keeping_call. unfold reconcileDatabaseStatus. apply inv_bind; [apply may|]. intros existing _.
      destruct (negb _); [apply inv_ret|]. destruct (negb _); apply inv_ret.
    + intros [[|] msg] _; [apply inv_ret|]. apply inv_bind; [apply keeping_condition|]. intros; apply inv_ret.
  - intros res _. case_decide; [done|apply inv_ret].
Qed.

(** C30. All the database step can do to the databases of the cluster, whatever its
    outcome.  It creates databases of the spec alone, with the owner reference of the
    Postgres cluster.  Of those the API server lists as made by the agent it touches
    only ones the spec does not name, and never the default one, in two steps: first
    it asks for their absence, and it deletes only one whose absence was asked for
    before and was applied at its generation.  A database that is in the spec is
    neither updated nor deleted. *)
Theorem database_footprint (w : W) : I w → I (outside (reconcileDatabases (mkOn w p)).2).
Proof.
  intros Hw. assert (keeping (mkOn w p)) as H0 by by split. revert H0.
  enough (∀ q, object q = p → keeping q → keeping (reconcileDatabases q).2) as H by (intros H0; by apply (H (mkOn w p))).
  intros q Hq. unfold reconcileDatabases. cbv [look gets]. unfold mbind at 1, se_bind at 1. cbn [id]. rewrite Hq.
  revert q Hq. enough (Inv keeping (if negb (clusterIsReady p) then mret resultNil else _)) as H by (intros q _; apply H).
  destruct (negb _); [apply inv_ret|]. case_decide.
  { apply inv_bind; [apply keeping_setDatabases|]. intros; apply inv_ret. }
  apply inv_bind; [apply keeping_call, ensure_databases_inv; set_solver|]. intros _ _.
  apply inv_bind; [apply keeping_call, unwanted_inv|]. intros _ _.
  apply inv_bind; [apply keeping_in_turn|]. intros res _. case_decide; [|apply inv_ret].
  apply inv_bind; [apply keeping_condition|]. intros _ _.
  apply inv_bind; [apply keeping_setDatabases|]. intros; apply inv_ret.
Qed.
End footprint.
End databases.

(** * The backup step *)

Section backups.
Context {CC : CnpgConstants} {TF : BackupTimeFormat} {CA : ConditionsApi} {CL : ConditionsLaws} {OA : OwnerApi}.
Context {W : Type} {CK : Clock W} {KC : Kind W CnpgCluster} {KB : Kind W Backup} {KSB : Kind W ScheduledBackup}.

Definition processedAt (p : PostgresCluster) : option Time := pst_last_immediate_backup_processed_at (pg_status p).
(** A backup of this request is there: the agent made it, or another pass had. *)
Definition backupMade (p : PostgresCluster) (b : ClusterBackupSpec) (requested : Time) : Prop :=
  ∃ m w w', set_controller_reference (pg_meta p) (object_meta (immediateBackupName p requested) (pg_namespace p)) = Ok m ∧
    ((∃ made, kcreate (mkBackup m (bk_spec (immediateBackup p b requested)) "") w = (Ok made, w')) ∨
     (∃ e, kcreate (mkBackup m (bk_spec (immediateBackup p b requested)) "") w = (Err e, w') ∧ is_already_exists e = true)).

(** Nothing but conditions changes. *)
Definition onlyConditions (p p' : PostgresCluster) : Prop :=
  samePostgres p p' ∧ processedAt p' = processedAt p ∧ pst_outputs (pg_status p') = pst_outputs (pg_status p).
Lemma post_relay from type message c (Q : unit → On W PostgresCluster → Prop) p :
  (∀ p', onlyConditions (object p) (object p') → Q tt p') → post (relay from type message c) Q p.
Proof.
  intros HQ. unfold relay. destruct (find_status_condition _ _); [|by apply post_ret, HQ].
  apply post_setStatusCondition. intros t w. by apply HQ.
Qed.

Definition backupsEnd (p : PostgresCluster) (b : ClusterBackupSpec) (res : subReconcilerResult) (p' : PostgresCluster) : Prop :=
  res = resultNil ∧ samePostgres p p' ∧
  match cbs_last_base_backup_requested_at b with
  | None => processedAt p' = processedAt p
  | Some requested =>
      (∃ t, processedAt p = Some t ∧ (requested ≤ t)%Z ∧ processedAt p' = Some t) ∨
      (backupMade p b requested ∧ ∃ t w w', now w = (Ok t, w') ∧ processedAt p' = Some t ∧
       (shouldCreateImmeadiateBackup (processedAt p') (Some requested) = true ↔ (t < requested)%Z))
  end.

(** C32. What becomes of a request for a backup.  Once the cluster is ready, a backup
    step that ends without an error has answered the request of the spec: it was
    processed at or after its time already, and nothing is asked for; or the Backup
    named after the cluster and the time of the request was created, or was there
    already, so that a pass that died after creating it asks for no second one, and
    the time of the step is recorded.  A clock that has passed the time of the request
    then makes the next step ask for nothing.  Without a request the record stands. *)
Theorem backup_request_answered (p p' : On W PostgresCluster) (b : ClusterBackupSpec) (res : subReconcilerResult) :
  reconcileBackups p = (Ok res, p') →
  pcs_backup (pg_spec (object p)) = Some b → clusterIsReady (object p) = true →
  backupsEnd (object p) b res (object p').
Proof.
  intros E Hb Hready. revert E.
  enough (post reconcileBackups (λ res p', backupsEnd (object p) b res (object p')) p) as H by apply H.
  unfold backupsEnd.
  unfold reconcileBackups. apply post_bind, post_look. cbn [id]. rewrite Hb, Hready. cbn [negb].
  apply post_bind, post_call. intros [] w1 _. apply post_bind, post_call. intros c w2 _.
  apply post_bind, post_relay. intros p1 Hp1. cbn [object] in Hp1.
  apply post_bind. assert (∀ Q : unit → On W PostgresCluster → Prop,
    (∀ p2, onlyConditions (object p) (object p2) → Q tt p2) →
    post (if cbs_wal_archiving_enabled b
          then relay ConditionContinuousArchiving ContinuousWalArchivingSuccess c_message c else mret tt) Q p1) as Hwal.
  { intros Q HQ. destruct (cbs_wal_archiving_enabled b); [apply post_relay|apply post_ret]; [|by apply HQ].
    intros p2 ([Hm Hs] & Ht & Ho). destruct Hp1 as ([Hm' Hs'] & Ht' & Ho'). apply HQ. unfold onlyConditions, samePostgres.
    by rewrite Hm, Hs, Ht, Ho. }
  apply Hwal. intros p2 ([Hm Hs] & Ht & _). apply post_bind, post_look. cbn [id].
  destruct (cbs_last_base_backup_requested_at b) as [requested|]; [|by apply post_ret].
  change (pst_last_immediate_backup_processed_at (pg_status (object p2))) with (processedAt (object p2)). rewrite Ht.
  destruct (shouldCreateImmeadiateBackup (processedAt (object p)) (Some requested)) eqn:Ec.
  - apply post_bind, post_call. intros [] w3 Hmade. apply post_bind, post_call. intros t w4 Hnow.
    apply post_bind, post_assign, post_ret. cbn [object outside] in *. split_and!; [done..|]. right. split.
    + assert (createBackup (object p2) b requested = createBackup (object p) b requested) as Heq
        by (destruct (object p), (object p2); cbn in Hm, Hs; by subst).
      rewrite Heq in Hmade. unfold createBackup in Hmade. apply se_bind_inv in Hmade as (m & wa & Hset & Hmade).
      injection Hset as Hset <-. apply se_bind_inv in Hmade as (made & wb & Hmade%attempt_inv & Hend).
      exists m, (outside p2), wb. split; [exact Hset|]. destruct made as [made|e]; [left; by exists made|right].
      destruct (is_already_exists e) eqn:He; [by exists e|done].
    + exists t, w3, w4. split_and!; [done..|]. unfold processedAt. cbn. apply Z.ltb_lt.
  - apply post_ret. split_and!; [done..|]. left. unfold shouldCreateImmeadiateBackup in Ec.
    destruct (processedAt (object p)) as [t|]; [|done]. exists t. split_and!; [done|by apply Z.ltb_ge|done].
Qed.
End backups.

(** * A concrete cluster *)

Import PostgresWorld.

(** Its database is in place; the operator knows one extension of it. *)
Definition shop_spec : DatabaseSpec := mkDatabaseSpec "shop" ["hstore"].
Definition shop_database : Database :=
  mkDatabase (object_meta "shop" "default")
    (mkCnpgDatabaseSpec "db-16" "shop" "app" EnsurePresent [("hstore", EnsurePresent)])
    (mkCnpgDatabaseStatus (Some true) 0 [("hstore", true)]).
Section steady.
#[local] Instance the_databases : Kind Z Database := only_objects [shop_database].
Lemma database_step_spec_witness :
  ∃ p', reconcileDatabases (mkOn 5%Z (ready_postgres [shop_spec] None)) = (Ok resultNil, p') ∧
    listsDatabases (ready_postgres [shop_spec] None) (object p') ["shop"; "app"].
Proof.
  destruct (reconcileDatabases (mkOn 5%Z (ready_postgres [shop_spec] None))) as [[res|e] p'] eqn:E;
    [|exfalso; vm_compute in E; discriminate].
  assert (res = resultNil) as -> by (vm_compute in E; by injection E as <- _).
  exists p'. split; [reflexivity|].
  pose proof (database_step_spec (W:=Z) _ _ _ E) as H. unfold databasesEnd in H. cbn [object] in H.
  destruct (negb (clusterIsReady _)) eqn:Er; [vm_compute in Er; discriminate Er|].
  destruct (decide _) as [Hd|_]; [vm_compute in Hd; discriminate Hd|].
  destruct H as [(_ & _ & _ & H)|(H & _)]; [exact H|discriminate H].
Defined.
End steady.

(** A world that lists the databases deleted in it, with one the spec names and one
    whose absence was asked for and applied. *)
Definition old_database : Database :=
  mkDatabase (object_meta "old" "default") (mkCnpgDatabaseSpec "db-16" "old" "app" EnsureAbsent [])
    (mkCnpgDatabaseStatus (Some true) 0 []).
#[local] Instance database_log : Kind (list string) Database := {
  kget n _ l := (Ok shop_database, l);
  klist _ _ l := (Ok [shop_database; old_database], l);
  kcreate n l := (Ok n, l);
  kupdate n l := (Ok n, l);
  kupdate_status n l := (Ok n, l);
  kdelete n l := (Ok tt, db_name n :: l);
}.
#[local] Instance no_clock : Clock (list string) := λ l, (0%Z, l).
(** The old one is deleted, the one of the spec never. *)
Lemma database_footprint_witness :
  let left := outside (reconcileDatabases (mkOn ([] : list string) (ready_postgres [shop_spec] None))).2 in
  "old" ∈ left ∧ "shop" ∉ left.
Proof.
  split; [vm_compute; left|].
  apply (database_footprint (W:=list string) (λ l, "shop" ∉ l) (ready_postgres [shop_spec] None)); [|apply not_elem_of_nil].
  split; try (intros; intros l Hl; exact Hl).
  intros d (_ & _ & Hd) _ _ l Hl. cbn. rewrite not_elem_of_cons. split; [|exact Hl].
  intros E. apply Hd. rewrite <- E. by left.
Defined.

(** A Backup of the request is there from an earlier pass. *)
#[local] Instance made_before : Kind Z Backup := {
  kget _ _ t := (Err (NotFound "backup"), t);
  klist _ _ t := (Ok [], t);
  kcreate _ t := (Err (AlreadyExists "backup"), t);
  kupdate b t := (Ok b, t);
  kupdate_status b t := (Ok b, t);
  kdelete _ t := (Ok tt, t);
}.
Definition requested_backup : ClusterBackupSpec := mkClusterBackupSpec false "store" None (Some 3%Z).
Lemma backup_request_answered_witness :
  ∃ p', reconcileBackups (mkOn 5%Z (ready_postgres [] (Some requested_backup))) = (Ok resultNil, p') ∧
    backupMade (ready_postgres [] (Some requested_backup)) requested_backup 3%Z ∧ processedAt (object p') = Some 5%Z.
Proof.
  destruct (reconcileBackups (mkOn 5%Z (ready_postgres [] (Some requested_backup)))) as [[res|e] p'] eqn:E;
    [|exfalso; vm_compute in E; discriminate].
  destruct (backup_request_answered (W:=Z) _ _ requested_backup _ E) as (-> & _ & H); [reflexivity|vm_compute; reflexivity|].
  exists p'. split; [reflexivity|]. destruct H as [(t & Ht & _)|[Hmade _]]; [discriminate Ht|].
  split; [exact Hmade|]. vm_compute in E. injection E as <-. vm_compute. reflexivity.
Defined.
