(* ===== verification/StackResourceController.v ===== *)
(** The StackResource controller
    (internal/controller/stackresource/stackresource_controller.go): run the
    chain of sub-reconcilers on a copy of the resource, record the current build,
    derive the summary from the verdicts, and write the status if it changed. *)
From S2P Require Import Prelude Text Kube Apimachinery Api StackAggregate Verdicts StatusDerive Pass PortCheck.
From S2P Require Import Builds Storage KubeWorkloads PodSpecs Crash Readiness Workloads.
From S2P Require Import Dependencies Registries RegistryRef ImageBuildStep RegistryAuth IngressTls Tls Svc NetworkOutcome Samples.

#[export] Instance verdict_collector_eq_dec : EqDecision VerdictCollector.
Proof. solve_decision. Defined.
#[export] Instance last_failure_detail_eq_dec : EqDecision LastFailureDetail.
Proof. solve_decision. Defined.
#[export] Instance stack_resource_status_eq_dec : EqDecision StackResourceStatus.
Proof.
  assert (EqDecision ExternalAddress) by solve_decision.
  assert (EqDecision BuildStatus) by solve_decision.
  assert (EqDecision ReferencedTLSSecretStatus) by solve_decision.
  assert (EqDecision PortCheckStatus) by solve_decision.
  assert (EqDecision StackResourceStatusSummary) by solve_decision.
  assert (EqDecision StackResourceConvergenceRecord) by solve_decision.
  assert (EqDecision CertManagerTLSStatus) by (unfold CertManagerTLSStatus; apply _).
  solve_decision.
Defined.

(** Find an element at a known place of a list. *)
Ltac in_list := first [apply list_elem_of_here|apply list_elem_of_further; in_list].

(** * The chain *)

Section chain.
Context {W : Type}.

(** The loop of [reconcile]: [deferred] is the last deferred requeue asked for. *)
Fixpoint runChain (deferred : option Duration) (subs : list (PM W SubReconcilerResult))
    : PM W CtrlResult :=
  match subs with
  | [] => mret (match deferred with
                | Some d => mkCtrlResult false d
                | None => no_requeue
                end)
  | sub :: subs =>
      res ← sub;
      if decide (res = ResultStop) then mret no_requeue
      else if decide (res = ResultRequeue) then mret (mkCtrlResult true 0)
      else match res_requeue_after res with
           | Some d => mret (mkCtrlResult false d)
           | None =>
               runChain (match res_deferred_requeue_after res with
                         | Some d => Some d
                         | None => deferred
                         end) subs
           end
  end.
Definition reconcileChain : list (PM W SubReconcilerResult) → PM W CtrlResult := runChain None.
End chain.

(** * The controller *)

(** The requests a changed Volume causes: one per resource it takes artifacts from. *)
Definition volumeToStackResources (v : Volume) : list NamespacedName :=
  match vsp_source (vol_spec v) with
  | Some src =>
      (λ a, (om_namespace (vol_meta v), bas_build_source a)) <$> default [] (vs_build_artifacts src)
  | None => []
  end.

Section controller.
Context {GT : GoText} {BD : BuildDigest} {CA : ConditionsApi} {SD : StatusDigest}.
Context {W : Type} {CK : Clock W} {KB : Kind W ImageBuild} {KR : Kind W StackResource}.

Definition buildStatusOf (b : ImageBuild) : BuildStatus :=
  let c := find_status_condition (ibs_conditions (ib_status b)) BuildAvailable in
  mkBuildStatus (ib_name b) (ibs_build_source_revision (ib_status b))
    (match c with Some c => bool_decide (c_status c = ConditionTrue) | None => false end)
    (match c with Some c => c_reason c | None => "" end)
    (match c with Some c => c_message c | None => "" end)
    (build_phase_string (ibs_phase (ib_status b))).

Definition getImageBuildStatus (r : StackResource) : SE W (option BuildStatus) :=
  match build_spec (sr_spec r) with
  | None => mret None
  | Some spec =>
      res ← attempt (kget (sr_namespace r) (ImageBuildName (sr_name r) spec));
      match res with
      | Err e => if is_not_found e then mret None else fail e
      | Ok b => mret (Some (buildStatusOf b))
      end
  end.

(** A pass over the resource: the controller's answer, and the resource as it
    would be written. *)
Definition runPass (subs : list (PM W SubReconcilerResult)) : PM W CtrlResult :=
  res ← reconcileChain subs;
  r ← gets resource;
  build ← lift (getImageBuildStatus r);
  _ ← modifies (set_status (λ s, s <| current_build := build |>));
  t ← lift now;
  v ← gets verdicts;
  _ ← modifies (set_resource (deriveSummaryStatus t v));
  mret res.

(** The pass on the resource that was read, with a fresh verdict collector, and
    the status write if the pass changed the status. *)
Definition reconcileResource (subs : list (PM W SubReconcilerResult)) (r : StackResource)
    : SE W CtrlResult := λ w,
  match runPass subs (mkPass w r no_verdicts) with
  | (Err e, p) => (Err e, world p)
  | (Ok res, p) =>
      if decide (sr_status r = sr_status (resource p)) then (Ok res, world p)
      else (_ ← kupdate_status (resource p); mret res) (world p)
  end.

Definition Reconcile (subs : list (PM W SubReconcilerResult)) (req : NamespacedName)
    : SE W CtrlResult :=
  got ← attempt (kget req.1 req.2);
  match got with
  | Err e => if is_not_found e then mret no_requeue else fail e
  | Ok r => reconcileResource subs r
  end.
End controller.

(** [NewStackResourceReconciler]: the chain in its order. *)
Record StackResourceReconcilerOpts := mkOpts {
  ImageBuildHistoryLimit : Z;
  PlatformTLSNamespace : string;
  workload_config : ReconcilerConfig;
}.

Section program.
Context {GT : GoText} {BD : BuildDigest} {CA : ConditionsApi} {OA : OwnerApi} {BS : BuildSort}.
Context {URL : UrlParse} {CC : CredentialCodec} {DV : DnsValidation} {MO : MapOrder} {DD : DeepDerivative}.
Context {TF : TimeFormat} {PS : PodSort}.
Context {W : Type} {CK : Clock W} {VO : VerifierOps W} {EG : ErrGroup W}.
Context {UR : UncachedList W ReplicaSet} {UP : UncachedList W Pod}.
Context {KB : Kind W ImageBuild} {KSec : Kind W Secret} {KV : Kind W Volume} {KJ : Kind W Job}.
Context {KSR : Kind W StackResource} {KReg : Kind W ClusterRegistry}.
Context {KSvc : Kind W Service} {KIng : Kind W Ingress} {KC : Kind W Certificate}.
Context {KIss : Kind W ClusterIssuer} {KM : Kind W Middleware}.
Context {UD : CreateOrUpdate W Deployment} {US : CreateOrUpdate W StatefulSet}
  {UC : CreateOrUpdate W CronJob} {USec : CreateOrUpdate W Secret}.

Definition subReconcilers (opts : StackResourceReconcilerOpts) : list (PM W SubReconcilerResult) :=
  [RegistryAuth.reconcile;
   ImageBuildStep.reconcile (ImageBuildHistoryLimit opts);
   Workloads.Reconcile (workload_config opts);
   Svc.reconcile (orDefault (PlatformTLSNamespace opts) DefaultPlatformTLSNamespace)].
End program.

(** * The contract between the chain and its steps *)

Section contract.
Context {W : Type} {CA : ConditionsApi} {CL : ConditionsLaws} {CK : Clock W}.

(** A step with the domain conditions it may write, and the facts it owes, for a
    resource with a given spec, whenever the chain goes on after it. *)
Record Step := mkStep {
  step : PM W SubReconcilerResult;
  step_writes : list StackResourceDomainCondition;
  step_owes : StackResourceSpec → list StackResourceDomainCondition;
}.

Class StepOk (s : Step) : Prop := {
  step_frame : Preserves (keeps (step_writes s)) (step s);
  step_outcome p : post (step s) (outcome (step_owes s (sr_spec (resource p)))) p;
}.

(** No later step overwrites what an earlier one owes. *)
Fixpoint compatible (l : list Step) : Prop :=
  match l with
  | [] => True
  | s :: l => (∀ s' sp d, s' ∈ l → d ∈ step_owes s sp → d ∉ step_writes s') ∧ compatible l
  end.

Lemma chain_keeps l deferred :
  Forall StepOk l → Preserves (keeps (l ≫= step_writes)) (runChain deferred (step <$> l)).
Proof.
  intros Hok. revert deferred. induction Hok as [|s l Hs Hl IH]; intros deferred; cbn.
  { apply Preserves_ret. apply _. }
  apply Preserves_bind; [apply _| |intros res; repeat case_match].
  - apply (Preserves_mono (keeps (step_writes s))); [|apply step_frame].
    intros q q'. apply keeps_mono. set_solver.
  - apply Preserves_ret, _.
  - apply Preserves_ret, _.
  - apply Preserves_ret, _.
  - apply (Preserves_mono (keeps (l ≫= step_writes))); [|apply IH]. intros q q'. apply keeps_mono. set_solver.
  - apply (Preserves_mono (keeps (l ≫= step_writes))); [|apply IH]. intros q q'. apply keeps_mono. set_solver.
Qed.

(** The chain ends with a verdict or with every fact of every step. *)
Lemma chain_complete l deferred p sp :
  Forall StepOk l → compatible l → sr_spec (resource p) = sp →
  post (runChain deferred (step <$> l)) (λ _ p', has_verdict p' ∨
    ∀ s d, s ∈ l → d ∈ step_owes s sp → holds d p') p.
Proof.
  intros Hok. revert deferred p. induction Hok as [|s l Hs Hl IH]; intros deferred p Hcomp Hsp; cbn.
  { apply post_ret. right. intros s d Hin. by apply not_elem_of_nil in Hin. }
  destruct Hcomp as [Hc Hcomp]. apply post_bind. intros res p1 E.
  pose proof (step_outcome p res p1 E) as Ho. rewrite Hsp in Ho. unfold outcome, halts in Ho.
  pose proof (Preserves_post _ _ p step_frame res p1 E) as Hk.
  destruct (decide (res = ResultStop)) as [Hst|Hst].
  { rewrite bool_decide_true in Ho by done. apply post_ret. by left. }
  destruct (decide (res = ResultRequeue)) as [Hrq|Hrq].
  { rewrite orb_comm, (bool_decide_true (res = ResultRequeue)), orb_true_r, orb_true_r in Ho by done.
    apply post_ret. by left. }
  rewrite !bool_decide_false in Ho by done. cbn [orb] in Ho.
  destruct (res_requeue_after res) as [d|]; [apply post_ret; by left|].
  rewrite bool_decide_false in Ho by (by intros []).
  assert (sr_spec (resource p1) = sp) as Hsp1 by (by destruct Hk as (_ & -> & _)).
  intros r' p' E'. pose proof (IH _ _ Hcomp Hsp1 r' p' E') as [Hv|Hf]; [by left|right].
  intros s' d. rewrite elem_of_cons. intros [->|Hin] Hd; [|by apply (Hf s')].
  eapply (keeps_holds (l ≫= step_writes)); [|exact (Preserves_post _ _ p1 (chain_keeps l _ Hl) r' p' E')|].
  - intros (s' & Hw & Hin)%list_elem_of_bind. exact (Hc s' sp d Hin Hd Hw).
  - by apply Ho.
Qed.
End contract.

(** * The steps of the program honour it *)

Section program_contract.
Context {GT : GoText} {BD : BuildDigest} {CA : ConditionsApi} {CL : ConditionsLaws} {OA : OwnerApi}.
Context {BS : BuildSort}.
Context {URL : UrlParse} {CC : CredentialCodec} {DV : DnsValidation} {MO : MapOrder} {DD : DeepDerivative}.
Context {TF : TimeFormat} {PS : PodSort} {SD : StatusDigest}.
Context {W : Type} {CK : Clock W} {VO : VerifierOps W} {EG : ErrGroup W}.
Context {UR : UncachedList W ReplicaSet} {UP : UncachedList W Pod}.
Context {KB : Kind W ImageBuild} {KSec : Kind W Secret} {KV : Kind W Volume} {KJ : Kind W Job}.
Context {KSR : Kind W StackResource} {KReg : Kind W ClusterRegistry}.
Context {KSvc : Kind W Service} {KIng : Kind W Ingress} {KC : Kind W Certificate}.
Context {KIss : Kind W ClusterIssuer} {KM : Kind W Middleware}.
Context {UD : CreateOrUpdate W Deployment} {US : CreateOrUpdate W StatefulSet}
  {UC : CreateOrUpdate W CronJob} {USec : CreateOrUpdate W Secret}.

Definition authStep : Step := mkStep (W:=W) RegistryAuth.reconcile [] (λ _, []).
Definition buildStep limit : Step :=
  mkStep (W:=W) (ImageBuildStep.reconcile limit) [StackResourceBuildReady] (λ _, []).
Definition workloadStep cfg : Step :=
  mkStep (W:=W) (Workloads.Reconcile cfg)
    [StackResourceDependenciesReady; StackResourceBuildReady; StackResourceWorkloadAvailable;
     StackResourceWorkloadConverged]
    workload_owes.

(** Does a resource with this spec get public routes? *)
Definition routed (sp : StackResourceSpec) : bool :=
  negb (bool_decide (workload_type sp = WorkloadTypeWorker ∨ workload_type sp = WorkloadTypeJob ∨
                     workload_type sp = WorkloadTypeCronJob)) && HasExposedPort sp.
Definition networkStep ns : Step :=
  mkStep (W:=W) (Svc.reconcile ns) [StackResourceTLSConfigured; StackResourceIngressReady]
    (λ sp, if routed sp then [StackResourceIngressReady] else []).

Definition steps (opts : StackResourceReconcilerOpts) : list Step :=
  [authStep; buildStep (ImageBuildHistoryLimit opts); workloadStep (workload_config opts);
   networkStep (orDefault (PlatformTLSNamespace opts) DefaultPlatformTLSNamespace)].

Lemma steps_are_the_chain opts : step <$> steps opts = subReconcilers opts.
Proof. reflexivity. Qed.

Lemma docker_auth_keeps auth : Preserves (W:=W) (keeps []) (reconcileDockerConfigAuth auth).
Proof. unfold reconcileDockerConfigAuth, reportNotReady. solve_preserves. Qed.
Lemma basic_auth_keeps basic url : Preserves (W:=W) (keeps []) (synthesizeFromBasic basic url).
Proof. unfold synthesizeFromBasic, reportNotReady. solve_preserves. Qed.
#[local] Hint Resolve docker_auth_keeps basic_auth_keeps : preserves.

#[export] Instance authStep_ok : StepOk authStep.
Proof.
  split; [|intros p; apply registry_auth_outcome].
  cbn. unfold RegistryAuth.reconcile, reconcileCredentials, reportNotReady. solve_preserves.
Qed.

#[export] Instance buildStep_ok limit : StepOk (buildStep limit).
Proof.
  split; cbn.
  - unfold ImageBuildStep.reconcile, createImageBuild, evaluateImageBuild, reportNotReady, reportFailed.
    solve_preserves.
  - exact (build_outcome limit).
Qed.

Lemma dispatch_keeps_step cfg ds :
  StackResourceWorkloadAvailable ∈ ds → StackResourceWorkloadConverged ∈ ds →
  Preserves (W:=W) (keeps ds) (dispatch cfg).
Proof.
  intros ??. eapply Preserves_mono; [|apply dispatch_keeps, _]. intros q q'. apply keeps_mono. set_solver.
Qed.
#[local] Hint Resolve dispatch_keeps_step : preserves.

#[export] Instance workloadStep_ok cfg : StepOk (workloadStep cfg).
Proof.
  split; cbn.
  - unfold Workloads.Reconcile, gateShut, buildGate, reportNotReady. cbv zeta. solve_preserves.
  - exact (Reconcile_outcome cfg).
Qed.

#[export] Instance networkStep_ok ns : StepOk (networkStep ns).
Proof.
  split; cbn -[routed].
  - unfold Svc.reconcile, reconcileIngress, publish. cbv zeta. solve_preserves.
  - intros p. eapply post_mono; [apply (network_outcome ns)|]. intros res p' [Hh Hr].
    unfold outcome. rewrite Hh. unfold routed. case_bool_decide as Hs; [set_solver|].
    destruct (HasExposedPort _); [|set_solver]. cbn. intros d ->%list_elem_of_singleton. apply Hr; tauto.
Qed.

Lemma steps_ok opts : Forall StepOk (steps opts).
Proof. unfold steps. repeat (apply Forall_cons_2; [exact _|]). apply Forall_nil_2. Qed.
Lemma steps_compatible opts : compatible (steps opts).
Proof.
  unfold steps. cbn -[routed]. split_and!; [set_solver|set_solver| |set_solver|done].
  intros s' sp d ->%list_elem_of_singleton. cbn -[routed]. unfold workload_owes. destruct (build_spec sp); set_solver.
Qed.

(** ** After the chain *)

Lemma derive_phase t v r : phase (sr_status (deriveSummaryStatus t v r)) = derivedPhase v r.
Proof. by rewrite derive_eq. Qed.

Lemma derive_domain t v r d :
  view (sr_conditions (deriveSummaryStatus t v r)) (domain_name d) = view (sr_conditions r) (domain_name d).
Proof.
  rewrite derive_eq. unfold view, sr_conditions. cbn -[set_all settings].
  by rewrite find_set_all_ne by apply domain_not_set.
Qed.

Lemma meta_status_comm (f : ObjectMeta → ObjectMeta) (g : StackResourceStatus → StackResourceStatus) r :
  (r <| sr_meta ::= f |>) <| sr_status ::= g |> = (r <| sr_status ::= g |>) <| sr_meta ::= f |>.
Proof. reflexivity. Qed.
Lemma status_hash_meta (f : ObjectMeta → ObjectMeta) r :
  StackResourceStatusHash (r <| sr_meta ::= f |>) = StackResourceStatusHash r.
Proof. reflexivity. Qed.

(** The derivation reads nothing of the metadata but generation and annotations. *)
Lemma derive_resource_version t v r rv :
  deriveSummaryStatus t v (r <| sr_meta ::= λ m, m <| om_resource_version := rv |> |>) =
  (deriveSummaryStatus t v r) <| sr_meta ::= λ m, m <| om_resource_version := rv |> |>.
Proof.
  set (r' := modify (λ m, m <| om_resource_version := rv |>) r).
  assert (settings v r' = settings v r) as Es by reflexivity.
  assert (summarize r' v = summarize r v) as Em by reflexivity.
  assert (derivedStatus t v r' = derivedStatus t v r) as Ed by (unfold derivedStatus; by rewrite Es, Em).
  rewrite !derive_eq. cbv zeta. rewrite Ed. unfold r'. rewrite !meta_status_comm, status_hash_meta.
  reflexivity.
Qed.

(** What the rest of the pass makes of the resource and verdicts of the chain. *)
Lemma post_runPass subs (Q : CtrlResult → Pass W → Prop) p :
  post (reconcileChain subs) (λ res p1, ∀ w b t,
    let r1 := (resource p1) <| sr_status ::= λ s, s <| current_build := b |> |> in
    Q res (mkPass w (deriveSummaryStatus t (verdicts p1) r1) (verdicts p1))) p →
  post (runPass subs) Q p.
Proof.
  intros H. unfold runPass. apply post_bind. eapply post_mono; [exact H|]. intros res p1 HQ.
  vcg. apply HQ.
Qed.
End program_contract.

(** * Properties *)

Section controller_properties.
Context {GT : GoText} {BD : BuildDigest} {CA : ConditionsApi} {CL : ConditionsLaws} {OA : OwnerApi}.
Context {BS : BuildSort} {SD : StatusDigest}.
Context {URL : UrlParse} {CC : CredentialCodec} {DV : DnsValidation} {MO : MapOrder} {DD : DeepDerivative}.
Context {TF : TimeFormat} {PS : PodSort}.
Context {W : Type} {CK : Clock W} {VO : VerifierOps W} {EG : ErrGroup W}.
Context {UR : UncachedList W ReplicaSet} {UP : UncachedList W Pod}.
Context {KB : Kind W ImageBuild} {KSec : Kind W Secret} {KV : Kind W Volume} {KJ : Kind W Job}.
Context {KSR : Kind W StackResource} {KReg : Kind W ClusterRegistry}.
Context {KSvc : Kind W Service} {KIng : Kind W Ingress} {KC : Kind W Certificate}.
Context {KIss : Kind W ClusterIssuer} {KM : Kind W Middleware}.
Context {UD : CreateOrUpdate W Deployment} {US : CreateOrUpdate W StatefulSet}
  {UC : CreateOrUpdate W CronJob} {USec : CreateOrUpdate W Secret}.

(** C1. No status is claimed that the pass has not earned.  Whatever the outside
    world answers, when a pass over the whole chain publishes the phase Ready or
    Degraded, it collected no verdict, and the dependencies, the build (for a
    resource built from source), the workload's availability and the ingress (for
    a resource with public routes) are all True for the resource's generation; a
    True Converged condition means in addition that the phase is Ready. *)
Theorem ready_needs_complete_pass opts p :
  post (runPass (subReconcilers opts)) (λ _ p',
    let sp := sr_spec (resource p) in
    let ph := phase (sr_status (resource p')) in
    sr_meta (resource p') = sr_meta (resource p) ∧ sr_spec (resource p') = sp ∧
    (ph = StackResourcePhaseReady ∨ ph = StackResourcePhaseDegraded →
       verdicts p' = no_verdicts ∧
       Pass.holds StackResourceDependenciesReady p' ∧ Pass.holds StackResourceWorkloadAvailable p' ∧
       (is_Some (build_spec sp) → Pass.holds StackResourceBuildReady p') ∧
       (routed sp = true → Pass.holds StackResourceIngressReady p')) ∧
    (isTrue (findStatusCondition (sr_conditions (resource p')) (sr_generation (resource p'))
       (summary_name StackResourceConverged)) = true → ph = StackResourcePhaseReady)) p.
Proof.
  apply post_runPass. rewrite <- steps_are_the_chain.
  intros res p1 E w b t r1. cbn [resource verdicts].
  assert (∀ d, Pass.holds d p1 → Pass.holds d (mkPass w (deriveSummaryStatus t (verdicts p1) r1) (verdicts p1)))
    as Hkeep.
  { intros d (rs & m & Hv). exists rs, m. cbn [resource]. rewrite derive_domain.
    rewrite derive_eq. exact Hv. }
  pose proof (Preserves_post _ _ p (chain_keeps (steps opts) None (steps_ok opts)) res p1 E) as (Hm & Hs & _).
  pose proof (chain_complete (steps opts) None p _ (steps_ok opts) (steps_compatible opts) eq_refl res p1 E) as Hc.
  assert (∀ s d, s ∈ steps opts → d ∈ step_owes s (sr_spec (resource p)) → verdicts p1 = no_verdicts →
    Pass.holds d p1) as Hfact.
  { intros s d Hin Hd Hn. destruct Hc as [[[v Hv]|[v Hv]]|Hc]; [by rewrite Hn in Hv..|by apply (Hc s)]. }
  rewrite !derive_phase. split_and!.
  - rewrite derive_eq. exact Hm.
  - rewrite derive_eq. exact Hs.
  - intros Hph. assert (verdicts p1 = no_verdicts) as Hn.
    { unfold derivedPhase in Hph. destruct (verdicts p1) as [[n|] [f|]]; cbn in Hph; by destruct Hph. }
    pose proof (Hfact (workloadStep (workload_config opts))) as Hw.
    pose proof (Hfact (networkStep (orDefault (PlatformTLSNamespace opts) DefaultPlatformTLSNamespace))) as Hnet.
    unfold steps in Hw, Hnet. cbn [step_owes workloadStep networkStep] in Hw, Hnet. unfold workload_owes in Hw.
    split_and!; [done|apply Hkeep, Hw; [in_list..|done]|apply Hkeep, Hw; [in_list..|done]| |].
    + intros [spec Hb]. rewrite Hb in Hw. apply Hkeep, Hw; [in_list..|done].
    + intros Hr. rewrite Hr in Hnet. apply Hkeep, Hnet; [in_list..|done].
  - rewrite derive_eq at 2. unfold sr_generation at 1. cbn [sr_meta]. fold (sr_generation r1).
    rewrite derived_current, summaryValue_spec. intros [Hn Hw]. rewrite Hn. unfold derivedPhase. cbn.
    apply domainConditionTrue_holds in Hw. by rewrite Hw.
Qed.

(** C3. The controller is quiescent, and an error persists nothing.  Take the
    resource as a previous pass left it in the cluster, whatever resource version
    the write gave it.  If the chain leaves it alone and collects the verdicts of
    that pass, and the current build is still the recorded one, then the pass
    writes no status, however late it runs; and if the chain ends in an error, the
    world is the one the chain left. *)
Theorem stack_resource_quiescent subs r0 t0 v rv w :
  let r := (deriveSummaryStatus t0 v r0) <| sr_meta ::= λ m, m <| om_resource_version := rv |> |> in
  (∀ res w1 w2 t w3,
    reconcileChain subs (mkPass w r no_verdicts) = (Ok res, mkPass w1 r v) →
    getImageBuildStatus r w1 = (Ok (current_build (sr_status r)), w2) →
    now w2 = (Ok t, w3) →
    reconcileResource subs r w = (Ok res, w3)) ∧
  (∀ e p1, reconcileChain subs (mkPass w r no_verdicts) = (Err e, p1) →
    reconcileResource subs r w = (Err e, world p1)).
Proof.
  intros r. split.
  - intros res w1 w2 t w3 Hc Hb Ht.
    assert (runPass subs (mkPass w r no_verdicts) =
      (Ok res, mkPass w3 (deriveSummaryStatus t v r) v)) as Hp.
    { unfold runPass. se_step by exact Hc. se_step by reflexivity.
      se_step by (unfold lift; cbn [world resource]; rewrite Hb; reflexivity).
      se_step by reflexivity. cbn [world resource verdicts set_status set_resource].
      se_step by (unfold lift, set_status, set_resource; cbn [world resource]; rewrite Ht; reflexivity).
      se_step by reflexivity. se_step by reflexivity. cbn [resource verdicts set_resource].
      assert (r <| sr_status ::= λ s, s <| current_build := current_build (sr_status r) |> |> = r) as ->.
      { generalize r. intros [m sp st]. by destruct st. }
      reflexivity. }
    unfold reconcileResource. rewrite Hp. cbn [resource].
    assert (deriveSummaryStatus t v r = r) as ->.
    { unfold r. by rewrite derive_resource_version, derive_idempotent. }
    by rewrite decide_True.
  - intros e p1 He. unfold reconcileResource, runPass.
    cbv [mbind se_bind]. by rewrite He.
Qed.
End controller_properties.

(** * Witnesses *)

Import Cluster.
#[local] Instance plain_url : UrlParse := λ u, Ok u.
#[local] Instance plain_codec : CredentialCodec := { base64 := id; docker_config_text _ := "{}" }.
#[local] Instance any_name : DnsValidation := λ _, true.
#[local] Instance ascending : MapOrder := map_to_list.
#[local] Instance any_spec : DeepDerivative := λ _ _, true.
#[local] Instance idle_group : ErrGroup Z := λ _ t, (Ok tt, t).
#[local] Instance as_listed : BuildSort := id.
#[local] Instance one_job : Kind Z Job := only_objects [finished_job].

Definition job_resource : StackResource :=
  (sample_resource "web")
    <| sr_meta ::= λ m, m <| om_annotations := {[ RevisionAnnotation := "1" ]} |> |>
    <| sr_spec ::= λ s, s <| workload_type := WorkloadTypeJob |>
                          <| image_spec := Some (mkImageSpec "busybox:1" "" None) |> |>.
Definition sample_opts : StackResourceReconcilerOpts := mkOpts 3 "" (mkReconcilerConfig false false 0).

Lemma ready_needs_complete_pass_witness :
  ∃ res p', runPass (subReconcilers sample_opts) (mkPass 5%Z job_resource no_verdicts) = (Ok res, p') ∧
    phase (sr_status (resource p')) = StackResourcePhaseReady ∧
    Pass.holds StackResourceWorkloadAvailable p'.
Proof.
  destruct (runPass _ _) as [[res|e] p'] eqn:E; [|exfalso; vm_compute in E; discriminate].
  exists res, p'. split; [reflexivity|].
  assert (phase (sr_status (resource p')) = StackResourcePhaseReady) as Hp
    by (vm_compute in E; injection E as _ <-; reflexivity).
  split; [exact Hp|].
  destruct (ready_needs_complete_pass (W:=Z) sample_opts _ res p' E) as (_ & _ & H & _).
  destruct (H (or_introl Hp)) as (_ & _ & Ha & _). exact Ha.
Defined.

Lemma stack_resource_quiescent_witness :
  let r := (deriveSummaryStatus 3 no_verdicts (sample_resource "web"))
             <| sr_meta ::= λ m, m <| om_resource_version := "2" |> |> in
  reconcileResource (W:=Z) [] r 5%Z = (Ok no_requeue, (5 + second)%Z).
Proof.
  apply (proj1 (stack_resource_quiescent (W:=Z) [] (sample_resource "web") 3 no_verdicts "2" 5%Z))
    with (w1 := 5%Z) (w2 := 5%Z) (t := 5%Z); reflexivity.
Defined.
