(* ===== verification/Agent.v ===== *)
(** The cluster agent's process (cmd/cluster-agent): its flags, what it sets up and in which
    order, and the settings the deployed controllers run with. *)
From S2P Require Import Prelude Text Kube Api Registries Objects KubeWorkloads PortCheck Readiness Paths Tls ErrorPages Zot RegistryController Nfs StackResourceController.

(** * Settings *)

Definition ZotImage : string := "ghcr.io/project-zot/zot-linux-amd64:v2.1.18".
Definition RegistryConfigReconcilerImage : string := "quay.io/stackdome/registry-config-reconciler:v0.0.9".
Definition NfsServerImage : string := "adnanhodzic/nfs-server-k8s:0.1".
Definition RustFSImage : string :=
  "rustfs/rustfs@sha256:7c72df8e6705aa5eb18f5fb2d9252103e897afd1533a5658935fe70929eda5ce".
Definition StackdomeRWManyProvisionerName : string := "stackdome.io/nfs-rwmany".
Definition StackdomeRWManyStorageClassName : string := "stackdome-rwmany".
Definition DefaultAddr : string := ":8082".

(** The variables bound to flags, and what they hold when a flag is not given. *)
Record Flags := mkFlags {
  metricsAddr : string;
  probeAddr : string;
  errorPagesAddr : string;
  enableLeaderElection : bool;
  secureMetrics : bool;
  enableHTTP2 : bool;
  imageBuildHistoryLimit : Z;
  platformTLSNamespace : string;
  portCheckGraceFlag : Duration;
}.
Definition default_flags : Flags :=
  mkFlags ":8080" ":8081" DefaultAddr false false false 5 DefaultPlatformTLSNamespace DefaultPortCheckGrace.

(** What is done to the [NextProtos] of a TLS configuration. *)
Definition disableHTTP2 (nextProtos : list string) : list string := ["http/1.1"].
Definition tlsOpts (f : Flags) : list (list string → list string) :=
  if negb (enableHTTP2 f) then [disableHTTP2] else [].

Definition deployedZotOpts : ZotRegistryOpts :=
  mkZotRegistryOpts ZotImage RegistryConfigReconcilerImage "1h" "6h" true "info"
    (mkLayerCachingOpts true ["**/cache"; "**/cache/**"] 10 "168h").
Definition registryBuilder : zotRegistry := NewZotRegistry deployedZotOpts.

Definition storageClassOpts : StorageClassOpts :=
  mkStorageClassOpts StackdomeRWManyStorageClassName StackdomeRWManyProvisionerName (Some "Delete") [] None.

(** [utilruntime.Must] panics. *)
Definition Must {A} (r : result A) : result A :=
  match r with Ok a => Ok a | Err e => Err (Panic (error_text e)) end.
(** The builder is handed its paths. *)
Definition NewRegistryReconciler (z : zotRegistry) : result zotRegistry :=
  Must (Initialize registryBuilderOpts z).

(** * What is set up *)

Record ManagerOptions := mkManagerOptions {
  mo_metrics_addr : string;
  mo_secure_serving : bool;
  mo_tls_opts : list (list string → list string);
  mo_webhook_tls_opts : list (list string → list string);
  mo_probe_addr : string;
  mo_leader_election : bool;
  mo_leader_election_id : string;
}.
Inductive Controller :=
  | StackResourceReconciler (o : StackResourceReconcilerOpts)
  | ImageBuildReconciler
  | StackReconciler
  | VolumeReconciler
  | WorkspaceUserReconciler
  | RegistryReconciler (z : zotRegistry)
  | NFSServerReconciler (image : string)
  | ObjectStorageReconciler (image : string)
  | PostgresAddonReconciler
  | ClusterInfoReconciler.
Inductive Runnable :=
  | PortVerifierRunnable (v : Verifier)
  | RWManyProvisioner (name : string)
  | ErrorPageServer (addr : string).

(** controller-runtime and client-go, as far as the process calls them. *)
Class ManagerApi (W : Type) := {
  add_to_scheme : string → SE W unit;
  new_manager : ManagerOptions → SE W unit;
  new_uncached_client : SE W unit;
  mgr_add : Runnable → SE W unit;
  setup_with_manager : Controller → SE W unit;
  new_pod_executer : SE W unit;
  new_clientset : SE W unit;
  add_healthz_check : string → SE W unit;
  add_readyz_check : string → SE W unit;
  mgr_start : SE W unit;
}.

Section process.
Context {W : Type} {MA : ManagerApi W} {KC : Kind W StorageClass}.

(** [if err := m; err != nil { setupLog.Error(...); os.Exit(1) }]. *)
Definition exit_1 {A} : SE W A := fail (Errorf "exit status 1").
Definition or_exit {A} (m : SE W A) : SE W A :=
  r ← attempt m;
  match r with Ok a => mret a | Err _ => exit_1 end.

(** [init]. *)
Definition schemes : list string :=
  ["clientgoscheme"; "corev1alpha1"; "registryv1alpha1"; "buildsv1alpha1"; "usersv1alpha1";
   "storagev1alpha1"; "cnpgv1"; "barmancloudv1"; "addonsv1alpha1"; "cmv1"].
Fixpoint register (l : list string) : SE W unit :=
  match l with
  | [] => mret tt
  | s :: l => r ← attempt (add_to_scheme s); _ ← of_result (Must r); register l
  end.

Definition managerOptions (f : Flags) : ManagerOptions :=
  mkManagerOptions (metricsAddr f) (secureMetrics f) (tlsOpts f) (tlsOpts f) (probeAddr f) (enableLeaderElection f)
    "66da0ac8.stackdome.io".
Definition stackResourceOpts (f : Flags) : StackResourceReconcilerOpts :=
  mkOpts (imageBuildHistoryLimit f) (platformTLSNamespace f)
    (mkReconcilerConfig true true (portCheckGraceFlag f)).

Definition main (f : Flags) : SE W unit :=
  _ ← or_exit (new_manager (managerOptions f));
  _ ← or_exit new_uncached_client;
  _ ← or_exit (mgr_add (PortVerifierRunnable NewVerifierWithDefaults));
  _ ← or_exit (setup_with_manager (StackResourceReconciler (stackResourceOpts f)));
  _ ← or_exit (setup_with_manager ImageBuildReconciler);
  _ ← or_exit (setup_with_manager StackReconciler);
  _ ← or_exit (setup_with_manager VolumeReconciler);
  _ ← or_exit (setup_with_manager WorkspaceUserReconciler);
  z ← of_result (NewRegistryReconciler registryBuilder);
  _ ← or_exit (setup_with_manager (RegistryReconciler z));
  image ← or_exit (NewNFSServerReconciler storageClassOpts NfsServerImage);
  _ ← or_exit (setup_with_manager (NFSServerReconciler image));
  _ ← or_exit (setup_with_manager (ObjectStorageReconciler RustFSImage));
  _ ← or_exit new_pod_executer;
  _ ← or_exit new_clientset;
  _ ← attempt (mgr_add (RWManyProvisioner StackdomeRWManyProvisionerName));
  _ ← or_exit (setup_with_manager PostgresAddonReconciler);
  _ ← or_exit (setup_with_manager ClusterInfoReconciler);
  _ ← or_exit (add_healthz_check "healthz");
  _ ← or_exit (add_readyz_check "readyz");
  _ ← or_exit (mgr_add (ErrorPageServer (errorPagesAddr f)));
  or_exit mgr_start.
Definition process (f : Flags) : SE W unit := _ ← register schemes; main f.
End process.

(** * The registry it deploys *)

(** The builder after [NewRegistryReconciler]. *)
Definition deployedRegistry : zotRegistry :=
  mkZotRegistry "1h" "6h" true "info" (mkLayerCachingOpts true ["**/cache"; "**/cache/**"] 10 "168h")
    ZotImage RegistryConfigReconcilerImage registryBuilderOpts.

Section deployed_retention.
Context {GT : GoText}.
(** The matching of a repository against a glob pattern in zot, as documented: two stars stand
    for any number of path segments. *)
Context (repo_matches : string → string → bool).
Hypothesis matches_all : ∀ repo, repo_matches "**" repo = true.
Hypothesis matches_last : ∀ repo, repo_matches "**/cache" repo = true ↔ last (elements repo) = Some "cache".
Hypothesis matches_inner : ∀ repo,
  repo_matches "**/cache/**" repo = true → "cache" ∈ elements repo.
Hypothesis matches_inner_below : ∀ repo pre next post,
  elements repo = pre ++ "cache" :: next :: post → repo_matches "**/cache/**" repo = true.

Lemma cache_repo_segment repo :
  isCacheRepo repo_matches deployedRegistry repo = bool_decide ("cache" ∈ elements repo).
Proof.
  unfold isCacheRepo. simpl. rewrite orb_false_r. apply eq_bool_prop_intro.
  rewrite bool_decide_spec, orb_True, !Is_true_true, matches_last. split.
  - intros [Hl|?]; [by apply last_Some_elem_of|by apply matches_inner].
  - intros (pre & post & E)%list_elem_of_split. destruct post as [|next post].
    + left. by rewrite E, last_snoc.
    + right. by eapply matches_inner_below.
Qed.

(** C22. What the registry that the agent deploys keeps.  The builder the process sets up accepts
    the paths the controller gives it, and in the configuration it writes for any registry
    garbage collection runs and every repository has a policy that reclaims what is not
    tagged.  A repository with a path segment "cache", which is what Kaniko's layer caches
    have and also any image of a resource of that name, keeps ten tags and those pulled
    within a week; no tag of any other repository is ever pruned. *)
Theorem deployed_retention r repo :
  NewRegistryReconciler registryBuilder = Ok deployedRegistry ∧
  let c := zc_storage (zotConfig deployedRegistry r) in
  stc_gc c = true ∧
  ∃ p, policyFor repo_matches (stc_retention c) repo = Some p ∧ rp_delete_untagged p = true ∧
    rp_keep_tags p = if decide ("cache" ∈ elements repo) then [mkKeepTagRule (Some 10%Z) "168h"] else [].
Proof.
  split; [reflexivity|]. split; [reflexivity|].
  pose proof (cache_repo_segment repo) as Hc. unfold isCacheRepo in Hc. simpl in Hc. rewrite orb_false_r in Hc.
  unfold policyFor. cbn [stc_retention zc_storage zotConfig buildRetentionConfig rcf_policies deployedRegistry].
  simpl. rewrite orb_false_r, Hc. case_decide as Hd.
  - rewrite decide_True by by apply bool_decide_eq_true_2. simpl. by eexists.
  - rewrite decide_False by by rewrite bool_decide_eq_true. simpl.
    rewrite matches_all. simpl. by eexists.
Qed.
End deployed_retention.

Definition sample_globs (g repo : string) : bool :=
  if decide (g = "**") then true
  else if decide (g = "**/cache") then bool_decide (last (elements repo) = Some "cache")
  else bool_decide ("cache" ∈ elements repo).
#[local] Instance as_is : GoText := { to_lower := id; quote := id }.

(** The image of a resource named "cache" is pruned as a layer cache is. *)
Lemma deployed_retention_witness :
  ∃ p, policyFor sample_globs (stc_retention (zc_storage (zotConfig deployedRegistry (sample_registry [] ""))))
         "shop/cache" = Some p ∧ rp_keep_tags p = [mkKeepTagRule (Some 10%Z) "168h"].
Proof.
  destruct (deployed_retention sample_globs ltac:(done)
    ltac:(intros repo; exact (bool_decide_eq_true _))
    ltac:(intros repo; exact (proj1 (bool_decide_eq_true _)))
    ltac:(intros repo pre next post E; apply bool_decide_eq_true_2; rewrite E; set_solver)
    (sample_registry [] "") "shop/cache") as (_ & _ & p & Hp & _ & Hk).
  exists p. split; [exact Hp|]. rewrite Hk. by rewrite decide_True by by apply (bool_decide_unpack _).
Defined.

(** * Starting up *)

(** What the process asks of its surroundings, in the order it asks. *)
Inductive Event :=
  | EScheme (name : string)
  | EManager (o : ManagerOptions)
  | EUncachedClient
  | EAdd (r : Runnable)
  | ESetup (c : Controller)
  | ECreate (c : StorageClass)
  | EPodExecuter
  | EClientset
  | EHealthz (name : string)
  | EReadyz (name : string)
  | EStart.

Section startup.
(** The answer to a request may depend on all that was asked before. *)
Context (answer : list Event → Event → result unit).
Definition ask (e : Event) : SE (list Event) unit := λ h, (answer h e, h ++ [e]).
#[local] Instance recorded_manager : ManagerApi (list Event) := {|
  add_to_scheme s := ask (EScheme s);
  new_manager o := ask (EManager o);
  new_uncached_client := ask EUncachedClient;
  mgr_add r := ask (EAdd r);
  setup_with_manager c := ask (ESetup c);
  new_pod_executer := ask EPodExecuter;
  new_clientset := ask EClientset;
  add_healthz_check s := ask (EHealthz s);
  add_readyz_check s := ask (EReadyz s);
  mgr_start := ask EStart;
|}.
#[local] Instance recorded_storage_classes : Kind (list Event) StorageClass := {|
  kget _ _ := fail (ApiError "not asked");
  klist _ _ := fail (ApiError "not asked");
  kcreate c := _ ← ask (ECreate c); mret c;
  kupdate c := fail (ApiError "not asked");
  kupdate_status c := fail (ApiError "not asked");
  kdelete c := fail (ApiError "not asked");
|}.

(** The agent goes on after an event: it succeeded, or it is one of the two whose failure
    does not end the process, the second for any reason but a panic. *)
Definition goes_on (h : list Event) (e : Event) : Prop :=
  match e, answer h e with
  | _, Ok _ => True
  | ECreate _, Err x => is_already_exists x = true
  | EAdd (RWManyProvisioner _), Err x => ∀ msg, x ≠ Panic msg
  | _, Err _ => False
  end.
Fixpoint all_go_on (h : list Event) (l : list Event) : Prop :=
  match l with
  | [] => True
  | e :: l => goes_on h e ∧ all_go_on (h ++ [e]) l
  end.

(** A program that asks for these events in this order, and stops at the first after which
    it does not go on. *)
Definition Asks {A} (m : SE (list Event) A) (l : list Event) (Q : A → Prop) : Prop := ∀ h,
  (∃ a, m h = (Ok a, h ++ l) ∧ all_go_on h l ∧ Q a) ∨
  (∃ err l1 e l2, m h = (Err err, h ++ l1 ++ [e]) ∧ l = l1 ++ e :: l2 ∧
     all_go_on h l1 ∧ ¬ goes_on (h ++ l1) e).

Lemma all_go_on_app h l1 l2 : all_go_on h (l1 ++ l2) ↔ all_go_on h l1 ∧ all_go_on (h ++ l1) l2.
Proof.
  revert h. induction l1 as [|e l1 IH]; intros h; simpl; [by rewrite app_nil_r; tauto|].
  rewrite IH, <- (assoc_L (++)). tauto.
Qed.

Lemma asks_ret {A} (a : A) (Q : A → Prop) : Q a → Asks (mret a) [] Q.
Proof. intros HQ h. left. exists a. by rewrite app_nil_r. Qed.

Lemma asks_of_result {A B} (r : result A) a (k : A → SE (list Event) B) l R :
  r = Ok a → Asks (k a) l R → Asks (a ← of_result r; k a) l R.
Proof. by intros ->. Qed.

Lemma asks_bind {A B} (m : SE (list Event) A) (k : A → SE (list Event) B) l1 l2 Q R :
  Asks m l1 Q → (∀ a, Q a → Asks (k a) l2 R) → Asks (a ← m; k a) (l1 ++ l2) R.
Proof.
  intros Hm Hk h. cbv [mbind se_bind].
  destruct (Hm h) as [(a&->&Hl&HQ)|(err&p&e&q&->&->&Hp&He)].
  - destruct (Hk a HQ (h ++ l1)) as [(b&->&Hl2&HR)|(err&p&e&q&->&->&Hp&He)].
    + left. exists b. rewrite <- (assoc_L (++)). split_and!; [done|by apply all_go_on_app|done].
    + right. exists err, (l1 ++ p), e, q. rewrite <- !(assoc_L (++)), all_go_on_app.
      split_and!; [done..|]. by rewrite (assoc_L (++)).
  - right. exists err, p, e, (q ++ l2). split_and!; [done|by rewrite <- (assoc_L (++))|done..].
Qed.

Lemma asks_or_exit {A} (m : SE (list Event) A) l Q : Asks m l Q → Asks (or_exit m) l Q.
Proof.
  intros Hm h. unfold or_exit, attempt, exit_1, fail. cbv [mbind se_bind mret se_ret].
  destruct (Hm h) as [(a&->&?&?)|(err&p&e&q&->&?&?&?)]; [left; by exists a|right].
  destruct err; by eexists _, p, e, q.
Qed.

(** A single request whose failure ends the process. *)
Lemma asks_ask e :
  (∀ h x, answer h e = Err x → ¬ goes_on h e) → Asks (ask e) [e] (λ _, True).
Proof.
  intros He h. unfold ask. destruct (answer h e) as [[]|x] eqn:E.
  - left. exists tt. split_and!; [done| |done]. simpl. unfold goes_on. by destruct e as [| | |[]| | | | | | |]; rewrite E.
  - right. exists x, [], e, []. split_and!; [done..|]. rewrite app_nil_r. by apply (He h x).
Qed.

Lemma asks_fatal e :
  match e with ECreate _ | EAdd (RWManyProvisioner _) => False | _ => True end →
  Asks (or_exit (ask e)) [e] (λ _, True).
Proof.
  intros He. apply asks_or_exit, asks_ask. intros h x E. unfold goes_on.
  destruct e as [| | |[]| | | | | | |]; rewrite E; first [by destruct He|tauto].
Qed.

Lemma asks_provisioner name :
  Asks (attempt (ask (EAdd (RWManyProvisioner name)))) [EAdd (RWManyProvisioner name)] (λ _, True).
Proof.
  intros h. unfold attempt, ask. destruct (answer h (EAdd (RWManyProvisioner name))) as [[]|x] eqn:E.
  { left. eexists. split_and!; [done| |done]. simpl. by rewrite E. }
  destruct x.
  all: first
    [ left; eexists; split_and!; [done| |done]; simpl; rewrite E; by split
    | right; eexists _, [], _, []; split_and!; [done..|]; rewrite app_nil_r; simpl; rewrite E;
      intros Hx; by eapply Hx ].
Qed.

Lemma asks_register l : Asks (register l) (EScheme <$> l) (λ _, True).
Proof.
  induction l as [|s l IH]; [by apply asks_ret|]. intros h. rewrite fmap_cons. cbn [register].
  cbv [mbind se_bind attempt of_result]. change (add_to_scheme s h) with (ask (EScheme s) h). unfold ask.
  destruct (answer h (EScheme s)) as [[]|x] eqn:E.
  - cbn [Must]. destruct (IH (h ++ [EScheme s])) as [([]&Hr&?&_)|(err&p&e&q&Hr&Hl&?&?)].
    + left. exists tt. rewrite Hr, <- (assoc_L (++)). simpl. by rewrite E.
    + right. exists err, (EScheme s :: p), e, q. rewrite Hr, Hl. simpl.
      rewrite E. rewrite <- (assoc_L (++)) in *. done.
  - right. destruct x; eexists _, [], (EScheme s), _; simpl; rewrite app_nil_r, E; split_and!; try done; tauto.
Qed.

(** What the process asks for when nothing stops it. *)
Definition startup (f : Flags) : list Event :=
  (EScheme <$> schemes) ++
  [EManager (managerOptions f); EUncachedClient; EAdd (PortVerifierRunnable NewVerifierWithDefaults);
   ESetup (StackResourceReconciler (stackResourceOpts f)); ESetup ImageBuildReconciler;
   ESetup StackReconciler; ESetup VolumeReconciler; ESetup WorkspaceUserReconciler;
   ESetup (RegistryReconciler deployedRegistry);
   ECreate (desiredStorageClass storageClassOpts);
   ESetup (NFSServerReconciler NfsServerImage); ESetup (ObjectStorageReconciler RustFSImage);
   EPodExecuter; EClientset; EAdd (RWManyProvisioner StackdomeRWManyProvisionerName);
   ESetup PostgresAddonReconciler; ESetup ClusterInfoReconciler; EHealthz "healthz"; EReadyz "readyz";
   EAdd (ErrorPageServer (errorPagesAddr f)); EStart].

Lemma asks_nfs o image :
  image ≠ "" →
  Asks (or_exit (NewNFSServerReconciler o image)) [ECreate (desiredStorageClass o)] (λ i, i = image).
Proof.
  intros Hi. apply asks_or_exit. intros h. unfold NewNFSServerReconciler.
  rewrite decide_False by done. cbv [mbind se_bind attempt kcreate recorded_storage_classes ask mret se_ret].
  simpl. destruct (answer h (ECreate (desiredStorageClass o))) as [[]|x] eqn:E.
  - left. by eexists.
  - destruct (is_already_exists x) eqn:Ex.
    + left. exists image. destruct x; try discriminate Ex; by rewrite Ex.
    + right. destruct x; eexists _, [], _, []; rewrite ?Ex; split_and!; try done;
        rewrite app_nil_r; unfold goes_on; rewrite E, Ex; done.
Qed.

(** C36. The process either sets everything up or ends.  It asks its surroundings for the ten
    schemes, the manager, the port verifier, its ten controllers with the settings the flags
    give (none of them the controller of Storages), the storage class, its clients, the
    checks and the error pages in this order, and for the manager to start after all of them
    succeeded.  At the first request that fails it ends without asking for anything else, so
    with the manager not started.  Two failures alone do not end it: a storage class that
    exists already, and the registration of the provisioner of that very class, after which
    the agent runs without one. *)
Theorem agent_startup f :
  (process f [] = (Ok tt, startup f) ∧ all_go_on [] (startup f)) ∨
  (∃ err done e rest, process f [] = (Err err, done ++ [e]) ∧ startup f = done ++ e :: rest ∧
     all_go_on [] done ∧ ¬ goes_on done e).
Proof.
  assert (Asks (process f) (startup f) (λ _, True)) as H.
  { unfold process, startup. eapply asks_bind; [apply asks_register|intros _ _].
    unfold main. repeat (first
      [ eapply (asks_bind _ _ [_]); [by apply asks_fatal|intros _ _]
      | eapply (asks_bind _ _ [_]); [by apply asks_nfs|intros ? ->]
      | eapply (asks_bind _ _ [_]); [apply asks_provisioner|intros _ _]
      | eapply (asks_of_result (NewRegistryReconciler registryBuilder)); [reflexivity|] ]).
    by apply asks_fatal. }
  destruct (H []) as [([]&E&?&_)|(err&p&e&q&E&?&?&?)]; [left|right]; eauto 10.
Qed.
End startup.
